(* ===== verification/_CoqProject ===== *)
-Q . S2P
Prelude.v
GoJson.v
Contract.v
Items.v
Database.v
Queries.v
EnvQueries.v
SessionLog.v
Turns.v
Environments.v
Reads.v
Configuration.v
Setup.v
Creation.v
Worker.v
Relations.v
Tables.v
Scenario.v
EnvScenario.v
Frames.v
Snapshots.v
Lifecycle.v
Calls.v
EventLog.v
TurnLog.v
Inputs.v
Outcomes.v
ItemFacts.v
Reservations.v
FileWrites.v
Connections.v
Runtime.v
Sessions.v
Work.v
Journal.v
Schedule.v
Recovery.v
Delivery.v
DeliveryFacts.v
Steering.v
ManagedRuntimes.v
ManagedFacts.v
Policy.v
PolicyFacts.v
Vaults.v
VaultFacts.v
Dispatch.v
DispatchFacts.v
Executors.v
ExecutorFacts.v
Artifacts.v
ArtifactFacts.v
Prepared.v
PreparedFacts.v
Uploads.v
UploadFacts.v
