(* ===== verification/Prelude.v ===== *)
(** * Verification of the Agents API execution core

    The repository is a product server, a local daemon, client programs and the
    Agents API service ([src/services/agents-api]).  This development verifies
    the core of that service: the store that owns the state of Sessions and
    their Turns, and the execution service that delivers Turns to devices.

    ** The program

    A client creates a Session, with an environment, initial files and initial
    inputs if it asks for them, and submits inputs to it.  The store ([internal/store], over the
    SQL statements of [internal/db/sqlc] and the schema of [migrations]) admits
    them in order to a Turn, which is queued, in progress, waiting for function
    results, or settled (completed, failed, cancelled).  The execution service
    ([internal/execution]) has one worker: it fails what a previous process left
    running, selects queued Turns and reserved inputs, binds Sessions to devices
    and dispatches.  A delivery sends the initial inputs to the device's daemon,
    observes the frames it sends back, writes them to the log of the Turn through
    a journal, steers further inputs into the run, exchanges function calls and
    results, passes on a cancellation, and settles the Turn.  Frames are
    projected to public Items ([internal/items]); every change is appended to the
    Session's change log, which clients read.  A Session may have an environment:
    a connection with generations and revisions, inputs that wait for it, file
    writes that exclude other work, and a runtime allocation with its lifecycle.
    A Run that needs the environment first has the engine prepared in it, admits
    the reserved inputs when it is ready, and captures the files it leaves as
    artifacts.  Tools may be MCP servers, whose bearer tokens are kept sealed in
    vaults and bound to a Session when it is created; executors of self-hosted
    environments authenticate with keys.

    ** The model

    Pure code is functions.  A store operation is a function in the transaction
    monad [tx] of Database.v, world to result and world, where the world has the
    tables, the identity counter, a clock and random draws ([Oracle]); a failed
    transaction is rolled back.  Sessions are locked for the length of a
    transaction, so operations are atomic and interleave as whole requests
    ([step], [steps] of Relations.v).  Loops over channels are transition
    relations with one handler per [select] case; a goroutine that waits for a
    reply is a field of the state that says so.  Errors are values of [error].
    [int32] positions wrap ([wrap32]); sizes are the bytes Go counts.

    The files, in the order of their dependencies:
    - Prelude.v: errors, results, lists, sorting, rows; tactics and hints.
    - GoJson.v: [encoding/json] and [jsonb] on parsed values.
    - Contract.v: the types of [contracts/agents-api/v1] and
      [internal/agentdaemon/proto] with their decoders.
    - Items.v: [internal/items].
    - Database.v, Queries.v, EnvQueries.v: the schema, the transaction monad, one
      definition per SQL statement with the constraints it can violate.
    - SessionLog.v: change log and Item projection ([session_events.go],
      [item_events.go], [item_projection.go], [token_usage.go]).
    - Turns.v: [turns.go], [turn_inputs.go], [turn_events.go],
      [turn_completion.go], [function_*.go], [session_deletion.go].
    - Environments.v: environments, connections, reserved inputs, file writes,
      devices and runtime allocations.
    - Reads.v: paged reads and scheduling queries.
    - Configuration.v, Worker.v: what the execution service reads from a
      Session's configuration, and the worker.
    - Setup.v, Creation.v: initial files, setups, skills and model providers with
      their validation; the creation of Sessions ([sessions.go],
      [session_initial_input.go], [session_creation_*.go], [session_metadata.go]).
    - Journal.v (first half), Delivery.v: the journal and the delivery.
    - Policy.v: what a configuration asks of an engine and a device ([support.go],
      [mcp.go], [internal/engine]).
    - Vaults.v: vaults, credentials, their cipher and the binding of credentials
      to Sessions ([vaults*.go], [vault_credentials*.go], [mcp_credentials.go]).
    - Executors.v: executor keys and project scopes
      ([environment_executor_credentials.go], [project_scopes.go]).
    - Artifacts.v: capture, reads and deletion of artifacts.
    - Dispatch.v, Prepared.v: Runs from the claim to the settled Turn, the second
      for Runs that wait for a prepared environment ([dispatcher.go],
      [request.go], [prepared_dispatch.go], [preparation.go], [artifacts.go]).
    - Uploads.v: the transfer of a file from the service into a workspace, by the
      gateway, the local daemon, its writer and the helper process, as a system of
      concurrent parts ([gateway/workspace_write.go], [dispatch/workspace_write.go],
      [localworkspace/write.go], [bin/write.rs]).
    - ManagedRuntimes.v: the lifecycle of managed runtimes ([runtime_*.go]), in a
      monad over the store, the lifecycle's own fields and a record of the calls
      to the sandbox provider.
    - Relations.v, Tables.v, Frames.v, Snapshots.v: the proof interfaces.  A relation on
      worlds that every statement of a layer respects is respected by every
      operation; the type classes [LogRelation], [TurnRelation], [EnvRelation],
      [CreateStatements], [StoreRelation] state the layers, and each invariant is one instance.
    - Scenario.v, EnvScenario.v: concrete services for the witnesses.

    ** The theorems

    - Lifecycle.v, Outcomes.v, Calls.v: Turns refine the state machine of
      [validTransition] under every interleaving; settled Turns and recorded
      cancellations are final; function results are; what each operation does.
    - EventLog.v, TurnLog.v: both logs are numbered without gaps, retained within
      their bounds, and appending a batch again changes nothing.
    - Inputs.v, Reservations.v: inputs are numbered in order, batches are
      idempotent, reserved inputs settle once and in time.
    - FileWrites.v, Connections.v, Runtime.v: exclusion of file writes, terminal
      environments, forward-only allocations, cleanup.
    - Sessions.v: a key names one Session for good, a creation can be repeated, a
      new Session is what was asked for; with creation among the requests every
      invariant holds in all states reached from an empty database.
    - ItemFacts.v, Work.v: Items, streamed text, pages of work.
    - Journal.v: against any writer that provides [WriterLaws] the journal logs
      every frame once and in order, whatever replies are lost; the store
      provides them.
    - Schedule.v, Recovery.v: one job per Session, sound selection, recovery at
      startup, no claim left behind.
    - DeliveryFacts.v, Steering.v: a delivery reports what happened and logs what
      it received; it refines the protocol of steering, so no message of a
      completed Turn is lost and none is sent twice unless it was refused.
    - ManagedFacts.v: whatever fails, restarts or is lost, a sandbox is created at
      most once for an environment, destroyed only when its allocation durably
      awaits cleanup, and no initialization step is carried out twice.
    - PolicyFacts.v: the checks at creation and before a claim agree; which
      credentials and capabilities they ask for.
    - VaultFacts.v: the token read for a binding is the last one stored, none can
      be read after its credential or vault is deleted, and what creation binds is
      what dispatch selects.
    - ExecutorFacts.v: exactly which secrets let an executor in, and that rotated
      and revoked ones never do again.
    - ArtifactFacts.v: a capture stores a bounded set of files or nothing.
    - UploadFacts.v: the system refines, for each file, a protocol whose invariant
      shows that the service is never told anything wrong: a file reported as
      written was installed once with the very bytes sent, one reported as refused
      never is.
    - DispatchFacts.v, PreparedFacts.v: the composition of the store, the vaults,
      the policy, the delivery and the artifacts.  A Run that completes its Turn
      has given the engine every message of it, in the prompt or acknowledged,
      whatever other clients do meanwhile; a bearer token is only ever sent for
      the server it was stored for; reserved input is admitted only when the
      device said that the engine is ready.

    ** Bounds and fuel

    Loops that are not structural take fuel that is computed from the state and
    proved to be enough: pages of environments and of Turns (one page per row:
    [reconciliation_terminates], [recovery_terminates]), batches of a flush (one
    per queued event: [flush_loop_fuel]), rounds of a selection (one per candidate).

    ** Parameters

    [UUIDs] (parsing, printing and hashing of identifiers), [Oracle] (clock and
    random identifiers), [EventSizes] (the storage size of a row of the change
    log), [CreationInputs] (SHA-256, the text of a float64, URL parsing, skill
    archives, source files, whether a cipher is configured), whether a caller holds the execution lease, which devices are ready, the
    dispatch of a claim (in Worker.v), the fate of a call to the store (in
    Journal.v), what arrives from the device (in Delivery.v), and what the
    lifecycle of runtimes meets (the class [Surroundings] of ManagedRuntimes.v).
    [URLs] (URL parsing), [AEAD] with [AEADLaws] (authenticated encryption: what
    was sealed opens with the same additional data), [Secrets] (random
    secrets and their digests), [Deployment] (live devices, operator options,
    connections to environments, decrypted model configurations, the lease) and
    [sha256_text].
    Scenario.v and the witnesses instantiate them.

    ** Not modelled

    Agents, environment templates and source files, from which a Session copies
    when it is created; the execution lease itself (advisory locks of a pinned
    connection); the bytes of artifacts and of tar streams beyond what their
    capture checks; HTTP; the rest of the gateway's WebSocket sessions; the
    adapters to concrete sandboxes; apart from file uploads the
    local daemon, the product server, the command line clients and the web front
    end, which are other programs.

    This file holds the generic lemmas, notations and tactics of the rest. *)
From stdpp Require Import base tactics list strings numbers sorting.

#[global] Open Scope Z_scope.

Declare Scope sql_scope.
Delimit Scope sql_scope with sql.

(** ** Error values *)

(** The sentinel errors of the store package, plus the errors the code builds
    with [errors.New]/[fmt.Errorf] ([ErrOther]) and those raised by the
    database itself when a constraint of the schema rejects a statement
    ([ErrConstraint]). *)
Inductive error :=
  | ErrInvalidInput
  | ErrNotFound
  | ErrTurnConflict
  | ErrIdempotencyConflict
  | ErrUnappliedInputs
  | ErrEventLimit
  | ErrStreamGap
  | ErrEnvironmentUnavailable
  | ErrDeviceBindingConflict
  | ErrNoRows
  | ErrConstraint (name : string)
  | ErrOther (msg : string).

#[global] Instance error_eq_dec : EqDecision error.
Proof. solve_decision. Defined.

Inductive result (A : Type) :=
  | Ok (a : A)
  | Err (e : error).
Arguments Ok {A} a.
Arguments Err {A} e.

#[global] Instance result_ret : MRet result := λ A a, Ok a.
#[global] Instance result_bind : MBind result := λ A B f m,
  match m with Ok a => f a | Err e => Err e end.
#[global] Instance result_fmap : FMap result := λ A B f m,
  match m with Ok a => Ok (f a) | Err e => Err e end.

Definition is_ok {A} (r : result A) : bool :=
  match r with Ok _ => true | Err _ => false end.

(** [if cond { return err }] in front of the rest of a fallible function. *)
Definition reject_if (c : bool) (e : error) : result unit :=
  if c then Err e else Ok tt.

Lemma bind_Ok {A B} (m : result A) (f : A → result B) b :
  m ≫= f = Ok b ↔ ∃ a, m = Ok a ∧ f a = Ok b.
Proof. destruct m; naive_solver. Qed.

Lemma reject_if_bind {B} c e (f : unit → result B) b :
  (reject_if c e ≫= f) = Ok b ↔ c = false ∧ f tt = Ok b.
Proof. destruct c; naive_solver. Qed.

Lemma reject_if_Ok c e u : reject_if c e = Ok u ↔ c = false.
Proof. destruct c, u; naive_solver. Qed.

(** ** Booleans *)

Notation "a =?s b" := (bool_decide (a = b)) (at level 70) : sql_scope.
#[global] Open Scope sql_scope.

Ltac bsolve :=
  repeat match goal with
  | H : _ && _ = true |- _ => apply andb_true_iff in H as [??]
  | H : _ || _ = false |- _ => apply orb_false_iff in H as [??]
  | H : negb _ = true |- _ => apply negb_true_iff in H
  | H : negb _ = false |- _ => apply negb_false_iff in H
  | H : bool_decide _ = true |- _ => apply bool_decide_eq_true_1 in H
  | H : bool_decide _ = false |- _ => apply bool_decide_eq_false_1 in H
  | H : Z.leb _ _ = true |- _ => apply Z.leb_le in H
  | H : Z.leb _ _ = false |- _ => apply Z.leb_gt in H
  | H : Z.ltb _ _ = true |- _ => apply Z.ltb_lt in H
  | H : Z.ltb _ _ = false |- _ => apply Z.ltb_ge in H
  | H : Z.eqb _ _ = true |- _ => apply Z.eqb_eq in H
  | H : Z.eqb _ _ = false |- _ => apply Z.eqb_neq in H
  end; simplify_eq.

(** [decide_literals]: decide the equations between string literals. *)
Ltac decide_literals :=
  repeat match goal with
  | |- context [bool_decide (@eq string ?a ?b)] =>
      let r := eval vm_compute in (bool_decide (@eq string a b)) in
      match r with
      | true => change (bool_decide (@eq string a b)) with true
      | false => change (bool_decide (@eq string a b)) with false
      end
  end; cbn [andb orb negb].

Ltac decide_literals_in H :=
  repeat match type of H with
  | context [bool_decide (@eq string ?a ?b)] =>
      let r := eval vm_compute in (bool_decide (@eq string a b)) in
      match r with
      | true => change (bool_decide (@eq string a b)) with true in H
      | false => change (bool_decide (@eq string a b)) with false in H
      end
  end; cbn [andb orb negb] in H.

(** ** Lists as SQL tables *)

(** [UPDATE t SET f WHERE p] on a table kept as the list of its rows. *)
Definition update_where {A} (p : A → bool) (f : A → A) (l : list A) : list A :=
  List.map (λ x, if p x then f x else x) l.

Section tables.
Context {A : Type}.
Implicit Types (p : A → bool) (f : A → A) (l : list A).

Lemma update_where_length p f l : length (update_where p f l) = length l.
Proof. apply List.length_map. Qed.

Lemma in_update_where p f l y :
  In y (update_where p f l) ↔ ∃ x, In x l ∧ y = (if p x then f x else x).
Proof. unfold update_where. rewrite in_map_iff. naive_solver. Qed.

Lemma in_update_where_miss p f l x : In x l → p x = false → In x (update_where p f l).
Proof. intros Hin Hp. apply in_update_where. exists x. by rewrite Hp. Qed.

Lemma in_update_where_hit p f l x : In x l → p x = true → In (f x) (update_where p f l).
Proof. intros Hin Hp. apply in_update_where. exists x. by rewrite Hp. Qed.

(** An update that changes neither a projection nor the rows' order. *)
Lemma update_where_map_proj {B} (g : A → B) p f l :
  (∀ x, p x = true → g (f x) = g x) →
  List.map g (update_where p f l) = List.map g l.
Proof.
  intros Hg. unfold update_where. rewrite List.map_map.
  apply List.map_ext. intros x. destruct (p x) eqn:E; auto.
Qed.

Lemma update_where_filter p q f l :
  (∀ x, p x = true → q (f x) = q x) →
  List.filter q (update_where p f l) = update_where p f (List.filter q l).
Proof.
  intros Hq. unfold update_where. induction l as [|x l IH]; [done|]. cbn.
  destruct (p x) eqn:E; [rewrite Hq by done|]; destruct (q x); cbn; by rewrite ?E, IH.
Qed.

Lemma update_where_id p f l :
  (∀ x, In x l → p x = true → f x = x) → update_where p f l = l.
Proof.
  unfold update_where. induction l as [|x l IH]; [done|]. intros Hx. cbn.
  rewrite IH by (intros; apply Hx; [by right|done]).
  destruct (p x) eqn:E; [|done]. f_equal. apply Hx; [by left|done].
Qed.

Lemma update_where_ext p q f l : (∀ x, In x l → p x = q x) → update_where p f l = update_where q f l.
Proof. intros Hx. apply map_ext_in. intros x Hin. by rewrite (Hx x Hin). Qed.

Lemma update_where_app p f l k :
  update_where p f (l ++ k) = update_where p f l ++ update_where p f k.
Proof. apply List.map_app. Qed.

Lemma find_head_filter p l : List.find p l = head (List.filter p l).
Proof. induction l as [|x l IH]; [done|]. cbn. by destruct (p x). Qed.

Lemma head_filter_Some p l x : head (List.filter p l) = Some x → In x l ∧ p x = true.
Proof.
  intros H. apply List.filter_In. destruct (List.filter p l); [done|].
  cbn in H. simplify_eq. by left.
Qed.

Lemma head_filter_None p l : head (List.filter p l) = None ↔ ∀ x, In x l → p x = false.
Proof.
  split.
  - intros H x Hin. destruct (p x) eqn:E; [|done].
    assert (In x (List.filter p l)) as Hf by (apply List.filter_In; auto).
    by destruct (List.filter p l).
  - intros H. destruct (List.filter p l) as [|x k] eqn:E; [done|].
    assert (In x (List.filter p l)) as Hf by (rewrite E; by left).
    apply List.filter_In in Hf as [Hin Hp]. rewrite H in Hp; done.
Qed.

Lemma existsb_false_iff p l : existsb p l = false ↔ ∀ x, In x l → p x = false.
Proof.
  split.
  - intros H x Hin. destruct (p x) eqn:E; [|done].
    assert (existsb p l = true) as C by (apply existsb_exists; eauto). congruence.
  - intros H. destruct (existsb p l) eqn:E; [|done].
    apply existsb_exists in E as (x & Hin & Hp). rewrite H in Hp; done.
Qed.

Lemma filter_update_where_length p q f l :
  (∀ x, p x = true → q (f x) = q x) →
  length (List.filter q (update_where p f l)) = length (List.filter q l).
Proof. intros Hq. by rewrite update_where_filter, update_where_length. Qed.

(** Rows selected after an update are images of rows selected before it,
    when the update only ever removes rows from the selection. *)
Lemma filter_update_where_le p q f l :
  (∀ x, q (f x) = true → p x = true → q x = true) →
  (length (List.filter q (update_where p f l)) ≤ length (List.filter q l))%nat.
Proof.
  intros Hq. unfold update_where. induction l as [|x l IH]; cbn; [lia|].
  destruct (p x) eqn:Ep; destruct (q x) eqn:Eq; cbn;
    try (destruct (q (f x)) eqn:Ef; cbn); try rewrite Eq; cbn; try lia.
  rewrite Hq in Eq; done.
Qed.
End tables.

Lemma filter_all {A} (l : list A) : List.filter (λ _, true) l = l.
Proof. induction l; cbn; congruence. Qed.

Lemma filter_none {A} (l : list A) : List.filter (λ _, false) l = [].
Proof. by induction l. Qed.

Lemma filter_nothing {A} (f : A → bool) l : (∀ a, In a l → f a = false) → List.filter f l = [].
Proof. induction l as [|x l IH]; [done|]. cbn. intros Hf. rewrite (Hf x) by auto. apply IH. auto. Qed.

Lemma sorted_impl {A} (R S : A → A → Prop) l :
  (∀ a b, R a b → S a b) → StronglySorted R l → StronglySorted S l.
Proof. intros Hi. induction 1; constructor; [done|]. eapply Forall_impl; [done|]. cbn. auto. Qed.

(** A predicate that, once true along a list, stays true selects a suffix. *)
Lemma filter_suffix {A} (p : A → bool) l :
  StronglySorted (λ a b, p a = true → p b = true) l →
  ∃ k, (k ≤ length l)%nat ∧ List.filter p l = drop k l ∧ List.filter (λ x, negb (p x)) l = take k l
    ∧ Forall (λ x, p x = false) (take k l).
Proof.
  induction 1 as [|a l Hl IH Ha]; [exists 0%nat; by repeat split|].
  destruct (p a) eqn:Ep.
  - exists 0%nat. cbn. rewrite Ep. cbn. split; [lia|].
    assert (Forall (λ x, p x = true) l) as Hall by (eapply Forall_impl; [done|]; cbn; auto).
    clear -Hall. split; [f_equal|split; [|constructor]]; induction Hall as [|x l Hx _ IH]; cbn; try rewrite Hx; cbn; auto.
    by f_equal.
  - destruct IH as (k & Hk & E1 & E2 & E3). exists (S k). cbn. rewrite Ep. cbn.
    split; [lia|]. split; [done|]. split; [by rewrite E2|]. by constructor.
Qed.

(** Rows are told apart by a key. *)
(** The rows a unique key selects. *)
Lemma filter_key {A B} (f : A → B) (p : A → bool) (l : list A) x :
  NoDup (f <$> l) → In x l → p x = true → (∀ y, In y l → p y = true → f y = f x) → List.filter p l = [x].
Proof.
  induction l as [|z l IH]; cbn; [done|]. intros [Hz Hl]%NoDup_cons Hx Hp Hf.
  assert (∀ y, In y l → p y = true → f y = f x) as Hf' by auto. destruct Hx as [->|Hx].
  - rewrite Hp. f_equal. destruct (List.filter p l) as [|y k] eqn:E; [done|].
    assert (In y (y :: k)) as Hy by (by left). rewrite <- E in Hy. apply List.filter_In in Hy as [Hy Hpy].
    destruct Hz. apply list_elem_of_fmap. exists y. split; [symmetry; auto|by apply list_elem_of_In].
  - destruct (p z) eqn:Ez; [|auto]. destruct Hz. apply list_elem_of_fmap. exists x.
    split; [by apply Hf; [left|]|by apply list_elem_of_In].
Qed.

Lemma nodup_key {A B} (f : A → B) (l : list A) x y :
  NoDup (f <$> l) → In x l → In y l → f x = f y → x = y.
Proof.
  induction l as [|z l IH]; cbn; [done|]. intros [Hz Hl]%NoDup_cons Hx Hy E.
  destruct Hx as [->|Hx], Hy as [->|Hy]; auto; destruct Hz; apply list_elem_of_fmap.
  - exists y. split; [done|]. by apply list_elem_of_In.
  - exists x. split; [done|]. by apply list_elem_of_In.
Qed.

(** A table whose rows stay in place and change along [E]; rows appended to it
    satisfy [N], which [E] respects. *)
Section rows_evolve.
Context {A : Type} (E : relation A) (N : A → Prop) `{!PreOrder E}.
Context (HN : ∀ x y, E x y → N x → N y).

Definition rows_evolve (l l' : list A) : Prop :=
  ∃ old new, l' = old ++ new ∧ Forall2 E l old ∧ Forall N new.

Lemma rows_evolve_refl : Reflexive rows_evolve.
Proof using Type*. intros l. exists l, []. by rewrite app_nil_r. Qed.

Lemma rows_evolve_trans : Transitive rows_evolve.
Proof using Type*.
  intros l1 l2 l3 (o1 & n1 & -> & F1 & N1) (o2 & n2 & -> & F2 & N2).
  apply Forall2_app_inv_l in F2 as (oa & ob & Fa & Fb & ->).
  exists oa, (ob ++ n2). split; [by rewrite <- app_assoc|]. split; [by etrans|].
  apply Forall_app. split; [|done]. clear -N1 Fb HN.
  induction Fb as [|t t' l l' Ht _ IH]; [done|]. inversion_clear N1. eauto.
Qed.

Lemma rows_evolve_append l x : N x → rows_evolve l (l ++ [x]).
Proof using Type*. intros. exists l, [x]. split; [done|]. split; [done|]. by apply Forall_singleton. Qed.

Lemma rows_evolve_update l p f : (∀ x, In x l → p x = true → E x (f x)) → rows_evolve l (update_where p f l).
Proof using Type*.
  intros Hf. exists (update_where p f l), []. rewrite app_nil_r. split; [done|]. split; [|done].
  induction l as [|x l IH]; cbn; constructor.
  - destruct (p x) eqn:Ep; [apply Hf; cbn; auto|reflexivity].
  - apply IH. intros. apply Hf; cbn; auto.
Qed.

(** The row that continues [x], when rows are told apart by a key. *)
Lemma rows_evolve_follow {B} (k : A → B) l l' x y :
  (∀ x y, E x y → k y = k x) → rows_evolve l l' → NoDup (k <$> l') →
  In x l → In y l' → k y = k x → E x y.
Proof using Type*.
  intros Hk (old & new & -> & HF & _) Hnd Hx Hy Hxy.
  apply list_elem_of_In, list_elem_of_lookup in Hx as [i Hi].
  destruct (Forall2_lookup_l _ _ _ _ _ HF Hi) as (u & Hu & Hev).
  assert (u = y) as ->; [|done].
  apply (nodup_key k (old ++ new)); [done| |done|].
  - apply in_app_iff. left. apply list_elem_of_In. by eapply list_elem_of_lookup_2.
  - rewrite Hxy. by apply Hk.
Qed.
End rows_evolve.

(** [ORDER BY] as a stable insertion sort on a boolean order. *)
Section sort_by.
Context {A : Type} (leb : A → A → bool).

Fixpoint insert_by (x : A) (l : list A) : list A :=
  match l with
  | [] => [x]
  | y :: l' => if leb x y then x :: l else y :: insert_by x l'
  end.

Fixpoint sort_by (l : list A) : list A :=
  match l with
  | [] => []
  | x :: l' => insert_by x (sort_by l')
  end.

Lemma insert_by_perm x l : insert_by x l ≡ₚ x :: l.
Proof.
  induction l as [|y l IH]; [done|]. cbn. destruct (leb x y); [done|].
  rewrite IH. apply Permutation_swap.
Qed.

Lemma sort_by_perm l : sort_by l ≡ₚ l.
Proof. induction l as [|x l IH]; [done|]. cbn. by rewrite insert_by_perm, IH. Qed.

Lemma in_sort_by x l : In x (sort_by l) ↔ In x l.
Proof. rewrite <- !list_elem_of_In. by rewrite sort_by_perm. Qed.

Lemma sort_by_length l : length (sort_by l) = length l.
Proof. by rewrite sort_by_perm. Qed.

(** Behind every element it does not precede. *)
Lemma insert_by_last x l : Forall (λ y, leb x y = false) l → insert_by x l = l ++ [x].
Proof. induction 1 as [|y l Hy _ IH]; cbn; [done|]. by rewrite Hy, IH. Qed.

(** Sorting a list that is in strictly opposite order reverses it. *)
Lemma sort_by_reverse l :
  StronglySorted (λ a b, leb a b = false) l → sort_by l = reverse l.
Proof.
  induction 1 as [|x l Hl IH Hx]; [done|]. rewrite reverse_cons. cbn. rewrite IH.
  apply insert_by_last. apply Forall_forall. intros y Hy.
  rewrite elem_of_reverse in Hy. by eapply Forall_forall in Hx.
Qed.

Context (leb_total : ∀ x y, leb x y = true ∨ leb y x = true)
        (leb_trans : ∀ x y z, leb x y = true → leb y z = true → leb x z = true).

Lemma insert_by_sorted x l :
  StronglySorted (λ a b, leb a b = true) l →
  StronglySorted (λ a b, leb a b = true) (insert_by x l).
Proof using Type*.
  induction 1 as [|y l Hl IH Hy]; cbn; [repeat constructor|].
  destruct (leb x y) eqn:E.
  - constructor; [by constructor|]. constructor; [done|].
    eapply Forall_impl; [done|]. cbn. eauto.
  - constructor; [done|].
    assert (leb y x = true) as Hyx by (destruct (leb_total x y); congruence).
    apply Forall_forall. intros z Hz.
    rewrite insert_by_perm in Hz. apply elem_of_cons in Hz as [->|Hz]; [done|].
    by eapply Forall_forall in Hy.
Qed.

Lemma sort_by_sorted l : StronglySorted (λ a b, leb a b = true) (sort_by l).
Proof using Type*. induction l; cbn; [constructor|by apply insert_by_sorted]. Qed.

(** A list that is already in order is left as it is. *)
Lemma sort_by_id l :
  StronglySorted (λ a b, leb a b = true) l → sort_by l = l.
Proof using Type.
  induction 1 as [|x l Hl IH Hx]; [done|]. cbn. rewrite IH.
  destruct l as [|y l]; [done|]. cbn.
  apply Forall_cons in Hx as [-> _]. done.
Qed.
End sort_by.

(** ** Strings *)

(** [strings.HasPrefix]. *)
Definition has_prefix (s prefix : string) : bool := String.prefix prefix s.

(** The bytes [unicode.IsSpace] accepts among ASCII; [strings.TrimSpace] also
    trims the non-ASCII spaces U+0085 and U+00A0 and the Unicode space
    separators, whose UTF-8 encodings are listed in [utf8_spaces]. *)
Definition ascii_space (c : Ascii.ascii) : bool :=
  match Ascii.nat_of_ascii c with
  | 9 | 10 | 11 | 12 | 13 | 32 => true
  | _ => false
  end%nat.

Definition bytes (l : list nat) : string :=
  fold_right (λ n s, String.String (Ascii.ascii_of_nat n) s) "" l.

Definition utf8_spaces : list string :=
  [bytes [194;133]; bytes [194;160]; bytes [225;154;128];
   bytes [226;128;128]; bytes [226;128;129]; bytes [226;128;130];
   bytes [226;128;131]; bytes [226;128;132]; bytes [226;128;133];
   bytes [226;128;134]; bytes [226;128;135]; bytes [226;128;136];
   bytes [226;128;137]; bytes [226;128;138]; bytes [226;128;168];
   bytes [226;128;169]; bytes [226;128;175]; bytes [226;129;159];
   bytes [227;128;128]]%nat.

Fixpoint str_drop (n : nat) (s : string) : string :=
  match n, s with
  | O, _ => s
  | S n', String.String _ s' => str_drop n' s'
  | S _, EmptyString => ""
  end.

(** Length of the space rune [s] starts with, 0 if it starts with none. *)
Definition space_width (s : string) : nat :=
  match s with
  | EmptyString => 0
  | String.String c _ =>
      if ascii_space c then 1
      else match List.find (λ u, has_prefix s u) utf8_spaces with
           | Some u => String.length u
           | None => 0
           end
  end.

Fixpoint trim_left_fuel (fuel : nat) (s : string) : string :=
  match fuel with
  | O => s
  | S fuel' => match space_width s with
               | O => s
               | w => trim_left_fuel fuel' (str_drop w s)
               end
  end.

Definition trim_left (s : string) : string := trim_left_fuel (String.length s) s.

(** Length of the longest prefix of [s] that [TrimRight] keeps: the last
    position behind a rune that is not a space. *)
Fixpoint trim_right_pos (fuel pos : nat) (keep : nat) (s : string) : nat :=
  match fuel, s with
  | S fuel', String.String _ s' =>
      match space_width s with
      | O => trim_right_pos fuel' (S pos) (S pos) s'
      | w => trim_right_pos fuel' (pos + w)%nat keep (str_drop w s)
      end
  | _, _ => keep
  end.

Definition trim_right (s : string) : string :=
  String.substring 0 (trim_right_pos (String.length s) 0 0 s) s.

(** [strings.TrimSpace]. *)
Definition TrimSpace (s : string) : string := trim_right (trim_left s).

Definition str_len (s : string) : Z := Z.of_nat (String.length s).

(** [strings.ContainsAny(s, chars)] for ASCII [chars]. *)
Fixpoint contains_any (s : string) (chars : list nat) : bool :=
  match s with
  | EmptyString => false
  | String.String c s' =>
      existsb (Nat.eqb (Ascii.nat_of_ascii c)) chars || contains_any s' chars
  end.

(** ** Ranges *)

Lemma seqZ_1 a : seqZ a 1 = [a].
Proof. rewrite seqZ_cons, seqZ_nil by lia. done. Qed.

Lemma seqZ_snoc a n : 0 ≤ n → seqZ a (n + 1) = seqZ a n ++ [a + n].
Proof. intros. by rewrite seqZ_app, seqZ_1 by lia. Qed.

(** ** Machine integers *)

Definition int64_min : Z := - 2 ^ 63.
Definition int64_max : Z := 2 ^ 63 - 1.
Definition int32_max : Z := 2 ^ 31 - 1.
Definition int32_min : Z := - 2 ^ 31.

(** Wrap-around of Go's [int32]. *)
Definition wrap32 (z : Z) : Z := (z + 2 ^ 31) mod 2 ^ 32 - 2 ^ 31.

Lemma wrap32_id z : int32_min ≤ z ≤ int32_max → wrap32 z = z.
Proof. unfold wrap32, int32_min, int32_max. intros. rewrite Z.mod_small; lia. Qed.

(** Wrap-around of Go's [int64]. *)
Definition wrap64 (z : Z) : Z := (z + 2 ^ 63) mod 2 ^ 64 - 2 ^ 63.

Create HintDb store.
