(* ===== verification/GoJson.v ===== *)
(** * GoJson

    The part of Go's [encoding/json] and of PostgreSQL's [jsonb] type that the
    execution service relies on, at the level of parsed values.

    A [json.RawMessage] is represented by what the streaming decoder reads from
    it ([raw_message]): the values in order, how the stream ends, and the byte
    length the size checks look at.  A column of type [jsonb] holds a [json]
    value normalised by [jsonb_in]. *)
From stdpp Require Import base tactics list strings numbers pretty sorting.
From S2P Require Import Prelude.

#[warnings="-register-all"]
Inductive json :=
  | JNull
  | JBool (b : bool)
  | JNum (lit : string)
  | JStr (s : string)
  | JArr (l : list json)
  | JObj (kvs : list (string * json)).

Section json_ind.
Context (P : json → Prop)
  (Hnull : P JNull) (Hbool : ∀ b, P (JBool b)) (Hnum : ∀ n, P (JNum n))
  (Hstr : ∀ s, P (JStr s))
  (Harr : ∀ l, Forall P l → P (JArr l))
  (Hobj : ∀ kvs, Forall (λ kv, P kv.2) kvs → P (JObj kvs)).

Fixpoint json_ind' (j : json) : P j :=
  match j with
  | JNull => Hnull
  | JBool b => Hbool b
  | JNum n => Hnum n
  | JStr s => Hstr s
  | JArr l => Harr l ((fix go l : Forall P l :=
      match l with [] => Forall_nil_2 _ | x :: l' => Forall_cons_2 _ _ _ (json_ind' x) (go l') end) l)
  | JObj kvs => Hobj kvs ((fix go l : Forall (λ kv, P kv.2) l :=
      match l with [] => Forall_nil_2 _ | x :: l' => Forall_cons_2 _ _ _ (json_ind' x.2) (go l') end) kvs)
  end.
End json_ind.

Fixpoint json_dec (x y : json) : {x = y} + {x ≠ y}.
Proof.
  destruct x, y; try (right; congruence).
  - by left.
  - destruct (bool_dec b b0); [left|right]; congruence.
  - destruct (String.string_dec lit lit0); [left|right]; congruence.
  - destruct (String.string_dec s s0); [left|right]; congruence.
  - destruct (List.list_eq_dec json_dec l l0); [left|right]; congruence.
  - assert (∀ a b : string * json, {a = b} + {a ≠ b}) as dec.
    { intros [k v] [k' v'].
      destruct (String.string_dec k k'); [|right; congruence].
      destruct (json_dec v v'); [left|right]; congruence. }
    destruct (List.list_eq_dec dec kvs kvs0); [left|right]; congruence.
Defined.

#[global] Instance json_eq_dec : EqDecision json := json_dec.

(** ** Objects *)

Definition obj_get (k : string) (kvs : list (string * json)) : option json :=
  snd <$> List.find (λ kv, String.eqb kv.1 k) (List.rev kvs).

(** Insertion in the key order [encoding/json] writes maps in; a repeated key
    replaces the earlier value. *)
Fixpoint obj_put (k : string) (v : json) (m : list (string * json)) : list (string * json) :=
  match m with
  | [] => [(k, v)]
  | (k', v') :: m' =>
      match String.compare k k' with
      | Lt => (k, v) :: m
      | Eq => (k, v) :: m'
      | Gt => (k', v') :: obj_put k v m'
      end
  end.

(** [json.Marshal] of the [map[string]any] tree a decoder with [UseNumber]
    builds: keys sorted bytewise, the last of several equal keys kept, number
    literals verbatim. *)
Fixpoint json_canon (j : json) : json :=
  match j with
  | JArr l => JArr (List.map json_canon l)
  | JObj kvs => JObj (List.fold_left (λ m kv, obj_put kv.1 (json_canon kv.2) m) kvs [])
  | _ => j
  end.

(** ** Marshalling, for byte lengths *)

Definition hex_digit (n : nat) : Ascii.ascii :=
  Ascii.ascii_of_nat (if (n <? 10)%nat then 48 + n else 87 + n)%nat.

Definition u_escape (n : nat) : string :=
  "\u00" +:+ String.String (hex_digit (n / 16)) (String.String (hex_digit (n mod 16)) "").

Definition quote : Ascii.ascii := Ascii.ascii_of_nat 34.

Definition escape_byte (c : Ascii.ascii) : string :=
  let n := Ascii.nat_of_ascii c in
  match n with
  | 34%nat | 92%nat => String.String (Ascii.ascii_of_nat 92) (String.String c "")
  | 8%nat => "\b"
  | 12%nat => "\f"
  | 10%nat => "\n"
  | 13%nat => "\r"
  | 9%nat => "\t"
  | _ => if (n <? 32)%nat || (n =? 60)%nat || (n =? 62)%nat || (n =? 38)%nat
         then u_escape n else String.String c ""
  end.

(** U+2028 and U+2029 are escaped as well. *)
Fixpoint escape_string (s : string) : string :=
  match s with
  | EmptyString => ""
  | String.String c s' =>
      if has_prefix s (bytes [226;128;168]%nat) then
        match s' with String.String _ (String.String _ r) => "\u2028" +:+ escape_string r | _ => "" end
      else if has_prefix s (bytes [226;128;169]%nat) then
        match s' with String.String _ (String.String _ r) => "\u2029" +:+ escape_string r | _ => "" end
      else escape_byte c +:+ escape_string s'
  end.

Definition quoted (s : string) : string :=
  String.String quote (escape_string s) +:+ String.String quote "".

Fixpoint json_marshal (j : json) : string :=
  match j with
  | JNull => "null"
  | JBool true => "true"
  | JBool false => "false"
  | JNum lit => lit
  | JStr s => quoted s
  | JArr l => "[" +:+ String.concat "," (List.map json_marshal l) +:+ "]"
  | JObj kvs => "{" +:+ String.concat "," (List.map (λ kv, quoted kv.1 +:+ ":" +:+ json_marshal kv.2) kvs) +:+ "}"
  end.

Definition json_len (j : json) : Z := str_len (json_marshal j).

(** ** Raw messages *)

Inductive stream_end := AtEOF | AtSyntaxError.

Record raw_message := RawMessage {
  raw_len : Z;
  raw_values : list json;
  raw_end : stream_end;
}.

(** The bytes of one marshalled value. *)
Definition raw_of (j : json) : raw_message := RawMessage (json_len j) [j] AtEOF.

(** [json.Unmarshal]/[json.Valid]: exactly one value. *)
Definition raw_value (r : raw_message) : option json :=
  match raw_values r, raw_end r with [j], AtEOF => Some j | _, _ => None end.

(** ** Numbers *)

Fixpoint read_digits (s : string) (acc : Z) (n : nat) : Z * nat * string :=
  match s with
  | String.String c s' =>
      let d := Z.of_nat (Ascii.nat_of_ascii c) - 48 in
      if (0 <=? d) && (d <=? 9) then read_digits s' (acc * 10 + d) (S n) else (acc, n, s)
  | EmptyString => (acc, n, s)
  end.

Record decimal := Decimal {
  dec_neg : bool;
  dec_mant : Z;          (** all digits, without the point *)
  dec_int_digits : nat;
  dec_frac_digits : nat;
  dec_exp : Z;
  dec_plain : bool;      (** neither fraction nor exponent *)
}.

Definition read_exp (s : string) : option (Z * bool) :=
  let digits s k := match read_digits s 0 0 with
    | (e, S _, EmptyString) => Some (k e, false) | _ => None end in
  match s with
  | EmptyString => Some (0, true)
  | String.String c s' =>
      match Ascii.nat_of_ascii c with
      | 101%nat | 69%nat =>
          match s' with
          | String.String sg s'' =>
              match Ascii.nat_of_ascii sg with
              | 43%nat => digits s'' id
              | 45%nat => digits s'' Z.opp
              | _ => digits s' id
              end
          | _ => None
          end
      | _ => None
      end
  end.

Definition parse_decimal (lit : string) : option decimal :=
  let '(neg, s) := match lit with
    | String.String c s' => if (Ascii.nat_of_ascii c =? 45)%nat then (true, s') else (false, lit)
    | _ => (false, lit) end in
  match read_digits s 0 0 with
  | (_, O, _) => None
  | (m, ni, s1) =>
      let '(m', nf, s2, frac) := match s1 with
        | String.String c s' =>
            if (Ascii.nat_of_ascii c =? 46)%nat
            then let '(m', nf, s2) := read_digits s' m 0 in (m', nf, s2, true)
            else (m, 0%nat, s1, false)
        | _ => (m, 0%nat, s1, false) end in
      if frac && (nf =? 0)%nat then None else
      match read_exp s2 with
      | Some (e, noexp) => Some (Decimal neg m' ni nf e (negb frac && noexp))
      | None => None
      end
  end.

(** [strconv.ParseInt(lit, 10, w)] on a JSON number literal. *)
Definition parse_int (lo hi : Z) (lit : string) : option Z :=
  match parse_decimal lit with
  | Some d => if dec_plain d then
      let z := if dec_neg d then - dec_mant d else dec_mant d in
      if (lo <=? z) && (z <=? hi) then Some z else None
    else None
  | None => None
  end.

Definition parse_int64 := parse_int int64_min int64_max.

(** Whether [strconv.ParseFloat(lit, 64)] succeeds, that is, whether the
    literal does not round to infinity. *)
Definition float64_ok (lit : string) : bool :=
  match parse_decimal lit with
  | None => false
  | Some d =>
      let e := dec_exp d - Z.of_nat (dec_frac_digits d) in
      if dec_mant d =? 0 then true
      else if 400 <? e then false
      else if e <? -400 - Z.of_nat (dec_int_digits d + dec_frac_digits d) then true
      else if 0 <=? e then dec_mant d * 10 ^ e <? 2 ^ 1024 - 2 ^ 970
      else dec_mant d <? (2 ^ 1024 - 2 ^ 970) * 10 ^ (- e)
  end.

(** ** PostgreSQL [jsonb] *)

Fixpoint zeros (n : nat) : string :=
  match n with O => "" | S n' => String.String (Ascii.ascii_of_nat 48) (zeros n') end.

(** Output of a [numeric] with mantissa [m] and [scale] fractional digits. *)
Definition numeric_text (neg : bool) (m : Z) (scale : nat) : string :=
  let ds := pretty m in
  let ds := if (String.length ds <=? scale)%nat
            then zeros (S scale - String.length ds) +:+ ds else ds in
  let k := (String.length ds - scale)%nat in
  let body := match scale with
              | O => ds
              | _ => String.substring 0 k ds +:+ "." +:+ String.substring k scale ds end in
  if neg && negb (m =? 0) then "-" +:+ body else body.

(** A number literal as [numeric] prints it, [None] when it overflows the type. *)
Definition jsonb_num (lit : string) : option string :=
  match parse_decimal lit with
  | None => None
  | Some d =>
      let scale := Z.of_nat (dec_frac_digits d) - dec_exp d in
      if (131072 <? Z.of_nat (dec_int_digits d) + dec_exp d) || (16383 <? scale) then None
      else if 0 <=? scale then Some (numeric_text (dec_neg d) (dec_mant d) (Z.to_nat scale))
      else Some (numeric_text (dec_neg d) (dec_mant d * 10 ^ (- scale)) 0)
  end.

(** [jsonb] orders keys by length, then bytewise. *)
Definition jsonb_key_compare (a b : string) : comparison :=
  match Nat.compare (String.length a) (String.length b) with
  | Eq => String.compare a b
  | c => c
  end.

Fixpoint jsonb_put (k : string) (v : json) (m : list (string * json)) : list (string * json) :=
  match m with
  | [] => [(k, v)]
  | (k', v') :: m' =>
      match jsonb_key_compare k k' with
      | Lt => (k, v) :: m
      | Eq => (k, v) :: m'
      | Gt => (k', v') :: jsonb_put k v m'
      end
  end.

Definition text_ok (s : string) : bool := negb (contains_any s [0%nat]).

(** The [jsonb] input function: [None] for what PostgreSQL rejects (a NUL
    character, a number beyond [numeric]). *)
Fixpoint jsonb_in (j : json) : option json :=
  match j with
  | JNum lit => JNum <$> jsonb_num lit
  | JStr s => if text_ok s then Some (JStr s) else None
  | JArr l => JArr <$> List.fold_right (λ x acc, x' ← jsonb_in x; l' ← acc; Some (x' :: l')) (Some []) l
  | JObj kvs =>
      JObj <$> List.fold_left (λ acc kv,
        m ← acc; v ← jsonb_in kv.2;
        if text_ok kv.1 then Some (jsonb_put kv.1 v m) else None) kvs (Some [])
  | _ => Some j
  end.

(** Trailing zeros do not matter to [numeric] equality. *)
Fixpoint strip_zeros (fuel : nat) (m : Z) (scale : Z) : Z * Z :=
  match fuel with
  | O => (m, scale)
  | S fuel' => if (0 <? scale) && (m mod 10 =? 0) then strip_zeros fuel' (m / 10) (scale - 1) else (m, scale)
  end.

Definition num_key (lit : string) : string :=
  match parse_decimal lit with
  | None => lit
  | Some d =>
      let scale := Z.of_nat (dec_frac_digits d) - dec_exp d in
      let '(m, s) := strip_zeros (Z.to_nat scale) (dec_mant d) scale in
      numeric_text (dec_neg d) m (Z.to_nat s)
  end.

Fixpoint jsonb_key (j : json) : json :=
  match j with
  | JNum lit => JNum (num_key lit)
  | JArr l => JArr (List.map jsonb_key l)
  | JObj kvs => JObj (List.map (λ kv, (kv.1, jsonb_key kv.2)) kvs)
  | _ => j
  end.

(** The [jsonb = jsonb] operator on normalised values. *)
Definition jsonb_eq (a b : json) : bool := bool_decide (jsonb_key a = jsonb_key b).

Lemma jsonb_eq_refl a : jsonb_eq a a = true.
Proof. by apply bool_decide_eq_true_2. Qed.

(** [j->>'k'] on an object, for a string member. *)
Definition jsonb_text (k : string) (j : json) : option string :=
  match j with
  | JObj kvs => match obj_get k kvs with
                | Some (JStr s) => Some s
                | Some (JNum n) => Some n
                | Some (JBool b) => Some (if b then "true" else "false")
                | Some (JArr _ | JObj _) as v => json_marshal <$> v
                | _ => None
                end
  | _ => None
  end.

(** [jsonb_set(j, '{k}', v)], which also creates a missing member. *)
Definition jsonb_set (k : string) (v : json) (j : json) : json :=
  match j with JObj kvs => JObj (jsonb_put k v kvs) | _ => j end.

(** [j->'k']. *)
Definition jsonb_field (k : string) (j : json) : option json :=
  match j with JObj kvs => obj_get k kvs | _ => None end.

(** ** Decoding into Go values

    A decoder updates the Go value it is given, as [json.Unmarshal] does:
    repeated members are decoded in order into the same variable, [null] leaves
    a non-pointer unchanged.  [None] is a decoding error. *)

Definition decoder (A : Type) := A → json → option A.

(** Member names match case-insensitively; U+017F and U+212A fold to ASCII. *)
Definition lower_ascii (c : Ascii.ascii) : Ascii.ascii :=
  let n := Ascii.nat_of_ascii c in
  if (65 <=? n)%nat && (n <=? 90)%nat then Ascii.ascii_of_nat (n + 32) else c.

Fixpoint fold_key (s : string) : string :=
  match s with
  | EmptyString => ""
  | String.String c s' =>
      if has_prefix s (bytes [197;191]%nat) then
        match s' with String.String _ r => "s" +:+ fold_key r | _ => "" end
      else if has_prefix s (bytes [226;132;170]%nat) then
        match s' with String.String _ (String.String _ r) => "k" +:+ fold_key r | _ => "" end
      else String.String (lower_ascii c) (fold_key s')
  end.

Definition key_is (name key : string) : bool := String.eqb (fold_key key) (fold_key name).

Definition dec_string : decoder string := λ cur j,
  match j with JNull => Some cur | JStr s => Some s | _ => None end.

Definition dec_bool : decoder bool := λ cur j,
  match j with JNull => Some cur | JBool b => Some b | _ => None end.

Definition dec_int (lo hi : Z) : decoder Z := λ cur j,
  match j with JNull => Some cur | JNum lit => parse_int lo hi lit | _ => None end.

Definition dec_int64 := dec_int int64_min int64_max.
Definition dec_int32 := dec_int int32_min int32_max.
Definition dec_uint64 := dec_int 0 (2 ^ 64 - 1).

(** A [float64] whose value the code never looks at. *)
Definition dec_float64 : decoder unit := λ cur j,
  match j with JNull => Some cur | JNum lit => if float64_ok lit then Some tt else None | _ => None end.

Definition dec_ptr {A} (zero : A) (d : decoder A) : decoder (option A) := λ cur j,
  match j with JNull => Some None | _ => Some <$> d (default zero cur) j end.

(** [json.RawMessage]: even [null] is kept. *)
Definition dec_raw : decoder (option json) := λ _ j, Some (Some j).

Fixpoint dec_elems {A} (zero : A) (d : decoder A) (cur : list A) (l : list json) : option (list A) :=
  match l with
  | [] => Some []
  | j :: l' =>
      x ← d (default zero (head cur)) j;
      xs ← dec_elems zero d (tail cur) l';
      Some (x :: xs)
  end.

(** A slice; [None] is the nil slice. *)
Definition dec_slice {A} (zero : A) (d : decoder A) : decoder (option (list A)) := λ cur j,
  match j with
  | JNull => Some None
  | JArr l => Some <$> dec_elems zero d (default [] cur) l
  | _ => None
  end.

(** Numbers inside an [any] decoded without [UseNumber] must fit a float64. *)
Fixpoint any_ok (j : json) : bool :=
  match j with
  | JNum lit => float64_ok lit
  | JArr l => List.forallb any_ok l
  | JObj kvs => List.forallb (λ kv, any_ok kv.2) kvs
  | _ => true
  end.

(** A [map[string]any] whose contents the code never looks at. *)
Definition dec_any_map : decoder unit := λ cur j,
  match j with
  | JNull => Some cur
  | JObj kvs => if any_ok j then Some tt else None
  | _ => None
  end.

Definition dec_struct {A} (member : A → string → json → option A) : decoder A := λ cur j,
  match j with
  | JNull => Some cur
  | JObj kvs => List.fold_left (λ acc kv, a ← acc; member a kv.1 kv.2) kvs (Some cur)
  | _ => None
  end.

(** ** Canonical objects *)

Definition member_lt (a b : string * json) : Prop := String.compare a.1 b.1 = Lt.

Lemma string_compare_refl s : String.compare s s = Eq.
Proof.
  induction s as [|c s IH]; [done|]. cbn. unfold Ascii.compare.
  by rewrite N.compare_refl.
Qed.

Lemma string_compare_gt_lt a b : String.compare a b = Gt ↔ String.compare b a = Lt.
Proof. rewrite String.compare_antisym. destruct (String.compare b a); naive_solver. Qed.

Lemma ascii_compare_lt_trans a b c :
  Ascii.compare a b = Lt → Ascii.compare b c = Lt → Ascii.compare a c = Lt.
Proof. unfold Ascii.compare. rewrite !N.compare_lt_iff. lia. Qed.

Lemma string_compare_lt_trans a b c :
  String.compare a b = Lt → String.compare b c = Lt → String.compare a c = Lt.
Proof.
  revert b c. induction a as [|x a IH]; intros [|y b] [|z c]; cbn; try done.
  destruct (Ascii.compare x y) eqn:Exy; try done;
  destruct (Ascii.compare y z) eqn:Eyz; try done; intros H1 H2.
  - apply Ascii.compare_eq_iff in Exy as ->. rewrite Eyz. eauto.
  - apply Ascii.compare_eq_iff in Exy as ->. by rewrite Eyz.
  - apply Ascii.compare_eq_iff in Eyz as ->. by rewrite Exy.
  - by rewrite (ascii_compare_lt_trans _ _ _ Exy Eyz).
Qed.

Lemma obj_put_forall (P : string → Prop) k v m :
  P k → Forall (λ kv, P kv.1) m → Forall (λ kv, P kv.1) (obj_put k v m).
Proof.
  intros Hk. induction 1 as [|[k' v'] m Hkv Hm IH]; cbn; [by repeat constructor|].
  destruct (String.compare k k'); repeat constructor; auto.
Qed.

Lemma obj_put_sorted k v m : StronglySorted member_lt m → StronglySorted member_lt (obj_put k v m).
Proof.
  induction 1 as [|[k' v'] m Hm IH Hk']; cbn; [repeat constructor|].
  destruct (String.compare k k') eqn:E.
  - apply String.compare_eq_iff in E as ->. by constructor.
  - constructor; [by constructor|]. constructor; [done|].
    eapply Forall_impl; [done|]. intros [k2 v2]. unfold member_lt; cbn.
    eauto using string_compare_lt_trans.
  - constructor; [done|]. apply (obj_put_forall (λ x, String.compare k' x = Lt)); [|done].
    by apply string_compare_gt_lt.
Qed.

Lemma obj_put_last k v m :
  Forall (λ kv, String.compare kv.1 k = Lt) m → obj_put k v m = m ++ [(k, v)].
Proof.
  induction 1 as [|[k' v'] m Hkv Hm IH]; [done|]. cbn.
  apply string_compare_gt_lt in Hkv. cbn in Hkv. rewrite Hkv. by rewrite IH.
Qed.

Lemma fold_put_sorted (f : json → json) l acc :
  StronglySorted member_lt acc →
  StronglySorted member_lt (List.fold_left (λ m kv, obj_put kv.1 (f kv.2) m) l acc).
Proof. revert acc. induction l; cbn; eauto using obj_put_sorted. Qed.

Lemma fold_put_rebuild (f : json → json) l acc :
  StronglySorted member_lt (acc ++ l) → Forall (λ kv, f kv.2 = kv.2) l →
  List.fold_left (λ m kv, obj_put kv.1 (f kv.2) m) l acc = acc ++ l.
Proof.
  revert acc. induction l as [|[k v] l IH]; intros acc Hs Hf; [by rewrite app_nil_r|]. cbn.
  apply Forall_cons in Hf as [Hv Hf]. cbn in Hv. rewrite Hv.
  assert (Forall (λ kv, String.compare kv.1 k = Lt) acc) as Hacc.
  { clear -Hs. induction acc as [|a acc IH]; [constructor|].
    apply StronglySorted_inv in Hs as [Hs Ha]. constructor; [|auto].
    rewrite Forall_app in Ha. destruct Ha as [_ Ha]. by apply Forall_cons in Ha as [? _]. }
  rewrite obj_put_last by done.
  rewrite (IH (acc ++ [(k, v)])); [by rewrite <- app_assoc| |done].
  by rewrite <- app_assoc.
Qed.

Lemma fold_put_values (f : json → json) (P : json → Prop) l acc :
  Forall (λ kv, P kv.2) acc → Forall (λ kv, P (f kv.2)) l →
  Forall (λ kv, P kv.2) (List.fold_left (λ m kv, obj_put kv.1 (f kv.2) m) l acc).
Proof.
  revert acc. induction l as [|[k v] l IH]; intros acc Ha Hl; [done|].
  apply Forall_cons in Hl as [Hv Hl]. cbn in *. apply IH; [|done].
  clear -Ha Hv. induction Ha as [|[k' v'] m Hkv Hm IHm]; cbn; [by repeat constructor|].
  destruct (String.compare k k'); repeat constructor; auto.
Qed.

(** Canonicalisation is idempotent. *)
Lemma json_canon_idem j : json_canon (json_canon j) = json_canon j.
Proof.
  induction j as [| | | |l IH|kvs IH] using json_ind'; cbn; try done.
  - f_equal. rewrite List.map_map. apply List.map_ext_in. intros x Hx.
    eapply Forall_forall in IH; [done|]. by apply list_elem_of_In.
  - f_equal. apply (fold_put_rebuild _ _ []).
    + apply fold_put_sorted. constructor.
    + apply (fold_put_values _ (λ j, json_canon j = j)); [constructor|done].
Qed.
