(* ===== verification/Contract.v ===== *)
(** * Contract

    Wire types: the public Item union of [contracts/agents-api/v1] with its
    custom decoder, and the daemon payloads of [internal/agentdaemon/proto] that
    the execution service projects into Items. *)
From stdpp Require Import base tactics list strings numbers pretty countable.
From S2P Require Import Prelude GoJson.

(** ** Identifiers

    [github.com/google/uuid] is a parameter: a UUID is its 128-bit value. *)
Class UUIDs := {
  uuid_parse : string → option N;         (** [uuid.Parse] *)
  uuid_string : N → string;               (** [UUID.String] *)
  uuid_sha1 : N → string → N;             (** [uuid.NewSHA1] *)
}.

(** Documented behaviour the code relies on: [Parse] reads back what [String]
    prints, which is never empty, it refuses the empty string, and version-5
    identifiers are never the nil UUID. *)
Class UUIDLaws `{UUIDs} := {
  uuid_parse_string : ∀ u, uuid_parse (uuid_string u) = Some u;
  uuid_string_nonempty : ∀ u, uuid_string u ≠ "";
  uuid_parse_empty : uuid_parse "" = None;
  uuid_sha1_nonzero : ∀ ns data, uuid_sha1 ns data ≠ 0%N;
}.

(** A concrete instance, used by the witnesses: binary digits for the text and
    an injective encoding of the name for the digest. *)
Module BinaryUUID.
Fixpoint pos_text (p : positive) : string :=
  match p with
  | xH => "1"
  | xO p => String.String (Ascii.ascii_of_nat 48) (pos_text p)
  | xI p => String.String (Ascii.ascii_of_nat 49) (pos_text p)
  end.

Fixpoint pos_read (s : string) : option positive :=
  match s with
  | EmptyString => None
  | String.String c EmptyString =>
      if (Ascii.nat_of_ascii c =? 49)%nat then Some xH else None
  | String.String c s' =>
      p ← pos_read s';
      Some (if (Ascii.nat_of_ascii c =? 49)%nat then xI p else xO p)
  end.

Definition text (u : N) : string := match u with N0 => "z" | Npos p => pos_text p end.
Definition read (s : string) : option N :=
  if String.eqb s "z" then Some 0%N else Npos <$> pos_read s.

Lemma pos_text_cons p : ∃ c s, pos_text p = String.String c s.
Proof. destruct p; cbn; eauto. Qed.

Lemma pos_read_text p : pos_read (pos_text p) = Some p.
Proof.
  induction p as [p IH|p IH|]; [| |done]; cbn;
    destruct (pos_text_cons p) as (c & s & E); rewrite E in *;
    cbn in IH |- *; by rewrite IH.
Qed.

Lemma read_text u : read (text u) = Some u.
Proof.
  destruct u as [|p]; [done|]. unfold read, text.
  assert (String.eqb (pos_text p) "z" = false) as ->.
  { apply String.eqb_neq. by destruct p. }
  by rewrite pos_read_text.
Qed.
End BinaryUUID.

Definition binary_uuids : UUIDs := {|
  uuid_parse := BinaryUUID.read;
  uuid_string := BinaryUUID.text;
  uuid_sha1 ns data := Npos (encode (ns, data));
|}.

Lemma binary_uuid_laws : @UUIDLaws binary_uuids.
Proof.
  split; [apply BinaryUUID.read_text | | done | done].
  intros [|[]]; done.
Qed.

(** ** Items *)

(** A Go value of static type [any]: nil, a [json.RawMessage], or a decoded
    value (string, [json.Number], map, slice, bool). *)
Inductive goany := GNil | GRaw (j : json) | GVal (j : json).

#[global] Instance goany_eq_dec : EqDecision goany.
Proof. solve_decision. Defined.

(** The JSON a value of type [any] marshals to. *)
Definition any_json (a : goany) : json :=
  match a with GNil => JNull | GRaw j => j | GVal j => j end.

Definition dec_any : decoder goany := λ _ j,
  match j with JNull => Some GNil | _ => Some (GVal (json_canon j)) end.

Record ItemContent := MkContent {
  ct_type : string;
  ct_text : option string;
  ct_image_url : string;
}.

#[global] Instance ItemContent_eq_dec : EqDecision ItemContent.
Proof. solve_decision. Defined.

Record WebSearchAction := MkAction {
  wa_type : string;
  wa_query : option string;
  wa_queries : option (list string);
  wa_url : option string;
  wa_pattern : option string;
}.

#[global] Instance WebSearchAction_eq_dec : EqDecision WebSearchAction.
Proof. solve_decision. Defined.

Record Item := MkItem {
  it_id : string;
  it_turn : string;
  it_type : string;
  it_status : string;
  it_role : string;
  it_phase : string;
  it_content : list ItemContent;
  it_command : string;
  it_cwd : option string;
  it_duration : option Z;
  it_exit : option Z;
  it_name : string;
  it_call : string;
  it_server : string;
  it_args : goany;
  it_output : goany;
  it_error : goany;
  it_action : option WebSearchAction;
}.

#[global] Instance Item_eq_dec : EqDecision Item.
Proof. solve_decision. Defined.

(** The zero value [v1.Item{}]. *)
Definition zero_item : Item :=
  MkItem "" "" "" "" "" "" [] "" None None None "" "" "" GNil GNil GNil None.

Section item_setters.
Context (i : Item).
Definition set_id x := MkItem x (it_turn i) (it_type i) (it_status i) (it_role i) (it_phase i) (it_content i) (it_command i) (it_cwd i) (it_duration i) (it_exit i) (it_name i) (it_call i) (it_server i) (it_args i) (it_output i) (it_error i) (it_action i).
Definition set_turn x := MkItem (it_id i) x (it_type i) (it_status i) (it_role i) (it_phase i) (it_content i) (it_command i) (it_cwd i) (it_duration i) (it_exit i) (it_name i) (it_call i) (it_server i) (it_args i) (it_output i) (it_error i) (it_action i).
Definition set_type x := MkItem (it_id i) (it_turn i) x (it_status i) (it_role i) (it_phase i) (it_content i) (it_command i) (it_cwd i) (it_duration i) (it_exit i) (it_name i) (it_call i) (it_server i) (it_args i) (it_output i) (it_error i) (it_action i).
Definition set_status x := MkItem (it_id i) (it_turn i) (it_type i) x (it_role i) (it_phase i) (it_content i) (it_command i) (it_cwd i) (it_duration i) (it_exit i) (it_name i) (it_call i) (it_server i) (it_args i) (it_output i) (it_error i) (it_action i).
Definition set_role x := MkItem (it_id i) (it_turn i) (it_type i) (it_status i) x (it_phase i) (it_content i) (it_command i) (it_cwd i) (it_duration i) (it_exit i) (it_name i) (it_call i) (it_server i) (it_args i) (it_output i) (it_error i) (it_action i).
Definition set_phase x := MkItem (it_id i) (it_turn i) (it_type i) (it_status i) (it_role i) x (it_content i) (it_command i) (it_cwd i) (it_duration i) (it_exit i) (it_name i) (it_call i) (it_server i) (it_args i) (it_output i) (it_error i) (it_action i).
Definition set_content x := MkItem (it_id i) (it_turn i) (it_type i) (it_status i) (it_role i) (it_phase i) x (it_command i) (it_cwd i) (it_duration i) (it_exit i) (it_name i) (it_call i) (it_server i) (it_args i) (it_output i) (it_error i) (it_action i).
Definition set_command x := MkItem (it_id i) (it_turn i) (it_type i) (it_status i) (it_role i) (it_phase i) (it_content i) x (it_cwd i) (it_duration i) (it_exit i) (it_name i) (it_call i) (it_server i) (it_args i) (it_output i) (it_error i) (it_action i).
Definition set_cwd x := MkItem (it_id i) (it_turn i) (it_type i) (it_status i) (it_role i) (it_phase i) (it_content i) (it_command i) x (it_duration i) (it_exit i) (it_name i) (it_call i) (it_server i) (it_args i) (it_output i) (it_error i) (it_action i).
Definition set_duration x := MkItem (it_id i) (it_turn i) (it_type i) (it_status i) (it_role i) (it_phase i) (it_content i) (it_command i) (it_cwd i) x (it_exit i) (it_name i) (it_call i) (it_server i) (it_args i) (it_output i) (it_error i) (it_action i).
Definition set_exit x := MkItem (it_id i) (it_turn i) (it_type i) (it_status i) (it_role i) (it_phase i) (it_content i) (it_command i) (it_cwd i) (it_duration i) x (it_name i) (it_call i) (it_server i) (it_args i) (it_output i) (it_error i) (it_action i).
Definition set_name x := MkItem (it_id i) (it_turn i) (it_type i) (it_status i) (it_role i) (it_phase i) (it_content i) (it_command i) (it_cwd i) (it_duration i) (it_exit i) x (it_call i) (it_server i) (it_args i) (it_output i) (it_error i) (it_action i).
Definition set_call x := MkItem (it_id i) (it_turn i) (it_type i) (it_status i) (it_role i) (it_phase i) (it_content i) (it_command i) (it_cwd i) (it_duration i) (it_exit i) (it_name i) x (it_server i) (it_args i) (it_output i) (it_error i) (it_action i).
Definition set_server x := MkItem (it_id i) (it_turn i) (it_type i) (it_status i) (it_role i) (it_phase i) (it_content i) (it_command i) (it_cwd i) (it_duration i) (it_exit i) (it_name i) (it_call i) x (it_args i) (it_output i) (it_error i) (it_action i).
Definition set_args x := MkItem (it_id i) (it_turn i) (it_type i) (it_status i) (it_role i) (it_phase i) (it_content i) (it_command i) (it_cwd i) (it_duration i) (it_exit i) (it_name i) (it_call i) (it_server i) x (it_output i) (it_error i) (it_action i).
Definition set_output x := MkItem (it_id i) (it_turn i) (it_type i) (it_status i) (it_role i) (it_phase i) (it_content i) (it_command i) (it_cwd i) (it_duration i) (it_exit i) (it_name i) (it_call i) (it_server i) (it_args i) x (it_error i) (it_action i).
Definition set_error x := MkItem (it_id i) (it_turn i) (it_type i) (it_status i) (it_role i) (it_phase i) (it_content i) (it_command i) (it_cwd i) (it_duration i) (it_exit i) (it_name i) (it_call i) (it_server i) (it_args i) (it_output i) x (it_action i).
Definition set_action x := MkItem (it_id i) (it_turn i) (it_type i) (it_status i) (it_role i) (it_phase i) (it_content i) (it_command i) (it_cwd i) (it_duration i) (it_exit i) (it_name i) (it_call i) (it_server i) (it_args i) (it_output i) (it_error i) x.
End item_setters.

(** *** Encoding *)

Definition int_json (z : Z) : json := JNum (pretty z).

Definition member (k : string) (j : json) : list (string * json) := [(k, j)].
Definition omit_str (k s : string) : list (string * json) :=
  if s =?s "" then [] else [(k, JStr s)].
Definition omit_nil {A} (k : string) (f : A → json) (o : option A) : list (string * json) :=
  match o with None => [] | Some x => [(k, f x)] end.
Definition omit_any (k : string) (a : goany) : list (string * json) :=
  match a with GNil => [] | _ => [(k, any_json a)] end.

Definition enc_content (c : ItemContent) : json :=
  JObj (member "type" (JStr (ct_type c)) ++ omit_nil "text" JStr (ct_text c)
        ++ omit_str "image_url" (ct_image_url c)).

Definition enc_action (a : WebSearchAction) : json :=
  JObj (member "type" (JStr (wa_type a)) ++ omit_nil "query" JStr (wa_query a)
        ++ match wa_queries a with
           | Some (_ :: _ as qs) => member "queries" (JArr (List.map JStr qs))
           | _ => [] end
        ++ omit_nil "url" JStr (wa_url a) ++ omit_nil "pattern" JStr (wa_pattern a)).

(** [json.Marshal(item)]. *)
Definition enc_item (i : Item) : json :=
  JObj (member "id" (JStr (it_id i)) ++ member "turn_id" (JStr (it_turn i))
        ++ member "type" (JStr (it_type i)) ++ member "status" (JStr (it_status i))
        ++ omit_str "role" (it_role i) ++ omit_str "phase" (it_phase i)
        ++ match it_content i with [] => [] | cs => member "content" (JArr (List.map enc_content cs)) end
        ++ omit_str "command" (it_command i) ++ omit_nil "cwd" JStr (it_cwd i)
        ++ omit_nil "duration_ms" int_json (it_duration i) ++ omit_nil "exit_code" int_json (it_exit i)
        ++ omit_str "name" (it_name i) ++ omit_str "call_id" (it_call i)
        ++ omit_str "server_label" (it_server i)
        ++ omit_any "arguments" (it_args i) ++ omit_any "output" (it_output i)
        ++ omit_any "error" (it_error i) ++ omit_nil "action" enc_action (it_action i)).

(** *** Decoding *)

Definition dec_content : decoder ItemContent := dec_struct (λ c k v,
  if key_is "type" k then s ← dec_string (ct_type c) v; Some (MkContent s (ct_text c) (ct_image_url c))
  else if key_is "text" k then s ← dec_ptr "" dec_string (ct_text c) v; Some (MkContent (ct_type c) s (ct_image_url c))
  else if key_is "image_url" k then s ← dec_string (ct_image_url c) v; Some (MkContent (ct_type c) (ct_text c) s)
  else Some c).

Definition zero_content := MkContent "" None "".

Definition dec_action : decoder WebSearchAction := dec_struct (λ a k v,
  if key_is "type" k then s ← dec_string (wa_type a) v; Some (MkAction s (wa_query a) (wa_queries a) (wa_url a) (wa_pattern a))
  else if key_is "query" k then s ← dec_ptr "" dec_string (wa_query a) v; Some (MkAction (wa_type a) s (wa_queries a) (wa_url a) (wa_pattern a))
  else if key_is "queries" k then s ← dec_slice "" dec_string (wa_queries a) v; Some (MkAction (wa_type a) (wa_query a) s (wa_url a) (wa_pattern a))
  else if key_is "url" k then s ← dec_ptr "" dec_string (wa_url a) v; Some (MkAction (wa_type a) (wa_query a) (wa_queries a) s (wa_pattern a))
  else if key_is "pattern" k then s ← dec_ptr "" dec_string (wa_pattern a) v; Some (MkAction (wa_type a) (wa_query a) (wa_queries a) (wa_url a) s)
  else Some a).

Definition zero_action := MkAction "" None None None None.

Definition dec_wire_item : decoder Item := dec_struct (λ i k v,
  if key_is "id" k then set_id i <$> dec_string (it_id i) v
  else if key_is "turn_id" k then set_turn i <$> dec_string (it_turn i) v
  else if key_is "type" k then set_type i <$> dec_string (it_type i) v
  else if key_is "status" k then set_status i <$> dec_string (it_status i) v
  else if key_is "role" k then set_role i <$> dec_string (it_role i) v
  else if key_is "phase" k then set_phase i <$> dec_string (it_phase i) v
  else if key_is "content" k then
    cs ← dec_slice zero_content dec_content (Some (it_content i)) v; Some (set_content i (default [] cs))
  else if key_is "command" k then set_command i <$> dec_string (it_command i) v
  else if key_is "cwd" k then set_cwd i <$> dec_ptr "" dec_string (it_cwd i) v
  else if key_is "duration_ms" k then set_duration i <$> dec_ptr 0 dec_int64 (it_duration i) v
  else if key_is "exit_code" k then set_exit i <$> dec_ptr 0 dec_int64 (it_exit i) v
  else if key_is "name" k then set_name i <$> dec_string (it_name i) v
  else if key_is "call_id" k then set_call i <$> dec_string (it_call i) v
  else if key_is "server_label" k then set_server i <$> dec_string (it_server i) v
  else if key_is "arguments" k then set_args i <$> dec_any (it_args i) v
  else if key_is "output" k then set_output i <$> dec_any (it_output i) v
  else if key_is "error" k then set_error i <$> dec_any (it_error i) v
  else if key_is "action" k then set_action i <$> dec_ptr zero_action dec_action (it_action i) v
  else Some i).

(** The anonymous [struct { Output, Error json.RawMessage }]. *)
Definition dec_output_fields : decoder (option json * option json) := dec_struct (λ p k v,
  if key_is "Output" k then o ← dec_raw p.1 v; Some (o, p.2)
  else if key_is "Error" k then e ← dec_raw p.2 v; Some (p.1, e)
  else Some p).

Definition null_raw (a : goany) : goany := match a with GNil => GRaw JNull | _ => a end.

Definition raw_if_nil (a : goany) (raw : option json) : goany :=
  match a, raw with GNil, Some j => GRaw j | _, _ => a end.

(** [Item.UnmarshalJSON]. *)
Definition UnmarshalItem (raw : json) : option Item :=
  value ← dec_wire_item zero_item raw;
  value ← (if it_type value =?s "function_call_output" then
             fields ← dec_output_fields (None, None) raw;
             Some (set_error (set_output value (raw_if_nil (it_output value) fields.1))
                             (raw_if_nil (it_error value) fields.2))
           else Some value);
  let value := if it_type value =?s "mcp_call"
               then set_error (set_output value (null_raw (it_output value))) (null_raw (it_error value))
               else value in
  Some (if (it_type value =?s "mcp_call") || (it_type value =?s "function_call")
        then set_args value (null_raw (it_args value)) else value).

(** ** Token usage *)

Record TokenUsage := MkUsage {
  tu_input : Z;
  tu_output : Z;
  tu_total : Z;
  tu_cached : Z;
  tu_reasoning : Z;
}.

#[global] Instance TokenUsage_eq_dec : EqDecision TokenUsage.
Proof. solve_decision. Defined.

(** ** Daemon payloads *)

Record DeltaPayload := MkDelta { dp_item : string; dp_delta : string; dp_sequence : Z }.

Definition dec_delta : decoder DeltaPayload := dec_struct (λ p k v,
  if key_is "item_id" k then s ← dec_string (dp_item p) v; Some (MkDelta s (dp_delta p) (dp_sequence p))
  else if key_is "delta" k then s ← dec_string (dp_delta p) v; Some (MkDelta (dp_item p) s (dp_sequence p))
  else if key_is "sequence" k then n ← dec_uint64 (dp_sequence p) v; Some (MkDelta (dp_item p) (dp_delta p) n)
  else Some p).

Record OutputMessagePayload := MkOutputMessage {
  om_id : string; om_status : string; om_phase : string; om_text : option string }.

Definition dec_output_message : decoder OutputMessagePayload := dec_struct (λ p k v,
  if key_is "id" k then s ← dec_string (om_id p) v; Some (MkOutputMessage s (om_status p) (om_phase p) (om_text p))
  else if key_is "status" k then s ← dec_string (om_status p) v; Some (MkOutputMessage (om_id p) s (om_phase p) (om_text p))
  else if key_is "phase" k then s ← dec_string (om_phase p) v; Some (MkOutputMessage (om_id p) (om_status p) s (om_text p))
  else if key_is "text" k then s ← dec_ptr "" dec_string (om_text p) v; Some (MkOutputMessage (om_id p) (om_status p) (om_phase p) s)
  else Some p).

Definition token_keys : list string :=
  ["input_tokens"; "cached_input_tokens"; "output_tokens"; "reasoning_output_tokens"; "total_tokens"].

(** [proto.TokenUsage.UnmarshalJSON]; only its success matters here. *)
Definition dec_token_usage : decoder unit := λ _ j,
  match j with
  | JObj kvs =>
      if List.forallb (λ k, match obj_get k kvs with
                            | Some v => match dec_ptr 0 dec_int64 None v with
                                        | Some (Some n) => 0 <=? n | _ => false end
                            | None => false end) token_keys
      then _ ← dec_struct (λ (n : unit) k v,
                 if existsb (λ name, key_is name k) token_keys
                 then _ ← dec_int64 0 v; Some tt else Some tt) tt j;
           Some tt
      else None
  | _ => None
  end.

Definition dec_usage : decoder unit := dec_struct (λ u k v,
  if key_is "tokens" k then _ ← dec_ptr tt dec_token_usage None v; Some tt
  else if key_is "provider" k then _ ← dec_string "" v; Some tt
  else if key_is "model" k then _ ← dec_string "" v; Some tt
  else if key_is "input_tokens" k then _ ← dec_int32 0 v; Some tt
  else if key_is "output_tokens" k then _ ← dec_int32 0 v; Some tt
  else if key_is "cost_usd" k then dec_float64 u v
  else if key_is "raw" k then dec_any_map u v
  else Some u).

(** [proto.DonePayload]: of its fields the projection reads [Content] only, but
    a type error in any of them fails the decoding. *)
Record DonePayload := MkDone { done_content : string }.

Definition dec_done : decoder DonePayload := dec_struct (λ p k v,
  if key_is "content" k then s ← dec_string (done_content p) v; Some (MkDone s)
  else if key_is "transcript" k then _ ← dec_string "" v; Some p
  else if key_is "usage" k then _ ← dec_usage tt v; Some p
  else if key_is "metadata" k then _ ← dec_any_map tt v; Some p
  else Some p).

Record FunctionResultContent := MkResultContent {
  frc_type : string; frc_text : option string; frc_image : option string }.

Definition dec_result_content : decoder FunctionResultContent := dec_struct (λ p k v,
  if key_is "type" k then s ← dec_string (frc_type p) v; Some (MkResultContent s (frc_text p) (frc_image p))
  else if key_is "text" k then s ← dec_ptr "" dec_string (frc_text p) v; Some (MkResultContent (frc_type p) s (frc_image p))
  else if key_is "image_url" k then s ← dec_ptr "" dec_string (frc_image p) v; Some (MkResultContent (frc_type p) (frc_text p) s)
  else Some p).

(** [FunctionResultPayload.ValidateContent]; the nil slice is [None]. *)
Definition ValidateContent (content : option (list FunctionResultContent)) : bool :=
  match content with
  | None => false
  | Some parts => List.forallb (λ part,
      if frc_type part =?s "input_text" then bool_decide (is_Some (frc_text part)) && bool_decide (frc_image part = None)
      else if frc_type part =?s "input_image" then bool_decide (is_Some (frc_image part)) && bool_decide (frc_text part = None)
      else false) parts
  end.

Record ToolObservation := MkObservation {
  ob_kind : string; ob_status : string; ob_name : string; ob_command : string;
  ob_cwd : option string; ob_exit : option Z; ob_duration : option Z; ob_server : string;
  ob_args : option json; ob_output : option json; ob_error : option json;
  ob_content : option (option (list FunctionResultContent));
  ob_action : option WebSearchAction;
}.

Definition zero_observation : ToolObservation :=
  MkObservation "" "" "" "" None None None "" None None None None None.

Definition dec_observation : decoder ToolObservation := dec_struct (λ o k v,
  let '(MkObservation kind status name command cwd exit duration server args output err content action) := o in
  if key_is "kind" k then s ← dec_string kind v; Some (MkObservation s status name command cwd exit duration server args output err content action)
  else if key_is "status" k then s ← dec_string status v; Some (MkObservation kind s name command cwd exit duration server args output err content action)
  else if key_is "name" k then s ← dec_string name v; Some (MkObservation kind status s command cwd exit duration server args output err content action)
  else if key_is "command" k then s ← dec_string command v; Some (MkObservation kind status name s cwd exit duration server args output err content action)
  else if key_is "cwd" k then s ← dec_ptr "" dec_string cwd v; Some (MkObservation kind status name command s exit duration server args output err content action)
  else if key_is "exit_code" k then n ← dec_ptr 0 dec_int64 exit v; Some (MkObservation kind status name command cwd n duration server args output err content action)
  else if key_is "duration_ms" k then n ← dec_ptr 0 dec_int64 duration v; Some (MkObservation kind status name command cwd exit n server args output err content action)
  else if key_is "server" k then s ← dec_string server v; Some (MkObservation kind status name command cwd exit duration s args output err content action)
  else if key_is "arguments" k then r ← dec_raw args v; Some (MkObservation kind status name command cwd exit duration server r output err content action)
  else if key_is "output" k then r ← dec_raw output v; Some (MkObservation kind status name command cwd exit duration server args r err content action)
  else if key_is "error" k then r ← dec_raw err v; Some (MkObservation kind status name command cwd exit duration server args output r content action)
  else if key_is "content" k then
    c ← dec_ptr None (dec_slice (MkResultContent "" None None) dec_result_content) content v;
    Some (MkObservation kind status name command cwd exit duration server args output err c action)
  else if key_is "action" k then a ← dec_ptr zero_action dec_action action v; Some (MkObservation kind status name command cwd exit duration server args output err content a)
  else Some o).
