(* ===== verification/Items.v ===== *)
(** * Items

    Model of [services/agents-api/internal/items]: the projection of execution
    observations to public Items, and the merge of an update into the stored
    Item.  State is the Item itself; both functions are pure. *)
From stdpp Require Import base tactics list strings numbers pretty.
From S2P Require Import Prelude GoJson Contract.

Section items.
Context `{UUIDs}.

(** [Update]: a projected Item and how it combines with the stored one. *)
Record Update := MkUpdate {
  up_item : Item;
  up_append : bool;
  up_command_delta : option string;
  up_legacy : bool;
}.

Definition plain_update (i : Item) : Update := MkUpdate i false None false.

(** [Identity]; [uuid.MustParse] panics on a malformed Turn id, which callers
    never pass, since they print the id from its 16 bytes. *)
Definition Identity (turn key : string) : string :=
  match uuid_parse turn with
  | Some ns => uuid_string (uuid_sha1 ns key)
  | None => ""
  end.

Definition message (turn key role text status : string) : Item :=
  let contentType := if role =?s "user" then "input_text" else "output_text" in
  MkItem (Identity turn key) turn "message" status role "" [MkContent contentType (Some text) ""]
         "" None None None "" "" "" GNil GNil GNil None.

(** ** Input messages *)

Record InputEntry := MkInputEntry { ie_role : string; ie_content : option (list ItemContent) }.
Record InputBody := MkInputBody { ib_text : option string; ib_input : option (list InputEntry) }.

Definition dec_input_entry : decoder InputEntry := dec_struct (λ p k v,
  if key_is "role" k then s ← dec_string (ie_role p) v; Some (MkInputEntry s (ie_content p))
  else if key_is "content" k then c ← dec_slice zero_content dec_content (ie_content p) v; Some (MkInputEntry (ie_role p) c)
  else Some p).

Definition dec_input_body : decoder InputBody := dec_struct (λ p k v,
  if key_is "text" k then s ← dec_ptr "" dec_string (ib_text p) v; Some (MkInputBody s (ib_input p))
  else if key_is "input" k then l ← dec_slice (MkInputEntry "" None) dec_input_entry (ib_input p) v; Some (MkInputBody (ib_text p) l)
  else Some p).

Definition valid_input_content (c : ItemContent) : bool :=
  ((ct_type c =?s "input_text") && bool_decide (is_Some (ct_text c)))
  || ((ct_type c =?s "input_image") && negb (ct_image_url c =?s "")).

Fixpoint input_entries (turn key : string) (i : nat) (l : list InputEntry) : list Update :=
  match l with
  | [] => []
  | e :: l' =>
      let content := default [] (ie_content e) in
      let rest := input_entries turn key (S i) l' in
      if negb (ie_role e =?s "user") || bool_decide (content = []) then rest
      else if List.forallb valid_input_content content then
        plain_update (MkItem (Identity turn (key +:+ ":" +:+ pretty (N.of_nat i))) turn "message" "completed"
          "user" "" content "" None None None "" "" "" GNil GNil GNil None) :: rest
      else rest
  end.

Definition inputMessages (turn : string) (sequence : Z) (raw : json) : list Update :=
  match dec_input_body (MkInputBody None None) raw with
  | None => []
  | Some p =>
      let key := "input:" +:+ pretty sequence in
      match ib_text p with
      | Some text => [plain_update (message turn key "user" text "completed")]
      | None => input_entries turn key 0 (default [] (ib_input p))
      end
  end.

(** ** Tool observations *)

Definition nullable (raw : option json) : goany := GRaw (default JNull raw).

Record ToolBody := MkToolBody { tb_id : string; tb_stage : string; tb_observation : option ToolObservation }.

Definition dec_tool_body : decoder ToolBody := dec_struct (λ p k v,
  if key_is "id" k then s ← dec_string (tb_id p) v; Some (MkToolBody s (tb_stage p) (tb_observation p))
  else if key_is "stage" k then s ← dec_string (tb_stage p) v; Some (MkToolBody (tb_id p) s (tb_observation p))
  else if key_is "observation" k then
    o ← dec_ptr zero_observation dec_observation (tb_observation p) v; Some (MkToolBody (tb_id p) (tb_stage p) o)
  else Some p).

Definition result_content (part : FunctionResultContent) : ItemContent :=
  MkContent (frc_type part) (frc_text part) (default "" (frc_image part)).

Definition decode_or {A} (o : option A) : result A :=
  match o with Some a => Ok a | None => Err (ErrOther "json") end.

Definition tool_status_ok (s : string) : bool :=
  (s =?s "in_progress") || (s =?s "completed") || (s =?s "failed") || (s =?s "incomplete").

Definition projectTool (turn : string) (raw : json) : result (list Update) :=
  p ← decode_or (dec_tool_body (MkToolBody "" "" None) raw);
  match tb_observation p with
  | None => Err (ErrOther "invalid tool observation")
  | Some n =>
    _ ← reject_if ((tb_id p =?s "") || negb ((tb_stage p =?s "before") || (tb_stage p =?s "after")))
          (ErrOther "invalid tool observation");
    _ ← reject_if (negb (tool_status_ok (ob_status n))) (ErrOther "invalid tool status");
    _ ← reject_if (negb (Bool.eqb (tb_stage p =?s "before") (ob_status n =?s "in_progress")))
          (ErrOther "inconsistent tool stage and status");
    let item := set_status (set_turn (set_id zero_item (Identity turn ("tool:" +:+ tb_id p))) turn) (ob_status n) in
    if ob_kind n =?s "command" then
      _ ← reject_if (ob_command n =?s "") (ErrOther "missing command");
      output ← match ob_output n with
               | None | Some JNull => Ok GNil
               | Some j => _ ← decode_or (dec_string "" j); Ok (GRaw j)
               end;
      let item := set_cwd (set_command (set_type (set_output item output) "command_execution") (ob_command n)) (ob_cwd n) in
      Ok [plain_update (set_duration (set_exit item (ob_exit n)) (ob_duration n))]
    else if ob_kind n =?s "mcp" then
      _ ← reject_if ((ob_server n =?s "") || (ob_name n =?s "")) (ErrOther "missing MCP identity");
      let item := set_name (set_server (set_type item "mcp_call") (ob_server n)) (ob_name n) in
      Ok [plain_update (set_error (set_output (set_args item (nullable (ob_args n)))
            (nullable (ob_output n))) (nullable (ob_error n)))]
    else if ob_kind n =?s "function" then
      _ ← reject_if (ob_name n =?s "") (ErrOther "missing function identity");
      let item := set_call (set_name (set_type item "function_call") (ob_name n)) (it_id item) in
      let item := set_args item (nullable (ob_args n)) in
      let updates := [plain_update item] in
      match ob_content n with
      | Some content =>
          if tb_stage p =?s "after" then
            _ ← reject_if (negb (ValidateContent content)) (ErrOther "function result requires text or image content");
            let parts := List.map (λ part, enc_content (result_content part)) (default [] content) in
            Ok (updates ++ [plain_update
              (MkItem (Identity turn ("result:" +:+ tb_id p)) turn "function_call_output" (it_status item) "" "" []
                 "" None None None "" (it_id item) "" GNil (GRaw (JArr parts)) GNil None)])
          else Ok updates
      | None => Ok updates
      end
    else if ob_kind n =?s "web_search" then
      let item := set_type item "web_search_call" in
      let item := if it_status item =?s "failed" then set_status item "incomplete" else item in
      match ob_action n with
      | None => Ok [plain_update item]
      | Some a =>
          _ ← reject_if (negb ((wa_type a =?s "search") || (wa_type a =?s "open_page")
                               || (wa_type a =?s "find_in_page") || (wa_type a =?s "other")))
                (ErrOther "unsupported web action");
          Ok [plain_update (set_action item (Some a))]
      end
    else Err (ErrOther "unsupported tool observation")
  end.

(** ** Command output *)

Record CommandOutputPayload := MkCommandOutput { co_id : string; co_delta : string }.

Definition dec_command_output : decoder CommandOutputPayload := dec_struct (λ p k v,
  if key_is "id" k then s ← dec_string (co_id p) v; Some (MkCommandOutput s (co_delta p))
  else if key_is "delta" k then s ← dec_string (co_delta p) v; Some (MkCommandOutput (co_id p) s)
  else Some p).

Definition projectCommandOutput (turn : string) (raw : json) : result (list Update) :=
  p ← decode_or (dec_command_output (MkCommandOutput "" "") raw);
  _ ← reject_if ((co_id p =?s "") || (co_delta p =?s "")) (ErrOther "invalid command output observation");
  Ok [MkUpdate (set_type (set_turn (set_id zero_item (Identity turn ("tool:" +:+ co_id p))) turn) "command_execution")
        false (Some (co_delta p)) false].

(** ** Project *)

Record FinalBody := MkFinal { fb_applied : bool; fb_outcome : option DonePayload; fb_done : option DonePayload }.

Definition dec_final : decoder FinalBody := dec_struct (λ p k v,
  if key_is "applied" k then b ← dec_bool (fb_applied p) v; Some (MkFinal b (fb_outcome p) (fb_done p))
  else if key_is "outcome" k then d ← dec_ptr (MkDone "") dec_done (fb_outcome p) v; Some (MkFinal (fb_applied p) d (fb_done p))
  else if key_is "done" k then d ← dec_ptr (MkDone "") dec_done (fb_done p) v; Some (MkFinal (fb_applied p) (fb_outcome p) d)
  else Some p).

Definition projectFinal (turn kind : string) (raw : json) : result (list Update) :=
  p ← decode_or (dec_final (MkFinal false None None) raw);
  if (kind =?s "cancel_receipt") && negb (fb_applied p) then Ok []
  else
    let final := if kind =?s "cancel_receipt" then fb_outcome p else fb_done p in
    match final with
    | None => Ok []
    | Some d =>
        if done_content d =?s "" then Ok []
        else
          let status := if kind =?s "execution_completed" then "completed" else "incomplete" in
          Ok [MkUpdate (message turn "legacy-message" "assistant" (done_content d) status) false None true]
    end.

Definition Project (turn kind : string) (sequence : Z) (raw : json) : result (list Update) :=
  if kind =?s "message" then Ok (inputMessages turn sequence raw)
  else if kind =?s "delta" then
    p ← decode_or (dec_delta (MkDelta "" "" 0) raw);
    let key := if dp_item p =?s "" then "legacy-message" else "message:" +:+ dp_item p in
    Ok [MkUpdate (message turn key "assistant" (dp_delta p) "in_progress") true None false]
  else if kind =?s "output_message" then
    p ← decode_or (dec_output_message (MkOutputMessage "" "" "" None) raw);
    _ ← reject_if ((om_id p =?s "") || negb ((om_status p =?s "in_progress") || (om_status p =?s "completed")))
          (ErrOther "invalid message observation");
    let item := message turn ("message:" +:+ om_id p) "assistant" (default "" (om_text p)) (om_status p) in
    let item := if (om_phase p =?s "commentary") || (om_phase p =?s "final_answer")
                then set_phase item (om_phase p) else item in
    Ok [MkUpdate item (bool_decide (om_text p = None)) None false]
  else if (kind =?s "done") || (kind =?s "execution_failed") then Ok []
  else if (kind =?s "cancel_receipt") || (kind =?s "execution_completed") || (kind =?s "execution_cancelled")
  then projectFinal turn kind raw
  else if kind =?s "tool_call" then projectTool turn raw
  else if kind =?s "command_output" then projectCommandOutput turn raw
  else Ok [].

(** ** Merge *)

Definition mergeCommandOutput (update : Update) (delta : string) (previous : Item) : result Item :=
  _ ← reject_if (negb (it_id previous =?s it_id (up_item update)) || negb (it_turn previous =?s it_turn (up_item update))
                 || negb (it_type previous =?s "command_execution"))
        (ErrOther "command output requires its existing command");
  if negb (it_status previous =?s "in_progress") then Ok previous
  else
    output ← match it_output previous with
             | GNil => Ok ""
             | a => decode_or (dec_string "" (any_json a))
             end;
    Ok (set_output previous (GVal (JStr (output +:+ delta)))).

(** [*previous.Content[0].Text + *item.Content[0].Text]; a nil dereference
    panics in the source. *)
Definition append_text (previous item : Item) : result (list ItemContent) :=
  match it_content previous, it_content item with
  | MkContent _ (Some old) _ :: _, MkContent t (Some new) img :: rest =>
      Ok (MkContent t (Some (old +:+ new)) img :: rest)
  | _, _ => Err (ErrOther "nil dereference")
  end.

Definition Merge (update : Update) (previous : Item) : result Item :=
  match up_command_delta update with
  | Some delta => mergeCommandOutput update delta previous
  | None =>
    let item := up_item update in
    if it_id previous =?s "" then Ok item
    else if negb (it_status previous =?s "in_progress")
            && negb (up_legacy update && (it_status previous =?s "incomplete")) then Ok previous
    else
      let item := if (it_type item =?s "function_call") && bool_decide (any_json (it_args item) = JNull)
                  then set_args item (it_args previous) else item in
      let item := if (it_type item =?s "command_execution") && bool_decide (it_output item = GNil)
                  then set_output item (it_output previous) else item in
      if up_append update then
        if negb (it_status previous =?s "in_progress") then Ok previous
        else
          content ← append_text previous item;
          let item := set_content item content in
          Ok (if it_phase item =?s "" then set_phase item (it_phase previous) else item)
      else Ok item
  end.

End items.
