(* ===== verification/Database.v ===== *)
(** * Database

    The PostgreSQL schema of the execution service ([services/agents-api/
    migrations]) as a record of tables, and the transaction monad the store's
    operations run in.

    A table is the list of its rows in insertion order.  [clock_timestamp()] and
    [uuid.New()] read an [Oracle]; identity columns draw from a counter that a
    rollback does not reset, as in PostgreSQL. *)
From stdpp Require Import base tactics list strings numbers.
From S2P Require Import Prelude GoJson Contract.

(** ** Rows *)

Record session_row := MkSession {
  s_id : N; s_tenant : N; s_engine : string; s_metadata : json;
  s_key : string; s_request_hash : string; s_created : Z; s_config : json;
  s_event_seq : Z; s_creation_hash : option string; s_deleted : option Z;
  s_creator : option (string * string);
}.

Record turn_row := MkTurnRow {
  t_id : N; t_session : N; t_status : string; t_created : Z;
  t_started : option Z; t_completed : option Z; t_cancel : option Z;
  t_outcome : json; t_event_count : Z; t_event_bytes : Z;
  t_usage : option TokenUsage; t_capture : bool;
}.

Record input_row := MkInputRow {
  in_seq : Z; in_session : N; in_turn : option N; in_key : string;
  in_kind : string; in_payload : json; in_created : Z; in_pos : Z;
}.

Record tevent_row := MkTurnEvent {
  te_session : N; te_turn : N; te_ordinal : Z; te_kind : string;
  te_payload : json; te_created : Z;
}.

Record call_row := MkCall {
  fc_session : N; fc_turn : N; fc_call : string; fc_executor : string;
  fc_name : string; fc_args : json; fc_result : option json; fc_applied : bool;
  fc_created : Z;
}.

Record item_row := MkItemRow {
  si_id : N; si_session : N; si_turn : N; si_created : Z; si_position : Z;
  si_payload : json; si_output : option Z;
}.

Record device_row := MkDevice {
  d_id : N; d_tenant : N; d_name : string; d_hash : string; d_created : Z;
  d_seen : option Z; d_revoked : option Z; d_environment : option N;
}.

Record binding_row := MkBinding { b_session : N; b_device : N; b_native : string }.

Record env_row := MkEnvironment { e_id : N; e_session : N; e_status : string; e_created : Z }.

Record conn_row := MkConnection { cn_env : N; cn_gen : N; cn_rev : Z }.

Record res_row := MkReservation {
  r_id : N; r_session : N; r_key : string; r_batch : json; r_state : string;
  r_created : Z; r_deadline : Z; r_settled : option Z; r_initial : bool;
}.

Record write_row := MkWrite {
  w_id : N; w_env : N; w_device : N; w_sha : string; w_state : string;
  w_created : Z; w_settled : option Z;
}.

Record alloc_row := MkAlloc {
  al_id : N; al_env : N; al_device : N; al_provider : N; al_state : string;
  al_settled : bool; al_created : Z; al_kept : Z; al_released : option Z;
  al_init : string;
}.

Record artifact_row := MkArtifact {
  ar_id : N; ar_session : N; ar_turn : N; ar_env : N; ar_path : string;
  ar_size : Z; ar_oid : N; ar_sha : string; ar_created : option Z;
}.

Record subagent_row := MkSubagent {
  sa_id : N; sa_session : N; sa_device : N; sa_engine : string; sa_native : string;
  sa_parent : string; sa_native_created : Z; sa_turn : N; sa_ordinal : Z;
}.

(** ** Session change log *)

(** [store.Turn], the snapshot a change carries; [None] is a zero time. *)
Record Turn := MkTurn {
  tn_id : string; tn_session : string; tn_status : string; tn_created : Z;
  tn_started : option Z; tn_completed : option Z; tn_cancel : option Z;
  tn_usage : option TokenUsage; tn_outcome : option json; tn_capture : bool;
}.

Record StreamError := MkStreamError { ste_code : string; ste_type : string; ste_message : string }.

Record EnvironmentState := MkEnvState {
  es_id : string; es_type : string; es_status : string; es_error : option StreamError }.

(** [v1.SessionEvent]; the store never fills its Session, Turn and Error members. *)
Record SessionEvent := MkEvent {
  ev_type : string; ev_id : string; ev_session : string; ev_turn : string;
  ev_item : option Item; ev_item_id : string; ev_output_index : option Z;
  ev_content_index : option Z; ev_part : option ItemContent;
  ev_delta : option string; ev_text : option string;
  ev_environment : option EnvironmentState;
}.

Definition zero_event : SessionEvent :=
  MkEvent "" "" "" "" None "" None None None None None None.

Record FunctionCallAction := MkFunctionAction {
  fa_type : string; fa_call : string; fa_name : string; fa_turn : string; fa_args : json }.

Record EnvironmentInputActivity := MkActivity {
  ac_status : string; ac_environment : string; ac_failure : string; ac_last : Z }.

#[global] Instance Activity_eq_dec : EqDecision EnvironmentInputActivity.
Proof. solve_decision. Defined.

Record SessionChange := MkChange {
  sc_sequence : Z; sc_event : SessionEvent; sc_turn : option Turn;
  sc_usage : option TokenUsage; sc_actions : list FunctionCallAction;
  sc_activity : option EnvironmentInputActivity;
}.

Record sevent_row := MkSessionEvent { se_session : N; se_seq : Z; se_change : SessionChange }.

(** ** The database *)

(** A stored initial file, without its sealed contents. *)
Record file_row := MkFile { fl_id : N; fl_session : N; fl_position : Z; fl_path : string; fl_size : Z }.

Record db := MkDB {
  sessions : list session_row;
  turns : list turn_row;
  turn_inputs : list input_row;
  turn_events : list tevent_row;
  function_calls : list call_row;
  session_items : list item_row;
  session_events : list sevent_row;
  devices : list device_row;
  session_devices : list binding_row;
  environments : list env_row;
  environment_connections : list conn_row;
  reservations : list res_row;
  file_writes : list write_row;
  allocations : list alloc_row;
  artifacts : list artifact_row;
  subagents : list subagent_row;
  initial_files : list file_row;
  setups : list N;            (** Sessions with a row in environment_setups *)
  model_executions : list N;  (** Sessions with a row in session_model_execution *)
  large_objects : list N;
}.

Definition empty_db : db := MkDB [] [] [] [] [] [] [] [] [] [] [] [] [] [] [] [] [] [] [] [].

Section db_setters.
Context (d : db).
Definition with_sessions x := MkDB x (turns d) (turn_inputs d) (turn_events d) (function_calls d) (session_items d) (session_events d) (devices d) (session_devices d) (environments d) (environment_connections d) (reservations d) (file_writes d) (allocations d) (artifacts d) (subagents d) (initial_files d) (setups d) (model_executions d) (large_objects d).
Definition with_turns x := MkDB (sessions d) x (turn_inputs d) (turn_events d) (function_calls d) (session_items d) (session_events d) (devices d) (session_devices d) (environments d) (environment_connections d) (reservations d) (file_writes d) (allocations d) (artifacts d) (subagents d) (initial_files d) (setups d) (model_executions d) (large_objects d).
Definition with_turn_inputs x := MkDB (sessions d) (turns d) x (turn_events d) (function_calls d) (session_items d) (session_events d) (devices d) (session_devices d) (environments d) (environment_connections d) (reservations d) (file_writes d) (allocations d) (artifacts d) (subagents d) (initial_files d) (setups d) (model_executions d) (large_objects d).
Definition with_turn_events x := MkDB (sessions d) (turns d) (turn_inputs d) x (function_calls d) (session_items d) (session_events d) (devices d) (session_devices d) (environments d) (environment_connections d) (reservations d) (file_writes d) (allocations d) (artifacts d) (subagents d) (initial_files d) (setups d) (model_executions d) (large_objects d).
Definition with_function_calls x := MkDB (sessions d) (turns d) (turn_inputs d) (turn_events d) x (session_items d) (session_events d) (devices d) (session_devices d) (environments d) (environment_connections d) (reservations d) (file_writes d) (allocations d) (artifacts d) (subagents d) (initial_files d) (setups d) (model_executions d) (large_objects d).
Definition with_session_items x := MkDB (sessions d) (turns d) (turn_inputs d) (turn_events d) (function_calls d) x (session_events d) (devices d) (session_devices d) (environments d) (environment_connections d) (reservations d) (file_writes d) (allocations d) (artifacts d) (subagents d) (initial_files d) (setups d) (model_executions d) (large_objects d).
Definition with_session_events x := MkDB (sessions d) (turns d) (turn_inputs d) (turn_events d) (function_calls d) (session_items d) x (devices d) (session_devices d) (environments d) (environment_connections d) (reservations d) (file_writes d) (allocations d) (artifacts d) (subagents d) (initial_files d) (setups d) (model_executions d) (large_objects d).
Definition with_devices x := MkDB (sessions d) (turns d) (turn_inputs d) (turn_events d) (function_calls d) (session_items d) (session_events d) x (session_devices d) (environments d) (environment_connections d) (reservations d) (file_writes d) (allocations d) (artifacts d) (subagents d) (initial_files d) (setups d) (model_executions d) (large_objects d).
Definition with_session_devices x := MkDB (sessions d) (turns d) (turn_inputs d) (turn_events d) (function_calls d) (session_items d) (session_events d) (devices d) x (environments d) (environment_connections d) (reservations d) (file_writes d) (allocations d) (artifacts d) (subagents d) (initial_files d) (setups d) (model_executions d) (large_objects d).
Definition with_environments x := MkDB (sessions d) (turns d) (turn_inputs d) (turn_events d) (function_calls d) (session_items d) (session_events d) (devices d) (session_devices d) x (environment_connections d) (reservations d) (file_writes d) (allocations d) (artifacts d) (subagents d) (initial_files d) (setups d) (model_executions d) (large_objects d).
Definition with_environment_connections x := MkDB (sessions d) (turns d) (turn_inputs d) (turn_events d) (function_calls d) (session_items d) (session_events d) (devices d) (session_devices d) (environments d) x (reservations d) (file_writes d) (allocations d) (artifacts d) (subagents d) (initial_files d) (setups d) (model_executions d) (large_objects d).
Definition with_reservations x := MkDB (sessions d) (turns d) (turn_inputs d) (turn_events d) (function_calls d) (session_items d) (session_events d) (devices d) (session_devices d) (environments d) (environment_connections d) x (file_writes d) (allocations d) (artifacts d) (subagents d) (initial_files d) (setups d) (model_executions d) (large_objects d).
Definition with_file_writes x := MkDB (sessions d) (turns d) (turn_inputs d) (turn_events d) (function_calls d) (session_items d) (session_events d) (devices d) (session_devices d) (environments d) (environment_connections d) (reservations d) x (allocations d) (artifacts d) (subagents d) (initial_files d) (setups d) (model_executions d) (large_objects d).
Definition with_allocations x := MkDB (sessions d) (turns d) (turn_inputs d) (turn_events d) (function_calls d) (session_items d) (session_events d) (devices d) (session_devices d) (environments d) (environment_connections d) (reservations d) (file_writes d) x (artifacts d) (subagents d) (initial_files d) (setups d) (model_executions d) (large_objects d).
Definition with_artifacts x := MkDB (sessions d) (turns d) (turn_inputs d) (turn_events d) (function_calls d) (session_items d) (session_events d) (devices d) (session_devices d) (environments d) (environment_connections d) (reservations d) (file_writes d) (allocations d) x (subagents d) (initial_files d) (setups d) (model_executions d) (large_objects d).
Definition with_subagents x := MkDB (sessions d) (turns d) (turn_inputs d) (turn_events d) (function_calls d) (session_items d) (session_events d) (devices d) (session_devices d) (environments d) (environment_connections d) (reservations d) (file_writes d) (allocations d) (artifacts d) x (initial_files d) (setups d) (model_executions d) (large_objects d).
Definition with_initial_files x := MkDB (sessions d) (turns d) (turn_inputs d) (turn_events d) (function_calls d) (session_items d) (session_events d) (devices d) (session_devices d) (environments d) (environment_connections d) (reservations d) (file_writes d) (allocations d) (artifacts d) (subagents d) x (setups d) (model_executions d) (large_objects d).
Definition with_setups x := MkDB (sessions d) (turns d) (turn_inputs d) (turn_events d) (function_calls d) (session_items d) (session_events d) (devices d) (session_devices d) (environments d) (environment_connections d) (reservations d) (file_writes d) (allocations d) (artifacts d) (subagents d) (initial_files d) x (model_executions d) (large_objects d).
Definition with_model_executions x := MkDB (sessions d) (turns d) (turn_inputs d) (turn_events d) (function_calls d) (session_items d) (session_events d) (devices d) (session_devices d) (environments d) (environment_connections d) (reservations d) (file_writes d) (allocations d) (artifacts d) (subagents d) (initial_files d) (setups d) x (large_objects d).
Definition with_large_objects x := MkDB (sessions d) (turns d) (turn_inputs d) (turn_events d) (function_calls d) (session_items d) (session_events d) (devices d) (session_devices d) (environments d) (environment_connections d) (reservations d) (file_writes d) (allocations d) (artifacts d) (subagents d) (initial_files d) (setups d) (model_executions d) x.
End db_setters.

(** ** The transaction monad *)

(** [clock_timestamp()] readings and [uuid.New()] draws. *)
Class Oracle := { clock : nat → Z; rand : nat → N }.

(** [octet_length(payload::text)] of a stored session event: PostgreSQL's
    rendering of the row's JSON. *)
Class EventSizes := payload_octets : SessionChange → N.

Record world := MkWorld {
  w_db : db;
  w_seq : Z;       (** last value of [turn_inputs.sequence] *)
  w_tick : nat;
  w_draw : nat;
}.

Definition set_db (w : world) (d : db) : world := MkWorld d (w_seq w) (w_tick w) (w_draw w).

Definition tx (A : Type) := world → result A * world.

#[global] Instance tx_ret : MRet tx := λ A a w, (Ok a, w).
#[global] Instance tx_bind : MBind tx := λ A B f m w,
  match m w with (Ok a, w') => f a w' | (Err e, w') => (Err e, w') end.

Definition throw {A} (e : error) : tx A := λ w, (Err e, w).
Definition of_result {A} (r : result A) : tx A := λ w, (r, w).
Definition require (c : bool) (e : error) : tx unit := λ w, if c then (Ok tt, w) else (Err e, w).
Definition query {A} (f : db → A) : tx A := λ w, (Ok (f (w_db w)), w).
Definition exec (f : db → db) : tx unit := λ w, (Ok tt, set_db w (f (w_db w))).
(** A statement the schema rejects unless [c] holds. *)
Definition constraint_check (name : string) (c : db → bool) : tx unit := λ w,
  if c (w_db w) then (Ok tt, w) else (Err (ErrConstraint name), w).

Definition clock_timestamp `{Oracle} : tx Z := λ w,
  (Ok (clock (w_tick w)), MkWorld (w_db w) (w_seq w) (S (w_tick w)) (w_draw w)).
Definition uuid_new `{Oracle} : tx N := λ w,
  (Ok (rand (w_draw w)), MkWorld (w_db w) (w_seq w) (w_tick w) (S (w_draw w))).
Definition next_sequence : tx Z := λ w,
  (Ok (w_seq w + 1), MkWorld (w_db w) (w_seq w + 1) (w_tick w) (w_draw w)).

(** [for i, x := range l { ... }] collecting results. *)
Fixpoint tx_collect {A B} (f : A → tx B) (l : list A) : tx (list B) :=
  match l with
  | [] => mret []
  | x :: l' => y ← f x; ys ← tx_collect f l'; mret (y :: ys)
  end.

Fixpoint tx_iter {A} (f : A → tx unit) (l : list A) : tx unit :=
  match l with
  | [] => mret tt
  | x :: l' => _ ← f x; tx_iter f l'
  end.

(** [pgx.BeginFunc]: an error rolls the tables back. *)
Definition begin_func {A} (m : tx A) : tx A := λ w,
  match m w with
  | (Ok a, w') => (Ok a, w')
  | (Err e, w') => (Err e, set_db w' (w_db w))
  end.

(** [if err != nil { ... }] on the error of a call that has returned. *)
Definition catch {A} (m : tx A) (h : error → tx A) : tx A := λ w,
  match m w with
  | (Ok a, w') => (Ok a, w')
  | (Err e, w') => h e w'
  end.

(** A [:one] statement whose [pgx.ErrNoRows] the caller does not translate. *)
Definition one {A} (m : tx (option A)) : tx A :=
  o ← m; match o with Some a => mret a | None => throw ErrNoRows end.

(** Values passed to a [jsonb] parameter. *)
Definition jsonb (j : json) : tx json := λ w,
  match jsonb_in j with Some j' => (Ok j', w) | None => (Err (ErrConstraint "jsonb"), w) end.

Definition is_object (j : json) : bool := match j with JObj _ => true | _ => false end.

(** ** Reasoning about transactions *)

(** A preorder on worlds that a transaction can be confined to.  Identity
    sequences only grow, also in transactions that fail; reading the clock or
    drawing an identifier is always allowed. *)
Class WorldRel (R : relation world) : Prop := {
  wr_trans :: Transitive R;
  wr_seq : ∀ w w', R w w' → w_seq w ≤ w_seq w';
  wr_same : ∀ w w', w_db w' = w_db w → w_seq w ≤ w_seq w' → R w w';
}.

(** [m] only ever moves the world along [R].  A failed transaction is rolled
    back, so nothing is asked of the tables it leaves behind. *)
Definition moves {A} (R : relation world) (m : tx A) : Prop :=
  ∀ w, match m w with
       | (Ok _, w') => R w w'
       | (Err _, w') => w_seq w ≤ w_seq w'
       end.

(** Relations between the tables before and after. *)
Definition on_db (R : relation db) (w w' : world) : Prop :=
  R (w_db w) (w_db w') ∧ w_seq w ≤ w_seq w'.

#[export] Instance on_db_rel R `{!PreOrder R} : WorldRel (on_db R).
Proof.
  split.
  - intros w1 w2 w3 [??] [??]. split; [by etrans|lia].
  - by intros w w' [_ ?].
  - intros w w' E ?. split; [by rewrite E|done].
Qed.

(** Properties of the tables that are kept. *)
Definition keeps (P : db → Prop) (w w' : world) : Prop :=
  (P (w_db w) → P (w_db w')) ∧ w_seq w ≤ w_seq w'.

#[export] Instance keeps_rel P : WorldRel (keeps P).
Proof.
  split.
  - intros w1 w2 w3 [??] [??]. split; [auto|lia].
  - by intros w w' [_ ?].
  - intros w w' E ?. split; [by rewrite E|done].
Qed.

(** [m] leaves the tables alone. *)
Definition reads {A} (m : tx A) : Prop :=
  ∀ w, w_db (m w).2 = w_db w ∧ w_seq w ≤ w_seq (m w).2.

(** When [m] fails, the tables are as before. *)
Definition atomic {A} (m : tx A) : Prop :=
  ∀ w, match m w with (Ok _, _) => True | (Err _, w') => w_db w' = w_db w end.

Section reading.
Context {A B : Type}.
Implicit Types (m : tx A) (k : A → tx B).

Lemma reads_ret (a : A) : reads (mret a).
Proof. done. Qed.
Lemma reads_throw e : reads (throw e : tx A).
Proof. done. Qed.
Lemma reads_query (f : db → A) : reads (query f).
Proof. done. Qed.
Lemma reads_of_result (r : result A) : reads (of_result r).
Proof. done. Qed.

Lemma reads_bind m k : reads m → (∀ a, reads (k a)) → reads (m ≫= k).
Proof.
  intros Hm Hk w. specialize (Hm w). unfold mbind, tx_bind.
  destruct (m w) as [[a|e] w']; [|done]. cbn in Hm. destruct Hm as [Hd Hs].
  destruct (Hk a w') as [Hd' Hs']. rewrite Hd'. split; [done|lia].
Qed.

Lemma reads_atomic m : reads m → atomic m.
Proof. intros Hm w. destruct (Hm w) as [Hd _]. by destruct (m w) as [[a|e] w']. Qed.

Lemma atomic_begin m : atomic (begin_func m).
Proof. intros w. unfold begin_func. by destruct (m w) as [[a|e] w']. Qed.

Lemma atomic_bind m k : reads m → (∀ a, atomic (k a)) → atomic (m ≫= k).
Proof.
  intros Hm Hk w. destruct (Hm w) as [Hd _]. unfold mbind, tx_bind.
  destruct (m w) as [[a|e] w']; [|done]. cbn in Hd. specialize (Hk a w').
  destruct (k a w') as [[b|e] w'']; [done|]. congruence.
Qed.

(** A handler that only translates the error. *)
Lemma atomic_catch m (h : error → tx A) : (∀ e, ∃ e', h e = throw e') → atomic m → atomic (catch m h).
Proof.
  intros Hh Hm w. specialize (Hm w). unfold catch.
  destruct (m w) as [[a|e] w']; [done|]. by destruct (Hh e) as [e' ->].
Qed.

(** Nothing fails behind the transaction. *)
Lemma atomic_then m k : atomic m → (∀ a w, ∃ b, k a w = (Ok b, w)) → atomic (m ≫= k).
Proof.
  intros Hm Hk w. specialize (Hm w). unfold mbind, tx_bind.
  destruct (m w) as [[a|e] w']; [|done]. by destruct (Hk a w') as [b ->].
Qed.
End reading.

Section moves_rules.
Context (R : relation world) `{!WorldRel R} {A B : Type}.
Implicit Types (m : tx A).

Lemma wr_refl : Reflexive R.
Proof using Type*. intros w. by apply wr_same. Qed.

Lemma moves_bind m (k : A → tx B) :
  moves R m → (∀ a, moves R (k a)) → moves R (m ≫= k).
Proof using Type*.
  intros Hm Hk w. specialize (Hm w). unfold mbind, tx_bind.
  destruct (m w) as [[a|e] w']; [|done]. specialize (Hk a w').
  destruct (k a w') as [[b|e] w'']; [by etrans|].
  apply wr_seq in Hm. lia.
Qed.

Lemma moves_reads m : reads m → moves R m.
Proof using Type*.
  intros Hm w. destruct (Hm w) as [Hd Hs].
  destruct (m w) as [[a|e] w']; [by apply wr_same|done].
Qed.

Lemma moves_begin m : moves R m → moves R (begin_func m).
Proof using Type*.
  intros Hm w. specialize (Hm w). unfold begin_func.
  by destruct (m w) as [[a|e] w'].
Qed.

Lemma moves_ret (a : A) : moves R (mret a : tx A).
Proof using Type*. by apply moves_reads. Qed.

Lemma moves_throw e : moves R (throw e : tx A).
Proof using Type*. intros w. cbn. lia. Qed.

Lemma moves_throw_bind e (k : A → tx B) : moves R (throw e ≫= k).
Proof using Type*. intros w. unfold mbind, tx_bind, throw. lia. Qed.

Lemma moves_ret_bind a (k : A → tx B) : moves R (k a) → moves R (of_result (Ok a) ≫= k).
Proof using Type*. done. Qed.

Lemma moves_query (f : db → A) : moves R (query f).
Proof using Type*. by apply moves_reads. Qed.

Lemma moves_of_result (r : result A) : moves R (of_result r).
Proof using Type*. by apply moves_reads. Qed.

Lemma moves_one (m : tx (option A)) : moves R m → moves R (one m).
Proof using Type*.
  clear B. intros Hm w. specialize (Hm w). unfold one, mbind, tx_bind.
  by destruct (m w) as [[[a|]|e] w']; [|apply wr_seq in Hm|].
Qed.

(** A handler that only replaces the error. *)
Lemma moves_catch m (h : error → tx A) :
  (∀ e, ∃ e', h e = throw e') → moves R m → moves R (catch m h).
Proof using Type*.
  clear B. intros Hh Hm w. specialize (Hm w). unfold catch.
  destruct (m w) as [[a|e] w']; [done|]. by destruct (Hh e) as [e' ->].
Qed.

Lemma moves_iter (f : A → tx unit) l : (∀ x, moves R (f x)) → moves R (tx_iter f l).
Proof using Type*.
  clear B. intros Hf w. revert w. induction l as [|x l IH]; intros w; cbn; [by apply wr_same|].
  specialize (Hf x w). unfold mbind, tx_bind. destruct (f x w) as [[a|e] w']; [|done].
  specialize (IH w'). destruct (tx_iter f l w') as [[b|e] w'']; [by etrans|].
  apply wr_seq in Hf. lia.
Qed.
End moves_rules.

Section moves_basic.
Context (R : relation world) `{!WorldRel R}.

Lemma moves_exec f : (∀ w, R w (set_db w (f (w_db w)))) → moves R (exec f).
Proof using Type*. intros Hf w. cbn. apply Hf. Qed.

Lemma moves_require c e : moves R (require c e).
Proof using Type*. destruct c; [by apply moves_ret | by apply moves_throw]. Qed.

Lemma moves_check name c : moves R (constraint_check name c).
Proof using Type*.
  intros w. unfold constraint_check. destruct (c (w_db w)); [by apply wr_same|lia].
Qed.

Lemma moves_jsonb j : moves R (jsonb j).
Proof using Type*. apply moves_reads; [done|]. intros w. unfold jsonb. by destruct (jsonb_in j). Qed.

Lemma moves_clock `{Oracle} : moves R clock_timestamp.
Proof using Type*. by apply moves_reads. Qed.

Lemma moves_uuid `{Oracle} : moves R uuid_new.
Proof using Type*. by apply moves_reads. Qed.

Lemma moves_sequence : moves R next_sequence.
Proof using Type*. apply moves_reads; [done|]. intros w. cbn. split; [done|lia]. Qed.
End moves_basic.

#[export] Hint Resolve moves_ret moves_throw moves_throw_bind moves_query moves_require moves_of_result
  moves_check moves_jsonb moves_clock moves_uuid moves_sequence moves_begin : store.
#[export] Hint Resolve reads_ret reads_throw reads_query reads_of_result : store.

#[export] Hint Extern 0 (WorldRel _) => apply _ : store.

(** ** Inversion of successful transactions *)

Section inversion.
Context {A B : Type}.

Lemma bind_run (m : tx A) (k : A → tx B) w b w' :
  (m ≫= k) w = (Ok b, w') → ∃ a w1, m w = (Ok a, w1) ∧ k a w1 = (Ok b, w').
Proof. unfold mbind, tx_bind. destruct (m w) as [[a|e] w1]; [eauto|done]. Qed.

Lemma begin_run (m : tx A) w a w' : begin_func m w = (Ok a, w') → m w = (Ok a, w').
Proof. unfold begin_func. by destruct (m w) as [[?|?] ?]. Qed.

Lemma moves_run R (m : tx A) w a w' : moves R m → m w = (Ok a, w') → R w w'.
Proof. intros Hm E. specialize (Hm w). by rewrite E in Hm. Qed.

Lemma reads_run (m : tx A) w a w' : reads m → m w = (Ok a, w') → w_db w' = w_db w.
Proof. intros Hm E. destruct (Hm w) as [Hd _]. by rewrite E in Hd. Qed.

Lemma query_run (f : db → A) w a w' : query f w = (Ok a, w') → a = f (w_db w) ∧ w' = w.
Proof. unfold query. naive_solver. Qed.

Lemma one_run (m : tx (option A)) w a w' : one m w = (Ok a, w') → m w = (Ok (Some a), w').
Proof. unfold one, mbind, tx_bind, throw, mret, tx_ret. destruct (m w) as [[[?|]|?] ?]; naive_solver. Qed.

Lemma catch_run (m : tx A) h w a w' :
  (∀ e, ∃ e', h e = throw e') → catch m h w = (Ok a, w') → m w = (Ok a, w').
Proof.
  intros Hh. unfold catch. destruct (m w) as [[?|e] ?]; [done|]. by destruct (Hh e) as [e' ->].
Qed.

Lemma of_result_run (r : result A) w a w' : of_result r w = (Ok a, w') → r = Ok a ∧ w' = w.
Proof. unfold of_result. naive_solver. Qed.

Lemma ret_run (x : A) w a w' : (mret x : tx A) w = (Ok a, w') → a = x ∧ w' = w.
Proof. unfold mret, tx_ret. naive_solver. Qed.
End inversion.

(** What the successful runs do, next to what is known of the sequence. *)
Lemma on_db_runs {A} (S : relation world) `{!WorldRel S} (R : relation db) (m : tx A) :
  moves S m → (∀ w a w', m w = (Ok a, w') → R (w_db w) (w_db w')) → moves (on_db R) m.
Proof.
  intros Hs Hr w. specialize (Hs w). specialize (Hr w).
  destruct (m w) as [[a|e] w'] eqn:E; [|done]. split; [by eapply Hr|by apply wr_seq].
Qed.

Lemma require_run c e w u w' : require c e w = (Ok u, w') → c = true ∧ w' = w.
Proof. unfold require. destruct c; naive_solver. Qed.
Lemma check_run name c w u w' : constraint_check name c w = (Ok u, w') → c (w_db w) = true ∧ w' = w.
Proof. unfold constraint_check. destruct (c (w_db w)); naive_solver. Qed.
Lemma exec_run f w u w' : exec f w = (Ok u, w') → w' = set_db w (f (w_db w)).
Proof. unfold exec. naive_solver. Qed.
Lemma jsonb_run j w a w' : jsonb j w = (Ok a, w') → jsonb_in j = Some a ∧ w' = w.
Proof. unfold jsonb. destruct (jsonb_in j); naive_solver. Qed.
Lemma clock_run `{Oracle} w a w' : clock_timestamp w = (Ok a, w') →
  w_db w' = w_db w ∧ w_seq w' = w_seq w.
Proof. unfold clock_timestamp. naive_solver. Qed.
Lemma uuid_run `{Oracle} w a w' : uuid_new w = (Ok a, w') → w_db w' = w_db w ∧ w_seq w' = w_seq w.
Proof. unfold uuid_new. naive_solver. Qed.

(** [tx_inv]: decompose the successful runs among the hypotheses. *)
Ltac tx_inv1 :=
  match goal with
  | H : (_ ≫= _) _ = (Ok _, _) |- _ => apply bind_run in H as (? & ? & ? & H)
  | H : begin_func _ _ = (Ok _, _) |- _ => apply begin_run in H
  | H : require _ _ _ = (Ok _, _) |- _ => apply require_run in H as [? ->]
  | H : query _ _ = (Ok _, _) |- _ => apply query_run in H as [-> ->]
  | H : one _ _ = (Ok _, _) |- _ => apply one_run in H
  | H : of_result _ _ = (Ok _, _) |- _ => apply of_result_run in H as [? ->]
  | H : mret _ _ = (Ok _, _) |- _ => apply ret_run in H as [-> ->]
  | H : throw _ _ = (Ok _, _) |- _ => discriminate H
  | H : constraint_check _ _ _ = (Ok _, _) |- _ => apply check_run in H as [? ->]
  | H : exec _ _ = (Ok _, _) |- _ => apply exec_run in H as ->
  | H : jsonb _ _ = (Ok _, _) |- _ => apply jsonb_run in H as [? ->]
  end.
Ltac tx_inv := repeat tx_inv1.

(** [run_tx]: evaluate a statement on a world, splitting on its checks. *)
Ltac run_tx :=
  unfold mbind, tx_bind, mret, tx_ret, clock_timestamp, uuid_new, next_sequence, jsonb,
    constraint_check, require, query, exec, throw, set_db; cbn;
  repeat (case_match; simplify_eq/=).

(** [moves_tac]: walk through a transaction, deferring to the hints for the
    statements in it. *)
Ltac moves_step :=
  match goal with
  | |- moves _ (let _ := _ in _) => cbv zeta
  | |- moves _ (_ ≫= _) => apply (moves_bind _); [|intros ?]
  | |- moves _ (tx_iter _ _) => apply (moves_iter _); intros ?
  | |- moves _ (begin_func _) => apply (moves_begin _)
  | |- moves _ (one _) => apply (moves_one _)
  | |- moves _ (if ?c then _ else _) => destruct c eqn:?
  | |- moves _ (match ?x with _ => _ end) => destruct x eqn:?
  end.

Ltac moves_tac := repeat (first [solve [eauto 3 with store] | moves_step]).

(** ** Calls from other services *)

(** The fate of a call to the store: its reply arrives, it is lost after the
    transaction ran, or the call never reaches the database. *)
Inductive fate := Replied | ReplyLost | NotSent.

(** [context.DeadlineExceeded] and the like. *)
Definition transport_error : error := ErrOther "context deadline exceeded".

(** The store as a client sees it, and the fates of the client's calls
    (once they are used up, every reply arrives). *)
Record remote := MkRemote { rm_world : world; rm_fates : list fate }.

Definition over {A} (call : tx A) (rm : remote) : result A * remote :=
  match rm_fates rm with
  | [] => let '(r, w) := call (rm_world rm) in (r, MkRemote w [])
  | Replied :: fates => let '(r, w) := call (rm_world rm) in (r, MkRemote w fates)
  | ReplyLost :: fates => let '(_, w) := call (rm_world rm) in (Err transport_error, MkRemote w fates)
  | NotSent :: fates => (Err transport_error, MkRemote (rm_world rm) fates)
  end.

(** A call to the remote store ran, or did nothing and failed. *)
Lemma over_run {A} (call : tx A) rm r rm' :
  over call rm = (r, rm') →
  (rm_world rm' = rm_world rm ∧ ∃ e, r = Err e)
  ∨ ∃ r1, call (rm_world rm) = (r1, rm_world rm') ∧ (r = r1 ∨ ∃ e, r = Err e).
Proof.
  destruct rm as [w fates]. unfold over. cbn. intros Ha.
  destruct fates as [|[] fates]; try (destruct (call w) as [r1 w1] eqn:E); injection Ha as <- <-; eauto 6.
Qed.
