(* ===== verification/Queries.v ===== *)
(** * Queries

    The SQL statements of [services/agents-api/internal/db/sqlc] used by the
    Turn, Item, event and function operations, one definition per statement.  A
    [:one] SELECT gives an option ([None] is [pgx.ErrNoRows]).  A statement that
    a constraint of the schema rejects fails with [ErrConstraint]. *)
From stdpp Require Import base tactics list strings numbers.
From S2P Require Import Prelude GoJson Contract Database.

Section queries.
Context `{Oracle, EventSizes}.

(** ** Status vocabularies *)

Definition active_status (s : string) : bool :=
  (s =?s "queued") || (s =?s "in_progress") || (s =?s "waiting").
Definition done_status (s : string) : bool :=
  (s =?s "completed") || (s =?s "failed") || (s =?s "cancelled").
(** [turns_status_check]. *)
Definition turn_status_ok (s : string) : bool := active_status s || done_status s.

(** ** Sessions *)

Definition session_is (tenant session : N) (s : session_row) : bool :=
  (s_tenant s =?s tenant) && (s_id s =?s session).

Definition session_exists (d : db) (session : N) : bool :=
  existsb (λ s, s_id s =?s session) (sessions d).

Definition tenant_session (d : db) (tenant session : N) : bool :=
  existsb (session_is tenant session) (sessions d).

(** [FOR UPDATE] orders transactions on one Session; a transaction here runs
    alone, which is the order the lock enforces. *)
Definition LockSession (tenant session : N) : tx (option session_row) :=
  query (λ d, head (List.filter (session_is tenant session) (sessions d))).

Definition set_deleted (at_ : Z) (s : session_row) : session_row :=
  MkSession (s_id s) (s_tenant s) (s_engine s) (s_metadata s) (s_key s) (s_request_hash s) (s_created s)
    (s_config s) (s_event_seq s) (s_creation_hash s) (Some at_) (s_creator s).

Definition MarkSessionDeleted (session : N) : tx unit :=
  now ← clock_timestamp;
  exec (λ d, with_sessions d (update_where (λ s, (s_id s =?s session) && bool_decide (s_deleted s = None))
                                (set_deleted now) (sessions d))).

(** ** Turns *)

Definition turn_is (session id : N) (t : turn_row) : bool :=
  (t_session t =?s session) && (t_id t =?s id).

Definition turn_exists (d : db) (session id : N) : bool := existsb (turn_is session id) (turns d).

Definition active_in (session : N) (t : turn_row) : bool :=
  (t_session t =?s session) && active_status (t_status t).

Definition GetActiveTurn (session : N) : tx (option turn_row) :=
  query (λ d, head (List.filter (active_in session) (turns d))).

(** Primary key, foreign key and [turns_one_active_idx]. *)
Definition CreateTurn (id session : N) : tx turn_row :=
  now ← clock_timestamp;
  let row := MkTurnRow id session "queued" now None None None (JObj []) 0 0 None false in
  _ ← constraint_check "turns_pkey" (λ d, negb (existsb (λ t, t_id t =?s id) (turns d)));
  _ ← constraint_check "turns_session_id_fkey" (λ d, session_exists d session);
  _ ← constraint_check "turns_one_active_idx" (λ d, negb (existsb (active_in session) (turns d)));
  _ ← exec (λ d, with_turns d (turns d ++ [row]));
  mret row.

Definition GetTurnQ (tenant session id : N) : tx (option turn_row) :=
  query (λ d, if tenant_session d tenant session
              then head (List.filter (turn_is session id) (turns d)) else None).

Definition SessionEventTurn (session id : N) : tx (option turn_row) :=
  query (λ d, head (List.filter (turn_is session id) (turns d))).

Definition cancel_row (now1 now2 : Z) (t : turn_row) : turn_row :=
  let queued := t_status t =?s "queued" in
  MkTurnRow (t_id t) (t_session t) (if queued then "cancelled" else t_status t) (t_created t) (t_started t)
    (if queued then Some now2 else t_completed t)
    (Some (default now1 (t_cancel t))) (t_outcome t) (t_event_count t) (t_event_bytes t) (t_usage t) (t_capture t).

Definition RequestTurnCancel (id session : N) : tx unit :=
  now1 ← clock_timestamp; now2 ← clock_timestamp;
  exec (λ d, with_turns d (update_where (λ t, turn_is session id t && active_status (t_status t))
                             (cancel_row now1 now2) (turns d))).

Definition transition_row (now : Z) (new : string) (outcome : json) (t : turn_row) : turn_row :=
  MkTurnRow (t_id t) (t_session t) new (t_created t)
    (if new =?s "in_progress" then Some (default now (t_started t)) else t_started t)
    (if done_status new then Some now else None)
    (t_cancel t) outcome (t_event_count t) (t_event_bytes t) (t_usage t) (t_capture t).

(** The WHERE clause of TransitionTurnQ. *)
Definition may_transition (id session : N) (expected new : string) (t : turn_row) : bool :=
  turn_is session id t && (t_status t =?s expected) && active_status (t_status t)
  && (negb (new =?s "in_progress") || bool_decide (t_cancel t = None)).

Definition TransitionTurnQ (id session : N) (expected new : string) (outcome : json) : tx (option turn_row) :=
  now ← clock_timestamp;
  outcome ← jsonb outcome;
  hit ← query (λ d, head (List.filter (may_transition id session expected new) (turns d)));
  match hit with
  | None => mret None
  | Some t =>
      _ ← constraint_check "turns_status_check" (λ _, turn_status_ok new);
      _ ← constraint_check "turns_outcome_check" (λ _, is_object outcome);
      _ ← exec (λ d, with_turns d (update_where (may_transition id session expected new)
                                     (transition_row now new outcome) (turns d)));
      mret (Some (transition_row now new outcome t))
  end.

Definition count_row (n bytes : Z) (t : turn_row) : turn_row :=
  MkTurnRow (t_id t) (t_session t) (t_status t) (t_created t) (t_started t) (t_completed t) (t_cancel t)
    (t_outcome t) (t_event_count t + n) (t_event_bytes t + bytes) (t_usage t) (t_capture t).

Definition CountTurnEvent (session id : N) (n bytes : Z) : tx unit :=
  exec (λ d, with_turns d (update_where (turn_is session id) (count_row n bytes) (turns d))).

Definition usage_row (u : TokenUsage) (t : turn_row) : turn_row :=
  MkTurnRow (t_id t) (t_session t) (t_status t) (t_created t) (t_started t) (t_completed t) (t_cancel t)
    (t_outcome t) (t_event_count t) (t_event_bytes t) (Some u) (t_capture t).

Definition PutTurnUsage (session id : N) (u : TokenUsage) : tx unit :=
  exec (λ d, with_turns d (update_where (turn_is session id) (usage_row u) (turns d))).

Definition capture_row (t : turn_row) : turn_row :=
  MkTurnRow (t_id t) (t_session t) (t_status t) (t_created t) (t_started t) (t_completed t) (t_cancel t)
    (t_outcome t) (t_event_count t) (t_event_bytes t) (t_usage t) true.

(** [:execrows]: the number of rows updated. *)
Definition BeginTurnArtifactCaptureQ (session id : N) : tx Z :=
  n ← query (λ d, Z.of_nat (length (List.filter (λ t, turn_is session id t && negb (t_capture t)) (turns d))));
  _ ← exec (λ d, with_turns d (update_where (λ t, turn_is session id t && negb (t_capture t)) capture_row (turns d)));
  mret n.

Definition sum_usage (f : TokenUsage → Z) (us : list TokenUsage) : Z :=
  fold_right (λ u acc, f u + acc) 0 us.

Definition session_usages (d : db) (session : N) : list TokenUsage :=
  omap t_usage (List.filter (λ t, t_session t =?s session) (turns d)).

(** Sums are [numeric]: unbounded. *)
Definition SessionTokenUsage (session : N) : tx (option TokenUsage) :=
  query (λ d, match session_usages d session with
              | [] => None
              | us => Some (MkUsage (sum_usage tu_input us) (sum_usage tu_output us) (sum_usage tu_total us)
                                    (sum_usage tu_cached us) (sum_usage tu_reasoning us))
              end).

(** ** Inputs *)

Definition input_json (kind : string) (payload : json) : json :=
  JObj [("kind", JStr kind); ("payload", payload)].

Record InputBatchRow := MkBatchRow { ibr_seq : Z; ibr_turn : option N; ibr_matches : bool }.

Definition batch_rows (d : db) (session : N) (key : string) : list input_row :=
  sort_by (λ a b, in_pos a <=? in_pos b)
    (List.filter (λ i, (in_session i =?s session) && (in_key i =?s key)) (turn_inputs d)).

Definition FindInputBatch (session : N) (key : string) (batch : json) : tx (list InputBatchRow) :=
  batch ← jsonb batch;
  query (λ d,
    let previous := batch_rows d session key in
    let matches := jsonb_eq (JArr (List.map (λ i, input_json (in_kind i) (in_payload i)) previous)) batch in
    List.map (λ i, MkBatchRow (in_seq i) (in_turn i) matches) previous).

Definition input_kind_ok (k : string) : bool :=
  (k =?s "message") || (k =?s "cancel") || (k =?s "tool_result").

Definition CreateTurnInput (session : N) (turn : option N) (key kind : string) (payload : json) (pos : Z) : tx Z :=
  payload ← jsonb payload;
  now ← clock_timestamp;
  seq ← next_sequence;
  _ ← constraint_check "turn_inputs_session_id_fkey" (λ d, session_exists d session);
  _ ← constraint_check "turn_inputs_session_id_turn_id_fkey" (λ d,
        match turn with Some t => turn_exists d session t | None => true end);
  _ ← constraint_check "turn_inputs_kind_check" (λ _, input_kind_ok kind);
  _ ← constraint_check "turn_inputs_payload_check" (λ _, is_object payload);
  _ ← constraint_check "turn_inputs_check" (λ _,
        bool_decide (is_Some turn) || negb ((kind =?s "message") || (kind =?s "tool_result")));
  _ ← constraint_check "turn_inputs_batch_position_check" (λ _, 0 <=? pos);
  _ ← constraint_check "turn_inputs_session_id_idempotency_key_batch_position_key" (λ d,
        negb (existsb (λ i, (in_session i =?s session) && (in_key i =?s key) && (in_pos i =?s pos)) (turn_inputs d)));
  _ ← exec (λ d, with_turn_inputs d (turn_inputs d ++ [MkInputRow seq session turn key kind payload now pos]));
  mret seq.

Definition HasUnappliedMessages (session turn : N) (after : Z) : tx bool :=
  query (λ d, existsb (λ i, (in_session i =?s session) && (in_turn i =?s Some turn)
                            && (after <? in_seq i) && (in_kind i =?s "message")) (turn_inputs d)).

Definition ListTurnInputsQ (tenant session turn : N) (after limit : Z) : tx (list input_row) :=
  query (λ d, if tenant_session d tenant session then
    take (Z.to_nat limit) (sort_by (λ a b, in_seq a <=? in_seq b)
      (List.filter (λ i, (in_session i =?s session) && (in_turn i =?s Some turn) && (after <? in_seq i)) (turn_inputs d)))
    else []).

Definition ItemInputSource (session : N) (sequence : Z) : tx (option input_row) :=
  query (λ d, head (List.filter (λ i, (in_session i =?s session) && (in_seq i =?s sequence)) (turn_inputs d))).

(** ** Turn events *)

Definition event_json (kind : string) (payload : json) : json := input_json kind payload.

Definition event_of (session turn : N) (e : tevent_row) : bool :=
  (te_session e =?s session) && (te_turn e =?s turn).

Definition insert_event (session turn : N) (ordinal : Z) (kind : string) (payload : json) : tx unit :=
  payload ← jsonb payload;
  now ← clock_timestamp;
  _ ← constraint_check "turn_events_ordinal_check" (λ _, 0 <? ordinal);
  _ ← constraint_check "turn_events_payload_check" (λ _, is_object payload);
  _ ← constraint_check "turn_events_session_id_turn_id_fkey" (λ d, turn_exists d session turn);
  _ ← constraint_check "turn_events_pkey" (λ d,
        negb (existsb (λ e, (te_turn e =?s turn) && (te_ordinal e =?s ordinal)) (turn_events d)));
  exec (λ d, with_turn_events d (turn_events d ++ [MkTurnEvent session turn ordinal kind payload now])).

Definition InsertTurnEvent (session turn : N) (ordinal : Z) (kind : string) (payload : json) : tx unit :=
  insert_event session turn ordinal kind payload.

(** One row per element of the batch, numbered by WITH ORDINALITY. *)
Fixpoint InsertTurnEventBatch (session turn : N) (first : Z) (batch : list (string * json)) : tx unit :=
  match batch with
  | [] => mret tt
  | (kind, payload) :: batch' =>
      _ ← insert_event session turn first kind payload;
      InsertTurnEventBatch session turn (first + 1) batch'
  end.

Definition events_between (d : db) (session turn : N) (first count : Z) : list tevent_row :=
  sort_by (λ a b, te_ordinal a <=? te_ordinal b)
    (List.filter (λ e, event_of session turn e && (first <=? te_ordinal e) && (te_ordinal e <? first + count)) (turn_events d)).

(** [jsonb_agg] of no rows is NULL, which COALESCE turns into false. *)
Definition MatchTurnEventBatch (session turn : N) (first count : Z) (batch : list (string * json)) : tx bool :=
  batch ← jsonb (JArr (List.map (λ e, event_json e.1 e.2) batch));
  query (λ d, match events_between d session turn first count with
              | [] => false
              | es => jsonb_eq (JArr (List.map (λ e, event_json (te_kind e) (te_payload e)) es)) batch
              end).

Definition ItemEventSources (session turn : N) (first : Z) : tx (list tevent_row) :=
  query (λ d, sort_by (λ a b, te_ordinal a <=? te_ordinal b)
    (List.filter (λ e, event_of session turn e && (first <=? te_ordinal e)) (turn_events d))).

Definition ListTurnEventsQ (tenant session turn : N) (after limit : Z) : tx (list tevent_row) :=
  query (λ d, if tenant_session d tenant session then
    take (Z.to_nat limit) (sort_by (λ a b, te_ordinal a <=? te_ordinal b)
      (List.filter (λ e, event_of session turn e && (after <? te_ordinal e)) (turn_events d)))
    else []).

(** ** Function calls *)

Definition call_is (session turn : N) (call : string) (f : call_row) : bool :=
  (fc_session f =?s session) && (fc_turn f =?s turn) && (fc_call f =?s call).

Definition MatchFunctionCall (session turn : N) (call executor name : string) (args : json) : tx (option bool) :=
  args ← jsonb args;
  query (λ d, (λ f, (fc_executor f =?s executor) && (fc_name f =?s name) && jsonb_eq (fc_args f) args)
              <$> head (List.filter (call_is session turn call) (function_calls d))).

(** ON CONFLICT DO NOTHING covers the primary key and the executor key. *)
Definition CreateFunctionCall (session turn : N) (call executor name : string) (args : json) : tx Z :=
  args ← jsonb args;
  now ← clock_timestamp;
  clash ← query (λ d, existsb (λ f, (fc_session f =?s session) && (fc_turn f =?s turn)
                       && ((fc_call f =?s call) || (fc_executor f =?s executor))) (function_calls d));
  if clash : bool then mret 0 else
  _ ← constraint_check "function_calls_session_id_turn_id_fkey" (λ d, turn_exists d session turn);
  _ ← exec (λ d, with_function_calls d (function_calls d ++ [MkCall session turn call executor name args None false now]));
  mret 1.

Definition GetFunctionCallQ (tenant session turn : N) (call : string) : tx (option call_row) :=
  query (λ d, if tenant_session d tenant session
              then head (List.filter (call_is session turn call) (function_calls d)) else None).

Definition call_order (a b : call_row) : bool :=
  (fc_created a <? fc_created b) || ((fc_created a =? fc_created b) && String.leb (fc_call a) (fc_call b)).

Definition pending_calls (d : db) (session turn : N) : list call_row :=
  if existsb (λ t, turn_is session turn t && ((t_status t =?s "in_progress") || (t_status t =?s "waiting"))
                   && bool_decide (t_cancel t = None)) (turns d)
  then sort_by call_order (List.filter (λ f, (fc_session f =?s session) && (fc_turn f =?s turn) && negb (fc_applied f)) (function_calls d))
  else [].

Definition ListPendingFunctionCalls (session turn : N) : tx (list call_row) :=
  query (λ d, pending_calls d session turn).

(** (submitted, matches). *)
Definition MatchFunctionResult (session turn : N) (call : string) (res : json) : tx (option (bool * bool)) :=
  res ← jsonb res;
  query (λ d, (λ f, match fc_result f with
                    | None => (false, false)
                    | Some r => (true, jsonb_eq r res) end)
              <$> head (List.filter (call_is session turn call) (function_calls d))).

Definition result_row (res : json) (f : call_row) : call_row :=
  MkCall (fc_session f) (fc_turn f) (fc_call f) (fc_executor f) (fc_name f) (fc_args f) (Some res) (fc_applied f) (fc_created f).

Definition SubmitFunctionResultQ (session turn : N) (call : string) (res : json) : tx unit :=
  res ← jsonb res;
  _ ← constraint_check "function_calls_result_check" (λ _, is_object res);
  exec (λ d, with_function_calls d (update_where (call_is session turn call) (result_row res) (function_calls d))).

Definition applied_row (f : call_row) : call_row :=
  MkCall (fc_session f) (fc_turn f) (fc_call f) (fc_executor f) (fc_name f) (fc_args f) (fc_result f) true (fc_created f).

Definition ApplyFunctionResult (session turn : N) (call : string) : tx unit :=
  _ ← constraint_check "function_calls_check" (λ d,
        List.forallb (λ f, negb (call_is session turn call f) || bool_decide (is_Some (fc_result f))) (function_calls d));
  exec (λ d, with_function_calls d (update_where (call_is session turn call) applied_row (function_calls d))).

(** The outer option is the row, the inner one the nullable column. *)
Definition FunctionItemResult (session turn : N) (call : string) : tx (option (option json)) :=
  query (λ d, fc_result <$> head (List.filter (call_is session turn call) (function_calls d))).

(** ** Items *)

Definition GetSessionItem (session id : N) : tx (option item_row) :=
  query (λ d, head (List.filter (λ i, (si_session i =?s session) && (si_id i =?s id)) (session_items d))).

Definition max_plus_one (l : list Z) : Z := fold_right Z.max (-1) l + 1.

Definition payload_row (payload : json) (i : item_row) : item_row :=
  MkItemRow (si_id i) (si_session i) (si_turn i) (si_created i) (si_position i) payload (si_output i).

Definition PutSessionItem (id session turn : N) (created : Z) (payload : json) (is_output : bool) : tx item_row :=
  payload ← jsonb payload;
  _ ← constraint_check "session_items_payload_check" (λ _, is_object payload);
  old ← query (λ d, head (List.filter (λ i, si_id i =?s id) (session_items d)));
  match old with
  | Some i =>
      _ ← exec (λ d, with_session_items d (update_where (λ i, si_id i =?s id) (payload_row payload) (session_items d)));
      mret (payload_row payload i)
  | None =>
      row ← query (λ d, MkItemRow id session turn created
               (max_plus_one (List.map si_position (List.filter (λ i, si_session i =?s session) (session_items d))))
               payload
               (if is_output
                then Some (max_plus_one (omap si_output (List.filter (λ i, si_turn i =?s turn) (session_items d))))
                else None));
      _ ← constraint_check "session_items_session_id_turn_id_fkey" (λ d, turn_exists d session turn);
      _ ← exec (λ d, with_session_items d (session_items d ++ [row]));
      mret row
  end.

Definition HasNativeMessageItem (turn id : N) : tx bool :=
  query (λ d, existsb (λ i, (si_turn i =?s turn) && (jsonb_text "role" (si_payload i) =?s Some "assistant")
                            && negb (si_id i =?s id)) (session_items d)).

Definition unfinished (session turn : N) (i : item_row) : bool :=
  (si_session i =?s session) && (si_turn i =?s turn) && (jsonb_text "status" (si_payload i) =?s Some "in_progress").

Definition finish_row (i : item_row) : item_row :=
  payload_row (jsonb_set "status" (JStr "incomplete") (si_payload i)) i.

Definition FinishSessionItems (session turn : N) : tx (list item_row) :=
  rows ← query (λ d, List.map finish_row (List.filter (unfinished session turn) (session_items d)));
  _ ← exec (λ d, with_session_items d (update_where (unfinished session turn) finish_row (session_items d)));
  mret rows.

(** ** Session events *)

Definition bump_row (s : session_row) : session_row :=
  MkSession (s_id s) (s_tenant s) (s_engine s) (s_metadata s) (s_key s) (s_request_hash s) (s_created s)
    (s_config s) (s_event_seq s + 1) (s_creation_hash s) (s_deleted s) (s_creator s).

Definition AppendSessionEvent (session : N) (change : SessionChange) : tx unit :=
  next ← query (λ d, head (List.filter (λ s, s_id s =?s session) (sessions d)));
  match next with
  | None => mret tt
  | Some s =>
      _ ← constraint_check "session_events_pkey" (λ d,
            negb (existsb (λ e, (se_session e =?s session) && (se_seq e =?s s_event_seq s + 1)) (session_events d)));
      _ ← exec (λ d, with_sessions d (update_where (λ s, s_id s =?s session) bump_row (sessions d)));
      exec (λ d, with_session_events d (session_events d ++ [MkSessionEvent session (s_event_seq s + 1) change]))
  end.

Definition events_of (session : N) (d : db) : list sevent_row :=
  List.filter (λ e, se_session e =?s session) (session_events d).

(** [sum(payload_bytes) OVER (ORDER BY sequence)] next to each row. *)
Fixpoint running (total : Z) (n : Z) (l : list sevent_row) : list (sevent_row * Z * Z) :=
  match l with
  | [] => []
  | e :: l' =>
      let total := total + Z.of_N (payload_octets (se_change e)) in
      (e, n + 1, total) :: running total (n + 1) l'
  end.

Definition by_seq (a b : sevent_row) : bool := se_seq a <=? se_seq b.
Definition by_seq_desc (a b : sevent_row) : bool := se_seq b <=? se_seq a.

Definition prunable (session : N) (d : db) : list Z :=
  List.map (λ r, se_seq r.1.1)
    (List.filter (λ r, (256 <? r.1.2) || ((67108864 <? r.2) && (1 <? r.1.2)))
       (running 0 0 (sort_by by_seq_desc (events_of session d)))).

Definition PruneSessionEvents (session : N) : tx unit :=
  exec (λ d, with_session_events d (List.filter
    (λ e, negb ((se_session e =?s session) && existsb (Z.eqb (se_seq e)) (prunable session d)))
    (session_events d))).

Definition SessionEventCursorQ (tenant session : N) : tx (option Z) :=
  query (λ d, s_event_seq <$> head (List.filter
    (λ s, session_is tenant session s && bool_decide (s_deleted s = None)) (sessions d))).

Definition live_session (d : db) (tenant session : N) : bool :=
  existsb (λ s, session_is tenant session s && bool_decide (s_deleted s = None)) (sessions d).

Definition ListSessionEventsQ (tenant session : N) (after : Z) : tx (list sevent_row) :=
  query (λ d, if live_session d tenant session then
    take 32 (List.map (λ r, r.1.1)
      (List.filter (λ r, (r.1.2 =? 1) || (r.2 <=? 1048576))
         (running 0 0 (sort_by by_seq (List.filter (λ e, after <? se_seq e) (events_of session d))))))
    else []).

(** ** Artifacts *)

Definition publish_row (at_ : option Z) (a : artifact_row) : artifact_row :=
  MkArtifact (ar_id a) (ar_session a) (ar_turn a) (ar_env a) (ar_path a) (ar_size a) (ar_oid a) (ar_sha a) at_.

Definition staged_for (session turn : N) (a : artifact_row) : bool :=
  (ar_session a =?s session) && (ar_turn a =?s turn) && bool_decide (ar_created a = None).

Definition PublishTurnArtifacts (session turn : N) (created : option Z) : tx unit :=
  exec (λ d, with_artifacts d (update_where (staged_for session turn) (publish_row created) (artifacts d))).

(** Deleting artifact rows unlinks their large objects. *)
Definition remove_artifacts (p : artifact_row → bool) (d : db) : db :=
  let oids := List.map ar_oid (List.filter p (artifacts d)) in
  with_large_objects (with_artifacts d (List.filter (λ a, negb (p a)) (artifacts d)))
    (List.filter (λ o, negb (existsb (N.eqb o) oids)) (large_objects d)).

Definition DeleteUnpublishedTurnArtifacts (session turn : N) : tx unit :=
  exec (remove_artifacts (staged_for session turn)).

Definition DeleteSessionArtifacts (session : N) : tx unit :=
  exec (remove_artifacts (λ a, ar_session a =?s session)).

(** ** Devices and subagents *)

Definition native_row (native : string) (b : binding_row) : binding_row :=
  MkBinding (b_session b) (b_device b) native.

Definition RememberNativeSession (session : N) (native : string) : tx Z :=
  n ← query (λ d, Z.of_nat (length (List.filter (λ b, b_session b =?s session) (session_devices d))));
  _ ← exec (λ d, with_session_devices d (update_where (λ b, b_session b =?s session) (native_row native) (session_devices d)));
  mret n.

(** The INSERT ... SELECT yields no row when the Session has no binding, the
    binding names another native parent, or another parent was recorded; a
    conflict on (device, engine, native id) returns the old id only when it
    records the same identity. *)
Definition PutSubagentIdentity (id session : N) (native parent : string) (created : Z) (turn : N) (ordinal : Z)
  : tx (option N) :=
  source ← query (λ d,
    match head (List.filter (λ s, s_id s =?s session) (sessions d)),
          head (List.filter (λ b, b_session b =?s session) (session_devices d)) with
    | Some s, Some b =>
        if ((b_native b =?s "") || (b_native b =?s parent))
           && negb (existsb (λ o, (sa_session o =?s session) && negb (sa_parent o =?s parent)) (subagents d))
        then Some (s, b) else None
    | _, _ => None
    end);
  match source with
  | None => mret None
  | Some (s, b) =>
      old ← query (λ d, head (List.filter (λ o, (sa_device o =?s b_device b) && (sa_engine o =?s s_engine s)
                                                && (sa_native o =?s native)) (subagents d)));
      match old with
      | Some o => mret (if (sa_session o =?s session) && (sa_parent o =?s parent) && (sa_native_created o =?s created)
                        then Some (sa_id o) else None)
      | None =>
          _ ← constraint_check "subagent_identities_session_id_native_id_key" (λ d,
                negb (existsb (λ o, (sa_session o =?s session) && (sa_native o =?s native)) (subagents d)));
          _ ← constraint_check "subagent_identities_check" (λ _,
                negb (native =?s "") && negb (parent =?s "") && negb (parent =?s native) && (0 <? created));
          _ ← constraint_check "subagent_identities_turn_fkey" (λ d, turn_exists d session turn);
          _ ← exec (λ d, with_subagents d (subagents d ++
                [MkSubagent id session (b_device b) (s_engine s) native parent created turn ordinal]));
          mret (Some id)
      end
  end.

(** ** Environment gates *)

Definition EnvironmentFileWriteBlocksSession (session : N) : tx bool :=
  query (λ d, existsb (λ e, (e_session e =?s session)
     && existsb (λ w, (w_env w =?s e_id e) && (w_state w =?s "pending")) (file_writes d)) (environments d)).

Definition CheckEnvironmentInputGate (session : N) (key : string) (batch : json) : tx (bool * bool) :=
  batch ← jsonb batch;
  query (λ d,
    (match head (List.filter (λ r, (r_session r =?s session) && (r_key r =?s key)) (reservations d)) with
     | Some r => jsonb_eq (r_batch r) batch
     | None => true end,
     existsb (λ r, (r_session r =?s session) && ((r_state r =?s "pending") || (r_key r =?s key))) (reservations d))).

Definition settle_row (now : Z) (state : string) (r : res_row) : res_row :=
  MkReservation (r_id r) (r_session r) (r_key r) (r_batch r) state (r_created r) (r_deadline r) (Some now) (r_initial r).

Definition CancelSessionEnvironmentInput (session : N) : tx unit :=
  now ← clock_timestamp;
  exec (λ d, with_reservations d (update_where (λ r, (r_session r =?s session) && (r_state r =?s "pending"))
                                    (settle_row now "cancelled") (reservations d))).

End queries.

(** ** Batches as [jsonb] *)

Lemma jsonb_in_input kind payload payload' :
  text_ok kind = true → jsonb_in payload = Some payload' →
  jsonb_in (input_json kind payload) = Some (input_json kind payload').
Proof. intros Hk Hp. cbn. rewrite Hk. cbn. by rewrite Hp. Qed.

(** A batch encoded as an array is normalised element by element. *)
Lemma jsonb_in_batch {A B} (f : A → json) (g : B → json) l k :
  Forall2 (λ a b, jsonb_in (f a) = Some (g b)) l k →
  jsonb_in (JArr (List.map f l)) = Some (JArr (List.map g k)).
Proof.
  intros HF. cbn.
  enough (fold_right (λ x acc, x' ← jsonb_in x; l' ← acc; Some (x' :: l')) (Some []) (List.map f l)
          = Some (List.map g k)) as -> by done.
  induction HF as [|a b l k Hab _ IH]; [done|]. cbn. by rewrite Hab, IH.
Qed.

Lemma jsonb_in_array_length l j :
  jsonb_in (JArr l) = Some j → ∃ l', j = JArr l' ∧ length l' = length l.
Proof.
  cbn. intros E. apply fmap_Some in E as (l' & El & ->). exists l'. split; [done|].
  revert l' El. induction l as [|x l IH]; intros l' El; cbn in El; [by simplify_eq|].
  apply bind_Some in El as (x' & _ & El). apply bind_Some in El as (k & Ek & El).
  simplify_eq. cbn. f_equal. by apply IH.
Qed.

Lemma jsonb_eq_array_length l k : jsonb_eq (JArr l) (JArr k) = true → length l = length k.
Proof.
  unfold jsonb_eq. intros E%bool_decide_eq_true_1. cbn in E. injection E as E.
  apply (f_equal length) in E. by rewrite !List.length_map in E.
Qed.
