(* ===== verification/EnvQueries.v ===== *)
(** * EnvQueries

    The SQL statements of [services/agents-api/internal/db/sqlc] behind
    environments, their connections, reserved inputs, file writes, runtime
    allocations and devices.  Timestamps count microseconds, the resolution of
    [timestamptz]; a statement that reads the clock in its WHERE clause and in
    its SET clause reads it twice.  Constraints a caller can break are checked;
    those the statement's own WHERE clause or the callers' digest validation
    already establish (allocation states, digest formats) are not repeated. *)
From stdpp Require Import base tactics list strings numbers.
From S2P Require Import Prelude GoJson Contract Database Queries.

Section env_queries.
Context `{Oracle, EventSizes}.

Definition minute : Z := 60 * 1000000.
Definition hour : Z := 60 * minute.

(** ** Environments *)

(** [sqlc.GetSessionEnvironmentRow]; the configuration is SQL NULL when the
    Session's configuration has no environment. *)
Record SessionEnvironmentRow := MkSessionEnvironment {
  ser_env : env_row; ser_tenant : N; ser_config : option json }.

Definition env_type (config : json) : string :=
  default "" (jsonb_field "environment" config ≫= jsonb_text "type").

(** The rows of [environments e JOIN sessions s ON s.id = e.session_id]. *)
Definition env_sessions (d : db) : list (env_row * session_row) :=
  List.flat_map (λ e, List.map (λ s, (e, s))
    (List.filter (λ s, s_id s =?s e_session e) (sessions d))) (environments d).

Definition environment_row (es : env_row * session_row) : SessionEnvironmentRow :=
  MkSessionEnvironment es.1 (s_tenant es.2) (jsonb_field "environment" (s_config es.2)).

Definition live (s : session_row) : bool := bool_decide (s_deleted s = None).

Definition CreateEnvironment (id session : N) : tx unit :=
  now ← clock_timestamp;
  _ ← constraint_check "environments_pkey" (λ d, negb (existsb (λ e, e_id e =?s id) (environments d)));
  _ ← constraint_check "environments_session_id_key" (λ d, negb (existsb (λ e, e_session e =?s session) (environments d)));
  _ ← constraint_check "environments_session_id_fkey" (λ d, session_exists d session);
  exec (λ d, with_environments d (environments d ++ [MkEnvironment id session "pending" now])).

Definition GetEnvironmentQ (tenant id : N) : tx (option SessionEnvironmentRow) :=
  query (λ d, environment_row <$> head (List.filter (λ es : env_row * session_row,
    (s_tenant es.2 =?s tenant) && (e_id es.1 =?s id) && live es.2) (env_sessions d))).

Definition GetSessionEnvironmentQ (tenant session : N) : tx (option SessionEnvironmentRow) :=
  query (λ d, environment_row <$> head (List.filter (λ es : env_row * session_row,
    (s_tenant es.2 =?s tenant) && (s_id es.2 =?s session) && live es.2) (env_sessions d))).

(** ** Connections *)

Definition connection_of (env : N) (c : conn_row) : bool := cn_env c =?s env.

Definition GetEnvironmentConnection (env : N) : tx (option conn_row) :=
  query (λ d, head (List.filter (connection_of env) (environment_connections d))).

Definition ReplaceEnvironmentConnectionQ (env gen : N) : tx unit :=
  _ ← constraint_check "environment_connections_environment_id_fkey" (λ d,
        existsb (λ e, e_id e =?s env) (environments d));
  exec (λ d, with_environment_connections d
    (if existsb (connection_of env) (environment_connections d)
     then update_where (connection_of env) (λ c, MkConnection (cn_env c) gen 0) (environment_connections d)
     else environment_connections d ++ [MkConnection env gen 0])).

Definition AdvanceEnvironmentConnection (env : N) (revision : Z) : tx unit :=
  _ ← constraint_check "environment_connections_revision_check" (λ _, 0 <=? revision);
  exec (λ d, with_environment_connections d
    (update_where (connection_of env) (λ c, MkConnection (cn_env c) (cn_gen c) revision) (environment_connections d))).

Definition env_status_ok (s : string) : bool :=
  (s =?s "pending") || (s =?s "connected") || (s =?s "disconnected") || (s =?s "expired") || (s =?s "failed").

Definition status_row (status : string) (e : env_row) : env_row :=
  MkEnvironment (e_id e) (e_session e) status (e_created e).

Definition SetEnvironmentConnectionStatus (env : N) (status : string) : tx unit :=
  _ ← constraint_check "environments_status_check" (λ _, env_status_ok status);
  exec (λ d, with_environments d (update_where (λ e, e_id e =?s env) (status_row status) (environments d))).

Definition DeleteEnvironmentConnection (env : N) : tx unit :=
  exec (λ d, with_environment_connections d
    (List.filter (λ c, negb (connection_of env c)) (environment_connections d))).

(** Environments to reconcile: (environment, Session, tenant). *)
Definition stale_environment (d : db) (after : N) (es : env_row * session_row) : bool :=
  (after <? e_id es.1)%N && live es.2
  && ((e_status es.1 =?s "connected") || existsb (connection_of (e_id es.1)) (environment_connections d)).

Definition ListEnvironmentConnections (after : N) : tx (list (N * N * N)) :=
  query (λ d, take 32 (List.map (λ es : env_row * session_row, (e_id es.1, e_session es.1, s_tenant es.2))
    (sort_by (λ a b : env_row * session_row, (e_id a.1 <=? e_id b.1)%N)
       (List.filter (stale_environment d after) (env_sessions d))))).

(** ** Reserved inputs *)

Definition reservation_is (session id : N) (r : res_row) : bool :=
  (r_session r =?s session) && (r_id r =?s id).

Definition pending_in (session : N) (r : res_row) : bool :=
  (r_session r =?s session) && (r_state r =?s "pending").

Definition batch_length_ok (j : json) : bool :=
  match j with JArr l => (1 <=? Z.of_nat (length l)) && (Z.of_nat (length l) <=? 64) | _ => false end.

Definition CreateEnvironmentInputReservation (id session : N) (key : string) (batch : json) (initial : bool)
  : tx res_row :=
  batch ← jsonb batch;
  now ← clock_timestamp;
  let row := MkReservation id session key batch "pending" now (now + 5 * minute) None initial in
  _ ← constraint_check "environment_input_reservations_pkey" (λ d,
        negb (existsb (λ r, r_id r =?s id) (reservations d)));
  _ ← constraint_check "environment_input_reservations_session_id_fkey" (λ d,
        existsb (λ e, e_session e =?s session) (environments d));
  _ ← constraint_check "environment_input_reservations_batch_check" (λ _, batch_length_ok batch);
  _ ← constraint_check "environment_input_reservations_session_id_idempotency_key_key" (λ d,
        negb (existsb (λ r, (r_session r =?s session) && (r_key r =?s key)) (reservations d)));
  _ ← constraint_check "environment_input_reservations_one_pending_idx" (λ d,
        negb (existsb (pending_in session) (reservations d)));
  _ ← exec (λ d, with_reservations d (reservations d ++ [row]));
  mret row.

(** The reservation and whether its batch is the given one. *)
Definition FindEnvironmentInputReservation (session : N) (key : string) (batch : json) : tx (option (res_row * bool)) :=
  batch ← jsonb batch;
  query (λ d, (λ r, (r, jsonb_eq (r_batch r) batch)) <$>
    head (List.filter (λ r, (r_session r =?s session) && (r_key r =?s key)) (reservations d))).

Definition GetEnvironmentInputReservationQ (session id : N) : tx (option res_row) :=
  query (λ d, head (List.filter (reservation_is session id) (reservations d))).

Definition due (session id : N) (now : Z) (r : res_row) : bool :=
  reservation_is session id r && (r_state r =?s "pending") && (r_deadline r <=? now).

Definition ExpireEnvironmentInputReservation (session id : N) : tx unit :=
  now1 ← clock_timestamp; now2 ← clock_timestamp;
  exec (λ d, with_reservations d (update_where (due session id now1) (settle_row now2 "expired") (reservations d))).

Definition reservation_state_ok (s : string) : bool :=
  (s =?s "pending") || (s =?s "admitted") || (s =?s "expired") || (s =?s "cancelled") || (s =?s "failed").

Definition SettleEnvironmentInputReservation (session id : N) (state : string) : tx (option res_row) :=
  now ← clock_timestamp;
  let hit := λ r, reservation_is session id r && (r_state r =?s "pending") in
  old ← query (λ d, head (List.filter hit (reservations d)));
  match old with
  | None => mret None
  | Some r =>
      _ ← constraint_check "environment_input_reservations_state_check" (λ _, reservation_state_ok state);
      _ ← constraint_check "environment_input_reservations_check" (λ _, negb (state =?s "pending"));
      _ ← exec (λ d, with_reservations d (update_where hit (settle_row now state) (reservations d)));
      mret (Some (settle_row now state r))
  end.

Definition FailSessionEnvironmentInput (session : N) : tx unit :=
  now ← clock_timestamp;
  exec (λ d, with_reservations d (update_where (pending_in session) (settle_row now "failed") (reservations d))).

(** Reservations past their deadline, oldest deadline first.  [locked] is the
    set of Sessions another transaction holds, which SKIP LOCKED leaves out. *)
Definition due_order (a b : res_row) : bool :=
  (r_deadline a <? r_deadline b) || ((r_deadline a =? r_deadline b) && (r_id a <=? r_id b)%N).

Definition overdue (locked : N → bool) (now : Z) (d : db) (r : res_row) : bool :=
  (r_state r =?s "pending") && (r_deadline r <=? now)
  && existsb (λ s, (s_id s =?s r_session r) && live s && negb (locked (s_id s))) (sessions d).

Definition ListDueEnvironmentInputs (locked : N → bool) : tx (list (N * N)) :=
  now ← clock_timestamp;
  query (λ d, List.map (λ r, (r_id r, r_session r))
    (take 32 (sort_by due_order (List.filter (overdue locked now d) (reservations d))))).

(** The newest reservation of a Session: latest creation, then largest id. *)
Definition newer (a b : res_row) : bool :=
  (r_created b <? r_created a) || ((r_created b =? r_created a) && (r_id b <=? r_id a)%N).

Record InputActivityRow := MkActivityRow {
  iar_state : string; iar_initial : bool; iar_created : Z; iar_settled : option Z;
  iar_env : N; iar_status : string; iar_type : string }.

Definition GetEnvironmentInputActivity (session : N) : tx (option InputActivityRow) :=
  query (λ d,
    match head (List.filter (λ es : env_row * session_row, e_session es.1 =?s session) (env_sessions d)),
          head (sort_by newer (List.filter (λ r, r_session r =?s session) (reservations d))) with
    | Some (e, s), Some r =>
        if negb (r_state r =?s "admitted")
           && negb (existsb (λ t, (t_session t =?s session)
                     && ((r_created r <=? t_created t) || active_status (t_status t))) (turns d))
        then Some (MkActivityRow (r_state r) (r_initial r) (r_created r) (r_settled r)
                     (e_id e) (e_status e) (env_type (s_config s)))
        else None
    | _, _ => None
    end).

(** ** File writes *)

Definition write_is (env id : N) (x : write_row) : bool := (w_env x =?s env) && (w_id x =?s id).

Definition pending_write (env : N) (x : write_row) : bool := (w_env x =?s env) && (w_state x =?s "pending").

(** The write and its Session. *)
Definition GetEnvironmentFileWriteQ (tenant env id : N) : tx (option (write_row * N)) :=
  query (λ d,
    match head (List.filter (λ es : env_row * session_row,
                  (s_tenant es.2 =?s tenant) && (e_id es.1 =?s env)) (env_sessions d)),
          head (List.filter (write_is env id) (file_writes d)) with
    | Some (e, _), Some x => Some (x, e_session e)
    | _, _ => None
    end).

Definition CreateEnvironmentFileWrite (id env device : N) (sha : string) : tx write_row :=
  now ← clock_timestamp;
  let row := MkWrite id env device sha "pending" now None in
  _ ← constraint_check "environment_file_writes_pkey" (λ d, negb (existsb (λ x, w_id x =?s id) (file_writes d)));
  _ ← constraint_check "environment_file_writes_environment_id_fkey" (λ d,
        existsb (λ e, e_id e =?s env) (environments d));
  _ ← constraint_check "environment_file_writes_device_id_fkey" (λ d,
        existsb (λ x, d_id x =?s device) (devices d));
  _ ← constraint_check "environment_file_writes_pending" (λ d,
        negb (existsb (pending_write env) (file_writes d)));
  _ ← exec (λ d, with_file_writes d (file_writes d ++ [row]));
  mret row.

Definition write_state_ok (s : string) : bool :=
  (s =?s "pending") || (s =?s "committed") || (s =?s "rejected").

Definition settle_write (now : Z) (state : string) (x : write_row) : write_row :=
  MkWrite (w_id x) (w_env x) (w_device x) (w_sha x) state (w_created x) (Some now).

Definition SettleEnvironmentFileWriteQ (env id : N) (state : string) : tx (option write_row) :=
  now ← clock_timestamp;
  let hit := λ x, write_is env id x && (w_state x =?s "pending") in
  old ← query (λ d, head (List.filter hit (file_writes d)));
  match old with
  | None => mret None
  | Some x =>
      _ ← constraint_check "environment_file_writes_state_check" (λ _, write_state_ok state);
      _ ← constraint_check "environment_file_writes_check" (λ _, negb (state =?s "pending"));
      _ ← exec (λ d, with_file_writes d (update_where hit (settle_write now state) (file_writes d)));
      mret (Some (settle_write now state x))
  end.

Definition EnvironmentFileWriteHasPendingInput (session : N) : tx bool :=
  query (λ d, existsb (pending_in session) (reservations d)).

(** ** Devices *)

Definition device_is (tenant id : N) (x : device_row) : bool := (d_tenant x =?s tenant) && (d_id x =?s id).

Definition unrevoked (x : device_row) : bool := bool_decide (d_revoked x = None).

Definition CreateDeviceQ (id tenant : N) (name hash : string) : tx N :=
  now ← clock_timestamp;
  _ ← constraint_check "devices_pkey" (λ d, negb (existsb (λ x, d_id x =?s id) (devices d)));
  _ ← exec (λ d, with_devices d (devices d ++ [MkDevice id tenant name hash now None None None]));
  mret id.

Definition GetDevice (tenant id : N) : tx (option device_row) :=
  query (λ d, head (List.filter (λ x, device_is tenant id x && unrevoked x) (devices d))).

(** A dedicated device serves its environment's live Session only. *)
Definition serves_live (d : db) (x : device_row) : bool :=
  match d_environment x with
  | None => true
  | Some env => existsb (λ es : env_row * session_row,
      (e_id es.1 =?s env) && (s_tenant es.2 =?s d_tenant x) && live es.2) (env_sessions d)
  end.

Definition GetDeviceCredentialQ (id : N) : tx (option device_row) :=
  query (λ d, head (List.filter (λ x, (d_id x =?s id) && unrevoked x && serves_live d x) (devices d))).

Definition revoke_row (now : Z) (x : device_row) : device_row :=
  MkDevice (d_id x) (d_tenant x) (d_name x) (d_hash x) (d_created x) (d_seen x)
    (Some (default now (d_revoked x))) (d_environment x).

(** [:execrows]. *)
Definition RevokeDeviceQ (tenant id : N) : tx Z :=
  now ← clock_timestamp;
  n ← query (λ d, Z.of_nat (length (List.filter (device_is tenant id) (devices d))));
  _ ← exec (λ d, with_devices d (update_where (device_is tenant id) (revoke_row now) (devices d)));
  mret n.

Definition seen_row (now : Z) (x : device_row) : device_row :=
  MkDevice (d_id x) (d_tenant x) (d_name x) (d_hash x) (d_created x) (Some now) (d_revoked x) (d_environment x).

Definition TouchDevice (id : N) : tx Z :=
  now ← clock_timestamp;
  let hit := λ d x, (d_id x =?s id) && unrevoked x && serves_live d x in
  n ← query (λ d, Z.of_nat (length (List.filter (hit d) (devices d))));
  _ ← exec (λ d, with_devices d (update_where (hit d) (seen_row now) (devices d)));
  mret n.

(** A dedicated device is usable in the Session of its environment only. *)
Definition usable_in (d : db) (session : N) (x : device_row) : bool :=
  match d_environment x with
  | None => true
  | Some env => existsb (λ e, (e_id e =?s env) && (e_session e =?s session)) (environments d)
  end.

(** The bound device; no row when the Session is bound to another. *)
Definition BindSessionDeviceQ (tenant session device : N) : tx (option N) :=
  source ← query (λ d, tenant_session d tenant session
    && existsb (λ x, device_is tenant device x && unrevoked x && usable_in d session x) (devices d));
  if negb source then mret None else
  bound ← query (λ d, head (List.filter (λ b, b_session b =?s session) (session_devices d)));
  match bound with
  | Some b => mret (if b_device b =?s device then Some device else None)
  | None =>
      _ ← exec (λ d, with_session_devices d (session_devices d ++ [MkBinding session device ""]));
      mret (Some device)
  end.

(** [session_devices b JOIN sessions s JOIN devices d] for one Session: the
    binding and its device. *)
Definition bound_device (d : db) (tenant session : N) : option (binding_row * device_row) :=
  if tenant_session d tenant session then
    b ← head (List.filter (λ b, b_session b =?s session) (session_devices d));
    x ← head (List.filter (λ x, device_is tenant (b_device b) x && unrevoked x && usable_in d session x) (devices d));
    Some (b, x)
  else None.

Definition GetSessionDeviceQ (tenant session : N) : tx (option device_row) :=
  query (λ d, snd <$> bound_device d tenant session).

(** The device, the native Session and whether a Turn has started. *)
Definition GetSessionExecutionBindingQ (tenant session : N) : tx (option (device_row * string * bool)) :=
  query (λ d, (λ bx : binding_row * device_row, (bx.2, b_native bx.1,
      existsb (λ t, (t_session t =?s session) && bool_decide (is_Some (t_started t))) (turns d)))
    <$> bound_device d tenant session).

Definition CreateEnvironmentDeviceQ (id tenant : N) (name hash : string) (env : N) : tx (option N) :=
  now ← clock_timestamp;
  source ← query (λ d, existsb (λ es : env_row * session_row,
      (s_tenant es.2 =?s tenant) && (e_id es.1 =?s env) && live es.2
      && (env_type (s_config es.2) =?s "openai_hosted")) (env_sessions d));
  if negb source then mret None else
  taken ← query (λ d, existsb (λ x, d_environment x =?s Some env) (devices d));
  if (taken : bool) then mret None else
  _ ← constraint_check "devices_pkey" (λ d, negb (existsb (λ x, d_id x =?s id) (devices d)));
  _ ← exec (λ d, with_devices d (devices d ++ [MkDevice id tenant name hash now None None (Some env)]));
  mret (Some id).

(** ** Runtime allocations *)

(** [sqlc.GetRuntimeAllocationRow]. *)
Record AllocationRow := MkAllocationRow {
  alr_alloc : alloc_row; alr_session : N; alr_tenant : N; alr_deleted : option Z; alr_expired : bool }.

Definition file_of (session : N) (f : file_row) : bool := fl_session f =?s session.

Definition needs_initialization (d : db) (env : N) : bool :=
  existsb (λ e, (e_id e =?s env)
    && (existsb (file_of (e_session e)) (initial_files d) || existsb (N.eqb (e_session e)) (setups d))) (environments d).

Definition CreateRuntimeAllocation (id env device provider : N) : tx alloc_row :=
  now1 ← clock_timestamp; now2 ← clock_timestamp;
  row ← query (λ d, MkAlloc id env device provider "creating" false now1 now2 None
    (if needs_initialization d env then "pending" else "complete"));
  _ ← constraint_check "runtime_allocations_pkey" (λ d, negb (existsb (λ a, al_id a =?s id) (allocations d)));
  _ ← constraint_check "runtime_allocations_environment_id_key" (λ d,
        negb (existsb (λ a, al_env a =?s env) (allocations d)));
  _ ← constraint_check "runtime_allocations_device_id_key" (λ d,
        negb (existsb (λ a, al_device a =?s device) (allocations d)));
  _ ← constraint_check "runtime_allocations_environment_id_fkey" (λ d,
        existsb (λ e, e_id e =?s env) (environments d));
  _ ← constraint_check "runtime_allocations_device_id_fkey" (λ d,
        existsb (λ x, d_id x =?s device) (devices d));
  _ ← exec (λ d, with_allocations d (allocations d ++ [row]));
  mret row.

Definition lease_over (now : Z) (a : alloc_row) : bool := al_kept a <=? now - hour.

(** [runtime_allocations a JOIN environments e JOIN sessions s]. *)
Definition allocation_rows (now : Z) (d : db) : list AllocationRow :=
  List.flat_map (λ a, List.map (λ es : env_row * session_row,
      MkAllocationRow a (e_session es.1) (s_tenant es.2) (s_deleted es.2) (lease_over now a))
    (List.filter (λ es : env_row * session_row, e_id es.1 =?s al_env a) (env_sessions d))) (allocations d).

Definition GetRuntimeAllocationQ (tenant env : N) : tx (option AllocationRow) :=
  now ← clock_timestamp;
  query (λ d, head (List.filter (λ r, (alr_tenant r =?s tenant) && (al_env (alr_alloc r) =?s env))
    (allocation_rows now d))).

Definition ListRuntimeAllocationsQ (after : N) : tx (list AllocationRow) :=
  now ← clock_timestamp;
  query (λ d, take 32 (sort_by (λ a b : AllocationRow, (al_id (alr_alloc a) <=? al_id (alr_alloc b))%N)
    (List.filter (λ r : AllocationRow, (after <? al_id (alr_alloc r))%N && negb (al_state (alr_alloc r) =?s "released"))
      (allocation_rows now d)))).

(** (environment, tenant, engine). *)
Definition ListUnallocatedHostedEnvironmentsQ (after : N) : tx (list (N * N * string)) :=
  query (λ d, take 32 (List.map (λ es : env_row * session_row, (e_id es.1, s_tenant es.2, s_engine es.2))
    (sort_by (λ a b : env_row * session_row, (e_id a.1 <=? e_id b.1)%N)
      (List.filter (λ es : env_row * session_row,
         (after <? e_id es.1)%N && live es.2 && (e_status es.1 =?s "pending")
         && (env_type (s_config es.2) =?s "openai_hosted")
         && negb (existsb (λ a, al_env a =?s e_id es.1) (allocations d))) (env_sessions d))))).

(** [UPDATE runtime_allocations SET f WHERE id = $1 AND p RETURNING *]. *)
Definition update_allocation (id : N) (p : alloc_row → bool) (f : alloc_row → alloc_row) : tx (option alloc_row) :=
  let hit := λ a, (al_id a =?s id) && p a in
  old ← query (λ d, head (List.filter hit (allocations d)));
  match old with
  | None => mret None
  | Some a =>
      _ ← exec (λ d, with_allocations d (update_where hit f (allocations d)));
      mret (Some (f a))
  end.

Definition alloc_with (state : string) (settled : bool) (kept : Z) (released : option Z) (init : string) (a : alloc_row)
  : alloc_row :=
  MkAlloc (al_id a) (al_env a) (al_device a) (al_provider a) state settled (al_created a) kept released init.

Definition running_row (a : alloc_row) : alloc_row :=
  alloc_with "running" true (al_kept a) (al_released a) (al_init a) a.

Definition ObserveRuntimeRunningQ (id : N) : tx (option alloc_row) :=
  now ← clock_timestamp;
  update_allocation id (λ a, ((al_state a =?s "creating") || (al_state a =?s "running")) && negb (lease_over now a))
    running_row.

Definition kept_row (now : Z) (a : alloc_row) : alloc_row :=
  alloc_with (al_state a) (al_settled a) now (al_released a) (al_init a) a.

Definition KeepRuntimeAllocationQ (id : N) : tx (option alloc_row) :=
  now1 ← clock_timestamp; now2 ← clock_timestamp;
  update_allocation id (λ a, (al_state a =?s "running") && negb (lease_over now1 a)) (kept_row now2).

Definition cleanup_row (a : alloc_row) : alloc_row :=
  alloc_with "cleanup_pending" (al_settled a) (al_kept a) (al_released a) (al_init a) a.

Definition RequestRuntimeCleanupQ (id : N) : tx (option alloc_row) :=
  update_allocation id (λ a, negb (al_state a =?s "released")) cleanup_row.

Definition created_row (a : alloc_row) : alloc_row :=
  alloc_with (al_state a) true (al_kept a) (al_released a) (al_init a) a.

Definition SettleRuntimeCreationQ (id : N) : tx (option alloc_row) :=
  update_allocation id (λ a, negb (al_state a =?s "released")) created_row.

Definition released_row (now : Z) (a : alloc_row) : alloc_row :=
  alloc_with "released" (al_settled a) (al_kept a) (Some now) (al_init a) a.

Definition ReleaseRuntimeAllocationQ (id : N) : tx (option alloc_row) :=
  now ← clock_timestamp;
  update_allocation id (λ a, (al_state a =?s "cleanup_pending") && al_settled a) (released_row now).

Definition init_row (init : string) (a : alloc_row) : alloc_row :=
  alloc_with (al_state a) (al_settled a) (al_kept a) (al_released a) init a.

Definition initializing (init : string) (now : Z) (a : alloc_row) : bool :=
  (al_init a =?s init) && (al_state a =?s "running") && al_settled a && negb (lease_over now a).

Definition ClaimRuntimeInitializationQ (id : N) : tx (option alloc_row) :=
  now ← clock_timestamp;
  update_allocation id (initializing "pending" now) (init_row "running").

Definition CompleteRuntimeInitializationQ (id : N) : tx (option alloc_row) :=
  now ← clock_timestamp;
  update_allocation id (initializing "running" now) (init_row "complete").

(** Whether the Session's runtime is ready; no row for an unknown Session. *)
Definition GetSessionInitializationReady (tenant session : N) : tx (option bool) :=
  query (λ d,
    if tenant_session d tenant session then
      let allocated := λ p : string → bool, existsb (λ a, p (al_init a)
        && existsb (λ e, (e_id e =?s al_env a) && (e_session e =?s session)) (environments d)) (allocations d) in
      Some (negb (allocated (λ s, negb (s =?s "complete")))
        && ((negb (existsb (file_of session) (initial_files d)) && negb (existsb (N.eqb session) (setups d)))
            || allocated (λ s, s =?s "complete")))
    else None).

End env_queries.
