(* ===== verification/SessionLog.v ===== *)
(** * SessionLog

    The append-only public change log of a Session and the Item projection that
    feeds it: [session_transaction.go], [session_events.go], [item_events.go],
    [item_projection.go], [token_usage.go], [subagent_identities.go],
    [function_state.go] and [artifact_lifecycle.go] of
    [services/agents-api/internal/store]. *)
From stdpp Require Import base tactics list strings numbers.
From S2P Require Import Prelude GoJson Contract Items Database Queries.

Section session_log.
Context `{UUIDs, Oracle, EventSizes}.

(** ** Identifiers and canonical JSON *)

Definition parseID (value : string) : result N :=
  match uuid_parse value with
  | Some id => if (id =?s 0%N) then Err ErrInvalidInput else Ok id
  | None => Err ErrInvalidInput
  end.

Definition canonicalJSONObject (raw : raw_message) : result json :=
  if raw_len raw =? 0 then Ok (JObj [])
  else match raw_values raw with
       | JObj kvs :: rest =>
           match rest, raw_end raw with
           | [], AtEOF => Ok (json_canon (JObj kvs))
           | _, _ => Err ErrInvalidInput
           end
       | _ => Err ErrInvalidInput
       end.

(** ** Session transactions *)

Definition withSessionState {A} (public : bool) (tenantID sessionID : string) (apply : N → tx A) : tx A :=
  tenant ← of_result (parseID tenantID);
  id ← of_result (parseID sessionID);
  begin_func (
    session ← LockSession tenant id;
    match session with
    | None => throw ErrNotFound
    | Some s =>
        if public && bool_decide (is_Some (s_deleted s)) then throw ErrNotFound else
        a ← apply id;
        _ ← PruneSessionEvents id;
        mret a
    end).

Definition withSession {A} := @withSessionState A false.
Definition withPublicSession {A} := @withSessionState A true.

(** ** Statuses *)

Definition terminalStatus (s : string) : bool :=
  (s =?s "completed") || (s =?s "failed") || (s =?s "cancelled").

Definition turnFromRow (row : turn_row) : Turn :=
  MkTurn (uuid_string (t_id row)) (uuid_string (t_session row)) (t_status row) (t_created row)
    (t_started row) (t_completed row) (t_cancel row) (t_usage row) (Some (t_outcome row)) (t_capture row).

Definition without_outcome (t : Turn) : Turn :=
  MkTurn (tn_id t) (tn_session t) (tn_status t) (tn_created t) (tn_started t) (tn_completed t)
    (tn_cancel t) (tn_usage t) None (tn_capture t).

(** ** Appending changes *)

Definition set_event_ids (eid sid : string) (e : SessionEvent) : SessionEvent :=
  MkEvent (ev_type e) eid sid (ev_turn e) (ev_item e) (ev_item_id e) (ev_output_index e)
    (ev_content_index e) (ev_part e) (ev_delta e) (ev_text e) (ev_environment e).

Definition recordSessionChange (session : N) (change : SessionChange) : tx unit :=
  eid ← uuid_new;
  AppendSessionEvent session
    (MkChange (sc_sequence change) (set_event_ids (uuid_string eid) (uuid_string session) (sc_event change))
       (sc_turn change) (sc_usage change) (sc_actions change) (sc_activity change)).

Definition event_change (e : SessionEvent) : SessionChange := MkChange 0 e None None [] None.

(** *** Item changes *)

Section item_change.
Context (session : N) (index : option Z) (previous item : Item) (delta : option string).

(** Function results are Session inputs, not output Items. *)
Let index' : option Z := if it_type item =?s "function_call_output" then None else index.

Definition item_event (kind : string) (it : option Item) (item_id : string) (content_index : option Z)
    (part : option ItemContent) (dl text : option string) : SessionEvent :=
  MkEvent kind "" "" (it_turn item) it item_id index' content_index part dl text None.

Definition emit (kind : string) (e : SessionEvent) : tx unit :=
  recordSessionChange session (event_change
    (MkEvent ("agent.session.turn." +:+ kind) (ev_id e) (ev_session e) (ev_turn e) (ev_item e) (ev_item_id e)
       (ev_output_index e) (ev_content_index e) (ev_part e) (ev_delta e) (ev_text e) (ev_environment e))).

(** The single text content of an assistant message, if that is what it is. *)
Definition textMessage : option ItemContent :=
  if (it_type item =?s "message") && (it_role item =?s "assistant") then
    match it_content item with
    | [c] => match ct_text c with Some _ => Some c | None => None end
    | _ => None
    end
  else None.

Definition record_added : tx unit :=
  if negb (it_id previous =?s "") then mret tt else
  let initial := match textMessage, delta with
                 | Some _, Some _ => set_content item [MkContent "output_text" (Some "") ""]
                 | _, _ => item end in
  _ ← emit "item.added" (item_event "" (Some initial) "" None None None None);
  match textMessage with
  | Some _ => emit "content_part.added"
                (item_event "" None (it_id item) (Some 0) (head (it_content initial)) None None)
  | None => mret tt
  end.

Definition record_text (c : ItemContent) : tx unit :=
  _ ← match delta with
      | Some d => if d =?s "" then mret tt
                  else emit "output_text.delta" (item_event "" None (it_id item) (Some 0) None (Some d) None)
      | None => mret tt
      end;
  if it_status item =?s "in_progress" then mret tt
  else
    _ ← emit "output_text.done" (item_event "" None (it_id item) (Some 0) None None (ct_text c));
    emit "content_part.done" (item_event "" None (it_id item) (Some 0) (Some c) None None).

Definition recordItemChange : tx unit :=
  if bool_decide (previous = item) then mret tt else
  _ ← record_added;
  match index' with
  | None => mret tt
  | Some _ =>
    match (it_type item =?s "command_execution"), delta with
    | true, Some d =>
        recordSessionChange session (event_change
          (item_event "agent.output.command_execution_output.delta" None (it_id item) None None (Some d) None))
    | _, _ =>
        _ ← match textMessage with Some c => record_text c | None => mret tt end;
        if it_status item =?s "in_progress" then mret tt
        else emit "item.done" (item_event "" (Some item) "" None None None None)
    end
  end.
End item_change.

(** ** Projection *)

Definition restoreFunctionItemResult (session turn : N) (item : Item) : tx Item :=
  if negb (it_type item =?s "function_call_output") then mret item else
  res ← FunctionItemResult session turn (it_call item);
  match res with
  | Some (Some j) =>
      match j with
      | JObj fields =>
          let raw k := match obj_get k fields with Some v => GRaw v | None => GNil end in
          mret (set_error (set_output item (raw "output")) (raw "error"))
      | JNull => mret (set_error (set_output item GNil) GNil)
      | _ => throw (ErrOther "json")
      end
  | _ => mret item
  end.

Definition event_delta (kind : string) (update : Update) : option string :=
  if kind =?s "delta" then head (it_content (up_item update)) ≫= ct_text
  else if kind =?s "command_output" then up_command_delta update
  else None.

Definition project_update (session turn : N) (kind : string) (created : Z) (update : Update) : tx unit :=
  let id := match parseID (it_id (up_item update)) with Ok u => u | Err _ => 0%N end in
  native ← (if up_legacy update then HasNativeMessageItem turn id else mret false);
  if native : bool then mret tt else
  old ← GetSessionItem session id;
  previous ← match old with
             | Some row => of_result (decode_or (UnmarshalItem (si_payload row)))
             | None => mret zero_item
             end;
  item ← of_result (Merge update previous);
  item ← restoreFunctionItemResult session turn item;
  stored ← PutSessionItem id session turn created (enc_item item)
             (negb (kind =?s "message") && negb (it_type item =?s "function_call_output"));
  recordItemChange session (si_output stored) previous item (event_delta kind update).

Definition projectItemSource (session turn : N) (kind : string) (sequence : Z) (raw : json) (created : Z) : tx unit :=
  updates ← of_result (Project (uuid_string turn) kind sequence raw);
  tx_iter (project_update session turn kind created) updates.

(** *** Token usage *)

(** [json.Unmarshal(raw, &object)] into a nil [map[string]json.RawMessage]. *)
Definition as_map (raw : option json) : option (list (string * json)) :=
  match raw with
  | Some JNull => Some []
  | Some (JObj kvs) => Some kvs
  | _ => None
  end.

Definition token_count (tokens : list (string * json)) (key : string) : option Z :=
  match obj_get key tokens with
  | Some (JNum lit) => n ← parse_int64 lit; if n <? 0 then None else Some n
  | _ => None
  end.

(** [map[string]*int64]: every member must be an int64 or null. *)
Definition token_map (raw : option json) : option (list (string * json)) :=
  kvs ← as_map raw;
  if List.forallb (λ kv, match kv.2 with
                         | JNull => true
                         | JNum lit => bool_decide (is_Some (parse_int64 lit))
                         | _ => false end) kvs
  then Some kvs else None.

Definition usage_of_tokens (tokens : list (string * json)) : option TokenUsage :=
  input ← token_count tokens "input_tokens";
  output ← token_count tokens "output_tokens";
  cached ← token_count tokens "cached_input_tokens";
  reasoning ← token_count tokens "reasoning_output_tokens";
  total ← token_count tokens "total_tokens";
  if (input <? cached) || (output <? reasoning) || (int64_max - output <? input)
     || negb (total =? input + output) then None
  else Some (MkUsage input output total cached reasoning).

Definition measuredUsage (kind : string) (raw : json) : option TokenUsage :=
  object ← as_map (Some raw);
  kind_object ← (if kind =?s "cancel_receipt" then
      applied ← (match obj_get "applied" object with Some v => dec_bool false v | None => None end);
      if applied : bool then o ← as_map (obj_get "outcome" object); Some ("done", o) else None
    else Some (kind, object));
  kind_object ← (if has_prefix kind_object.1 "execution_" then
      o ← as_map (obj_get "done" kind_object.2); Some ("done", o)
    else Some kind_object);
  object ← (if kind_object.1 =?s "done" then as_map (obj_get "usage" kind_object.2)
            else if kind_object.1 =?s "usage" then Some kind_object.2 else None);
  tokens ← token_map (obj_get "tokens" object);
  usage_of_tokens tokens.

(** *** Subagent identities *)

Record SubagentIdentityPayload := MkIdentity {
  sp_native : string; sp_parent : string; sp_created : Z; sp_turn : string; sp_item : string }.

Definition dec_identity : decoder SubagentIdentityPayload := dec_struct (λ p k v,
  if key_is "native_id" k then s ← dec_string (sp_native p) v; Some (MkIdentity s (sp_parent p) (sp_created p) (sp_turn p) (sp_item p))
  else if key_is "parent_native_id" k then s ← dec_string (sp_parent p) v; Some (MkIdentity (sp_native p) s (sp_created p) (sp_turn p) (sp_item p))
  else if key_is "native_created_at" k then n ← dec_int64 (sp_created p) v; Some (MkIdentity (sp_native p) (sp_parent p) n (sp_turn p) (sp_item p))
  else if key_is "parent_turn_id" k then s ← dec_string (sp_turn p) v; Some (MkIdentity (sp_native p) (sp_parent p) (sp_created p) s (sp_item p))
  else if key_is "source_item_id" k then s ← dec_string (sp_item p) v; Some (MkIdentity (sp_native p) (sp_parent p) (sp_created p) (sp_turn p) s)
  else Some p).

Definition bad_identity_text (value : string) : bool :=
  (value =?s "") || (512 <? str_len value) || negb (TrimSpace value =?s value) || contains_any value [0;13;10]%nat.

Definition projectSubagentIdentity (session turn : N) (ordinal : Z) (raw : json) : tx unit :=
  match dec_identity (MkIdentity "" "" 0 "" "") raw with
  | None => throw ErrInvalidInput
  | Some p =>
      _ ← require (negb ((sp_created p <=? 0) || (sp_native p =?s sp_parent p))) ErrInvalidInput;
      _ ← require (negb (existsb bad_identity_text [sp_native p; sp_parent p; sp_turn p; sp_item p])) ErrInvalidInput;
      id ← uuid_new;
      put ← PutSubagentIdentity id session (sp_native p) (sp_parent p) (sp_created p) turn ordinal;
      match put with Some _ => mret tt | None => throw ErrIdempotencyConflict end
  end.

Definition projectSource (session turn : N) (kind : string) (sequence : Z) (raw : json) (created : Z) : tx unit :=
  if kind =?s "subagent_identity" then projectSubagentIdentity session turn (wrap32 sequence) raw
  else
    _ ← match measuredUsage kind raw with Some u => PutTurnUsage session turn u | None => mret tt end;
    projectItemSource session turn kind sequence raw created.

Definition indexInput (session : N) (sequence : Z) : tx unit :=
  row ← ItemInputSource session sequence;
  match row with
  | None => throw ErrNoRows
  | Some row =>
      if negb (in_kind row =?s "message") then mret tt
      else match in_turn row with
           | Some turn => projectSource session turn (in_kind row) (in_seq row) (in_payload row) (in_created row)
           | None => throw (ErrOther "message without a turn")
           end
  end.

Definition indexEvents (session turn : N) (first : Z) : tx unit :=
  rows ← ItemEventSources session turn first;
  tx_iter (λ row, projectSource session turn (te_kind row) (te_ordinal row) (te_payload row) (te_created row)) rows.

(** ** Turn changes *)

Definition settleTurnArtifacts (row : turn_row) : tx unit :=
  if t_status row =?s "completed" then PublishTurnArtifacts (t_session row) (t_id row) (t_completed row)
  else DeleteUnpublishedTurnArtifacts (t_session row) (t_id row).

Definition acceptsFunctionResult (t : turn_row) : bool :=
  ((t_status t =?s "in_progress") || (t_status t =?s "waiting")) && bool_decide (t_cancel t = None).

Definition functionActions (turn : turn_row) : tx (list FunctionCallAction) :=
  if negb (acceptsFunctionResult turn) then mret [] else
  calls ← ListPendingFunctionCalls (t_session turn) (t_id turn);
  mret (List.map (λ c, MkFunctionAction "function_call" (fc_call c) (fc_name c) (uuid_string (t_id turn)) (fc_args c)) calls).

Definition recordSessionActivity (row : turn_row) (actions : list FunctionCallAction) : tx unit :=
  let status := if terminalStatus (t_status row) then (if t_status row =?s "failed" then "failed" else "idle")
                else if negb (bool_decide (actions = [])) then "requires_action" else "in_progress" in
  usage ← SessionTokenUsage (t_session row);
  recordSessionChange (t_session row)
    (MkChange 0 (MkEvent ("agent.session." +:+ status) "" "" "" None "" None None None None None None)
       (Some (without_outcome (turnFromRow row))) usage actions None).

Definition finish_item (session : N) (row : item_row) : tx unit :=
  value ← of_result (decode_or (UnmarshalItem (si_payload row)));
  recordItemChange session (si_output row) (set_status value "in_progress") value None.

Definition recordTurnChange (row : turn_row) (created : bool) : tx unit :=
  if t_status row =?s "waiting" then mret tt else
  _ ← (if terminalStatus (t_status row) then
         _ ← settleTurnArtifacts row;
         unfinished ← FinishSessionItems (t_session row) (t_id row);
         tx_iter (finish_item (t_session row)) (sort_by (λ a b, si_position a <=? si_position b) unfinished)
       else mret tt);
  let kind := if created then "created" else t_status row in
  _ ← recordSessionChange (t_session row)
        (MkChange 0 (MkEvent ("agent.session.turn." +:+ kind) "" "" (uuid_string (t_id row)) None "" None None None None None None)
           (Some (without_outcome (turnFromRow row))) None [] None);
  if negb created && negb (terminalStatus (t_status row)) then mret tt
  else recordSessionActivity row [].

(** [recordFunctionState]: a Turn waits exactly while it has pending calls. *)
Definition recordFunctionState (turn : turn_row) : tx unit :=
  actions ← functionActions turn;
  let status := if bool_decide (actions = []) then "in_progress" else "waiting" in
  turn ← (if negb (t_status turn =?s status) then
            moved ← TransitionTurnQ (t_id turn) (t_session turn) (t_status turn) status (JObj []);
            match moved with
            | None => throw ErrNoRows
            | Some turn => _ ← recordTurnChange turn false; mret turn
            end
          else mret turn);
  recordSessionActivity turn actions.

End session_log.
