(* ===== verification/Turns.v ===== *)
(** * Turns

    The operations of [services/agents-api/internal/store] that admit inputs,
    move Turns through their life cycle, record execution events and function
    calls, and read them back.  Names are those of the Go methods; [tenantID],
    [sessionID] and [turnID] are the caller's strings. *)
From stdpp Require Import base tactics list strings numbers.
From S2P Require Import Prelude GoJson Contract Items Database Queries SessionLog.

Section turns.
Context `{UUIDs, Oracle, EventSizes}.

(** ** Lookups *)

Record TurnLookup := MkLookup { lk_tenant : N; lk_session : N; lk_turn : N }.

Definition turnLookup (tenantID sessionID turnID : string) : result TurnLookup :=
  tenant ← parseID tenantID;
  session ← parseID sessionID;
  turn ← parseID turnID;
  Ok (MkLookup tenant session turn).

Definition get_turn (p : TurnLookup) : tx (option turn_row) :=
  GetTurnQ (lk_tenant p) (lk_session p) (lk_turn p).

(** [GetTurn] with [pgx.ErrNoRows] turned into [ErrNotFound]. *)
Definition must_turn (p : TurnLookup) : tx turn_row :=
  t ← get_turn p;
  match t with Some t => mret t | None => throw ErrNotFound end.

Definition GetTurn (tenantID sessionID turnID : string) : tx Turn :=
  p ← of_result (turnLookup tenantID sessionID turnID);
  t ← must_turn p;
  mret (turnFromRow t).

(** ** Transitions *)

Definition validTransition (from to : string) : bool :=
  if from =?s "queued" then (to =?s "in_progress") || (to =?s "failed") || (to =?s "cancelled")
  else if from =?s "in_progress" then (to =?s "waiting") || terminalStatus to
  else if from =?s "waiting" then (to =?s "in_progress") || terminalStatus to
  else false.

Definition transitionTurn (p : TurnLookup) (expected status : string) (outcome : json) : tx turn_row :=
  _ ← must_turn p;
  moved ← TransitionTurnQ (lk_turn p) (lk_session p) expected status outcome;
  match moved with
  | None => throw ErrTurnConflict
  | Some row =>
      row ← (if terminalStatus (t_status row) then
               _ ← projectSource (t_session row) (t_id row) ("execution_" +:+ t_status row) 0 (t_outcome row)
                     (default 0 (t_completed row));
               again ← get_turn p;
               match again with Some r => mret r | None => throw ErrNoRows end
             else mret row);
      _ ← recordTurnChange row false;
      mret row
  end.

Definition max_payload : Z := 512 * 1024.

Definition TransitionTurn (tenantID sessionID turnID expected status : string) (outcome : raw_message) : tx Turn :=
  p ← of_result (turnLookup tenantID sessionID turnID);
  _ ← require (validTransition expected status && (raw_len outcome <=? max_payload)) ErrInvalidInput;
  outcome ← of_result (canonicalJSONObject outcome);
  _ ← require (terminalStatus status || bool_decide (outcome = JObj [])) ErrInvalidInput;
  row ← withSession tenantID sessionID (λ _, transitionTurn p expected status outcome);
  mret (turnFromRow row).

(** ** Cancellation *)

Definition requestTurnCancel (session : N) (turn : turn_row) : tx unit :=
  _ ← RequestTurnCancel (t_id turn) session;
  if t_status turn =?s "queued" then
    cancelled ← SessionEventTurn session (t_id turn);
    match cancelled with
    | Some row => recordTurnChange row false
    | None => throw ErrNoRows
    end
  else if (t_status turn =?s "waiting") && bool_decide (t_cancel turn = None) then
    cancelling ← SessionEventTurn session (t_id turn);
    match cancelling with
    | Some row => recordSessionActivity row []
    | None => throw ErrNoRows
    end
  else mret tt.

Definition cancelSessionWork (session : N) : tx unit :=
  turn ← GetActiveTurn session;
  _ ← match turn with Some t => requestTurnCancel session t | None => mret tt end;
  CancelSessionEnvironmentInput session.

Definition DeleteSession (tenantID sessionID : string) : tx unit :=
  withPublicSession tenantID sessionID (λ session,
    _ ← cancelSessionWork session;
    _ ← DeleteSessionArtifacts session;
    MarkSessionDeleted session).

(** ** Function results *)

Definition validFunctionIdentity (id : string) : bool :=
  negb (TrimSpace id =?s "") && (str_len id <=? 512).

Record FunctionResultInput := MkResultInput { fr_turn : string; fr_call : string; fr_result : option json }.

Definition dec_function_input : decoder FunctionResultInput := dec_struct (λ p k v,
  if key_is "turn_id" k then s ← dec_string (fr_turn p) v; Some (MkResultInput s (fr_call p) (fr_result p))
  else if key_is "call_id" k then s ← dec_string (fr_call p) v; Some (MkResultInput (fr_turn p) s (fr_result p))
  else if key_is "result" k then r ← dec_raw (fr_result p) v; Some (MkResultInput (fr_turn p) (fr_call p) r)
  else Some p).

(** (turn id, call id, canonical result). *)
Definition functionInput (raw : json) : result (string * string * json) :=
  match dec_function_input (MkResultInput "" "" None) raw with
  | Some (MkResultInput turn call (Some res)) =>
      if negb (validFunctionIdentity call) then Err ErrInvalidInput
      else match uuid_parse turn with
           | None => Err ErrInvalidInput
           | Some _ => res ← canonicalJSONObject (raw_of res); Ok (turn, call, res)
           end
  | _ => Err ErrInvalidInput
  end.

Definition storeFunctionResult (turn : turn_row) (callID : string) (res : json) : tx unit :=
  m ← MatchFunctionResult (t_session turn) (t_id turn) callID res;
  match m with
  | None => throw ErrNotFound
  | Some (true, matches) => require matches ErrIdempotencyConflict
  | Some (false, _) =>
      _ ← require (acceptsFunctionResult turn) ErrTurnConflict;
      SubmitFunctionResultQ (t_session turn) (t_id turn) callID res
  end.

Definition withFunctionCall (tenantID sessionID turnID callID : string)
    (fn : turn_row → call_row → tx unit) : tx unit :=
  p ← of_result (turnLookup tenantID sessionID turnID);
  _ ← require (validFunctionIdentity callID) ErrInvalidInput;
  withSession tenantID sessionID (λ session,
    turn ← must_turn p;
    call ← GetFunctionCallQ (lk_tenant p) session (lk_turn p) callID;
    match call with
    | None => throw ErrNotFound
    | Some call => fn turn call
    end).

Definition SubmitFunctionResult (tenantID sessionID turnID callID : string) (res : raw_message) : tx unit :=
  _ ← require (negb (raw_len res =? 0) && (raw_len res <=? max_payload)) ErrInvalidInput;
  res ← of_result (canonicalJSONObject res);
  withFunctionCall tenantID sessionID turnID callID (λ turn call, storeFunctionResult turn (fc_call call) res).

Definition ConfirmFunctionResult (tenantID sessionID turnID callID : string) : tx unit :=
  withFunctionCall tenantID sessionID turnID callID (λ turn call,
    if fc_applied call then mret tt else
    _ ← require (bool_decide (is_Some (fc_result call)) && acceptsFunctionResult turn) ErrTurnConflict;
    _ ← ApplyFunctionResult (t_session turn) (t_id turn) (fc_call call);
    recordFunctionState turn).

Record FunctionCall := MkFunctionCall {
  call_id : string; call_executor : string; call_name : string;
  call_args : raw_message; call_result : option json; call_applied : bool }.

Definition RecordFunctionCall (tenantID sessionID turnID : string) (call : FunctionCall) : tx unit :=
  p ← of_result (turnLookup tenantID sessionID turnID);
  _ ← require (validFunctionIdentity (call_id call) && validFunctionIdentity (call_executor call)
               && validFunctionIdentity (call_name call) && (raw_len (call_args call) <=? max_payload)
               && bool_decide (call_result call = None) && negb (call_applied call)) ErrInvalidInput;
  match raw_value (call_args call) with
  | None => throw ErrInvalidInput
  | Some args =>
    withSession tenantID sessionID (λ session,
      turn ← must_turn p;
      m ← MatchFunctionCall session (lk_turn p) (call_id call) (call_executor call) (call_name call) args;
      match m with
      | Some matches => require matches ErrIdempotencyConflict
      | None =>
          _ ← require (acceptsFunctionResult turn) ErrTurnConflict;
          count ← CreateFunctionCall session (lk_turn p) (call_id call) (call_executor call) (call_name call) args;
          _ ← require (count =? 1) ErrIdempotencyConflict;
          recordFunctionState turn
      end)
  end.

Definition functionCallFromRow (row : call_row) : FunctionCall :=
  MkFunctionCall (fc_call row) (fc_executor row) (fc_name row) (raw_of (fc_args row)) (fc_result row) (fc_applied row).

Definition GetFunctionCall (tenantID sessionID turnID callID : string) : tx FunctionCall :=
  p ← of_result (turnLookup tenantID sessionID turnID);
  _ ← require (validFunctionIdentity callID) ErrInvalidInput;
  call ← GetFunctionCallQ (lk_tenant p) (lk_session p) (lk_turn p) callID;
  match call with Some c => mret (functionCallFromRow c) | None => throw ErrNotFound end.

Definition PendingFunctionCalls (tenantID sessionID turnID : string) : tx (list FunctionCall) :=
  p ← of_result (turnLookup tenantID sessionID turnID);
  withSession tenantID sessionID (λ session,
    _ ← must_turn p;
    rows ← ListPendingFunctionCalls session (lk_turn p);
    mret (List.map functionCallFromRow rows)).

(** ** Input admission *)

Record Input := MkInput { inp_kind : string; inp_payload : raw_message }.

Record InputReceipt := MkReceipt { rc_sequence : Z; rc_turn : string; rc_replayed : bool }.

Definition inputReceipt (sequence : Z) (turn : option N) (replayed : bool) : InputReceipt :=
  MkReceipt sequence (match turn with Some t => uuid_string t | None => "" end) replayed.

Definition validateInputKey (key : string) : result unit :=
  reject_if ((TrimSpace key =?s "") || (128 <? str_len key)) ErrInvalidInput.

(** A validated input: kind and canonical payload. *)
Definition CanonInput := (string * json)%type.

Definition validate_input (input : Input) : result CanonInput :=
  payload ← canonicalJSONObject (inp_payload input);
  _ ← reject_if ((inp_kind input =?s "cancel") && negb (bool_decide (payload = JObj []))) ErrInvalidInput;
  _ ← (if inp_kind input =?s "tool_result" then functionInput payload ≫= λ _, Ok tt else Ok tt);
  Ok (inp_kind input, payload).

Fixpoint validate_inputs (size : Z) (inputs : list Input) : result (list CanonInput) :=
  match inputs with
  | [] => Ok []
  | input :: inputs' =>
      let size := size + raw_len (inp_payload input) in
      _ ← reject_if ((max_payload <? size) || (raw_len (inp_payload input) =? 0)
                     || negb (input_kind_ok (inp_kind input))) ErrInvalidInput;
      i ← validate_input input;
      rest ← validate_inputs size inputs';
      Ok (i :: rest)
  end.

Definition encode_batch (batch : list CanonInput) : json :=
  JArr (List.map (λ i, input_json i.1 i.2) batch).

Definition validateInputs (inputs : list Input) : result (list CanonInput * json) :=
  _ ← reject_if (bool_decide (inputs = []) || (64 <? Z.of_nat (length inputs))) ErrInvalidInput;
  batch ← validate_inputs 0 inputs;
  Ok (batch, encode_batch batch).

Fixpoint batch_receipts (rows : list InputBatchRow) : result (list InputReceipt) :=
  match rows with
  | [] => Ok []
  | row :: rows' =>
      _ ← reject_if (negb (ibr_matches row)) ErrIdempotencyConflict;
      rs ← batch_receipts rows';
      Ok (inputReceipt (ibr_seq row) (ibr_turn row) true :: rs)
  end.

Definition inputBatchReceipts (session : N) (key : string) (batch : json) : tx (list InputReceipt) :=
  rows ← FindInputBatch session key batch;
  of_result (batch_receipts rows).

Definition checkEnvironmentFileWriteGate (session : N) : tx unit :=
  blocked ← EnvironmentFileWriteBlocksSession session;
  require (negb blocked) ErrTurnConflict.

Definition checkEnvironmentInputGate (session : N) (key : string) (batch : json) : tx unit :=
  gate ← CheckEnvironmentInputGate session key batch;
  _ ← require gate.1 ErrIdempotencyConflict;
  require (negb gate.2) ErrTurnConflict.

Definition admitFunctionResult (tenantID : string) (session : N) (key : string) (position : Z) (input : CanonInput)
  : tx InputReceipt :=
  r ← of_result (functionInput input.2);
  p ← of_result (turnLookup tenantID (uuid_string session) r.1.1);
  turn ← must_turn p;
  _ ← storeFunctionResult turn r.1.2 r.2;
  sequence ← CreateTurnInput session (Some (t_id turn)) key input.1 input.2 position;
  mret (inputReceipt sequence (Some (t_id turn)) false).

(** The Turn an input belongs to: the active one, a new one for a message, none
    for a cancellation of an idle Session. *)
Definition input_turn (session : N) (kind : string) : tx (option turn_row) :=
  active ← GetActiveTurn session;
  match active with
  | Some t => mret (Some t)
  | None =>
      if kind =?s "message" then
        id ← uuid_new;
        turn ← CreateTurn id session;
        _ ← recordTurnChange turn true;
        mret (Some turn)
      else mret None
  end.

Definition admitInput (tenantID : string) (session : N) (key : string) (position : Z) (input : CanonInput)
  : tx InputReceipt :=
  if input.1 =?s "tool_result" then admitFunctionResult tenantID session key position input else
  turn ← input_turn session input.1;
  sequence ← CreateTurnInput session (t_id <$> turn) key input.1 input.2 position;
  _ ← match turn with
      | Some t => if input.1 =?s "cancel" then requestTurnCancel session t else mret tt
      | None => mret tt
      end;
  _ ← indexInput session sequence;
  mret (inputReceipt sequence (t_id <$> turn) false).

Fixpoint admit_batch (tenantID : string) (session : N) (key : string) (position : Z) (batch : list CanonInput)
  : tx (list InputReceipt) :=
  match batch with
  | [] => mret []
  | input :: batch' =>
      r ← admitInput tenantID session key position input;
      rs ← admit_batch tenantID session key (position + 1) batch';
      mret (r :: rs)
  end.

(** The body [SubmitInputs] runs under the Session lock. *)
Definition submit_batch (tenantID key : string) (batch : list CanonInput) (encoded : json) (session : N)
  : tx (list InputReceipt) :=
  previous ← inputBatchReceipts session key encoded;
  match previous with
  | _ :: _ => mret previous
  | [] =>
      _ ← (if existsb (λ i : CanonInput, i.1 =?s "message") batch then checkEnvironmentFileWriteGate session else mret tt);
      _ ← checkEnvironmentInputGate session key encoded;
      admit_batch tenantID session key 0 batch
  end.

Definition SubmitInputs (tenantID sessionID key : string) (inputs : list Input) : tx (list InputReceipt) :=
  _ ← of_result (validateInputKey key);
  be ← of_result (validateInputs inputs);
  withPublicSession tenantID sessionID (submit_batch tenantID key be.1 be.2).

(** [receipts[0]] panics on an empty slice, which SubmitInputs never returns. *)
Definition submitOne (tenantID sessionID key : string) (input : Input) : tx InputReceipt :=
  receipts ← SubmitInputs tenantID sessionID key [input];
  match receipts with r :: _ => mret r | [] => throw (ErrOther "index out of range") end.

Definition SubmitMessage (tenantID sessionID key : string) (payload : raw_message) : tx InputReceipt :=
  submitOne tenantID sessionID key (MkInput "message" payload).

Definition RequestCancel (tenantID sessionID key : string) : tx InputReceipt :=
  submitOne tenantID sessionID key (MkInput "cancel" (raw_of (JObj []))).

Record TurnInput := MkTurnInput { ti_sequence : Z; ti_kind : string; ti_payload : json; ti_created : Z }.

Definition ListTurnInputs (tenantID sessionID turnID : string) (after limit : Z) : tx (list TurnInput) :=
  p ← of_result (turnLookup tenantID sessionID turnID);
  _ ← require ((0 <=? after) && (1 <=? limit) && (limit <=? 100)) ErrInvalidInput;
  _ ← GetTurn tenantID sessionID turnID;
  rows ← ListTurnInputsQ (lk_tenant p) (lk_session p) (lk_turn p) after limit;
  mret (List.map (λ i, MkTurnInput (in_seq i) (in_kind i) (in_payload i) (in_created i)) rows).

(** ** Execution events *)

Definition in_range (lo hi : nat) (c : Ascii.ascii) : bool :=
  (lo <=? Ascii.nat_of_ascii c)%nat && (Ascii.nat_of_ascii c <=? hi)%nat.

Fixpoint engine_tail (s : string) : bool :=
  match s with
  | EmptyString => true
  | String.String c s' =>
      (in_range 97 122 c || in_range 48 57 c || in_range 95 95 c || in_range 45 45 c) && engine_tail s'
  end.

(** The regular expression [^[a-z][a-z0-9_-]{0,63}$]. *)
Definition enginePattern (s : string) : bool :=
  match s with
  | String.String c s' => in_range 97 122 c && engine_tail s' && (str_len s' <=? 63)
  | EmptyString => false
  end.

Record ExecutionEvent := MkExecEvent { xe_kind : string; xe_payload : raw_message }.

Fixpoint normalize_events (leased : bool) (events : list ExecutionEvent) : result (list (string * json)) :=
  match events with
  | [] => Ok []
  | e :: events' =>
      _ ← reject_if ((xe_kind e =?s "subagent_identity") && negb leased)
            (ErrOther "subagent discovery requires a leased Store");
      _ ← reject_if ((max_payload <? raw_len (xe_payload e)) || negb (enginePattern (xe_kind e))) ErrInvalidInput;
      payload ← canonicalJSONObject (xe_payload e);
      es ← normalize_events leased events';
      Ok ((xe_kind e, payload) :: es)
  end.

Definition payload_bytes (events : list (string * json)) : Z :=
  fold_right (λ e acc, json_len e.2 + acc) 0 events.

Definition max_events : Z := 65536.
Definition max_event_bytes : Z := 32 * 1024 * 1024.

Definition append_events (p : TurnLookup) (first : Z) (events : list (string * json)) : tx unit :=
  let n := Z.of_nat (length events) in
  turn ← must_turn p;
  if first <=? t_event_count turn then
    matches ← MatchTurnEventBatch (lk_session p) (lk_turn p) first n events;
    require matches ErrIdempotencyConflict
  else
    _ ← require (((t_status turn =?s "in_progress") || (t_status turn =?s "waiting"))
                 && (first =? wrap32 (t_event_count turn + 1))) ErrTurnConflict;
    _ ← require ((wrap32 (t_event_count turn + n) <=? max_events)
                 && (t_event_bytes turn + payload_bytes events <=? max_event_bytes)) ErrEventLimit;
    _ ← InsertTurnEventBatch (lk_session p) (lk_turn p) first events;
    _ ← indexEvents (lk_session p) (lk_turn p) first;
    CountTurnEvent (lk_session p) (lk_turn p) n (payload_bytes events).

Definition AppendTurnEvents (leased : bool) (tenantID sessionID turnID : string) (first : Z)
    (events : list ExecutionEvent) : tx unit :=
  p ← of_result (turnLookup tenantID sessionID turnID);
  _ ← require ((1 <=? first) && negb (bool_decide (events = [])) && (Z.of_nat (length events) <=? 64)) ErrInvalidInput;
  normalized ← of_result (normalize_events leased events);
  _ ← require (payload_bytes normalized <=? 1024 * 1024) ErrEventLimit;
  withSession tenantID sessionID (λ _, append_events p first normalized).

Definition insertTurnEvent (turn : turn_row) (kind : string) (payload : json) : tx unit :=
  _ ← InsertTurnEvent (t_session turn) (t_id turn) (t_event_count turn + 1) kind payload;
  _ ← CountTurnEvent (t_session turn) (t_id turn) 1 (json_len payload);
  indexEvents (t_session turn) (t_id turn) (t_event_count turn + 1).

Record TurnEvent := MkTurnEventView { tv_ordinal : Z; tv_kind : string; tv_payload : json; tv_created : Z }.

Definition ListTurnEvents (tenantID sessionID turnID : string) (after limit : Z) : tx (list TurnEvent) :=
  p ← of_result (turnLookup tenantID sessionID turnID);
  _ ← require ((0 <=? after) && (1 <=? limit) && (limit <=? 100)) ErrInvalidInput;
  _ ← GetTurn tenantID sessionID turnID;
  rows ← ListTurnEventsQ (lk_tenant p) (lk_session p) (lk_turn p) after limit;
  mret (List.map (λ e, MkTurnEventView (te_ordinal e) (te_kind e) (te_payload e) (te_created e)) rows).

(** ** Completion *)

Definition complete_turn (p : TurnLookup) (status : string) (outcome : json) (nativeID : string)
    (appliedThrough : Z) (session : N) : tx turn_row :=
  current ← must_turn p;
  _ ← require ((t_status current =?s "in_progress")
               || ((t_status current =?s "waiting") && negb (status =?s "completed"))) ErrTurnConflict;
  _ ← (if status =?s "completed" then
         pending ← HasUnappliedMessages session (lk_turn p) appliedThrough;
         require (negb pending) ErrUnappliedInputs
       else mret tt);
  moved ← TransitionTurnQ (lk_turn p) session (t_status current) status outcome;
  match moved with
  | None => throw ErrTurnConflict
  | Some row =>
      _ ← insertTurnEvent row ("execution_" +:+ status) outcome;
      _ ← (if negb (nativeID =?s "") then
             n ← RememberNativeSession session nativeID;
             require (n =? 1) ErrNotFound
           else mret tt);
      again ← get_turn p;
      match again with
      | None => throw ErrNoRows
      | Some row => _ ← recordTurnChange row false; mret row
      end
  end.

Definition CompleteExecution (tenantID sessionID turnID status : string) (outcome : raw_message)
    (nativeID : string) (appliedThrough : Z) : tx Turn :=
  p ← of_result (turnLookup tenantID sessionID turnID);
  _ ← require (terminalStatus status && (raw_len outcome <=? max_payload) && (str_len nativeID <=? 512)
               && (0 <=? appliedThrough)) ErrInvalidInput;
  outcome ← of_result (canonicalJSONObject outcome);
  row ← withSession tenantID sessionID (complete_turn p status outcome nativeID appliedThrough);
  mret (turnFromRow row).

Definition BeginTurnArtifactCapture (tenantID sessionID turnID : string) (appliedThrough : Z) : tx unit :=
  p ← of_result (turnLookup tenantID sessionID turnID);
  _ ← require (0 <=? appliedThrough) ErrInvalidInput;
  withSession tenantID sessionID (λ session,
    turn ← must_turn p;
    _ ← require ((t_status turn =?s "in_progress") && bool_decide (t_cancel turn = None)) ErrTurnConflict;
    pending ← HasUnappliedMessages session (lk_turn p) appliedThrough;
    _ ← require (negb pending) ErrUnappliedInputs;
    count ← BeginTurnArtifactCaptureQ session (lk_turn p);
    require (count =? 1) ErrTurnConflict).

(** ** The public event stream *)

Definition SessionEventCursor (tenantID sessionID : string) : tx Z :=
  tenant ← of_result (parseID tenantID);
  id ← of_result (parseID sessionID);
  c ← SessionEventCursorQ tenant id;
  match c with Some c => mret c | None => throw ErrNotFound end.

(** A change as it is read back: its row's sequence, and the Turn field that is
    never marshalled reset. *)
Definition decode_change (row : sevent_row) : SessionChange :=
  let c := se_change row in
  MkChange (se_seq row) (sc_event c)
    ((λ t, MkTurn (tn_id t) (tn_session t) (tn_status t) (tn_created t) (tn_started t) (tn_completed t)
              (tn_cancel t) (tn_usage t) (tn_outcome t) false) <$> sc_turn c)
    (sc_usage c) (sc_actions c) (sc_activity c).

Fixpoint contiguous_changes (after : Z) (rows : list sevent_row) : result (list SessionChange) :=
  match rows with
  | [] => Ok []
  | row :: rows' =>
      _ ← reject_if (negb (se_seq row =? after + 1)) ErrStreamGap;
      cs ← contiguous_changes (se_seq row) rows';
      Ok (decode_change row :: cs)
  end.

Definition ListSessionEvents (tenantID sessionID : string) (after : Z) : tx (list SessionChange) :=
  _ ← require (0 <=? after) ErrInvalidInput;
  latest ← SessionEventCursor tenantID sessionID;
  tenant ← of_result (parseID tenantID);
  id ← of_result (parseID sessionID);
  rows ← ListSessionEventsQ tenant id after;
  _ ← require (negb (bool_decide (rows = []) && (after <? latest))) ErrStreamGap;
  of_result (contiguous_changes after rows).

End turns.
