(* ===== verification/Environments.v ===== *)
(** * Environments

    The operations of [services/agents-api/internal/store] on a Session's
    execution environment: [environments.go], [environment_connections.go],
    [environment_connection_recovery.go], [environment_input_activity.go],
    [environment_input_expiry.go], [environment_inputs.go],
    [environment_file_writes.go], [devices.go], [local_environment_devices.go],
    [runtime_allocations.go], [runtime_allocation_state.go],
    [runtime_environment_terminal.go] and [runtime_initialization.go].
    [leased] says whether the store is the execution writer's view. *)
From stdpp Require Import base tactics list strings numbers.
From S2P Require Import Prelude GoJson Contract Items Database Queries EnvQueries SessionLog Turns.

Section environments.
Context `{UUIDs, Oracle, EventSizes}.

(** ** Environments *)

Record Environment := MkEnv {
  en_id : string; en_session : string; en_tenant : string; en_status : string;
  en_created : Z; en_config : json }.

Definition raw_column (j : option json) : raw_message :=
  match j with Some j => raw_of j | None => RawMessage 0 [] AtEOF end.

Definition environmentFromRow (row : option SessionEnvironmentRow) : result Environment :=
  match row with
  | None => Err ErrNotFound
  | Some r =>
      config ← canonicalJSONObject (raw_column (ser_config r));
      let e := ser_env r in
      Ok (MkEnv (uuid_string (e_id e)) (uuid_string (e_session e)) (uuid_string (ser_tenant r))
            (e_status e) (e_created e) config)
  end.

Definition GetEnvironment (tenantID environmentID : string) : tx Environment :=
  tenant ← of_result (parseID tenantID);
  id ← of_result (parseID environmentID);
  row ← GetEnvironmentQ tenant id;
  of_result (environmentFromRow row).

Definition GetSessionEnvironment (tenantID sessionID : string) : tx Environment :=
  tenant ← of_result (parseID tenantID);
  id ← of_result (parseID sessionID);
  row ← GetSessionEnvironmentQ tenant id;
  of_result (environmentFromRow row).

(** [struct { Type string }], the part of a configuration the store reads. *)
Definition dec_type : decoder string := dec_struct (λ s k v,
  if key_is "type" k then dec_string s v else Some s).

Definition dec_snapshot : decoder (option string) := dec_struct (λ s k v,
  if key_is "environment" k then dec_ptr "" dec_type s v else Some s).

Definition createSessionEnvironment (session : session_row) : tx unit :=
  match dec_snapshot None (s_config session) with
  | None => throw ErrInvalidInput
  | Some None => mret tt
  | Some (Some ty) =>
      if ty =?s "none" then mret tt
      else if (ty =?s "self_hosted") || (ty =?s "openai_hosted")
           then id ← uuid_new; CreateEnvironment id (s_id session)
           else throw ErrInvalidInput
  end.

Definition terminal_environment (status : string) : bool := (status =?s "failed") || (status =?s "expired").

(** ** Activity of reserved inputs *)

Definition environmentInputActivity (session : N) : tx (option EnvironmentInputActivity) :=
  row ← GetEnvironmentInputActivity session;
  match row with
  | None => mret None
  | Some r =>
      let hosted := iar_type r =?s "openai_hosted" in
      let failed := iar_state r =?s "failed" in
      let lapsed := iar_initial r && (iar_state r =?s "expired") in
      let waiting := (iar_state r =?s "pending") && negb hosted && negb (iar_status r =?s "connected") in
      if hosted && iar_initial r && ((iar_state r =?s "pending") || (iar_state r =?s "cancelled")) then mret None
      else mret (Some (MkActivity
        (if waiting then "requires_action" else if failed || lapsed then "failed" else "idle")
        (if waiting then uuid_string (iar_env r) else "")
        (if failed then "environment_unavailable" else "")
        (default (iar_created r) (iar_settled r))))
  end.

Definition same_activity (a b : EnvironmentInputActivity) : bool :=
  (ac_status a =?s ac_status b) && (ac_environment a =?s ac_environment b) && (ac_failure a =?s ac_failure b).

Definition typed_event (ty : string) (env : option EnvironmentState) : SessionEvent :=
  MkEvent ty "" "" "" None "" None None None None None env.

Definition withEnvironmentInputActivity {A} (session : N) (apply : tx A) : tx A :=
  before ← environmentInputActivity session;
  a ← apply;
  after ← environmentInputActivity session;
  match after with
  | None => mret a
  | Some act =>
      if match before with Some b => same_activity b act | None => false end then mret a else
      usage ← SessionTokenUsage session;
      _ ← recordSessionChange session
            (MkChange 0 (typed_event ("agent.session." +:+ ac_status act) None) None usage [] (Some act));
      mret a
  end.

Definition withEnvironmentInputSession {A} (tenantID sessionID : string) (apply : N → tx A) : tx A :=
  withPublicSession tenantID sessionID (λ id, withEnvironmentInputActivity id (apply id)).

(** ** Reserved inputs *)

(** [store.EnvironmentInputReservation]; [None] is a zero time. *)
Record EnvironmentInputReservation := MkInputReservation {
  eir_id : string; eir_session : string; eir_state : string; eir_initial : bool;
  eir_inputs : list CanonInput; eir_created : option Z; eir_deadline : option Z;
  eir_settled : option Z; eir_receipts : list InputReceipt }.

Definition with_receipts (r : EnvironmentInputReservation) (receipts : list InputReceipt) : EnvironmentInputReservation :=
  MkInputReservation (eir_id r) (eir_session r) (eir_state r) (eir_initial r) (eir_inputs r) (eir_created r)
    (eir_deadline r) (eir_settled r) receipts.

(** A missing payload is a nil message, which no statement accepts: as [null]. *)
Definition dec_stored_input : decoder CanonInput := dec_struct (λ i k v,
  if key_is "kind" k then s ← dec_string i.1 v; Some (s, i.2)
  else if key_is "payload" k then Some (i.1, v)
  else Some i).

Definition dec_stored_inputs (batch : json) : option (list CanonInput) :=
  default [] <$> dec_slice ("", JNull) dec_stored_input None batch.

Definition environmentInputFromRow (row : res_row) : result EnvironmentInputReservation :=
  match dec_stored_inputs (r_batch row) with
  | None => Err (ErrOther "decode Environment input")
  | Some inputs => Ok (MkInputReservation (uuid_string (r_id row)) (uuid_string (r_session row)) (r_state row)
      (r_initial row) inputs (Some (r_created row)) (Some (r_deadline row)) (r_settled row) [])
  end.

Definition environmentInputOutcome (row : res_row) : tx EnvironmentInputReservation :=
  r ← of_result (environmentInputFromRow row);
  if negb (r_state row =?s "admitted") then mret r else
  receipts ← inputBatchReceipts (r_session row) (r_key row) (r_batch row);
  match receipts with
  | [] => throw (ErrOther "admitted Environment input has no receipts")
  | _ => mret (with_receipts r receipts)
  end.

Definition environmentInputMayStart (session : N) : tx unit :=
  _ ← checkEnvironmentFileWriteGate session;
  active ← GetActiveTurn session;
  match active with None => mret tt | Some _ => throw ErrTurnConflict end.

(** Admission of a reserved batch and the claim of its Turn. *)
Definition promote (tenantID : string) (row : res_row) (inputs : list CanonInput) : tx (list InputReceipt) :=
  _ ← environmentInputMayStart (r_session row);
  admit_batch tenantID (r_session row) (r_key row) 0 inputs.

Definition claim_turn (tenantID sessionID : string) (receipts : list InputReceipt) : tx unit :=
  match receipts with
  | [] => throw (ErrOther "index out of range")
  | r :: _ =>
      p ← of_result (turnLookup tenantID sessionID (rc_turn r));
      _ ← transitionTurn p "queued" "in_progress" (JObj []);
      mret tt
  end.

(** The function [settleEnvironmentInput], on a row under the Session lock. *)
Definition settle_environment_input (tenantID : string) (row : res_row) (state : string)
  : tx EnvironmentInputReservation :=
  if negb (r_state row =?s "pending") then environmentInputOutcome row else
  _ ← ExpireEnvironmentInputReservation (r_session row) (r_id row);
  row ← one (GetEnvironmentInputReservationQ (r_session row) (r_id row));
  if negb (r_state row =?s "pending") || (state =?s "expired") then environmentInputOutcome row else
  result ← of_result (environmentInputFromRow row);
  let admitting := state =?s "admitted" in
  receipts ← (if admitting then promote tenantID row (eir_inputs result) else mret []);
  settled ← one (SettleEnvironmentInputReservation (r_session row) (r_id row) state);
  _ ← (if admitting then claim_turn tenantID (eir_session result) receipts else mret tt);
  mret (MkInputReservation (eir_id result) (eir_session result) (r_state settled) (eir_initial result)
          (eir_inputs result) (eir_created result) (eir_deadline result) (Some (default 0 (r_settled settled))) receipts).

(** The method of the same name. *)
Definition settleEnvironmentInput (tenantID sessionID reservationID state : string) : tx EnvironmentInputReservation :=
  id ← of_result (parseID reservationID);
  withEnvironmentInputSession tenantID sessionID (λ session,
    row ← GetEnvironmentInputReservationQ session id;
    match row with
    | None => throw ErrNotFound
    | Some row => settle_environment_input tenantID row state
    end).

Definition PromoteEnvironmentInput (leased : bool) (tenantID sessionID reservationID : string)
  : tx EnvironmentInputReservation :=
  _ ← require leased (ErrOther "Environment input promotion requires an execution lease");
  settleEnvironmentInput tenantID sessionID reservationID "admitted".

Definition CancelEnvironmentInput (tenantID sessionID reservationID : string) : tx EnvironmentInputReservation :=
  settleEnvironmentInput tenantID sessionID reservationID "cancelled".

Definition ExpireEnvironmentInput (tenantID sessionID reservationID : string) : tx EnvironmentInputReservation :=
  settleEnvironmentInput tenantID sessionID reservationID "expired".

Definition GetEnvironmentInputReservation (tenantID sessionID reservationID : string) : tx EnvironmentInputReservation :=
  id ← of_result (parseID reservationID);
  withPublicSession tenantID sessionID (λ session,
    row ← GetEnvironmentInputReservationQ session id;
    match row with
    | None => throw ErrNotFound
    | Some row => environmentInputOutcome row
    end).

Definition validateInitialInputs (inputs : list Input) : result (list CanonInput * json) :=
  _ ← reject_if (existsb (λ i, negb (inp_kind i =?s "message")) inputs) ErrInvalidInput;
  validateInputs inputs.

(** A result without a reservation: the batch was admitted directly. *)
Definition direct_admission (sessionID : string) (receipts : list InputReceipt) : EnvironmentInputReservation :=
  MkInputReservation "" sessionID "admitted" false [] None None None receipts.

(** A batch under an unused key: append to active work or reserve. *)
Definition reserve_new (tenantID sessionID key : string) (tenant session : N) (batch : list CanonInput) (encoded : json)
  : tx EnvironmentInputReservation :=
  _ ← checkEnvironmentFileWriteGate session;
  environment ← GetSessionEnvironmentQ tenant session;
  match environment with
  | None => throw ErrInvalidInput
  | Some env =>
      _ ← require (negb (terminal_environment (e_status (ser_env env)))) ErrEnvironmentUnavailable;
      _ ← checkEnvironmentInputGate session key encoded;
      active ← GetActiveTurn session;
      if match active with Some t => negb (t_capture t) | None => false end then
        receipts ← admit_batch tenantID session key 0 batch;
        mret (direct_admission sessionID receipts)
      else
        id ← uuid_new;
        row ← CreateEnvironmentInputReservation id session key encoded false;
        of_result (environmentInputFromRow row)
  end.

Definition reserve_batch (tenantID sessionID key : string) (tenant : N) (batch : list CanonInput) (encoded : json)
    (session : N) : tx EnvironmentInputReservation :=
  previous ← FindEnvironmentInputReservation session key encoded;
  match previous with
  | Some (row, matches) =>
      _ ← require matches ErrIdempotencyConflict;
      settle_environment_input tenantID row "expired"
  | None =>
      receipts ← inputBatchReceipts session key encoded;
      match receipts with
      | _ :: _ => mret (direct_admission sessionID receipts)
      | [] => reserve_new tenantID sessionID key tenant session batch encoded
      end
  end.

Definition ReserveEnvironmentInput (tenantID sessionID key : string) (inputs : list Input)
  : tx EnvironmentInputReservation :=
  _ ← of_result (validateInputKey key);
  be ← of_result (validateInitialInputs inputs);
  tenant ← of_result (parseID tenantID);
  withEnvironmentInputSession tenantID sessionID (reserve_batch tenantID sessionID key tenant be.1 be.2).

Definition expire_due (row : N * N) : tx unit :=
  _ ← withEnvironmentInputActivity row.2 (ExpireEnvironmentInputReservation row.2 row.1);
  PruneSessionEvents row.2.

Definition ExpireEnvironmentInputs (leased : bool) (locked : N → bool) : tx Z :=
  _ ← require leased (ErrOther "Environment input expiry requires an execution lease");
  begin_func (
    rows ← ListDueEnvironmentInputs locked;
    _ ← tx_iter expire_due rows;
    mret (Z.of_nat (length rows))).

(** ** Connections *)

Definition parseConnectionGeneration (value : string) : result N :=
  match parseID value with
  | Ok id => if id =?s 0%N then Err ErrInvalidInput else Ok id
  | Err _ => Err ErrInvalidInput
  end.

Definition config_type (config : option json) : option string := config ≫= dec_type "".

Definition unavailable : StreamError :=
  MkStreamError "environment_unavailable" "server_error" "The environment could not be prepared for execution.".

Definition recordEnvironmentConnection (row : SessionEnvironmentRow) (status : string) : tx unit :=
  match config_type (ser_config row) with
  | None => throw (ErrOther "invalid stored Environment type")
  | Some ty =>
      _ ← require ((ty =?s "self_hosted") || (ty =?s "openai_hosted")) (ErrOther "invalid stored Environment type");
      _ ← require ((status =?s "connected") || (status =?s "disconnected") || (status =?s "failed")) ErrInvalidInput;
      let e := ser_env row in
      _ ← SetEnvironmentConnectionStatus (e_id e) status;
      let state := MkEnvState (uuid_string (e_id e)) ty status (if status =?s "failed" then Some unavailable else None) in
      recordSessionChange (e_session e)
        (event_change (typed_event ("agent.session.environment." +:+ status) (Some state)))
  end.

Definition withEnvironmentConnection {A} (leased : bool) (tenantID environmentID : string)
    (apply : SessionEnvironmentRow → tx A) : tx A :=
  _ ← require leased (ErrOther "Environment observations require an execution lease");
  owned ← GetEnvironment tenantID environmentID;
  tenant ← of_result (parseID tenantID);
  withPublicSession tenantID (en_session owned) (λ session,
    row ← GetSessionEnvironmentQ tenant session;
    match row with
    | None => throw ErrNotFound
    | Some row => withEnvironmentInputActivity session (apply row)
    end).

Definition replace_connection (gen : N) (row : SessionEnvironmentRow) : tx unit :=
  let e := ser_env row in
  _ ← require (negb (terminal_environment (e_status e))) ErrInvalidInput;
  old ← GetEnvironmentConnection (e_id e);
  if match old with Some c => cn_gen c =?s gen | None => false end then mret tt else
  _ ← ReplaceEnvironmentConnectionQ (e_id e) gen;
  if e_status e =?s "connected" then recordEnvironmentConnection row "disconnected" else mret tt.

Definition ReplaceEnvironmentConnection (leased : bool) (tenantID environmentID generation : string) : tx unit :=
  gen ← of_result (parseConnectionGeneration generation);
  withEnvironmentConnection leased tenantID environmentID (replace_connection gen).

Definition observe_connection (gen : N) (revision : Z) (connected : bool) (row : SessionEnvironmentRow) : tx unit :=
  let e := ser_env row in
  current ← GetEnvironmentConnection (e_id e);
  match current with
  | None => mret tt
  | Some c =>
      if negb (cn_gen c =?s gen) || (revision <=? cn_rev c) then mret tt else
      _ ← require (negb (terminal_environment (e_status e))) ErrInvalidInput;
      _ ← AdvanceEnvironmentConnection (e_id e) revision;
      let status := if connected then "connected" else "disconnected" in
      if e_status e =?s status then mret tt else recordEnvironmentConnection row status
  end.

Definition ObserveEnvironmentConnection (leased : bool) (tenantID environmentID generation : string) (revision : Z)
    (connected : bool) : tx unit :=
  match parseConnectionGeneration generation with
  | Ok gen =>
      _ ← require (0 <? revision) ErrInvalidInput;
      withEnvironmentConnection leased tenantID environmentID (observe_connection gen revision connected)
  | Err _ => throw ErrInvalidInput
  end.

Definition drop_connection (row : SessionEnvironmentRow) : tx unit :=
  let e := ser_env row in
  _ ← DeleteEnvironmentConnection (e_id e);
  if e_status e =?s "connected" then recordEnvironmentConnection row "disconnected" else mret tt.

(** One environment of a reconciliation page; a deleted one is skipped. *)
Definition reconcile_one (row : N * N * N) : tx unit :=
  catch (withEnvironmentConnection true (uuid_string row.2) (uuid_string row.1.1) drop_connection)
    (λ e, if e =?s ErrNotFound then mret tt else throw e).

Definition out_of_pages : error := ErrOther "reconciliation did not finish".

Fixpoint reconcile_pages (fuel : nat) (after : N) : tx unit :=
  match fuel with
  | O => throw out_of_pages
  | S fuel' =>
      rows ← ListEnvironmentConnections after;
      match rows with
      | [] => mret tt
      | row :: rows' =>
          _ ← tx_iter reconcile_one rows;
          reconcile_pages fuel' (List.last rows' row).1.1
      end
  end.

(** [for { ... }]: every page ends behind the previous one, so one page per
    environment is enough. *)
Definition ReconcileEnvironmentConnections (leased : bool) : tx unit :=
  _ ← require leased (ErrOther "Environment reconciliation requires an execution lease");
  n ← query (λ d, length (environments d));
  reconcile_pages (S n) 0%N.

(** ** File writes *)

Definition hex_value (c : Ascii.ascii) : bool := in_range 48 57 c || in_range 97 102 c || in_range 65 70 c.

Fixpoint lower_hex (s : string) : option string :=
  match s with
  | EmptyString => Some ""
  | String.String c s' =>
      if hex_value c then String.String (lower_ascii c) <$> lower_hex s' else None
  end.

(** [hex.DecodeString] of a 32-byte digest, as [hex.EncodeToString] prints it. *)
Definition sha256_digest (s : string) : option string :=
  if str_len s =? 64 then lower_hex s else None.

Record FileWriteIdentity := MkFileWriteIdentity { fw_id : string; fw_device : string; fw_sha : string }.

#[global] Instance FileWriteIdentity_eq_dec : EqDecision FileWriteIdentity.
Proof. solve_decision. Defined.

Definition canonical_uuid (value : string) : bool :=
  match uuid_parse value with
  | Some id => negb (id =?s 0%N) && (uuid_string id =?s value)
  | None => false
  end.

Definition valid_write (k : FileWriteIdentity) : bool :=
  canonical_uuid (fw_id k) && canonical_uuid (fw_device k) && (sha256_digest (fw_sha k) =?s Some (fw_sha k)).

Record EnvironmentFileWrite := MkFileWrite {
  ef_identity : FileWriteIdentity; ef_environment : string; ef_session : string; ef_state : string;
  ef_created : Z; ef_settled : option Z; ef_replayed : bool }.

Definition fileWriteFromRow (row : write_row) (session : N) (replayed : bool) : EnvironmentFileWrite :=
  MkFileWrite (MkFileWriteIdentity (uuid_string (w_id row)) (uuid_string (w_device row)) (w_sha row))
    (uuid_string (w_env row)) (uuid_string session) (w_state row) (w_created row) (w_settled row) replayed.

Record WriteLookup := MkWriteLookup { wl_tenant : N; wl_env : N; wl_id : N }.

Definition fileWriteLookup (tenant environment id : string) : result WriteLookup :=
  t ← parseID tenant; e ← parseID environment; i ← parseID id; Ok (MkWriteLookup t e i).

Definition create_write (lookup : WriteLookup) (key : FileWriteIdentity) (session : N) : tx EnvironmentFileWrite :=
  current ← one (GetSessionEnvironmentQ (wl_tenant lookup) session);
  _ ← require ((e_id (ser_env current) =?s wl_env lookup) && negb (terminal_environment (e_status (ser_env current))))
        ErrInvalidInput;
  device ← GetSessionDeviceQ (wl_tenant lookup) session;
  match device with
  | None => throw ErrNotFound
  | Some x =>
      _ ← require ((uuid_string (d_id x) =?s fw_device key) && (d_environment x =?s Some (wl_env lookup)))
            ErrDeviceBindingConflict;
      _ ← environmentInputMayStart session;
      pending ← EnvironmentFileWriteHasPendingInput session;
      _ ← require (negb pending) ErrTurnConflict;
      let deviceID := match parseID (fw_device key) with Ok id => id | Err _ => 0%N end in
      row ← CreateEnvironmentFileWrite (wl_id lookup) (wl_env lookup) deviceID (fw_sha key);
      mret (fileWriteFromRow row session false)
  end.

Definition reserve_write (lookup : WriteLookup) (key : FileWriteIdentity) (session : N) : tx EnvironmentFileWrite :=
  previous ← GetEnvironmentFileWriteQ (wl_tenant lookup) (wl_env lookup) (wl_id lookup);
  match previous with
  | Some (x, _) =>
      let result := fileWriteFromRow x session true in
      _ ← require (ef_identity result =?s key) ErrIdempotencyConflict;
      mret result
  | None => create_write lookup key session
  end.

Definition ReserveEnvironmentFileWrite (leased : bool) (tenant environment : string) (key : FileWriteIdentity)
  : tx EnvironmentFileWrite :=
  _ ← require (leased && valid_write key) ErrInvalidInput;
  owned ← GetEnvironment tenant environment;
  lookup ← of_result (fileWriteLookup tenant environment (fw_id key));
  withPublicSession tenant (en_session owned) (reserve_write lookup key).

Definition GetEnvironmentFileWrite (tenant environment id : string) : tx EnvironmentFileWrite :=
  lookup ← of_result (fileWriteLookup tenant environment id);
  row ← GetEnvironmentFileWriteQ (wl_tenant lookup) (wl_env lookup) (wl_id lookup);
  match row with
  | None => throw ErrNotFound
  | Some (x, session) => mret (fileWriteFromRow x session true)
  end.

Definition settle_write_row (lookup : WriteLookup) (key : FileWriteIdentity) (state : string) (session : N)
  : tx EnvironmentFileWrite :=
  current ← one (GetEnvironmentFileWriteQ (wl_tenant lookup) (wl_env lookup) (wl_id lookup));
  let result := fileWriteFromRow current.1 session false in
  _ ← require ((ef_identity result =?s key) && ((ef_state result =?s "pending") || (ef_state result =?s state)))
        ErrIdempotencyConflict;
  if ef_state result =?s state then mret (fileWriteFromRow current.1 session true) else
  row ← one (SettleEnvironmentFileWriteQ (wl_env lookup) (wl_id lookup) state);
  mret (fileWriteFromRow row session false).

Definition SettleEnvironmentFileWrite (leased : bool) (tenant environment : string) (key : FileWriteIdentity)
    (state : string) : tx EnvironmentFileWrite :=
  _ ← require (leased && valid_write key && ((state =?s "committed") || (state =?s "rejected"))) ErrInvalidInput;
  previous ← GetEnvironmentFileWrite tenant environment (fw_id key);
  lookup ← of_result (fileWriteLookup tenant environment (fw_id key));
  withSession tenant (ef_session previous) (settle_write_row lookup key state).

(** ** Devices *)

Record DeviceLookup := MkDeviceLookup { dl_tenant : N; dl_id : N }.

Definition deviceLookup (tenantID id : string) : result DeviceLookup :=
  t ← parseID tenantID; i ← parseID id; Ok (MkDeviceLookup t i).

Record ExecutionDevice := MkExecutionDevice { ed_id : string; ed_name : string; ed_environment : string }.

Definition executionDevice (id : N) (name : string) (environment : option N) : ExecutionDevice :=
  MkExecutionDevice (uuid_string id) name (match environment with Some e => uuid_string e | None => "" end).

Record DeviceParams := MkDeviceParams { dv_id : N; dv_tenant : N; dv_name : string; dv_hash : string }.

Definition newDeviceParams (tenant : N) (name credentialHash : string) : tx DeviceParams :=
  let name := TrimSpace name in
  match sha256_digest credentialHash with
  | None => throw ErrInvalidInput
  | Some digest =>
      _ ← require (negb (name =?s "") && (str_len name <=? 256)) ErrInvalidInput;
      id ← uuid_new;
      mret (MkDeviceParams id tenant name digest)
  end.

Definition CreateDevice (tenantID name credentialHash : string) : tx ExecutionDevice :=
  tenant ← of_result (parseID tenantID);
  params ← newDeviceParams tenant name credentialHash;
  id ← CreateDeviceQ (dv_id params) (dv_tenant params) (dv_name params) (dv_hash params);
  mret (executionDevice id (dv_name params) None).

(** [device.Credential]: identifier, name and credential hash. *)
Definition GetDeviceCredential (deviceID : string) : tx (option (string * string * string)) :=
  match parseID deviceID with
  | Err _ => mret None
  | Ok id =>
      row ← GetDeviceCredentialQ id;
      mret ((λ x, (uuid_string (d_id x), d_name x, d_hash x)) <$> row)
  end.

Definition RevokeDevice (tenantID deviceID : string) : tx unit :=
  p ← of_result (deviceLookup tenantID deviceID);
  n ← RevokeDeviceQ (dl_tenant p) (dl_id p);
  require (negb (n =? 0)) ErrNotFound.

Definition bind_device (p : DeviceLookup) (session : N) : tx unit :=
  device ← GetDevice (dl_tenant p) (dl_id p);
  match device with
  | None => throw ErrNotFound
  | Some _ =>
      bound ← BindSessionDeviceQ (dl_tenant p) session (dl_id p);
      match bound with Some _ => mret tt | None => throw ErrDeviceBindingConflict end
  end.

Definition BindSessionDevice (tenantID sessionID deviceID : string) : tx unit :=
  p ← of_result (deviceLookup tenantID deviceID);
  withSession tenantID sessionID (bind_device p).

Definition requireInitializedEnvironment (tenant session : N) : tx unit :=
  ready ← GetSessionInitializationReady tenant session;
  match ready with Some true => mret tt | _ => throw ErrNotFound end.

Definition GetSessionDevice (tenantID sessionID : string) : tx ExecutionDevice :=
  p ← of_result (deviceLookup tenantID sessionID);
  _ ← requireInitializedEnvironment (dl_tenant p) (dl_id p);
  row ← GetSessionDeviceQ (dl_tenant p) (dl_id p);
  match row with
  | None => throw ErrNotFound
  | Some x => mret (executionDevice (d_id x) (d_name x) (d_environment x))
  end.

Record SessionExecutionBinding := MkExecutionBinding {
  eb_device : ExecutionDevice; eb_native : string; eb_started : bool }.

Definition GetSessionExecutionBinding (tenantID sessionID : string) : tx SessionExecutionBinding :=
  p ← of_result (deviceLookup tenantID sessionID);
  _ ← requireInitializedEnvironment (dl_tenant p) (dl_id p);
  row ← GetSessionExecutionBindingQ (dl_tenant p) (dl_id p);
  match row with
  | None => throw ErrNotFound
  | Some (x, native, started) =>
      mret (MkExecutionBinding (executionDevice (d_id x) (d_name x) (d_environment x)) native started)
  end.

(** [device.HeartbeatStatus]: liveness and whether the device is gone. *)
Definition TouchRuntimeHeartbeat (deviceID : string) : tx (string * bool) :=
  id ← of_result (parseID deviceID);
  n ← TouchDevice id;
  mret ("online", n =? 0).

Definition createEnvironmentDevice (lookup : DeviceLookup) (session : N) (params : DeviceParams) : tx unit :=
  bound ← GetSessionDeviceQ (dl_tenant lookup) session;
  match bound with
  | Some _ => throw ErrDeviceBindingConflict
  | None =>
      id ← CreateEnvironmentDeviceQ (dv_id params) (dv_tenant params) (dv_name params) (dv_hash params) (dl_id lookup);
      match id with
      | None => throw ErrDeviceBindingConflict
      | Some id => _ ← one (BindSessionDeviceQ (dl_tenant lookup) session id); mret tt
      end
  end.

Definition hosted_environment (env : Environment) : bool := dec_type "" (en_config env) =?s Some "openai_hosted".

Definition CreateEnvironmentDevice (tenantID environmentID name credentialHash : string) : tx ExecutionDevice :=
  env ← GetEnvironment tenantID environmentID;
  _ ← require (hosted_environment env) ErrInvalidInput;
  lookup ← of_result (deviceLookup tenantID (en_id env));
  params ← newDeviceParams (dl_tenant lookup) name credentialHash;
  _ ← withPublicSession tenantID (en_session env) (λ session, createEnvironmentDevice lookup session params);
  mret (MkExecutionDevice (uuid_string (dv_id params)) (dv_name params) (en_id env)).

(** ** Runtime allocations *)

Record RuntimeAllocation := MkRuntimeAllocation {
  ra_id : string; ra_env : string; ra_session : string; ra_tenant : string; ra_device : string; ra_provider : string;
  ra_init : string; ra_state : string; ra_settled : bool; ra_deleted : bool; ra_replayed : bool; ra_expired : bool;
  ra_created : Z; ra_kept : Z }.

Definition runtimeAllocationFromRow (row : alloc_row) (session tenant : N) (deleted : option Z) (expired replayed : bool)
  : RuntimeAllocation :=
  MkRuntimeAllocation (uuid_string (al_id row)) (uuid_string (al_env row)) (uuid_string session) (uuid_string tenant)
    (uuid_string (al_device row)) (uuid_string (al_provider row)) (al_init row) (al_state row) (al_settled row)
    (bool_decide (is_Some deleted)) replayed expired (al_created row) (al_kept row).

Definition reserve_allocation (lookup : DeviceLookup) (device : DeviceParams) (provider session : N)
  : tx RuntimeAllocation :=
  previous ← GetRuntimeAllocationQ (dl_tenant lookup) (dl_id lookup);
  match previous with
  | Some r =>
      _ ← require (al_provider (alr_alloc r) =?s provider) ErrIdempotencyConflict;
      mret (runtimeAllocationFromRow (alr_alloc r) session (dl_tenant lookup) (alr_deleted r) (alr_expired r) true)
  | None =>
      current ← one (GetSessionEnvironmentQ (dl_tenant lookup) session);
      _ ← require (negb (terminal_environment (e_status (ser_env current)))) ErrInvalidInput;
      _ ← createEnvironmentDevice lookup session device;
      id ← uuid_new;
      row ← CreateRuntimeAllocation id (dl_id lookup) (dv_id device) provider;
      mret (runtimeAllocationFromRow row session (dl_tenant lookup) None false false)
  end.

Definition ReserveRuntimeAllocation (leased : bool) (tenant environment providerKey credentialHash : string)
  : tx RuntimeAllocation :=
  _ ← require leased ErrInvalidInput;
  provider ← of_result (parseConnectionGeneration providerKey);
  owned ← GetEnvironment tenant environment;
  _ ← require (hosted_environment owned) ErrInvalidInput;
  lookup ← of_result (deviceLookup tenant environment);
  device ← newDeviceParams (dl_tenant lookup) "managed-runtime" credentialHash;
  withPublicSession tenant (en_session owned) (reserve_allocation lookup device provider).

Definition GetRuntimeAllocation (tenant environment : string) : tx RuntimeAllocation :=
  lookup ← of_result (deviceLookup tenant environment);
  row ← GetRuntimeAllocationQ (dl_tenant lookup) (dl_id lookup);
  match row with
  | None => throw ErrNotFound
  | Some r => mret (runtimeAllocationFromRow (alr_alloc r) (alr_session r) (alr_tenant r) (alr_deleted r) (alr_expired r) false)
  end.

(** [ping] is the outcome of pinging the leased connection. *)
Definition CheckExecutionOwnership (leased : bool) (ping : result unit) : tx unit :=
  _ ← require leased (ErrOther "execution operation requires a leased Store");
  of_result ping.

Definition page_cursor (after : string) : result N := if after =?s "" then Ok 0%N else parseID after.

Definition ListRuntimeAllocations (leased : bool) (ping : result unit) (after : string) : tx (list RuntimeAllocation) :=
  _ ← CheckExecutionOwnership leased ping;
  id ← of_result (page_cursor after);
  rows ← ListRuntimeAllocationsQ id;
  mret (List.map (λ r, runtimeAllocationFromRow (alr_alloc r) (alr_session r) (alr_tenant r) (alr_deleted r)
                         (alr_expired r) false) rows).

(** [UnallocatedHostedEnvironment]: identifier, tenant and engine. *)
Definition ListUnallocatedHostedEnvironments (leased : bool) (ping : result unit) (after : string)
  : tx (list (string * string * string)) :=
  _ ← CheckExecutionOwnership leased ping;
  id ← of_result (page_cursor after);
  rows ← ListUnallocatedHostedEnvironmentsQ id;
  mret (List.map (λ r : N * N * string, (uuid_string r.1.1, uuid_string r.1.2, r.2)) rows).

(** The checks of [mutateRuntimeAllocation] that only a live owner passes. *)
Definition live_owner (lookup : DeviceLookup) (current : AllocationRow) (session : N) : tx unit :=
  _ ← require (bool_decide (alr_deleted current = None)) ErrNotFound;
  device ← one (GetSessionDeviceQ (dl_tenant lookup) session);
  require ((d_id device =?s al_device (alr_alloc current)) && (d_environment device =?s Some (dl_id lookup)))
    ErrDeviceBindingConflict.

Definition mutate_row (lookup : DeviceLookup) (live : bool) (apply : alloc_row → tx alloc_row) (session : N)
  : tx RuntimeAllocation :=
  current ← one (GetRuntimeAllocationQ (dl_tenant lookup) (dl_id lookup));
  _ ← (if live then live_owner lookup current session else mret tt);
  row ← catch (apply (alr_alloc current)) (λ e, if e =?s ErrNoRows then throw ErrTurnConflict else throw e);
  mret (runtimeAllocationFromRow row session (dl_tenant lookup) (alr_deleted current) (alr_expired current) false).

Definition mutateRuntimeAllocation (leased : bool) (owner : RuntimeAllocation) (live : bool)
    (apply : alloc_row → tx alloc_row) : tx RuntimeAllocation :=
  _ ← require leased ErrInvalidInput;
  previous ← GetRuntimeAllocation (ra_tenant owner) (ra_env owner);
  _ ← require ((ra_id previous =?s ra_id owner) && (ra_device previous =?s ra_device owner)
               && (ra_provider previous =?s ra_provider owner)) ErrIdempotencyConflict;
  lookup ← of_result (deviceLookup (ra_tenant owner) (ra_env owner));
  withSession (ra_tenant owner) (ra_session previous) (mutate_row lookup live apply).

Definition ObserveRuntimeRunning (leased : bool) (owner : RuntimeAllocation) : tx RuntimeAllocation :=
  mutateRuntimeAllocation leased owner true (λ row, one (ObserveRuntimeRunningQ (al_id row))).

Definition KeepRuntimeAllocation (leased : bool) (owner : RuntimeAllocation) : tx RuntimeAllocation :=
  mutateRuntimeAllocation leased owner true (λ row, one (KeepRuntimeAllocationQ (al_id row))).

Definition SettleRuntimeCreation (leased : bool) (owner : RuntimeAllocation) : tx RuntimeAllocation :=
  mutateRuntimeAllocation leased owner false (λ row,
    if al_state row =?s "released" then mret row else one (SettleRuntimeCreationQ (al_id row))).

Definition ClaimRuntimeInitialization (leased : bool) (owner : RuntimeAllocation) : tx RuntimeAllocation :=
  mutateRuntimeAllocation leased owner true (λ row, one (ClaimRuntimeInitializationQ (al_id row))).

Definition CompleteRuntimeInitialization (leased : bool) (owner : RuntimeAllocation) : tx RuntimeAllocation :=
  mutateRuntimeAllocation leased owner true (λ row, one (CompleteRuntimeInitializationQ (al_id row))).

Definition ReleaseRuntimeAllocation (leased : bool) (owner : RuntimeAllocation) : tx RuntimeAllocation :=
  mutateRuntimeAllocation leased owner false (λ row,
    if al_state row =?s "released" then mret row else one (ReleaseRuntimeAllocationQ (al_id row))).

Definition terminateRuntimeEnvironment (current : AllocationRow) : tx unit :=
  row ← one (GetSessionEnvironmentQ (alr_tenant current) (alr_session current));
  _ ← (if negb (terminal_environment (e_status (ser_env row))) then
         if alr_expired current then SetEnvironmentConnectionStatus (e_id (ser_env row)) "expired"
         else recordEnvironmentConnection row "failed"
       else mret tt);
  FailSessionEnvironmentInput (alr_session current).

(** [tenant, _ := parseID(owner.TenantID)]: the zero identifier on failure. *)
Definition request_cleanup (tenantID : string) (row : alloc_row) : tx alloc_row :=
  if al_state row =?s "released" then mret row else
  let tenant := match parseID tenantID with Ok t => t | Err _ => 0%N end in
  _ ← RevokeDeviceQ tenant (al_device row);
  current ← one (GetRuntimeAllocationQ tenant (al_env row));
  let session := alr_session current in
  _ ← (if bool_decide (is_Some (alr_deleted current)) then cancelSessionWork session
       else withEnvironmentInputActivity session (
              _ ← terminateRuntimeEnvironment current;
              cancelSessionWork session));
  one (RequestRuntimeCleanupQ (al_id row)).

Definition RequestRuntimeCleanup (leased : bool) (owner : RuntimeAllocation) : tx RuntimeAllocation :=
  mutateRuntimeAllocation leased owner false (request_cleanup (ra_tenant owner)).

End environments.
