(* ===== verification/Reads.v ===== *)
(** * Reads

    The reads of [services/agents-api/internal/store] that page through work,
    Sessions, Turns and Items: [scheduling.go], [turn_reads.go],
    [item_reads.go], the reads of [sessions.go] and [session_creator.go], and
    [GetSubagentIdentity], with their SQL statements. *)
From stdpp Require Import base tactics list strings numbers.
From S2P Require Import Prelude GoJson Contract Items Database Queries EnvQueries SessionLog Turns Environments.

(** ** Statements *)

(** The rows of [turns t JOIN sessions s ON s.id = t.session_id]. *)
Definition turn_sessions (d : db) : list (turn_row * session_row) :=
  List.flat_map (λ t, List.map (λ s, (t, s)) (List.filter (λ s, s_id s =?s t_session t) (sessions d))) (turns d).

(** [status = ANY(...)]. *)
Definition listed (statuses : list string) (status : string) : bool := existsb (λ s, s =?s status) statuses.

(** A usable device of the tenant that is connected. *)
Definition connected_device (d : db) (tenant : N) (connected : list N) (p : device_row → bool) : bool :=
  existsb (λ x, (d_tenant x =?s tenant) && unrevoked x && existsb (N.eqb (d_id x)) connected && p x) (devices d).

Definition workable (d : db) (after : N) (statuses : list string) (connected_only : bool) (connected : list N)
    (ts : turn_row * session_row) : bool :=
  listed statuses (t_status ts.1) && (after <? t_id ts.1)%N && (live ts.2 || negb (t_status ts.1 =?s "queued"))
  && (negb connected_only || connected_device d (s_tenant ts.2) connected (λ _, true)).

Definition by_turn_id (a b : turn_row * session_row) : bool := (t_id a.1 <=? t_id b.1)%N.

Definition ListExecutionWorkQ (after : N) (statuses : list string) (connected_only : bool) (connected : list N)
  : tx (list (turn_row * session_row)) :=
  query (λ d, take 100 (sort_by by_turn_id
    (List.filter (workable d after statuses connected_only connected) (turn_sessions d)))).

(** [environment_input_reservations r JOIN sessions s]. *)
Definition reservation_sessions (d : db) : list (res_row * session_row) :=
  List.flat_map (λ r, List.map (λ s, (r, s)) (List.filter (λ s, s_id s =?s r_session r) (sessions d))) (reservations d).

(** A bound Session waits for its own device. *)
Definition startable (d : db) (now : Z) (after : N) (connected : list N) (rs : res_row * session_row) : bool :=
  let bound := head (List.filter (λ b, b_session b =?s s_id rs.2) (session_devices d)) in
  (r_state rs.1 =?s "pending") && (now <? r_deadline rs.1) && (after <? r_id rs.1)%N && live rs.2
  && connected_device d (s_tenant rs.2) connected (λ x, match bound with Some b => d_id x =?s b_device b | None => true end).

Definition ListEnvironmentInputWorkQ `{Oracle} (after : N) (connected : list N) : tx (list (res_row * session_row)) :=
  now ← clock_timestamp;
  query (λ d, take 100 (sort_by (λ a b : res_row * session_row, (r_id a.1 <=? r_id b.1)%N)
    (List.filter (startable d now after connected) (reservation_sessions d)))).

Definition ListExecutionDevicesQ (tenant : N) : tx (list device_row) :=
  query (λ d, sort_by (λ a b, (d_id a <=? d_id b)%N)
    (List.filter (λ x, (d_tenant x =?s tenant) && unrevoked x && bool_decide (d_environment x = None)) (devices d))).

(** Keys of a page: creation time, position and identifier, compared in this
    order; a listing without positions has position 0 everywhere. *)
Definition page_key : Type := Z * Z * N.

Definition key_lt (a b : page_key) : bool :=
  let '(c1, p1, i1) := a in let '(c2, p2, i2) := b in
  (c1 <? c2) || ((c1 =? c2) && ((p1 <? p2) || ((p1 =? p2) && (i1 <? i2)%N))).

Definition key_le (a b : page_key) : bool := negb (key_lt b a).

(** [WHERE ... after ... ORDER BY ... LIMIT]. *)
Definition page_rows {A} (key : A → page_key) (ascending : bool) (after : option page_key) (limit : nat) (l : list A)
  : list A :=
  let behind := λ x, match after with
    | None => true
    | Some k => if ascending then key_lt k (key x) else key_lt (key x) k
    end in
  take limit (sort_by (λ a b, if ascending then key_le (key a) (key b) else key_le (key b) (key a)) (List.filter behind l)).

Definition turn_key (t : turn_row) : page_key := (t_created t, 0, t_id t).

Definition ListTurnsQ (tenant session : N) (ascending : bool) (after : option page_key) (limit : nat) : tx (list turn_row) :=
  query (λ d, page_rows turn_key ascending after limit (List.map fst (List.filter (λ ts : turn_row * session_row,
    (s_tenant ts.2 =?s tenant) && (t_session ts.1 =?s session)) (turn_sessions d)))).

Definition GetLatestSessionTurn (session : N) : tx (option turn_row) :=
  query (λ d, head (sort_by (λ a b, key_le (turn_key b) (turn_key a)) (List.filter (λ t, t_session t =?s session) (turns d)))).

(** An Item left in progress by a settled Turn reads as incomplete. *)
Definition read_item (i : item_row) (t : turn_row) : item_row :=
  if (jsonb_text "status" (si_payload i) =?s Some "in_progress") && done_status (t_status t) then finish_row i else i.

Definition item_key (i : item_row) : page_key := (si_created i, si_position i, si_id i).

Definition ListSessionItems (session : N) (ascending : bool) (after : option page_key) (limit : nat) : tx (list item_row) :=
  query (λ d, page_rows item_key ascending after limit
    (List.flat_map (λ i, List.map (read_item i) (List.filter (λ t, t_id t =?s si_turn i) (turns d)))
      (List.filter (λ i, si_session i =?s session) (session_items d)))).

Definition GetSessionQ (tenant id : N) : tx (option session_row) :=
  query (λ d, head (List.filter (λ s, session_is tenant id s && live s) (sessions d))).

Definition session_key (s : session_row) : page_key := (s_created s, 0, s_id s).

Definition ListSessionsQ (tenant : N) (agent : option string) (ascending : bool) (after : option page_key) (limit : nat)
  : tx (list session_row) :=
  query (λ d, page_rows session_key ascending after limit (List.filter (λ s, (s_tenant s =?s tenant) && live s
    && match agent with
       | None => true
       | Some a => (jsonb_field "agent" (s_config s) ≫= jsonb_text "id") =?s Some a
       end) (sessions d))).

(** The identity and the time of the event that first showed it. *)
Definition GetSubagentIdentityQ (tenant session : N) (native : string) : tx (option (subagent_row * Z)) :=
  query (λ d,
    if existsb (λ s, session_is tenant session s && live s) (sessions d) then
      head (List.flat_map (λ i, List.map (λ e, (i, te_created e))
          (List.filter (λ e, (te_turn e =?s sa_turn i) && (te_ordinal e =? sa_ordinal i)) (turn_events d)))
        (List.filter (λ i, (sa_session i =?s session) && (sa_native i =?s native)) (subagents d)))
    else None).

(** ** Operations *)

Section reads.
Context `{UUIDs, Oracle, EventSizes}.

Fixpoint parse_ids (values : list string) : result (list N) :=
  match values with
  | [] => Ok []
  | v :: values' => id ← parseID v; ids ← parse_ids values'; Ok (id :: ids)
  end.

Definition executionWorkCursor (after : string) (connectedDevices : list string) : result (N * list N) :=
  id ← (if after =?s "" then Ok 0%N else parseID after);
  devices ← parse_ids connectedDevices;
  Ok (id, devices).

Record ExecutionWork := MkExecutionWork { ew_tenant : string; ew_session : string; ew_turn : string; ew_status : string }.

Definition execution_work (ts : turn_row * session_row) : ExecutionWork :=
  MkExecutionWork (uuid_string (s_tenant ts.2)) (uuid_string (t_session ts.1)) (uuid_string (t_id ts.1)) (t_status ts.1).

(** [None] is a nil slice: devices are not asked for. *)
Definition ListExecutionWork (after : string) (statuses : list string) (connectedDevices : option (list string))
  : tx (list ExecutionWork) :=
  c ← of_result (executionWorkCursor after (default [] connectedDevices));
  rows ← ListExecutionWorkQ c.1 statuses (bool_decide (is_Some connectedDevices)) c.2;
  mret (List.map execution_work rows).

Record EnvironmentInputWork := MkInputWork { iw_tenant : string; iw_session : string; iw_reservation : string }.

Definition ListEnvironmentInputWork (after : string) (connectedDevices : list string) : tx (list EnvironmentInputWork) :=
  c ← of_result (executionWorkCursor after connectedDevices);
  rows ← ListEnvironmentInputWorkQ c.1 c.2;
  mret (List.map (λ rs : res_row * session_row,
    MkInputWork (uuid_string (s_tenant rs.2)) (uuid_string (r_session rs.1)) (uuid_string (r_id rs.1))) rows).

Definition ListExecutionDevices (tenantID : string) : tx (list ExecutionDevice) :=
  tenant ← of_result (parseID tenantID);
  rows ← ListExecutionDevicesQ tenant;
  mret (List.map (λ x, MkExecutionDevice (uuid_string (d_id x)) (d_name x) "") rows).

(** *** Sessions *)

(** [identity.Subject]. *)
Record Subject := MkSubject { su_kind : string; su_id : string }.

Definition validID (value : string) : bool := negb (value =?s "") && (TrimSpace value =?s value).

Definition validSubject (s : Subject) : bool :=
  ((su_kind s =?s "user") || (su_kind s =?s "service_account")) && validID (su_id s).

Definition sessionCreator (creator : option (string * string)) : result (option Subject) :=
  match creator with
  | None => Ok None
  | Some (kind, id) =>
      let s := MkSubject kind id in
      if validSubject s then Ok (Some s) else Err (ErrOther "invalid stored Session creator")
  end.

(** [map[string]string]; a [null] member is the empty string. *)
Definition dec_string_map (j : json) : option (list (string * string)) :=
  match j with
  | JNull => Some []
  | JObj kvs => mapM (λ kv : string * json, (λ v, (kv.1, v)) <$> dec_string "" kv.2) kvs
  | _ => None
  end.

Record Session := MkStoreSession {
  ss_id : string; ss_tenant : string; ss_creator : option Subject; ss_engine : string;
  ss_metadata : list (string * string); ss_created : Z; ss_config : json; ss_last_turn : option Turn;
  ss_usage : option TokenUsage; ss_actions : list FunctionCallAction; ss_environment : option Environment;
  ss_activity : option EnvironmentInputActivity }.

Definition sessionFromRow (row : session_row) : result Session :=
  creator ← sessionCreator (s_creator row);
  config ← canonicalJSONObject (raw_of (s_config row));
  match dec_string_map (s_metadata row) with
  | None => Err (ErrOther "decode session metadata")
  | Some metadata => Ok (MkStoreSession (uuid_string (s_id row)) (uuid_string (s_tenant row)) creator (s_engine row)
      metadata (s_created row) config None None [] None None)
  end.

Definition sessionActivity (session : Session) : tx Session :=
  let parsed := λ v, match parseID v with Ok id => id | Err _ => 0%N end in
  let id := parsed (ss_id session) in
  environment ← GetSessionEnvironmentQ (parsed (ss_tenant session)) id;
  ea ← match environment with
       | None => mret (None, None)
       | Some row =>
           value ← of_result (environmentFromRow (Some row));
           activity ← environmentInputActivity id;
           mret (Some value, activity)
       end;
  let described := λ turn usage actions,
    MkStoreSession (ss_id session) (ss_tenant session) (ss_creator session) (ss_engine session) (ss_metadata session)
      (ss_created session) (ss_config session) turn usage actions ea.1 ea.2 in
  last ← GetLatestSessionTurn id;
  match last with
  | None => mret (described None None (ss_actions session))
  | Some row =>
      actions ← functionActions row;
      usage ← SessionTokenUsage id;
      mret (described (Some (turnFromRow row)) usage actions)
  end.

Definition GetSession (tenantID sessionID : string) : tx Session :=
  tenant ← of_result (parseID tenantID);
  id ← of_result (parseID sessionID);
  row ← GetSessionQ tenant id;
  match row with
  | None => throw ErrNotFound
  | Some row => session ← of_result (sessionFromRow row); sessionActivity session
  end.

(** The rows of a page and the cursor of the next one. *)
Definition cut_page {A} (limit : nat) (id : A → N) (rows : list A) : list A * string :=
  if (limit <? length rows)%nat
  then (take limit rows, match List.nth_error rows (limit - 1) with Some r => uuid_string (id r) | None => "" end)
  else (rows, "").

Definition page_size_ok (limit : Z) : bool := (1 <=? limit) && (limit <=? 100).

Fixpoint session_pages (rows : list session_row) : tx (list Session) :=
  match rows with
  | [] => mret []
  | row :: rows' =>
      session ← of_result (sessionFromRow row);
      session ← sessionActivity session;
      rest ← session_pages rows';
      mret (session :: rest)
  end.

Definition ListSessions (tenantID cursor : string) (limit : Z) (ascending : bool) (agentID : option string)
  : tx (list Session * string) :=
  tenant ← of_result (parseID tenantID);
  _ ← require (page_size_ok limit) ErrInvalidInput;
  after ← (if cursor =?s "" then mret None else
             after ← GetSession tenantID cursor;
             mret (Some (ss_created after, 0, match parseID (ss_id after) with Ok id => id | Err _ => 0%N end)));
  rows ← ListSessionsQ tenant agentID ascending after (Z.to_nat (limit + 1));
  let page := cut_page (Z.to_nat limit) s_id rows in
  sessions ← session_pages page.1;
  mret (sessions, page.2).

(** *** Turns *)

Definition ListTurns (tenantID sessionID cursor : string) (limit : Z) (ascending : bool) : tx (list Turn * string) :=
  _ ← require (page_size_ok limit) ErrInvalidInput;
  _ ← GetSession tenantID sessionID;
  let parsed := λ v, match parseID v with Ok id => id | Err _ => 0%N end in
  after ← (if cursor =?s "" then mret None else
             after ← GetTurn tenantID sessionID cursor;
             mret (Some (tn_created after, 0, parsed (tn_id after))));
  rows ← ListTurnsQ (parsed tenantID) (parsed sessionID) ascending after (Z.to_nat (limit + 1));
  let page := cut_page (Z.to_nat limit) t_id rows in
  mret (List.map turnFromRow page.1, page.2).

(** *** Items *)

Fixpoint decode_items (rows : list item_row) : result (list Item) :=
  match rows with
  | [] => Ok []
  | row :: rows' =>
      match UnmarshalItem (si_payload row) with
      | None => Err (ErrOther "decode item")
      | Some item => rest ← decode_items rows'; Ok (item :: rest)
      end
  end.

(** The Items of a page and whether there are more. *)
Definition ListItems (tenantID sessionID cursor : string) (limit : Z) (ascending : bool) : tx (list Item * bool) :=
  _ ← require (page_size_ok limit) ErrInvalidInput;
  withPublicSession tenantID sessionID (λ session,
    after ← (if cursor =?s "" then mret None else
               id ← of_result (parseID cursor);
               row ← GetSessionItem session id;
               match row with
               | None => throw ErrNotFound
               | Some i => mret (Some (si_created i, si_position i, id))
               end);
    rows ← ListSessionItems session ascending after (Z.to_nat (limit + 1));
    let more := (limit <? Z.of_nat (length rows)) in
    items ← of_result (decode_items (if more then take (Z.to_nat limit) rows else rows));
    mret (items, more)).

(** *** Subagents *)

Record SubagentIdentity := MkSubagentIdentity {
  sui_id : string; sui_session : string; sui_native : string; sui_parent : string; sui_native_created : Z;
  sui_turn : string; sui_ordinal : Z; sui_observed : Z }.

Definition GetSubagentIdentity (tenantID sessionID nativeID : string) : tx SubagentIdentity :=
  p ← of_result (deviceLookup tenantID sessionID);
  row ← GetSubagentIdentityQ (dl_tenant p) (dl_id p) nativeID;
  match row with
  | None => throw ErrNotFound
  | Some (i, observed) => mret (MkSubagentIdentity (uuid_string (sa_id i)) sessionID (sa_native i) (sa_parent i)
      (sa_native_created i) (uuid_string (sa_turn i)) (sa_ordinal i) observed)
  end.
End reads.
