(* ===== verification/Configuration.v ===== *)
(** * Configuration

    The resolved configuration of a Session as the execution service reads it
    ([services/agents-api/internal/execution]): [Snapshot] of [dispatcher.go]
    with the contract types it is made of, the placement of an environment
    ([environment_placement.go], [environment.go], [environment_admission.go])
    and the text of message inputs ([input_text.go]). *)
From stdpp Require Import base tactics list strings numbers.
From S2P Require Import Prelude GoJson Contract Items Database Queries EnvQueries SessionLog Turns Environments Reads.

(** ** Contract types *)

Record MultiAgentConfig := MkMultiAgent { ma_enabled : bool; ma_max : option Z }.
Record Reasoning := MkReasoning { re_effort : option string; re_summary : option string }.
Record TextConfig := MkTextConfig { tc_format : string; tc_verbosity : string }.

Record Agent := MkAgent {
  ag_harness : option string; ag_id : string; ag_instructions : option string; ag_model : string;
  ag_multi : MultiAgentConfig; ag_name : option string; ag_reasoning : Reasoning; ag_tier : string;
  ag_text : TextConfig; ag_tools : option (list (option json)) }.

Definition zero_agent : Agent :=
  MkAgent None "" None "" (MkMultiAgent false None) None (MkReasoning None None) "" (MkTextConfig "" "") None.

Definition dec_one (name : string) : decoder string := dec_struct (λ s k v,
  if key_is name k then dec_string s v else Some s).

Definition dec_multi : decoder MultiAgentConfig := dec_struct (λ m k v,
  if key_is "enabled" k then b ← dec_bool (ma_enabled m) v; Some (MkMultiAgent b (ma_max m))
  else if key_is "max_concurrent_subagents" k then n ← dec_ptr 0 dec_int64 (ma_max m) v; Some (MkMultiAgent (ma_enabled m) n)
  else Some m).

Definition dec_reasoning : decoder Reasoning := dec_struct (λ r k v,
  if key_is "effort" k then s ← dec_ptr "" dec_string (re_effort r) v; Some (MkReasoning s (re_summary r))
  else if key_is "summary" k then s ← dec_ptr "" dec_string (re_summary r) v; Some (MkReasoning (re_effort r) s)
  else Some r).

Definition dec_text_config : decoder TextConfig := dec_struct (λ c k v,
  if key_is "format" k then s ← dec_one "type" (tc_format c) v; Some (MkTextConfig s (tc_verbosity c))
  else if key_is "verbosity" k then s ← dec_string (tc_verbosity c) v; Some (MkTextConfig (tc_format c) s)
  else Some c).

Definition dec_agent : decoder Agent := dec_struct (λ a k v,
  let '(MkAgent harness id instructions model multi name reasoning tier text tools) := a in
  if key_is "x_agents_core" k then h ← dec_ptr "" (dec_one "harness") harness v; Some (MkAgent h id instructions model multi name reasoning tier text tools)
  else if key_is "id" k then s ← dec_string id v; Some (MkAgent harness s instructions model multi name reasoning tier text tools)
  else if key_is "instructions" k then s ← dec_ptr "" dec_string instructions v; Some (MkAgent harness id s model multi name reasoning tier text tools)
  else if key_is "model" k then s ← dec_string model v; Some (MkAgent harness id instructions s multi name reasoning tier text tools)
  else if key_is "multi_agent" k then m ← dec_multi multi v; Some (MkAgent harness id instructions model m name reasoning tier text tools)
  else if key_is "name" k then s ← dec_ptr "" dec_string name v; Some (MkAgent harness id instructions model multi s reasoning tier text tools)
  else if key_is "reasoning" k then r ← dec_reasoning reasoning v; Some (MkAgent harness id instructions model multi name r tier text tools)
  else if key_is "service_tier" k then s ← dec_string tier v; Some (MkAgent harness id instructions model multi name reasoning s text tools)
  else if key_is "text" k then t ← dec_text_config text v; Some (MkAgent harness id instructions model multi name reasoning tier t tools)
  else if key_is "tools" k then l ← dec_slice None dec_raw tools v; Some (MkAgent harness id instructions model multi name reasoning tier text l)
  else Some a).

Record EnvironmentPackages := MkPackages {
  pk_npm : option (list string); pk_python : option (list string); pk_system : option (list string) }.
Record EnvironmentNetworkInput := MkNetwork { nw_access : string; nw_domains : option (list string) }.

Definition strings : decoder (option (list string)) := dec_slice "" dec_string.
Definition raws : decoder (option (list (option json))) := dec_slice None dec_raw.

(** Structs are decoded leniently, or with [DisallowUnknownFields] ([strict]). *)
Definition unknown {A} (strict : bool) (a : A) : option A := if strict then None else Some a.

Definition dec_packages (strict : bool) : decoder EnvironmentPackages := dec_struct (λ p k v,
  if key_is "npm" k then l ← strings (pk_npm p) v; Some (MkPackages l (pk_python p) (pk_system p))
  else if key_is "python" k then l ← strings (pk_python p) v; Some (MkPackages (pk_npm p) l (pk_system p))
  else if key_is "system" k then l ← strings (pk_system p) v; Some (MkPackages (pk_npm p) (pk_python p) l)
  else unknown strict p).

Definition dec_network (strict : bool) : decoder EnvironmentNetworkInput := dec_struct (λ n k v,
  if key_is "access" k then s ← dec_string (nw_access n) v; Some (MkNetwork s (nw_domains n))
  else if key_is "allowed_domains" k then l ← strings (nw_domains n) v; Some (MkNetwork (nw_access n) l)
  else unknown strict n).

(** [v1.Environment]; the variables are a map, here its members in the order they
    were decoded. *)
Record EnvironmentConfig := MkEnvConfig {
  ec_skills : option (list (option json)); ec_env : list (string * string); ec_setup : option (list (option json));
  ec_packages : option EnvironmentPackages; ec_files : option (list (option json));
  ec_template : string; ec_type : string; ec_workspace : string;
  ec_capabilities : option (list string); ec_network : option EnvironmentNetworkInput }.

Definition zero_environment_config : EnvironmentConfig := MkEnvConfig None [] None None None "" "" "" None None.
Definition zero_packages : EnvironmentPackages := MkPackages None None None.
Definition zero_network : EnvironmentNetworkInput := MkNetwork "" None.

(** A map that is there keeps its other members. *)
Definition dec_variables : decoder (list (string * string)) := λ cur j,
  match j with JNull => Some [] | _ => (λ m, cur ++ m) <$> dec_string_map j end.

Definition dec_environment_config : decoder EnvironmentConfig := dec_struct (λ e k v,
  let '(MkEnvConfig skills env setup packages files template type workspace capabilities network) := e in
  if key_is "skills" k then l ← raws skills v; Some (MkEnvConfig l env setup packages files template type workspace capabilities network)
  else if key_is "env" k then m ← dec_variables env v; Some (MkEnvConfig skills m setup packages files template type workspace capabilities network)
  else if key_is "setup_commands" k then l ← raws setup v; Some (MkEnvConfig skills env l packages files template type workspace capabilities network)
  else if key_is "packages" k then p ← dec_ptr zero_packages (dec_packages false) packages v; Some (MkEnvConfig skills env setup p files template type workspace capabilities network)
  else if key_is "files" k then l ← raws files v; Some (MkEnvConfig skills env setup packages l template type workspace capabilities network)
  else if key_is "environment_template_id" k then s ← dec_string template v; Some (MkEnvConfig skills env setup packages files s type workspace capabilities network)
  else if key_is "type" k then s ← dec_string type v; Some (MkEnvConfig skills env setup packages files template s workspace capabilities network)
  else if key_is "workspace_directory" k then s ← dec_string workspace v; Some (MkEnvConfig skills env setup packages files template type s capabilities network)
  else if key_is "capability_directories" k then l ← strings capabilities v; Some (MkEnvConfig skills env setup packages files template type workspace l network)
  else if key_is "network" k then n ← dec_ptr zero_network (dec_network false) network v; Some (MkEnvConfig skills env setup packages files template type workspace capabilities n)
  else Some e).

(** [store.MCPCredentialBinding]. *)
Record MCPCredentialBinding := MkCredentialBinding {
  mb_label : string; mb_url : string; mb_vault : string; mb_credential : string; mb_auth : string }.

Definition dec_credential_binding : decoder MCPCredentialBinding := dec_struct (λ b k v,
  let '(MkCredentialBinding label url vault credential auth) := b in
  if key_is "server_label" k then s ← dec_string label v; Some (MkCredentialBinding s url vault credential auth)
  else if key_is "server_url" k then s ← dec_string url v; Some (MkCredentialBinding label s vault credential auth)
  else if key_is "vault_id" k then s ← dec_string vault v; Some (MkCredentialBinding label url s credential auth)
  else if key_is "credential_id" k then s ← dec_string credential v; Some (MkCredentialBinding label url vault s auth)
  else if key_is "auth_type" k then s ← dec_string auth v; Some (MkCredentialBinding label url vault credential s)
  else Some b).

(** ** The snapshot *)

Record Snapshot := MkSnapshot {
  sn_provider : bool; sn_agent : Agent; sn_daemon : option string; sn_environment : option EnvironmentConfig;
  sn_vaults : option (list string); sn_credentials : option (list MCPCredentialBinding) }.

Definition dec_execution_snapshot : decoder Snapshot := dec_struct (λ s k v,
  let '(MkSnapshot provider agent daemon environment vaults credentials) := s in
  if key_is "model_provider_configured" k then b ← dec_bool provider v; Some (MkSnapshot b agent daemon environment vaults credentials)
  else if key_is "agent" k then a ← dec_agent agent v; Some (MkSnapshot provider a daemon environment vaults credentials)
  else if key_is "daemon" k then d ← dec_ptr "" (dec_one "work_dir") daemon v; Some (MkSnapshot provider agent d environment vaults credentials)
  else if key_is "environment" k then e ← dec_ptr zero_environment_config dec_environment_config environment v; Some (MkSnapshot provider agent daemon e vaults credentials)
  else if key_is "vault_ids" k then l ← strings vaults v; Some (MkSnapshot provider agent daemon environment l credentials)
  else if key_is "mcp_credentials" k then
    l ← dec_slice (MkCredentialBinding "" "" "" "" "") dec_credential_binding credentials v;
    Some (MkSnapshot provider agent daemon environment vaults l)
  else Some s).

(** [json.Unmarshal(configuration, &snapshot)] into a zero value. *)
Definition unmarshal_snapshot (configuration : json) : option Snapshot :=
  dec_execution_snapshot (MkSnapshot false zero_agent None None None None) configuration.

Definition environment_type (s : Snapshot) : option string := ec_type <$> sn_environment s.

Definition preparedEnvironmentConfiguration (configuration : json) : bool :=
  match unmarshal_snapshot configuration ≫= environment_type with
  | Some type => (type =?s "self_hosted") || (type =?s "openai_hosted")
  | None => false
  end.

(** (working directory, no environment). *)
Definition resolveExecutionEnvironment (s : Snapshot) : result (string * bool) :=
  match environment_type s, sn_daemon s with
  | Some type, daemon => if negb (type =?s "none") || bool_decide (is_Some daemon) then Err ErrInvalidInput else Ok ("", true)
  | None, None => Err ErrInvalidInput
  | None, Some workDir =>
      if negb (workDir =?s "") && negb (has_prefix workDir "/") && negb (has_prefix workDir "~/")
      then Err ErrInvalidInput else Ok (workDir, false)
  end.

(** ** Placement of an environment *)

(** [agentskill.Metadata]. *)
Record SkillMetadata := MkSkill { sk_type : string; sk_name : string; sk_description : string }.

Definition dec_skill (strict : bool) : decoder SkillMetadata := dec_struct (λ s k v,
  if key_is "type" k then x ← dec_string (sk_type s) v; Some (MkSkill x (sk_name s) (sk_description s))
  else if key_is "name" k then x ← dec_string (sk_name s) v; Some (MkSkill (sk_type s) x (sk_description s))
  else if key_is "description" k then x ← dec_string (sk_description s) v; Some (MkSkill (sk_type s) (sk_name s) x)
  else unknown strict s).

Definition skills (strict : bool) : decoder (option (list SkillMetadata)) := dec_slice (MkSkill "" "" "") (dec_skill strict).

Record environmentPlacement := MkPlacement {
  pl_skills : option (list SkillMetadata); pl_type : string; pl_tool : bool; pl_system : bool;
  pl_network : string; pl_workspace : string; pl_capabilities : option (list string) }.

Definition dec_placement : decoder environmentPlacement := dec_struct (λ p k v,
  let '(MkPlacement skl type tool system network workspace capabilities) := p in
  if key_is "skills" k then l ← skills false skl v; Some (MkPlacement l type tool system network workspace capabilities)
  else if key_is "type" k then s ← dec_string type v; Some (MkPlacement skl s tool system network workspace capabilities)
  else if key_is "initialization" k then b ← dec_bool tool v; Some (MkPlacement skl type b system network workspace capabilities)
  else if key_is "workspace_directory" k then s ← dec_string workspace v; Some (MkPlacement skl type tool system network s capabilities)
  else if key_is "capability_directories" k then l ← strings capabilities v; Some (MkPlacement skl type tool system network workspace l)
  else Some p).

(** [store.InitialFileMetadata], decoded strictly and not looked at. *)
Definition dec_file_metadata : decoder (option Z) := dec_struct (λ n k v,
  if key_is "id" k || key_is "type" k || key_is "path" k || key_is "file_id" k then _ ← dec_string "" v; Some n
  else if key_is "size_bytes" k then dec_ptr 0 dec_int64 n v
  else None).

(** The strict second decoding of a hosted configuration: packages, capability
    directories and network. *)
Record LocalConfig := MkLocal {
  lc_packages : option EnvironmentPackages; lc_capabilities : option (list string); lc_network : option EnvironmentNetworkInput }.

Definition dec_local : decoder LocalConfig := dec_struct (λ l k v,
  if key_is "skills" k then _ ← skills true None v; Some l
  else if key_is "files" k then _ ← dec_slice None dec_file_metadata None v; Some l
  else if key_is "packages" k then p ← dec_ptr zero_packages (dec_packages true) (lc_packages l) v; Some (MkLocal p (lc_capabilities l) (lc_network l))
  else if key_is "initialization" k then _ ← dec_bool false v; Some l
  else if key_is "type" k then _ ← dec_string "" v; Some l
  else if key_is "capability_directories" k then c ← strings (lc_capabilities l) v; Some (MkLocal (lc_packages l) c (lc_network l))
  else if key_is "network" k then n ← dec_ptr zero_network (dec_network true) (lc_network l) v; Some (MkLocal (lc_packages l) (lc_capabilities l) n)
  else None).

Definition no_elements {A} (l : option (list A)) : bool := match default [] l with [] => true | _ => false end.

Definition parseEnvironmentPlacement (configuration : json) : result environmentPlacement :=
  match dec_placement (MkPlacement None "" false false "" "" None) configuration with
  | None => Err ErrInvalidInput
  | Some p =>
      if pl_type p =?s "self_hosted" then
        if negb (pl_workspace p =?s "") && no_elements (pl_capabilities p) then Ok p else Err ErrInvalidInput
      else if pl_type p =?s "openai_hosted" then
        match dec_local (MkLocal None None None) configuration with
        | Some local =>
            if negb (no_elements (lc_capabilities local)) then Err ErrInvalidInput else
            let system := match lc_packages local with Some k => negb (no_elements (pk_system k)) | None => false end in
            let placed network := Ok (MkPlacement (pl_skills p) (pl_type p) (pl_tool p) system network (pl_workspace p) (pl_capabilities p)) in
            match lc_network local with
            | None => placed "enabled"
            | Some n =>
                if negb (no_elements (nw_domains n)) || negb ((nw_access n =?s "enabled") || (nw_access n =?s "disabled"))
                then Err ErrInvalidInput else placed (nw_access n)
            end
        | None => Err ErrInvalidInput
        end
      else Err ErrInvalidInput
  end.

Definition LocalWorkspaceConfiguration (configuration : json) : bool :=
  match parseEnvironmentPlacement configuration with Ok p => pl_type p =?s "openai_hosted" | Err _ => false end.

Definition environmentDeviceMatches (session : Session) (environment : Environment) (bound : ExecutionDevice)
    (placement : environmentPlacement) : bool :=
  (en_session environment =?s ss_id session) && (en_tenant environment =?s ss_tenant session)
  && (if pl_type placement =?s "openai_hosted" then ed_environment bound =?s en_id environment
      else ed_environment bound =?s "").

(** ** The text of inputs *)

Record InputContent := MkInputContent { ic_type : string; ic_text : string }.
Record InputMessage := MkInputMessage { im_type : string; im_role : string; im_content : option (list InputContent) }.

Definition dec_input_content : decoder InputContent := dec_struct (λ c k v,
  if key_is "type" k then s ← dec_string (ic_type c) v; Some (MkInputContent s (ic_text c))
  else if key_is "text" k then s ← dec_string (ic_text c) v; Some (MkInputContent (ic_type c) s)
  else Some c).

Definition dec_input_message : decoder InputMessage := dec_struct (λ m k v,
  if key_is "type" k then s ← dec_string (im_type m) v; Some (MkInputMessage s (im_role m) (im_content m))
  else if key_is "role" k then s ← dec_string (im_role m) v; Some (MkInputMessage (im_type m) s (im_content m))
  else if key_is "content" k then
    l ← dec_slice (MkInputContent "" "") dec_input_content (im_content m) v; Some (MkInputMessage (im_type m) (im_role m) l)
  else Some m).

Definition dec_message_body : decoder (string * option (list InputMessage)) := dec_struct (λ b k v,
  if key_is "text" k then s ← dec_string b.1 v; Some (s, b.2)
  else if key_is "input" k then l ← dec_slice (MkInputMessage "" "" None) dec_input_message b.2 v; Some (b.1, l)
  else Some b).

Definition paragraph_break : string := bytes [10; 10]%nat.

(** One message: the concatenation of its text parts. *)
Definition message_parts (m : InputMessage) : result string :=
  _ ← reject_if (negb (im_role m =?s "user")) ErrInvalidInput;
  let parts := default [] (im_content m) in
  _ ← reject_if (negb (List.forallb (λ c, ic_type c =?s "input_text") parts)) ErrInvalidInput;
  let text := String.concat "" (List.map ic_text parts) in
  _ ← reject_if (TrimSpace text =?s "") ErrInvalidInput;
  Ok text.

Fixpoint message_texts (l : list InputMessage) : result (list string) :=
  match l with
  | [] => Ok []
  | m :: l' => t ← message_parts m; ts ← message_texts l'; Ok (t :: ts)
  end.

Definition messageText (raw : json) : result string :=
  match dec_message_body ("", None) raw with
  | None => Err ErrInvalidInput
  | Some (text, input) =>
      match default [] input with
      | [] => if TrimSpace text =?s "" then Err ErrInvalidInput else Ok text
      | messages => ts ← message_texts messages; Ok (String.concat paragraph_break ts)
      end
  end.

Section initial_input.
Context `{UUIDs, Oracle, EventSizes}.

(** The loop of [initialInput]: the messages that fit, and the last sequence. *)
Fixpoint initial_texts (size : Z) (texts : list string) (through : Z) (inputs : list TurnInput)
  : result (list string * Z) :=
  match inputs with
  | [] => Ok (texts, through)
  | input :: inputs' =>
      _ ← reject_if (negb (ti_kind input =?s "message")) ErrInvalidInput;
      text ← messageText (ti_payload input);
      if (512 * 1024 <? size + str_len text) && negb (bool_decide (texts = [])) then Ok (texts, through)
      else initial_texts (size + str_len text) (texts ++ [text]) (ti_sequence input) inputs'
  end.

Definition initialInput (tenantID sessionID turnID : string) : tx (string * Z) :=
  inputs ← ListTurnInputs tenantID sessionID turnID 0 100;
  r ← of_result (initial_texts 0 [] 0 inputs);
  _ ← require (negb (bool_decide (r.1 = []))) ErrInvalidInput;
  mret (String.concat paragraph_break r.1, r.2).
End initial_input.
