(* ===== verification/Setup.v ===== *)
(** * Setup

    The confidential inputs of a new Session: initial files, the setup of its
    environment with inline skills, and the model provider ([initial_files.go],
    [environment_setup.go], [environment_skills.go] of
    [services/agents-api/internal/store], [model_execution.go] of
    [contracts/agents-api/v1]), with the parts of the Go standard library that
    they use: UTF-8 validity, [path.Clean] and base64. *)
From stdpp Require Import base tactics list strings numbers.
From S2P Require Import Prelude GoJson Contract Items Database Queries EnvQueries SessionLog Turns Environments Reads Configuration.

(** ** Text and paths *)

Definition continuation : Ascii.ascii → bool := in_range 128 191.

(** The second byte of a sequence of three or four. *)
Definition second_ok (c0 c1 : Ascii.ascii) : bool :=
  if in_range 224 224 c0 then in_range 160 191 c1
  else if in_range 237 237 c0 then in_range 128 159 c1
  else if in_range 240 240 c0 then in_range 144 191 c1
  else if in_range 244 244 c0 then in_range 128 143 c1
  else continuation c1.

(** [utf8.ValidString]. *)
Fixpoint utf8_valid (s : string) : bool :=
  match s with
  | EmptyString => true
  | String.String c0 s0 =>
      if in_range 0 127 c0 then utf8_valid s0 else
      match s0 with
      | EmptyString => false
      | String.String c1 s1 =>
          if in_range 194 223 c0 then continuation c1 && utf8_valid s1 else
          match s1 with
          | EmptyString => false
          | String.String c2 s2 =>
              if in_range 224 239 c0 then second_ok c0 c1 && continuation c2 && utf8_valid s2 else
              match s2 with
              | EmptyString => false
              | String.String c3 s3 =>
                  in_range 240 244 c0 && second_ok c0 c1 && continuation c2 && continuation c3 && utf8_valid s3
              end
          end
      end
  end.

Definition slash : Ascii.ascii := Ascii.ascii_of_nat 47.

(** The segments between slashes. *)
Fixpoint segments (s : string) : list string :=
  match s with
  | EmptyString => [""]
  | String.String c s' =>
      if bool_decide (c = slash) then "" :: segments s'
      else match segments s' with [] => [String.String c ""] | x :: l => String.String c x :: l end
  end.

(** The segments of a rooted path after [path.Clean], innermost first. *)
Fixpoint clean_segments (acc l : list string) : list string :=
  match l with
  | [] => acc
  | x :: l' =>
      if (x =?s "") || (x =?s ".") then clean_segments acc l'
      else if x =?s ".." then clean_segments (tail acc) l'
      else clean_segments (x :: acc) l'
  end.

(** [path.Clean] of a path that starts with a slash. *)
Definition path_clean (s : string) : string := "/" +:+ String.concat "/" (rev (clean_segments [] (segments s))).

(** [path.IsAbs]. *)
Definition path_abs (s : string) : bool := has_prefix s "/".

(** *** Base64 *)

Definition base64_digit (n : nat) : Ascii.ascii :=
  Ascii.ascii_of_nat (if (n <? 26)%nat then 65 + n else if (n <? 52)%nat then 71 + n
                      else if (n <? 62)%nat then n - 4 else if (n =? 62)%nat then 43 else 47).

Definition pad : Ascii.ascii := Ascii.ascii_of_nat 61.

(** [base64.StdEncoding], as [encoding/json] prints a byte slice. *)
Fixpoint base64 (s : string) : string :=
  let n := Ascii.nat_of_ascii in
  match s with
  | EmptyString => ""
  | String.String a EmptyString =>
      String.String (base64_digit (n a / 4)) (String.String (base64_digit (n a mod 4 * 16))
        (String.String pad (String.String pad "")))
  | String.String a (String.String b EmptyString) =>
      String.String (base64_digit (n a / 4)) (String.String (base64_digit (n a mod 4 * 16 + n b / 16))
        (String.String (base64_digit (n b mod 16 * 4)) (String.String pad "")))
  | String.String a (String.String b (String.String c s')) =>
      String.String (base64_digit (n a / 4)) (String.String (base64_digit (n a mod 4 * 16 + n b / 16))
        (String.String (base64_digit (n b mod 16 * 4 + n c / 64)) (String.String (base64_digit (n c mod 64)) (base64 s'))))
  end.

(** ** Initial files *)

Definition MaxInitialFileBytes : Z := 50 * 2 ^ 20.

Record InitialFile := MkInitialFile { if_type : string; if_path : string; if_file : string; if_data : string }.

Record InitialFileMetadata := MkFileMetadata {
  fm_id : string; fm_type : string; fm_path : string; fm_file : string; fm_size : option Z }.

(** Backslash, NUL, carriage return and line feed. *)
Definition path_forbidden : list nat := [92; 0; 13; 10]%nat.

Definition initial_path_ok (path : string) : bool :=
  utf8_valid path && negb (contains_any path path_forbidden) && (str_len path <=? 4096)
  && has_prefix path "/workspace/" && (path_clean path =?s path).

Definition initial_source_ok (f : InitialFile) : bool :=
  if if_type f =?s "inline" then (if_file f =?s "") && (str_len (if_data f) <=? 5 * 2 ^ 20)
  else if if_type f =?s "file_id" then negb (if_file f =?s "") && (str_len (if_data f) =? 0)
  else false.

(** The loop over the files, with the total of inline data and the paths seen. *)
Fixpoint validate_files (total : Z) (seen : list string) (files : list InitialFile) : result unit :=
  match files with
  | [] => reject_if (10 * 2 ^ 20 <? total) ErrInvalidInput
  | f :: files' =>
      _ ← reject_if (negb (initial_path_ok (if_path f)) || existsb (λ p, p =?s if_path f) seen
                     || negb (initial_source_ok f)) ErrInvalidInput;
      validate_files (if if_type f =?s "inline" then total + str_len (if_data f) else total) (if_path f :: seen) files'
  end.

Definition ValidateInitialFiles (files : list InitialFile) : result unit :=
  _ ← reject_if (50 <? Z.of_nat (length files)) ErrInvalidInput;
  validate_files 0 [] files.

Definition initialFileMetadata (files : list InitialFile) : list InitialFileMetadata :=
  List.map (λ f, MkFileMetadata "" (if_type f) (if_path f) (if_file f)
    (if if_type f =?s "inline" then Some (str_len (if_data f)) else None)) files.

Definition enc_file_metadata (m : InitialFileMetadata) : json :=
  JObj (omit_str "id" (fm_id m) ++ member "type" (JStr (fm_type m)) ++ member "path" (JStr (fm_path m))
        ++ omit_str "file_id" (fm_file m) ++ omit_nil "size_bytes" int_json (fm_size m)).

Definition enc_initial_file (f : InitialFile) : json :=
  JObj (member "type" (JStr (if_type f)) ++ member "path" (JStr (if_path f)) ++ omit_str "file_id" (if_file f)
        ++ omit_str "data" (base64 (if_data f))).

(** ** Environment setup *)

Record SetupCommand := MkSetupCommand { su_command_text : string; su_cwd : string }.

Record InlineSkill := MkInlineSkill { is_metadata : SkillMetadata; is_archive : string }.

(** [store.EnvironmentSetup]; the variables are a map, here its members. *)
Record EnvironmentSetup := MkSetup {
  es_env : list (string * string); es_commands : list SetupCommand; es_packages : EnvironmentPackages;
  es_skills : list InlineSkill }.

Definition packages (l : option (list string)) : list string := default [] l.

Definition setup_empty (s : EnvironmentSetup) : bool :=
  (length (es_env s) + length (es_commands s) + length (packages (pk_npm (es_packages s)))
   + length (packages (pk_python (es_packages s))) + length (packages (pk_system (es_packages s)))
   + length (es_skills s) =? 0)%nat.

Definition enc_strings (l : option (list string)) : json :=
  match l with None => JNull | Some l => JArr (List.map JStr l) end.

Definition enc_packages (p : EnvironmentPackages) : json :=
  JObj (member "npm" (enc_strings (pk_npm p)) ++ member "python" (enc_strings (pk_python p))
        ++ member "system" (enc_strings (pk_system p))).

(** A map is printed with sorted keys. *)
Definition enc_string_map (m : list (string * string)) : json := json_canon (JObj (List.map (λ kv, (kv.1, JStr kv.2)) m)).

Definition enc_command (c : SetupCommand) : json :=
  JObj (member "command" (JStr (su_command_text c)) ++ omit_str "cwd" (su_cwd c)).

Definition enc_skill_metadata (m : SkillMetadata) : json :=
  JObj (member "type" (JStr (sk_type m)) ++ member "name" (JStr (sk_name m)) ++ member "description" (JStr (sk_description m))).

Definition enc_inline_skill (s : InlineSkill) : json :=
  JObj (member "metadata" (enc_skill_metadata (is_metadata s)) ++ member "archive" (JStr (base64 (is_archive s)))).

Definition omit_list {A} (k : string) (f : A → json) (l : list A) : list (string * json) :=
  match l with [] => [] | _ => member k (JArr (List.map f l)) end.

Definition enc_setup (s : EnvironmentSetup) : json :=
  JObj (match es_env s with [] => [] | m => member "env" (enc_string_map m) end
        ++ omit_list "setup_commands" enc_command (es_commands s) ++ member "packages" (enc_packages (es_packages s))
        ++ omit_list "skills" enc_inline_skill (es_skills s)).

Definition MaxSkillsArchiveBytes : Z := 10 * 2 ^ 20.

(** The members of a skill archive by the length of their data: [agentskill.Read]. *)
Class SkillReader := skill_files : string → SkillMetadata → option (list Z).

Section setup.
Context `{SkillReader}.

Fixpoint validate_skills (total expanded : Z) (seen : list string) (skills : list InlineSkill) : result unit :=
  match skills with
  | [] => Ok tt
  | s :: skills' =>
      let total := total + str_len (is_archive s) in
      _ ← reject_if ((MaxSkillsArchiveBytes <? total) || existsb (λ n, n =?s sk_name (is_metadata s)) seen) ErrInvalidInput;
      match skill_files (is_archive s) (is_metadata s) with
      | None => Err ErrInvalidInput
      | Some files =>
          let expanded := expanded + foldr Z.add 0 files in
          _ ← reject_if (50 * 2 ^ 20 <? expanded) ErrInvalidInput;
          validate_skills total expanded (sk_name (is_metadata s) :: seen) skills'
      end
  end.

Definition ValidateInlineSkills (skills : list InlineSkill) : result unit :=
  _ ← reject_if (50 <? Z.of_nat (length skills)) ErrInvalidInput;
  validate_skills 0 0 [] skills.

Definition letter (c : Ascii.ascii) : bool := in_range 65 90 c || in_range 97 122 c || in_range 95 95 c.

Fixpoint all_bytes (p : Ascii.ascii → bool) (s : string) : bool :=
  match s with EmptyString => true | String.String c s' => p c && all_bytes p s' end.

(** The regular expression [^[A-Za-z_][A-Za-z0-9_]*$]. *)
Definition environmentName (s : string) : bool :=
  match s with
  | EmptyString => false
  | String.String c s' => letter c && all_bytes (λ c, letter c || in_range 48 57 c) s'
  end.

Definition variable_ok (kv : string * string) : bool :=
  environmentName kv.1 && negb (kv.1 =?s "PATH") && negb (kv.1 =?s "OPENAI_API_KEY") && negb (has_prefix kv.1 "CODEX_")
  && negb (has_prefix kv.1 "PARSAR_") && text_ok kv.2.

Definition command_ok (c : SetupCommand) : bool :=
  negb (su_command_text c =?s "") && text_ok (su_command_text c)
  && ((su_cwd c =?s "") || (path_abs (su_cwd c) && text_ok (su_cwd c))).

Definition package_ok (item : string) : bool := negb (item =?s "") && negb (has_prefix item "-") && text_ok item.

(** [EnvironmentSetup.Validate]. *)
Definition validate_setup (s : EnvironmentSetup) : result unit :=
  _ ← ValidateInlineSkills (es_skills s);
  let ordinary := MkSetup (es_env s) (es_commands s) (es_packages s) [] in
  reject_if ((512 * 1024 <? json_len (enc_setup ordinary)) || negb (forallb variable_ok (es_env s))
    || negb (forallb command_ok (es_commands s))
    || negb (forallb package_ok (packages (pk_npm (es_packages s)) ++ packages (pk_python (es_packages s))
                                 ++ packages (pk_system (es_packages s))))) ErrInvalidInput.
End setup.

Definition PackageMetadata (s : EnvironmentSetup) : EnvironmentPackages :=
  let filled := λ l, Some (packages l) in
  MkPackages (filled (pk_npm (es_packages s))) (filled (pk_python (es_packages s))) (filled (pk_system (es_packages s))).

(** ** The model provider *)

(** A parsed URL. *)
Record URL := MkURL {
  url_scheme : string; url_host : string; url_hostname : string; url_user : bool; url_query : string; url_force_query : bool;
  url_fragment : string }.

(** [url.Parse]. *)
Class URLs := url_parse : string → option URL.

Record ModelProviderInput := MkModelProvider {
  mp_protocol : string; mp_base_url : string; mp_api_key : string; mp_context : Z; mp_output : Z }.

Definition enc_model_provider (p : ModelProviderInput) : json :=
  let omit_zero := λ k n, if n =? 0 then [] else member k (int_json n) in
  JObj (member "protocol" (JStr (mp_protocol p)) ++ member "base_url" (JStr (mp_base_url p))
        ++ member "api_key" (JStr (mp_api_key p)) ++ omit_zero "context_window" (mp_context p)
        ++ omit_zero "max_output_tokens" (mp_output p)).

Definition line_breaks : list nat := [0; 13; 10]%nat.

Section provider.
Context `{URLs}.

Definition base_url_ok (text : string) : bool :=
  match url_parse text with
  | None => false
  | Some u => (url_scheme u =?s "https") && negb (url_hostname u =?s "") && negb (url_user u) && (url_query u =?s "")
      && (url_fragment u =?s "") && negb (contains_any text line_breaks)
  end.

(** [ModelProviderInput.Validate]. *)
Definition validate_provider (p : ModelProviderInput) : bool :=
  base_url_ok (mp_base_url p)
  && ((mp_protocol p =?s "anthropic") || (mp_protocol p =?s "responses"))
  && negb (TrimSpace (mp_api_key p) =?s "") && (str_len (mp_api_key p) <=? 16384)
  && negb (contains_any (mp_api_key p) line_breaks)
  && (0 <=? mp_context p) && (0 <=? mp_output p) && (mp_output p <=? mp_context p).

Definition ValidateModelProtocol (protocol harness : string) : bool :=
  ((harness =?s "codex") && (protocol =?s "responses"))
  || (((harness =?s "claude_sdk") || (harness =?s "mcode")) && (protocol =?s "anthropic")).

Definition ValidateHarness (p : ModelProviderInput) (harness : string) : bool :=
  validate_provider p && ValidateModelProtocol (mp_protocol p) harness
  && negb ((harness =?s "mcode") && ((mp_context p =? 0) || (mp_output p =? 0))).
End provider.
