(* ===== verification/Creation.v ===== *)
(** * Creation

    Creating a Session with everything that belongs to it ([sessions.go],
    [session_initial_input.go], [session_creation_identity.go],
    [session_creation_stream.go], [session_environment_snapshot.go],
    [session_metadata.go], [session_model_execution.go] and the writes of
    [initial_files.go] and [environment_setup.go] of
    [services/agents-api/internal/store]), with its SQL statements. *)
From stdpp Require Import base tactics list strings numbers.
From S2P Require Import Prelude GoJson Contract Items Database Queries EnvQueries SessionLog Turns Environments Reads Configuration Setup.

(** ** What creation reads besides the tables *)

(** SHA-256 in hexadecimal; the text [encoding/json] gives a number that went
    through [float64]; the source file of a tenant by its identifier: its declared
    size and the number of bytes stored; whether the store has a cipher. *)
Class CreationInputs := {
  sha256_hex : string → string;
  float_text : string → string;
  source_file : string → string → result (Z * Z);
  cipher : bool;
  creation_skills :: SkillReader;
  creation_urls :: URLs;
}.

(** ** Statements *)

Record CreateSessionParams := MkSessionParams {
  sp_id : N; sp_tenant : N; sp_engine : string; sp_metadata : json; sp_key : string; sp_hash : string;
  sp_config : json; sp_creation_hash : option string; sp_creator : string * string }.

Definition hex_digest (s : string) : bool :=
  (str_len s =? 64) && all_bytes (λ c, in_range 48 57 c || in_range 97 102 c) s.

Definition creator_ok (c : string * string) : bool :=
  ((c.1 =?s "user") || (c.1 =?s "service_account")) && negb (c.2 =?s "").

(** Whether a stored Session is the one that is asked for. *)
Definition same_creation (p : CreateSessionParams) (s : session_row) : bool :=
  bool_decide (s_deleted s = None) && bool_decide (s_creator s = Some (sp_creator p))
  && match s_creation_hash s with
     | None => s_request_hash s =?s sp_hash p
     | Some h => bool_decide (sp_creation_hash p = Some h)
     end.

Definition keyed_session (tenant : N) (key : string) (s : session_row) : bool := (s_tenant s =?s tenant) && (s_key s =?s key).

Section statements.
Context `{Oracle}.

(** [INSERT ... ON CONFLICT (tenant_id, idempotency_key) DO UPDATE SET
    idempotency_key = EXCLUDED.idempotency_key WHERE ... RETURNING]. *)
Definition CreateSessionQ (p : CreateSessionParams) : tx (option session_row) :=
  metadata ← jsonb (sp_metadata p);
  config ← jsonb (sp_config p);
  now ← clock_timestamp;
  let row := MkSession (sp_id p) (sp_tenant p) (sp_engine p) metadata (sp_key p) (sp_hash p) now config 0
               (sp_creation_hash p) None (Some (sp_creator p)) in
  _ ← constraint_check "sessions_metadata_check" (λ _, is_object metadata);
  _ ← constraint_check "sessions_configuration_check" (λ _, is_object config);
  _ ← constraint_check "sessions_creation_request_hash_check" (λ _,
        match sp_creation_hash p with Some h => hex_digest h | None => true end);
  _ ← constraint_check "sessions_creator_complete" (λ _, creator_ok (sp_creator p));
  previous ← query (λ d, head (List.filter (keyed_session (sp_tenant p) (sp_key p)) (sessions d)));
  match previous with
  | Some s => mret (if same_creation p s then Some s else None)
  | None =>
      _ ← constraint_check "sessions_pkey" (λ d, negb (existsb (λ s, s_id s =?s sp_id p) (sessions d)));
      _ ← exec (λ d, with_sessions d (sessions d ++ [row]));
      mret (Some row)
  end.

Definition FindSessionCreationQ (tenant : N) (key : string) : tx (option session_row) :=
  query (λ d, head (List.filter (keyed_session tenant key) (sessions d))).

(** [jsonb_set(j, '{k1,k2}', v)]: the outer member must be there. *)
Definition jsonb_set2 (k1 k2 : string) (v j : json) : option json :=
  match jsonb_field k1 j with
  | Some (JObj kvs) => Some (jsonb_set k1 (JObj (jsonb_put k2 v kvs)) j)
  | Some (JArr _) => None
  | _ => Some j
  end.

Definition config_row (config : json) (s : session_row) : session_row :=
  MkSession (s_id s) (s_tenant s) (s_engine s) (s_metadata s) (s_key s) (s_request_hash s) (s_created s)
    config (s_event_seq s) (s_creation_hash s) (s_deleted s) (s_creator s).

(** [UPDATE sessions SET configuration = ... WHERE id = $1 RETURNING]. *)
Definition set_configuration (id : N) (f : json → option json) : tx (option session_row) :=
  old ← query (λ d, head (List.filter (λ s, s_id s =?s id) (sessions d)));
  match old with
  | None => mret None
  | Some s =>
      match f (s_config s) with
      | None => throw (ErrOther "path element is not an integer")
      | Some config =>
          _ ← constraint_check "sessions_configuration_check" (λ _, is_object config);
          _ ← exec (λ d, with_sessions d (update_where (λ s, s_id s =?s id) (config_row config) (sessions d)));
          mret (Some (config_row config s))
      end
  end.

Definition SetSessionInitialFileMetadata (id : N) (metadata : json) : tx (option session_row) :=
  metadata ← jsonb metadata;
  set_configuration id (jsonb_set2 "environment" "files" metadata).

Definition SetSessionSetupMetadata (id : N) (packages : json) : tx (option session_row) :=
  packages ← jsonb packages;
  set_configuration id (λ config,
    config ← jsonb_set2 "environment" "packages" packages config;
    jsonb_set2 "environment" "initialization" (JBool true) config).

Definition CreateInitialEnvironmentFile (id session : N) (position : Z) (path : string) (size : Z) : tx unit :=
  _ ← constraint_check "initial_environment_files_pkey" (λ d, negb (existsb (λ f, fl_id f =?s id) (initial_files d)));
  _ ← constraint_check "initial_environment_files_session_id_fkey" (λ d, session_exists d session);
  _ ← constraint_check "initial_environment_files_position_check" (λ _, (0 <=? position) && (position <=? 49));
  _ ← constraint_check "initial_environment_files_size_bytes_check" (λ _, (0 <=? size) && (size <=? 52428800));
  _ ← constraint_check "initial_environment_files_session_id_position_key" (λ d,
        negb (existsb (λ f, (fl_session f =?s session) && (fl_position f =?s position)) (initial_files d)));
  _ ← constraint_check "initial_environment_files_session_id_path_key" (λ d,
        negb (existsb (λ f, (fl_session f =?s session) && (fl_path f =?s path)) (initial_files d)));
  exec (λ d, with_initial_files d (initial_files d ++ [MkFile id session position path size])).

Definition CreateEnvironmentSetup (session : N) : tx unit :=
  _ ← constraint_check "environment_setups_pkey" (λ d, negb (existsb (N.eqb session) (setups d)));
  _ ← constraint_check "environment_setups_session_id_fkey" (λ d, session_exists d session);
  exec (λ d, with_setups d (setups d ++ [session])).

Definition SaveSessionModelExecution (session : N) : tx unit :=
  _ ← constraint_check "session_model_execution_pkey" (λ d, negb (existsb (N.eqb session) (model_executions d)));
  _ ← constraint_check "session_model_execution_session_id_fkey" (λ d, session_exists d session);
  exec (λ d, with_model_executions d (model_executions d ++ [session])).

Definition metadata_row (metadata : json) (s : session_row) : session_row :=
  MkSession (s_id s) (s_tenant s) (s_engine s) metadata (s_key s) (s_request_hash s) (s_created s)
    (s_config s) (s_event_seq s) (s_creation_hash s) (s_deleted s) (s_creator s).

Definition UpdateSessionMetadataQ (tenant id : N) (metadata : json) : tx (option session_row) :=
  metadata ← jsonb metadata;
  let hit := λ s, session_is tenant id s && live s in
  old ← query (λ d, head (List.filter hit (sessions d)));
  match old with
  | None => mret None
  | Some s =>
      _ ← constraint_check "sessions_metadata_check" (λ _, is_object metadata);
      _ ← exec (λ d, with_sessions d (update_where hit (metadata_row metadata) (sessions d)));
      mret (Some (metadata_row metadata s))
  end.
End statements.

(** ** Operations *)

Section creation.
Context `{UUIDs, Oracle, EventSizes, CreationInputs}.

Definition credential_storage_unavailable : error := ErrOther "credential storage is unavailable".
Definition cipher_unavailable : error := ErrOther "credential encryption unavailable".

(** A nil map is an empty one. *)
Definition encodeMetadata (metadata : list (string * string)) : result json :=
  let encoded := enc_string_map metadata in
  _ ← reject_if (64 * 1024 <? json_len encoded) ErrInvalidInput;
  Ok encoded.

Record CreateSessionInput := MkCreateSession {
  cs_provider : option ModelProviderInput; cs_setup : EnvironmentSetup; cs_files : list InitialFile;
  cs_creator : Subject; cs_request : raw_message; cs_engine : string; cs_metadata : list (string * string);
  cs_key : string; cs_config : raw_message; cs_inputs : list Input }.

Definition creationRequestHash (raw : raw_message) : result (option string) :=
  if raw_len raw =? 0 then Ok None else
  _ ← reject_if (16 * 2 ^ 20 <? raw_len raw) ErrInvalidInput;
  canonical ← canonicalJSONObject raw;
  Ok (Some (sha256_hex (json_marshal canonical))).

(** A value after [json.Unmarshal] into [any] and [json.Marshal]. *)
Fixpoint through_any (j : json) : json :=
  match j with
  | JNum lit => JNum (float_text lit)
  | JArr l => JArr (List.map through_any l)
  | JObj kvs => JObj (List.map (λ kv, (kv.1, through_any kv.2)) kvs)
  | _ => j
  end.

(** The configuration of a Session with its own model provider. *)
Definition provider_configuration (provider : option ModelProviderInput) (engine : string) (config : json) : result json :=
  match provider with
  | None => Ok config
  | Some p =>
      _ ← reject_if (negb (ValidateHarness p engine)) ErrInvalidInput;
      _ ← reject_if (negb (any_ok config)) ErrInvalidInput;
      _ ← reject_if (negb (bool_decide (jsonb_field "environment" config ≫= jsonb_field "type" = Some (JStr "openai_hosted"))))
            ErrInvalidInput;
      match through_any config with
      | JObj kvs => Ok (json_canon (JObj (obj_put "model_provider_configured" (JBool true) kvs)))
      | j => Ok j
      end
  end.

(** The request whose hash identifies the creation. *)
Definition creation_request (input : CreateSessionInput) (engine : string) (config : json) (encoded : option json) : json :=
  JObj (omit_nil "ModelProvider" enc_model_provider (cs_provider input) ++ member "Engine" (JStr engine)
        ++ member "Metadata" (enc_string_map (cs_metadata input))
        ++ (if bool_decide (config = JObj []) then [] else member "Configuration" config)
        ++ omit_nil "InitialInputs" (λ j, j) encoded
        ++ omit_list "InitialFiles" enc_initial_file (cs_files input)
        ++ (if setup_empty (cs_setup input) then [] else member "Initialization" (enc_setup (cs_setup input)))).

(** Everything [createSession] computes before it opens its transaction: the
    parameters for a given identifier and the initial inputs. *)
Definition prepare_creation (tenantID : string) (input : CreateSessionInput)
  : result ((N → CreateSessionParams) * list CanonInput * option json) :=
  _ ← reject_if (negb (validSubject (cs_creator input))) ErrInvalidInput;
  tenant ← parseID tenantID;
  let engine := TrimSpace (cs_engine input) in
  _ ← reject_if (negb (enginePattern engine) || (TrimSpace (cs_key input) =?s "") || (128 <? str_len (cs_key input)))
        ErrInvalidInput;
  metadata ← encodeMetadata (cs_metadata input);
  _ ← reject_if (512 * 1024 <? raw_len (cs_config input)) ErrInvalidInput;
  config ← canonicalJSONObject (cs_config input);
  be ← (match cs_inputs input with
        | [] => Ok ([], None)
        | inputs => b ← validateInitialInputs inputs; Ok (b.1, Some b.2)
        end : result (list CanonInput * option json));
  config ← provider_configuration (cs_provider input) engine config;
  creation ← creationRequestHash (cs_request input);
  let hash := sha256_hex (json_marshal (creation_request input engine config be.2)) in
  Ok (λ id, MkSessionParams id tenant engine metadata (cs_key input) hash config creation
              (su_kind (cs_creator input), su_id (cs_creator input)), be.1, be.2).

Definition saveSessionModelExecution (session : N) (provider : option ModelProviderInput) : tx unit :=
  match provider with
  | None => mret tt
  | Some _ => _ ← require cipher credential_storage_unavailable; SaveSessionModelExecution session
  end.

(** The length of the body of an initial file. *)
Definition initial_body (tenant : string) (f : InitialFile) : result Z :=
  if if_type f =?s "file_id" then
    source ← source_file tenant (if_file f);
    let read := Z.min source.2 (MaxInitialFileBytes + 1) in
    _ ← reject_if ((MaxInitialFileBytes <? source.1) || (MaxInitialFileBytes <? read) || negb (read =? source.1)) ErrInvalidInput;
    Ok read
  else Ok (str_len (if_data f)).

Fixpoint save_files (tenant : string) (session : N) (position : Z) (files : list InitialFile)
  : tx (list InitialFileMetadata) :=
  match files with
  | [] => mret []
  | f :: files' =>
      size ← of_result (initial_body tenant f);
      id ← uuid_new;
      _ ← require cipher cipher_unavailable;
      _ ← CreateInitialEnvironmentFile id session position (if_path f) size;
      rest ← save_files tenant session (position + 1) files';
      mret (MkFileMetadata (uuid_string id) (if_type f) (if_path f) (if_file f) (Some size) :: rest)
  end.

Definition saveInitialFiles (tenantID : string) (session : N) (files : list InitialFile) : tx json :=
  _ ← of_result (ValidateInitialFiles files);
  tenant ← of_result (parseID tenantID);
  metadata ← save_files (uuid_string tenant) session 0 files;
  mret (JArr (List.map enc_file_metadata metadata)).

Definition saveEnvironmentSetup (tenantID : string) (session : N) (setup : EnvironmentSetup) : tx unit :=
  _ ← of_result (validate_setup setup);
  if setup_empty setup then mret tt else
  _ ← of_result (parseID tenantID);
  _ ← require cipher cipher_unavailable;
  CreateEnvironmentSetup session.

Definition sessionEnvironmentSnapshot (session : session_row) : tx (option Environment) :=
  row ← GetSessionEnvironmentQ (s_tenant session) (s_id session);
  match row with
  | None => mret None
  | Some _ => value ← of_result (environmentFromRow row); mret (Some value)
  end.

(** What a new Session owns besides its row, which the last statement returns. *)
Definition save_resources (tenantID : string) (row : session_row) (files : list InitialFile) (setup : EnvironmentSetup)
    (provider : option ModelProviderInput) : tx session_row :=
  _ ← saveSessionModelExecution (s_id row) provider;
  row ← match files with
        | [] => mret row
        | _ => metadata ← saveInitialFiles tenantID (s_id row) files;
               one (SetSessionInitialFileMetadata (s_id row) metadata)
        end;
  _ ← saveEnvironmentSetup tenantID (s_id row) setup;
  row ← (if setup_empty setup then mret row
         else one (SetSessionSetupMetadata (s_id row) (enc_packages (PackageMetadata setup))));
  _ ← createSessionEnvironment row;
  mret row.

(** The initial inputs wait for the environment, or start a Turn. *)
Definition admit_initial (tenantID : string) (session : N) (environment : option Environment) (inputs : list CanonInput)
    (encoded : json) : tx unit :=
  id ← uuid_new;
  let key := uuid_string id in
  _ ← (if bool_decide (is_Some environment) then
         withEnvironmentInputActivity session (
           reservation ← uuid_new;
           _ ← CreateEnvironmentInputReservation reservation session key encoded true;
           mret tt)
       else _ ← admit_batch tenantID session key 0 inputs; mret tt);
  PruneSessionEvents session.

Definition create_resources (tenantID : string) (p : CreateSessionParams) (inputs : list CanonInput) (encoded : option json)
    (files : list InitialFile) (setup : EnvironmentSetup) (provider : option ModelProviderInput)
  : tx (session_row * option Environment) :=
  row ← one (CreateSessionQ p);
  let created := s_id row =?s sp_id p in
  row ← (if created then save_resources tenantID row files setup provider else mret row);
  environment ← sessionEnvironmentSnapshot row;
  match inputs, encoded with
  | _ :: _, Some encoded =>
      _ ← (if created then admit_initial tenantID (s_id row) environment inputs encoded else mret tt);
      mret (row, environment)
  | _, _ => mret (row, environment)
  end.

Definition createSessionResources (tenantID : string) (p : CreateSessionParams) (inputs : list CanonInput)
    (encoded : option json) (files : list InitialFile) (setup : EnvironmentSetup) (provider : option ModelProviderInput)
  : tx (session_row * option Environment) :=
  begin_func (create_resources tenantID p inputs encoded files setup provider).

(** [createSession] up to the commit: the row, its environment and whether the
    row is new. *)
Definition commit_session (tenantID : string) (input : CreateSessionInput)
  : tx (session_row * option Environment * bool) :=
  prepared ← of_result (prepare_creation tenantID input);
  let '(params, batch, encoded) := prepared in
  id ← uuid_new;
  re ← catch (createSessionResources tenantID (params id) batch encoded (cs_files input) (cs_setup input) (cs_provider input))
         (λ e, if e =?s ErrNoRows then throw ErrIdempotencyConflict else throw e);
  mret (re.1, re.2, s_id re.1 =?s id).

Record SessionCreation := MkSessionCreation { scn_session : Session; scn_created : bool; scn_cursor : Z }.

Definition with_environment (s : Session) (e : option Environment) : Session :=
  MkStoreSession (ss_id s) (ss_tenant s) (ss_creator s) (ss_engine s) (ss_metadata s) (ss_created s) (ss_config s)
    (ss_last_turn s) (ss_usage s) (ss_actions s) e (ss_activity s).

Definition createSession (tenantID : string) (input : CreateSessionInput) : tx SessionCreation :=
  c ← commit_session tenantID input;
  session ← of_result (sessionFromRow c.1.1);
  mret (MkSessionCreation (with_environment session c.1.2) c.2 (s_event_seq c.1.1)).

Definition CreateSessionStream := createSession.

Definition CreateSession (tenantID : string) (input : CreateSessionInput) : tx Session :=
  result ← createSession tenantID input;
  sessionActivity (scn_session result).

Definition FindSessionCreation (tenantID key : string) (request : raw_message) (creator : Subject) : tx SessionCreation :=
  _ ← require (validSubject creator) ErrInvalidInput;
  tenant ← of_result (parseID tenantID);
  _ ← require (negb (TrimSpace key =?s "") && (str_len key <=? 128)) ErrInvalidInput;
  hash ← of_result (creationRequestHash request);
  match hash with
  | None => throw ErrInvalidInput
  | Some hash =>
      found ← begin_func (
        row ← FindSessionCreationQ tenant key;
        match row with
        | None => throw ErrNotFound
        | Some row => environment ← sessionEnvironmentSnapshot row; mret (row, environment)
        end);
      let row := found.1 in
      _ ← require (bool_decide (s_deleted row = None)
                   && bool_decide (s_creator row = Some (su_kind creator, su_id creator))) ErrIdempotencyConflict;
      match s_creation_hash row with
      | None => throw ErrNotFound
      | Some stored =>
          _ ← require (stored =?s hash) ErrIdempotencyConflict;
          session ← of_result (sessionFromRow row);
          mret (MkSessionCreation (with_environment session found.2) false (s_event_seq row))
      end
  end.

(** [UpdateSessionMetadata] up to its statement. *)
Definition commit_metadata (tenantID sessionID : string) (metadata : list (string * string)) : tx session_row :=
  tenant ← of_result (parseID tenantID);
  id ← of_result (parseID sessionID);
  encoded ← of_result (encodeMetadata metadata);
  row ← UpdateSessionMetadataQ tenant id encoded;
  match row with None => throw ErrNotFound | Some row => mret row end.

Definition UpdateSessionMetadata (tenantID sessionID : string) (metadata : list (string * string)) : tx Session :=
  row ← commit_metadata tenantID sessionID metadata;
  session ← of_result (sessionFromRow row);
  sessionActivity session.
End creation.
