(* ===== verification/Worker.v ===== *)
(** * Worker

    The execution worker ([worker.go], [worker_schedule.go], [worker_device.go]
    of [services/agents-api/internal/execution]): recovery at startup, the
    selection of work, the binding of Sessions to devices, and the main loop as a
    state machine over the jobs it has started.

    What the worker learns about devices from their live connections is the
    parameter [ready]; whether environment connections are configured is
    [has_connections]. *)
From stdpp Require Import base tactics list strings numbers.
From S2P Require Import Prelude GoJson Contract Items Database Queries EnvQueries SessionLog Turns Environments Reads Configuration.

Section worker.
Context `{UUIDs, Oracle, EventSizes}.

(** ** Failing a Turn *)

Definition error_outcome (code : string) : raw_message := raw_of (JObj [("error_code", JStr code)]).

(** [TransitionTurn] to failed, where a Turn that has moved on is left alone. *)
Definition fail_turn (tenantID sessionID turnID expected code : string) : tx unit :=
  catch (_ ← TransitionTurn tenantID sessionID turnID expected "failed" (error_outcome code); mret tt)
    (λ e, if bool_decide (e = ErrTurnConflict) then mret tt else throw e).

(** ** Recovery *)

Definition interrupt (item : ExecutionWork) : tx unit :=
  fail_turn (ew_tenant item) (ew_session item) (ew_turn item) (ew_status item) "execution_interrupted".

(** The loop of [Worker.reconcile], one page of work per unit of fuel. *)
Fixpoint recover_pages (fuel : nat) (cursor : string) : tx unit :=
  work ← ListExecutionWork cursor ["in_progress"; "waiting"] None;
  match work with
  | [] => mret tt
  | item :: work' =>
      match fuel with
      | O => throw (ErrOther "fuel")
      | S fuel' =>
          _ ← tx_iter interrupt work;
          recover_pages fuel' (ew_turn (List.last work' item))
      end
  end.

(** [Worker.reconcile]; every page has a Turn the pages before did not have. *)
Definition recover : tx unit :=
  n ← query (λ d, length (turns d));
  recover_pages n "".

(** ** Devices *)

Context (has_connections : bool) (ready : string → string → Snapshot → bool).

(** The first of the tenant's devices that is ready is bound. *)
Fixpoint bind_first (session : Session) (ok : string → bool) (devices : list ExecutionDevice) : tx bool :=
  match devices with
  | [] => mret false
  | device :: devices' =>
      if negb (ok (ed_id device)) then bind_first session ok devices'
      else _ ← BindSessionDevice (ss_tenant session) (ss_id session) (ed_id device); mret true
  end.

Definition bindSessionDevice (session : Session) (ok : string → bool) : tx bool :=
  match unmarshal_snapshot (ss_config session) with
  | None => throw ErrInvalidInput
  | Some snapshot =>
      if bool_decide (environment_type snapshot = Some "openai_hosted") then
        environment ← GetSessionEnvironment (ss_tenant session) (ss_id session);
        match parseEnvironmentPlacement (en_config environment) with
        | Err _ => mret false
        | Ok placement =>
            catch (bound ← GetSessionDevice (ss_tenant session) (ss_id session);
                   mret (environmentDeviceMatches session environment bound placement && ok (ed_id bound)))
              (λ e, if bool_decide (e = ErrNotFound) then mret false else throw e)
        end
      else
        bound ← catch (bound ← GetSessionDevice (ss_tenant session) (ss_id session); mret (Some bound))
                  (λ e, if bool_decide (e = ErrNotFound) then mret None else throw e);
        match bound with
        | Some bound => mret ((ed_environment bound =?s "") && ok (ed_id bound))
        | None =>
            devices ← ListExecutionDevices (ss_tenant session);
            bind_first session ok devices
        end
  end.

Definition bindDevice (tenantID sessionID : string) : tx bool :=
  session ← catch (s ← GetSession tenantID sessionID; mret (Some s))
              (λ e, if bool_decide (e = ErrNotFound) then mret None else throw e);
  match session with
  | None => mret false
  | Some session =>
      match unmarshal_snapshot (ss_config session) with
      | None => throw (ErrOther "json")
      | Some snapshot =>
          if bool_decide (environment_type snapshot = Some "self_hosted") && negb has_connections then mret false
          else bindSessionDevice session (λ id, ready id (ss_engine session) snapshot)
      end
  end.

Definition bind (item : ExecutionWork) : tx bool :=
  catch (bindDevice (ew_tenant item) (ew_session item))
    (λ e, if bool_decide (e = ErrDeviceBindingConflict) then
            _ ← fail_turn (ew_tenant item) (ew_session item) (ew_turn item) "queued" "execution_device_unavailable";
            mret false
          else throw e).

(** ** Scheduling *)

Record workerSchedule := MkSchedule {
  wsc_turn : string; wsc_environment : string; wsc_next_scan : Z; wsc_environment_first : bool }.

(** A Turn to run, or a reserved input to prepare ([sw_reservation]). *)
Record scheduledWork := MkScheduled { sw_work : ExecutionWork; sw_reservation : string }.

Definition sw_session (item : scheduledWork) : string := ew_session (sw_work item).

(** Whether a device is bound and ready; a reservation whose Session is gone or
    bound to another environment is skipped like one that is not ready. *)
Definition schedule_ready (item : scheduledWork) : tx bool :=
  if sw_reservation item =?s "" then bind (sw_work item)
  else catch (bindDevice (ew_tenant (sw_work item)) (ew_session (sw_work item)))
         (λ e, if bool_decide (e = ErrNotFound) || bool_decide (e = ErrDeviceBindingConflict) then mret false else throw e).

Definition environment_item (value : EnvironmentInputWork) : scheduledWork :=
  MkScheduled (MkExecutionWork (iw_tenant value) (iw_session value) "" "") (iw_reservation value).

Definition max_active : nat := 4.

Record selection := MkSelection {
  sl_schedule : workerSchedule; sl_active : list string; sl_selected : list scheduledWork }.

(** The next item and what is left: inputs of environments and Turns take turns. *)
Definition next_item (s : workerSchedule) (turns : list ExecutionWork) (environments : list EnvironmentInputWork)
  : option (scheduledWork * workerSchedule * list ExecutionWork * list EnvironmentInputWork) :=
  match environments, turns with
  | value :: environments', [] =>
      Some (environment_item value, MkSchedule (wsc_turn s) (iw_reservation value) (wsc_next_scan s) false, turns, environments')
  | value :: environments', item :: turns' =>
      if wsc_environment_first s
      then Some (environment_item value, MkSchedule (wsc_turn s) (iw_reservation value) (wsc_next_scan s) false, turns, environments')
      else Some (MkScheduled item "", MkSchedule (ew_turn item) (wsc_environment s) (wsc_next_scan s) true, turns', environments)
  | [], item :: turns' =>
      Some (MkScheduled item "", MkSchedule (ew_turn item) (wsc_environment s) (wsc_next_scan s) true, turns', environments)
  | [], [] => None
  end.

(** The loop of [selectWork]; every round takes one item. *)
Fixpoint select_loop (rounds : nat) (sl : selection) (turns : list ExecutionWork) (environments : list EnvironmentInputWork)
  : tx selection :=
  match rounds, next_item (sl_schedule sl) turns environments with
  | S rounds', Some (item, schedule, turns', environments') =>
      if (length (sl_active sl) <? max_active)%nat then
        let skipped := MkSelection schedule (sl_active sl) (sl_selected sl) in
        if bool_decide (sw_session item ∈ sl_active sl) then select_loop rounds' skipped turns' environments'
        else
          is_ready ← schedule_ready item;
          if negb is_ready then select_loop rounds' skipped turns' environments'
          else select_loop rounds' (MkSelection schedule (sl_active sl ++ [sw_session item]) (sl_selected sl ++ [item]))
                 turns' environments'
      else mret sl
  | _, _ => mret sl
  end.

(** [now] is read before the scan of reservations, [later] after it. *)
Definition selectWork (s : workerSchedule) (now later : Z) (devices active : list string) : tx selection :=
  turns ← ListExecutionWork (wsc_turn s) ["queued"] (Some devices);
  let s := if bool_decide (turns = []) then MkSchedule "" (wsc_environment s) (wsc_next_scan s) (wsc_environment_first s) else s in
  se ← (if negb (now <? wsc_next_scan s) then
          environments ← ListEnvironmentInputWork (wsc_environment s) devices;
          let cursor := if bool_decide (environments = []) then "" else wsc_environment s in
          mret (MkSchedule (wsc_turn s) cursor (later + 5000000) (wsc_environment_first s), environments)
        else mret (s, []));
  select_loop (length turns + length se.2) (MkSelection se.1 active []) turns se.2.

(** ** Claims *)

(** [Dispatcher.Run]. *)
Context (run : string → string → string → tx Turn).

Definition runClaim (item : ExecutionWork) : tx unit :=
  catch (_ ← run (ew_tenant item) (ew_session item) (ew_turn item); mret tt)
    (λ e, if bool_decide (e = ErrTurnConflict) then mret tt else
          turn ← GetTurn (ew_tenant item) (ew_session item) (ew_turn item);
          if terminalStatus (tn_status turn) then mret tt
          else fail_turn (ew_tenant item) (ew_session item) (ew_turn item) (tn_status turn) "execution_unavailable").

(** ** The main loop *)

(** What the loop has started and not yet seen the end of.  A directory read
    owns its Session unless another job does. *)
Inductive job :=
  | JWork (item : scheduledWork)
  | JWrite (session : string)
  | JRead (session : string) (reserved : bool).

Record worker_state := MkWorker {
  wk_active : list string; wk_reads : nat; wk_schedule : workerSchedule; wk_jobs : list job }.

Definition worker_start : worker_state := MkWorker [] 0 (MkSchedule "" "" 0 false) [].

(** The case of [w.fileWrites]; [None] is [ErrExecutionUnavailable]. *)
Definition accept_write (session : string) (st : worker_state) : option worker_state :=
  if bool_decide (session ∈ wk_active st) || (length (wk_active st) =? max_active)%nat then None
  else Some (MkWorker (wk_active st ++ [session]) (wk_reads st) (wk_schedule st) (wk_jobs st ++ [JWrite session])).

(** The case of [w.directoryReads]. *)
Definition accept_read (session : string) (st : worker_state) : option worker_state :=
  if (wk_reads st =? 4)%nat
     || (negb (bool_decide (session ∈ wk_active st)) && (length (wk_active st) =? max_active)%nat) then None
  else
    let reserved := negb (bool_decide (session ∈ wk_active st)) in
    Some (MkWorker (if reserved then wk_active st ++ [session] else wk_active st) (S (wk_reads st)) (wk_schedule st)
            (wk_jobs st ++ [JRead session reserved])).

Definition remove_session (session : string) (active : list string) : list string :=
  List.filter (λ s, negb (s =?s session)) active.

(** The cases of [completed], [writesCompleted] and [readsCompleted], for the
    job at index [i]. *)
Definition finish_job (i : nat) (st : worker_state) : option worker_state :=
  match wk_jobs st !! i with
  | None => None
  | Some j =>
      let jobs := delete i (wk_jobs st) in
      Some match j with
           | JWork item => MkWorker (remove_session (sw_session item) (wk_active st)) (wk_reads st) (wk_schedule st) jobs
           | JWrite session => MkWorker (remove_session session (wk_active st)) (wk_reads st) (wk_schedule st) jobs
           | JRead session reserved =>
               MkWorker (if reserved then remove_session session (wk_active st) else wk_active st)
                 (pred (wk_reads st)) (wk_schedule st) jobs
           end
  end.

(** The ticker's case, once the lease was checked and inputs were expired. *)
Definition tick (now later : Z) (devices : list string) (st : worker_state) : tx worker_state :=
  if (length (wk_active st) =? max_active)%nat || bool_decide (devices = []) then mret st else
  sl ← selectWork (wk_schedule st) now later devices (wk_active st);
  mret (MkWorker (sl_active sl) (wk_reads st) (sl_schedule sl) (wk_jobs st ++ List.map JWork (sl_selected sl))).

(** One round of the loop, or anything else that happens to the database. *)
Inductive worker_step : worker_state * world → worker_state * world → Prop :=
  | wk_write session st st' w : accept_write session st = Some st' → worker_step (st, w) (st', w)
  | wk_read session st st' w : accept_read session st = Some st' → worker_step (st, w) (st', w)
  | wk_finish i st st' w : finish_job i st = Some st' → worker_step (st, w) (st', w)
  | wk_tick now later devices st st' w w' : tick now later devices st w = (Ok st', w') → worker_step (st, w) (st', w')
  | wk_world st w w' : worker_step (st, w) (st, w').

End worker.
