(* ===== verification/Relations.v ===== *)
(** * Relations

    The interface between the store's statements and its operations.  A
    relation on worlds that every statement of a layer respects is respected by
    every operation built from them: [LogRelation] for the statements the
    change log and the Item projection issue, [TurnRelation] for those of the
    Turn operations, [StoreRelation] for the operations whose
    statements only make sense together: they number execution events, or admit
    a batch of inputs under one key.  The invariants of the development are instances of
    these classes; [step] is the labelled step relation they are lifted to. *)
From stdpp Require Import base tactics list strings numbers relations.
From S2P Require Import Prelude GoJson Contract Items Database Queries EnvQueries SessionLog Turns Environments Reads Configuration Setup Creation.

Section relations.
Context `{UUIDs, Oracle, EventSizes}.

(** ** The interfaces *)

Class LogRelation (R : relation world) : Prop := {
  lr_world :: WorldRel R;
  lr_append session change : moves R (AppendSessionEvent session change);
  lr_put_item id session turn created payload out :
    moves R (PutSessionItem id session turn created payload out);
  lr_finish_items session turn : moves R (FinishSessionItems session turn);
  lr_put_usage session turn u : moves R (PutTurnUsage session turn u);
  lr_put_subagent id session native parent created turn ordinal :
    moves R (PutSubagentIdentity id session native parent created turn ordinal);
  lr_publish session turn at_ : moves R (PublishTurnArtifacts session turn at_);
  lr_discard session turn : moves R (DeleteUnpublishedTurnArtifacts session turn);
}.

Class TurnRelation (R : relation world) : Prop := {
  tr_log :: LogRelation R;
  tr_prune session : moves R (PruneSessionEvents session);
  tr_cancel id session : moves R (RequestTurnCancel id session);
  tr_transition id session expected new outcome :
    validTransition expected new = true →
    terminalStatus new = true ∨ outcome = JObj [] →
    moves R (TransitionTurnQ id session expected new outcome);
  tr_call session turn call executor name args :
    moves R (CreateFunctionCall session turn call executor name args);
  tr_result turn call res : moves R (storeFunctionResult turn call res);
  tr_apply session turn call : moves R (ApplyFunctionResult session turn call);
  tr_capture session turn : moves R (BeginTurnArtifactCaptureQ session turn);
  tr_native session native : moves R (RememberNativeSession session native);
  tr_cancel_input session : moves R (CancelSessionEnvironmentInput session);
  tr_delete session : moves R (MarkSessionDeleted session);
  tr_delete_artifacts session : moves R (DeleteSessionArtifacts session);
}.

(** The statements on environment tables that need no context. *)
Class EnvRelation (R : relation world) : Prop := {
  vr_expire session id : moves R (ExpireEnvironmentInputReservation session id);
  vr_settle session id state : moves R (SettleEnvironmentInputReservation session id state);
  vr_fail session : moves R (FailSessionEnvironmentInput session);
  vr_settle_write env id state : moves R (SettleEnvironmentFileWriteQ env id state);
  vr_replace env gen : moves R (ReplaceEnvironmentConnectionQ env gen);
  vr_advance env revision : moves R (AdvanceEnvironmentConnection env revision);
  vr_drop env : moves R (DeleteEnvironmentConnection env);
  vr_device id tenant name hash : moves R (CreateDeviceQ id tenant name hash);
  vr_revoke tenant id : moves R (RevokeDeviceQ tenant id);
  vr_touch id : moves R (TouchDevice id);
  vr_bind tenant session device : moves R (BindSessionDeviceQ tenant session device);
  vr_env_device id tenant name hash env : moves R (CreateEnvironmentDeviceQ id tenant name hash env);
  vr_allocate id env device provider : moves R (CreateRuntimeAllocation id env device provider);
  vr_running id : moves R (ObserveRuntimeRunningQ id);
  vr_keep id : moves R (KeepRuntimeAllocationQ id);
  vr_cleanup id : moves R (RequestRuntimeCleanupQ id);
  vr_created id : moves R (SettleRuntimeCreationQ id);
  vr_release id : moves R (ReleaseRuntimeAllocationQ id);
  vr_claim id : moves R (ClaimRuntimeInitializationQ id);
  vr_complete id : moves R (CompleteRuntimeInitializationQ id);
}.

(** The operations that admit inputs, each a batch under one key. *)
Class AdmitRelation (R : relation world) : Prop := {
  ar_submit tenantID key batch session :
    moves R (submit_batch tenantID key batch (encode_batch batch) session);
  ar_reserve tenantID sessionID key tenant batch session :
    moves R (reserve_batch tenantID sessionID key tenant batch (encode_batch batch) session);
  ar_settle tenantID row state : moves R (settle_environment_input tenantID row state);
}.

(** The operations that change the status of an environment. *)
Class ConnRelation (R : relation world) : Prop := {
  cr_replace leased tenantID environmentID generation :
    moves R (ReplaceEnvironmentConnection leased tenantID environmentID generation);
  cr_observe leased tenantID environmentID generation revision connected :
    moves R (ObserveEnvironmentConnection leased tenantID environmentID generation revision connected);
  cr_drop leased tenantID environmentID :
    moves R (withEnvironmentConnection leased tenantID environmentID drop_connection);
  cr_cleanup leased owner : moves R (RequestRuntimeCleanup leased owner);
}.

(** The statements of creation that need no context. *)
Class CreateStatements (R : relation world) : Prop := {
  ks_session p : moves R (CreateSessionQ p);
  ks_files id metadata : moves R (SetSessionInitialFileMetadata id metadata);
  ks_packages id packages : moves R (SetSessionSetupMetadata id packages);
  ks_file id session position path size : moves R (CreateInitialEnvironmentFile id session position path size);
  ks_setup session : moves R (CreateEnvironmentSetup session);
  ks_model session : moves R (SaveSessionModelExecution session);
  ks_environment id session : moves R (CreateEnvironment id session);
  ks_metadata tenant id metadata : moves R (UpdateSessionMetadataQ tenant id metadata);
}.

Class StoreRelation (R : relation world) : Prop := {
  er_turn :: TurnRelation R;
  er_env :: EnvRelation R;
  er_admit :: AdmitRelation R;
  er_conn :: ConnRelation R;
  er_append p first events :
    Z.of_nat (length events) ≤ 64 → moves R (append_events p first events);
  er_complete p status outcome native applied session :
    terminalStatus status = true →
    moves R (complete_turn p status outcome native applied session);
  er_write lookup key session : moves R (reserve_write lookup key session);
  er_create (inputs : CreationInputs) tenantID p batch encoded files setup provider :
    moves R (create_resources tenantID p batch encoded files setup provider);
  er_metadata tenant id metadata : moves R (UpdateSessionMetadataQ tenant id metadata);
}.

Hint Extern 0 (LogRelation _) => apply _ : store.
Hint Extern 0 (TurnRelation _) => apply _ : store.

(** ** The change log *)

Section log.
Context (R : relation world) `{!LogRelation R}.
Hint Resolve lr_append lr_put_item lr_finish_items lr_put_usage lr_put_subagent
  lr_publish lr_discard : store.

Lemma recordSessionChange_moves session change : moves R (recordSessionChange session change).
Proof using Type*. unfold recordSessionChange. moves_tac. Qed.
Hint Resolve recordSessionChange_moves : store.

Lemma emit_moves session kind e : moves R (emit session kind e).
Proof using Type*. apply recordSessionChange_moves. Qed.
Hint Resolve emit_moves : store.

Lemma recordItemChange_moves session index previous item delta :
  moves R (recordItemChange session index previous item delta).
Proof using Type*. unfold recordItemChange, record_added, record_text. moves_tac. Qed.
Hint Resolve recordItemChange_moves : store.

Lemma restoreFunctionItemResult_moves session turn item :
  moves R (restoreFunctionItemResult session turn item).
Proof using Type*. unfold restoreFunctionItemResult, FunctionItemResult. moves_tac. Qed.
Hint Resolve restoreFunctionItemResult_moves : store.

Lemma project_update_moves session turn kind created update :
  moves R (project_update session turn kind created update).
Proof using Type*. unfold project_update, HasNativeMessageItem, GetSessionItem. moves_tac. Qed.
Hint Resolve project_update_moves : store.

Lemma projectSource_moves session turn kind sequence raw created :
  moves R (projectSource session turn kind sequence raw created).
Proof using Type*.
  unfold projectSource, projectSubagentIdentity, projectItemSource. moves_tac.
Qed.
Hint Resolve projectSource_moves : store.

Lemma indexInput_moves session sequence : moves R (indexInput session sequence).
Proof using Type*. unfold indexInput, ItemInputSource. moves_tac. Qed.

Lemma indexEvents_moves session turn first : moves R (indexEvents session turn first).
Proof using Type*. unfold indexEvents, ItemEventSources. moves_tac. Qed.

Lemma recordSessionActivity_moves row actions : moves R (recordSessionActivity row actions).
Proof using Type*. unfold recordSessionActivity, SessionTokenUsage. moves_tac. Qed.
Hint Resolve recordSessionActivity_moves : store.

Lemma recordTurnChange_moves row created : moves R (recordTurnChange row created).
Proof using Type*. unfold recordTurnChange, settleTurnArtifacts, finish_item. moves_tac. Qed.
End log.
Hint Resolve recordSessionChange_moves projectSource_moves indexInput_moves indexEvents_moves
  recordSessionActivity_moves recordTurnChange_moves : store.

Lemma accepts_status turn : acceptsFunctionResult turn = true →
  t_status turn = "in_progress" ∨ t_status turn = "waiting".
Proof.
  unfold acceptsFunctionResult. intros Ha. bsolve.
  by apply orb_true_iff in H2 as [?|?]; bsolve; auto.
Qed.

(** ** The Turn operations *)

Section turn_operations.
Context (R : relation world) `{!TurnRelation R}.
Hint Resolve tr_prune tr_cancel tr_transition tr_call tr_result tr_apply
  tr_capture tr_native tr_cancel_input tr_delete tr_delete_artifacts : store.

Lemma withSessionState_moves {A} public tenantID sessionID (apply : N → tx A) :
  (∀ id, moves R (apply id)) → moves R (withSessionState public tenantID sessionID apply).
Proof using Type*. intros Hf. unfold withSessionState, LockSession. moves_tac; auto. Qed.

Lemma must_turn_moves p : moves R (must_turn p).
Proof using Type*. unfold must_turn, get_turn, GetTurnQ. moves_tac. Qed.
Hint Resolve must_turn_moves : store.

Lemma recordFunctionState_moves turn :
  acceptsFunctionResult turn = true → moves R (recordFunctionState turn).
Proof using Type*.
  intros Ha. unfold recordFunctionState, functionActions, ListPendingFunctionCalls. moves_tac.
  apply tr_transition; [|by right]. apply accepts_status in Ha as [Ha|Ha]; rewrite Ha in *;
    destruct (bool_decide (a = [])); naive_solver.
Qed.

Lemma transitionTurn_moves p expected status outcome :
  validTransition expected status = true →
  terminalStatus status = true ∨ outcome = JObj [] → moves R (transitionTurn p expected status outcome).
Proof using Type*. intros. unfold transitionTurn, get_turn, GetTurnQ. moves_tac. Qed.

Lemma requestTurnCancel_moves session turn : moves R (requestTurnCancel session turn).
Proof using Type*. unfold requestTurnCancel, SessionEventTurn. moves_tac. Qed.
Hint Resolve requestTurnCancel_moves : store.

(** Admission of one batch: its rows carry the batch's Session and key. *)
Section admission.
Context (session : N) (key : string).
Hypothesis Hturn : ∀ id, moves R (CreateTurn id session).
Hypothesis Hinput : ∀ turn kind payload pos,
  moves R (CreateTurnInput session turn key kind payload pos).
Hint Resolve Hturn Hinput : store.

Lemma admitInput_moves tenantID position input :
  moves R (admitInput tenantID session key position input).
Proof using Type*.
  unfold admitInput, admitFunctionResult, input_turn, GetActiveTurn. moves_tac.
Qed.

Lemma admit_batch_moves tenantID position batch :
  moves R (admit_batch tenantID session key position batch).
Proof using Type*.
  revert position. induction batch as [|input batch IH]; intros position; cbn; [moves_tac|].
  apply (moves_bind _); [apply admitInput_moves|intros r].
  apply (moves_bind _); [apply IH|intros rs]. moves_tac.
Qed.
End admission.

Lemma TransitionTurn_moves tenantID sessionID turnID expected status outcome :
  moves R (TransitionTurn tenantID sessionID turnID expected status outcome).
Proof using Type*.
  unfold TransitionTurn. apply (moves_bind _); [moves_tac|intros p].
  destruct (validTransition expected status) eqn:E; [|apply (moves_throw_bind _)].
  apply (moves_bind _); [moves_tac|intros _]. apply (moves_bind _); [moves_tac|intros o].
  destruct (terminalStatus status || bool_decide (o = JObj [])) eqn:Eo; [|apply (moves_throw_bind _)].
  apply orb_true_iff in Eo as [Eo|Eo]; bsolve;
    moves_tac; apply withSessionState_moves; intros; apply transitionTurn_moves; auto.
Qed.

Lemma cancelSessionWork_moves session : moves R (cancelSessionWork session).
Proof using Type*. unfold cancelSessionWork, GetActiveTurn. moves_tac. Qed.
Hint Resolve cancelSessionWork_moves : store.

Lemma DeleteSession_moves tenantID sessionID : moves R (DeleteSession tenantID sessionID).
Proof using Type*. apply withSessionState_moves. intros. moves_tac. Qed.

Lemma withFunctionCall_moves tenantID sessionID turnID callID fn :
  (∀ turn call, moves R (fn turn call)) →
  moves R (withFunctionCall tenantID sessionID turnID callID fn).
Proof using Type*.
  intros Hf. unfold withFunctionCall. moves_tac. apply withSessionState_moves.
  intros. unfold GetFunctionCallQ. moves_tac; auto.
Qed.

Lemma SubmitFunctionResult_moves tenantID sessionID turnID callID res :
  moves R (SubmitFunctionResult tenantID sessionID turnID callID res).
Proof using Type*.
  unfold SubmitFunctionResult. moves_tac. apply withFunctionCall_moves. intros. moves_tac.
Qed.

Lemma ConfirmFunctionResult_moves tenantID sessionID turnID callID :
  moves R (ConfirmFunctionResult tenantID sessionID turnID callID).
Proof using Type*.
  apply withFunctionCall_moves. intros turn call. destruct (fc_applied call); [moves_tac|].
  destruct (acceptsFunctionResult turn) eqn:E; [|rewrite andb_false_r; apply (moves_throw_bind _)].
  moves_tac. by apply recordFunctionState_moves.
Qed.

Lemma RecordFunctionCall_moves tenantID sessionID turnID call :
  moves R (RecordFunctionCall tenantID sessionID turnID call).
Proof using Type*.
  unfold RecordFunctionCall. moves_tac. apply withSessionState_moves. intros session.
  unfold MatchFunctionCall.
  apply (moves_bind _); [moves_tac|intros turn]. apply moves_bind; [apply _|moves_tac|intros m].
  destruct m; [moves_tac|].
  destruct (acceptsFunctionResult turn) eqn:E; [|apply (moves_throw_bind _)].
  moves_tac. by apply recordFunctionState_moves.
Qed.

Lemma PendingFunctionCalls_moves tenantID sessionID turnID :
  moves R (PendingFunctionCalls tenantID sessionID turnID).
Proof using Type*.
  unfold PendingFunctionCalls. moves_tac. apply withSessionState_moves. intros.
  unfold ListPendingFunctionCalls. moves_tac.
Qed.

Lemma BeginTurnArtifactCapture_moves tenantID sessionID turnID applied :
  moves R (BeginTurnArtifactCapture tenantID sessionID turnID applied).
Proof using Type*.
  unfold BeginTurnArtifactCapture. moves_tac. apply withSessionState_moves. intros.
  unfold HasUnappliedMessages. moves_tac.
Qed.
End turn_operations.

(** ** The environment operations *)

Section environment_operations.
Context (R : relation world) `{!TurnRelation R, !EnvRelation R}.
Hint Resolve tr_prune vr_expire vr_settle vr_fail vr_settle_write vr_replace vr_advance vr_drop vr_device
  vr_revoke vr_touch vr_bind vr_env_device vr_allocate vr_running vr_keep vr_cleanup vr_created vr_release
  vr_claim vr_complete : store.

Lemma environmentInputActivity_moves session : moves R (environmentInputActivity session).
Proof using Type*. unfold environmentInputActivity, GetEnvironmentInputActivity. moves_tac. Qed.
Hint Resolve environmentInputActivity_moves : store.

Lemma withEnvironmentInputActivity_moves {A} session (apply : tx A) :
  moves R apply → moves R (withEnvironmentInputActivity session apply).
Proof using Type*. intros. unfold withEnvironmentInputActivity, SessionTokenUsage. moves_tac. Qed.

Lemma ExpireEnvironmentInputs_moves leased locked : moves R (ExpireEnvironmentInputs leased locked).
Proof using Type*.
  unfold ExpireEnvironmentInputs, ListDueEnvironmentInputs, expire_due. moves_tac.
  apply withEnvironmentInputActivity_moves. moves_tac.
Qed.

Lemma GetEnvironment_moves tenantID environmentID : moves R (GetEnvironment tenantID environmentID).
Proof using Type*. unfold GetEnvironment, GetEnvironmentQ. moves_tac. Qed.
Hint Resolve GetEnvironment_moves : store.

Lemma withEnvironmentConnection_moves {A} leased tenantID environmentID (apply : SessionEnvironmentRow → tx A) :
  (∀ row, moves R (apply row)) → moves R (withEnvironmentConnection leased tenantID environmentID apply).
Proof using Type*.
  intros Hf. unfold withEnvironmentConnection. moves_tac. apply (withSessionState_moves _). intros session.
  unfold GetSessionEnvironmentQ. moves_tac. by apply withEnvironmentInputActivity_moves.
Qed.

Lemma SettleEnvironmentFileWrite_moves leased tenant environment key state :
  moves R (SettleEnvironmentFileWrite leased tenant environment key state).
Proof using Type*.
  unfold SettleEnvironmentFileWrite, GetEnvironmentFileWrite, GetEnvironmentFileWriteQ. moves_tac.
  apply (withSessionState_moves _). intros session. unfold settle_write_row, GetEnvironmentFileWriteQ. moves_tac.
Qed.

Lemma newDeviceParams_moves tenant name hash : moves R (newDeviceParams tenant name hash).
Proof using Type*. unfold newDeviceParams. moves_tac. Qed.
Hint Resolve newDeviceParams_moves : store.

Lemma CreateDevice_moves tenantID name hash : moves R (CreateDevice tenantID name hash).
Proof using Type*. unfold CreateDevice. moves_tac. Qed.

Lemma RevokeDevice_moves tenantID deviceID : moves R (RevokeDevice tenantID deviceID).
Proof using Type*. unfold RevokeDevice. moves_tac. Qed.

Lemma TouchRuntimeHeartbeat_moves deviceID : moves R (TouchRuntimeHeartbeat deviceID).
Proof using Type*. unfold TouchRuntimeHeartbeat. moves_tac. Qed.

Lemma BindSessionDevice_moves tenantID sessionID deviceID : moves R (BindSessionDevice tenantID sessionID deviceID).
Proof using Type*.
  unfold BindSessionDevice. moves_tac. apply (withSessionState_moves _). intros session.
  unfold bind_device, GetDevice. moves_tac.
Qed.

Lemma createEnvironmentDevice_moves lookup session params : moves R (createEnvironmentDevice lookup session params).
Proof using Type*. unfold createEnvironmentDevice, GetSessionDeviceQ. moves_tac. Qed.
Hint Resolve createEnvironmentDevice_moves : store.

Lemma CreateEnvironmentDevice_moves tenantID environmentID name hash :
  moves R (CreateEnvironmentDevice tenantID environmentID name hash).
Proof using Type*.
  unfold CreateEnvironmentDevice. moves_tac. apply (withSessionState_moves _). intros. moves_tac.
Qed.

Lemma ReserveRuntimeAllocation_moves leased tenant environment provider hash :
  moves R (ReserveRuntimeAllocation leased tenant environment provider hash).
Proof using Type*.
  unfold ReserveRuntimeAllocation. moves_tac. apply (withSessionState_moves _). intros session.
  unfold reserve_allocation, GetRuntimeAllocationQ, GetSessionEnvironmentQ. moves_tac.
Qed.

Lemma mutateRuntimeAllocation_moves leased owner live apply :
  (∀ row, moves R (apply row)) → moves R (mutateRuntimeAllocation leased owner live apply).
Proof using Type*.
  intros Hf. unfold mutateRuntimeAllocation, GetRuntimeAllocation, GetRuntimeAllocationQ. moves_tac.
  apply (withSessionState_moves _). intros session.
  unfold mutate_row, GetRuntimeAllocationQ, live_owner, GetSessionDeviceQ. moves_tac.
  apply (moves_catch _); [|auto]. intros e. case_bool_decide; eauto.
Qed.
End environment_operations.

(** ** Multi-statement operations *)

Lemma normalize_length leased events normalized :
  normalize_events leased events = Ok normalized → length normalized = length events.
Proof.
  revert normalized. induction events as [|e events IH]; intros normalized Hn; cbn in Hn; [by simplify_eq|].
  apply bind_Ok in Hn as (_ & _ & Hn). apply bind_Ok in Hn as (_ & _ & Hn).
  apply bind_Ok in Hn as (payload & _ & Hn). apply bind_Ok in Hn as (es & Hes & Hn).
  simplify_eq. cbn. f_equal. by apply IH.
Qed.

Lemma validate_encoded inputs batch encoded :
  validateInputs inputs = Ok (batch, encoded) → encoded = encode_batch batch.
Proof.
  unfold validateInputs. intros E. apply bind_Ok in E as (_ & _ & E). apply bind_Ok in E as (b & _ & E).
  by simplify_eq.
Qed.

Section store_operations.
Context (R : relation world) `{!StoreRelation R}.

Lemma AppendTurnEvents_moves leased tenantID sessionID turnID first events :
  moves R (AppendTurnEvents leased tenantID sessionID turnID first events).
Proof using Type*.
  unfold AppendTurnEvents. apply (moves_bind _); [moves_tac|intros p].
  destruct ((1 <=? first) && negb (bool_decide (events = [])) && (Z.of_nat (length events) <=? 64)) eqn:E;
    [|apply (moves_throw_bind _)].
  apply (moves_bind _); [moves_tac|intros _].
  destruct (normalize_events leased events) as [normalized|e] eqn:En; [|by apply (moves_throw_bind _)].
  apply (moves_ret_bind _).
  moves_tac. apply (withSessionState_moves _). intros. apply er_append.
  apply normalize_length in En. bsolve. lia.
Qed.

Lemma CompleteExecution_moves tenantID sessionID turnID status outcome native applied :
  moves R (CompleteExecution tenantID sessionID turnID status outcome native applied).
Proof using Type*.
  unfold CompleteExecution. apply (moves_bind _); [moves_tac|intros p].
  destruct (terminalStatus status) eqn:E; [|apply (moves_throw_bind _)].
  moves_tac. apply (withSessionState_moves _). intros. by apply er_complete.
Qed.

Lemma SubmitInputs_moves tenantID sessionID key inputs :
  moves R (SubmitInputs tenantID sessionID key inputs).
Proof using Type*.
  unfold SubmitInputs. apply (moves_bind _); [moves_tac|intros _].
  destruct (validateInputs inputs) as [[batch encoded]|e] eqn:E; [|by apply (moves_throw_bind _)].
  apply validate_encoded in E as ->. apply (moves_ret_bind _).
  apply (withSessionState_moves _). intros. apply ar_submit.
Qed.
End store_operations.

(** A coarser relation. *)
Lemma moves_weaken {A} (R S : relation world) (m : tx A) :
  (∀ w w', R w w' → S w w') → moves R m → moves S m.
Proof. intros Hi Hm w. specialize (Hm w). destruct (m w) as [[a|e] w']; auto. Qed.

Lemma turn_relation_weaken (R S : relation world) `{!TurnRelation R, !WorldRel S} :
  (∀ w w', R w w' → S w w') → TurnRelation S.
Proof.
  intros Hi. split; [split; [done|..]|..]; intros; apply (moves_weaken R); auto;
    first [ apply lr_append | apply lr_put_item | apply lr_finish_items | apply lr_put_usage
          | apply lr_put_subagent | apply lr_publish | apply lr_discard | apply tr_prune
          | apply tr_cancel | by apply tr_transition | apply tr_call
          | apply tr_result | apply tr_apply | apply tr_capture | apply tr_native
          | apply tr_cancel_input | apply tr_delete | apply tr_delete_artifacts ].
Qed.

(** Relations that every single statement respects. *)
Section statements.
Context (R : relation world) `{!TurnRelation R}.
Hypothesis Hinsert : ∀ session turn ordinal kind payload,
  moves R (insert_event session turn ordinal kind payload).
Hypothesis Hcount : ∀ session turn n bytes, moves R (CountTurnEvent session turn n bytes).

Lemma append_events_moves p first events : moves R (append_events p first events).
Proof using Type*.
  assert (∀ session turn first batch, moves R (InsertTurnEventBatch session turn first batch)) as Hbatch.
  { intros session turn from batch. revert from.
    induction batch as [|[kind payload] batch IH]; intros from; cbn; [moves_tac|].
    apply (moves_bind _); auto. }
  unfold append_events, MatchTurnEventBatch.
  apply (moves_bind _); [by apply (must_turn_moves _)|intros turn]. moves_tac.
Qed.

Lemma complete_turn_moves p status outcome native applied session :
  terminalStatus status = true →
  moves R (complete_turn p status outcome native applied session).
Proof using Type*.
  intros Hs. unfold complete_turn, HasUnappliedMessages, insertTurnEvent, InsertTurnEvent, get_turn, GetTurnQ.
  apply (moves_bind _); [by apply (must_turn_moves _)|intros turn].
  destruct ((t_status turn =?s "in_progress") || ((t_status turn =?s "waiting") && negb (status =?s "completed"))) eqn:E;
    [|apply (moves_throw_bind _)].
  assert (validTransition (t_status turn) status = true) as Hv.
  { apply orb_true_iff in E as [E|E]; bsolve;
      repeat match goal with Hq : t_status turn = _ |- _ => rewrite Hq end;
      unfold validTransition; cbn; by rewrite Hs, ?orb_true_r. }
  moves_tac; auto using tr_transition, tr_native.
Qed.

End statements.

(** ** Building instances *)

(** The tables of Sessions and their Turns. *)
Record same_core (d d' : db) : Prop := MkSameCore {
  co_sessions : sessions d' = sessions d;
  co_turns : turns d' = turns d;
  co_inputs : turn_inputs d' = turn_inputs d;
  co_turn_events : turn_events d' = turn_events d;
  co_calls : function_calls d' = function_calls d;
  co_items : session_items d' = session_items d;
  co_events : session_events d' = session_events d;
  co_artifacts : artifacts d' = artifacts d;
  co_subagents : subagents d' = subagents d;
}.

Section builders.
Context (R : relation world) `{!TurnRelation R}.

(** Every admission stores one batch under one key. *)
Lemma admit_relation `{!EnvRelation R} :
  (∀ tenantID session key batch, moves R (admit_batch tenantID session key 0 batch)) →
  (∀ id session key batch initial, moves R (CreateEnvironmentInputReservation id session key batch initial)) →
  AdmitRelation R.
Proof using Type*.
  intros Hadmit Hreserve. assert (∀ session, moves R (checkEnvironmentFileWriteGate session)) as Hgate.
  { intros. unfold checkEnvironmentFileWriteGate, EnvironmentFileWriteBlocksSession. moves_tac. }
  assert (∀ session key batch, moves R (inputBatchReceipts session key batch)) as Hreceipts.
  { intros. unfold inputBatchReceipts, FindInputBatch. moves_tac. }
  assert (∀ tenantID row state, moves R (settle_environment_input tenantID row state)) as Hsettle.
  { intros. unfold settle_environment_input, environmentInputOutcome, promote, environmentInputMayStart, claim_turn,
      GetEnvironmentInputReservationQ, GetActiveTurn.
    moves_tac; auto using vr_expire, vr_settle. apply (transitionTurn_moves _); [done|by right]. }
  split; intros.
  - unfold submit_batch, checkEnvironmentInputGate, CheckEnvironmentInputGate. moves_tac.
  - unfold reserve_batch, reserve_new, FindEnvironmentInputReservation, GetSessionEnvironmentQ, checkEnvironmentInputGate,
      CheckEnvironmentInputGate, GetActiveTurn.
    moves_tac; auto.
  - done.
Qed.

Lemma conn_relation `{!EnvRelation R} :
  (∀ env status, moves R (SetEnvironmentConnectionStatus env status)) → ConnRelation R.
Proof using Type*.
  intros Hset. assert (∀ row status, moves R (recordEnvironmentConnection row status)) as Hrecord.
  { intros. unfold recordEnvironmentConnection. moves_tac. }
  assert (∀ row, moves R (drop_connection row)) by (intros; unfold drop_connection; moves_tac; auto using vr_drop).
  assert (∀ gen row, moves R (replace_connection gen row)).
  { intros. unfold replace_connection, GetEnvironmentConnection. moves_tac; auto using vr_replace. }
  assert (∀ gen revision connected row, moves R (observe_connection gen revision connected row)).
  { intros. unfold observe_connection, GetEnvironmentConnection. moves_tac; auto using vr_advance. }
  split; intros.
  - unfold ReplaceEnvironmentConnection. moves_tac. by apply (withEnvironmentConnection_moves _).
  - unfold ObserveEnvironmentConnection. moves_tac. by apply (withEnvironmentConnection_moves _).
  - by apply (withEnvironmentConnection_moves _).
  - apply (mutateRuntimeAllocation_moves _). intros row.
    unfold request_cleanup, GetRuntimeAllocationQ, terminateRuntimeEnvironment, GetSessionEnvironmentQ.
    moves_tac; auto using vr_revoke, vr_cleanup; [by apply (cancelSessionWork_moves _)|].
    apply (withEnvironmentInputActivity_moves _). moves_tac; auto using vr_fail. by apply (cancelSessionWork_moves _).
Qed.

Lemma reserve_write_moves :
  (∀ id env device sha, moves R (CreateEnvironmentFileWrite id env device sha)) →
  ∀ lookup key session, moves R (reserve_write lookup key session).
Proof using Type*.
  intros. unfold reserve_write, create_write, GetEnvironmentFileWriteQ, GetSessionEnvironmentQ, GetSessionDeviceQ,
    environmentInputMayStart, checkEnvironmentFileWriteGate, EnvironmentFileWriteBlocksSession, GetActiveTurn,
    EnvironmentFileWriteHasPendingInput.
  moves_tac.
Qed.

(** Creation: the rows of the Session, then its initial inputs. *)
Lemma save_files_moves `{!CreateStatements R} `{CreationInputs} tenant session position files :
  moves R (save_files tenant session position files).
Proof using Type*.
  revert position. induction files as [|f l IH]; intros position; cbn [save_files]; [moves_tac|].
  moves_tac; auto using ks_file.
Qed.

Lemma save_resources_moves `{!CreateStatements R} `{CreationInputs} tenantID row files setup provider :
  moves R (save_resources tenantID row files setup provider).
Proof using Type*.
  unfold save_resources, saveSessionModelExecution, saveEnvironmentSetup, saveInitialFiles, createSessionEnvironment.
  moves_tac; auto using ks_model, ks_setup, ks_files, ks_packages, ks_environment, save_files_moves.
Qed.

Lemma admit_initial_moves `{!EnvRelation R} tenantID session environment batch encoded :
  (∀ key, moves R (admit_batch tenantID session key 0 batch)) →
  (∀ id key initial, moves R (CreateEnvironmentInputReservation id session key encoded initial)) →
  moves R (admit_initial tenantID session environment batch encoded).
Proof using Type*.
  intros Ha Hr. unfold admit_initial. moves_tac; auto using tr_prune. apply (withEnvironmentInputActivity_moves _). moves_tac.
Qed.

Lemma create_moves `{!EnvRelation R, !CreateStatements R} `{CreationInputs} :
  (∀ tenantID session key batch, moves R (admit_batch tenantID session key 0 batch)) →
  (∀ id session key batch initial, moves R (CreateEnvironmentInputReservation id session key batch initial)) →
  ∀ tenantID p batch encoded files setup provider,
    moves R (create_resources tenantID p batch encoded files setup provider).
Proof using Type*.
  intros Hadmit Hreserve tenantID p batch encoded files setup provider.
  unfold create_resources, sessionEnvironmentSnapshot, GetSessionEnvironmentQ.
  moves_tac; auto using ks_session, save_resources_moves; by apply admit_initial_moves.
Qed.

(** Relations that every single statement respects. *)
Lemma statement_relation `{!EnvRelation R, !CreateStatements R} :
  (∀ id session, moves R (CreateTurn id session)) →
  (∀ session turn key kind payload pos, moves R (CreateTurnInput session turn key kind payload pos)) →
  (∀ session turn ordinal kind payload, moves R (insert_event session turn ordinal kind payload)) →
  (∀ session turn n bytes, moves R (CountTurnEvent session turn n bytes)) →
  (∀ env status, moves R (SetEnvironmentConnectionStatus env status)) →
  (∀ id env device sha, moves R (CreateEnvironmentFileWrite id env device sha)) →
  (∀ id session key batch initial, moves R (CreateEnvironmentInputReservation id session key batch initial)) →
  StoreRelation R.
Proof using Type*.
  intros. split; [done|done|..].
  - apply admit_relation; [|done]. intros. by apply (admit_batch_moves _).
  - by apply conn_relation.
  - intros. by apply (append_events_moves _).
  - intros. by apply (complete_turn_moves _).
  - by apply reserve_write_moves.
  - intros. apply create_moves; [|done]. intros. by apply (admit_batch_moves _).
  - apply ks_metadata.
Qed.

(** Relations on the tables of Sessions and Turns. *)
Context `{!CreateStatements R}.
Hypothesis Hcore : ∀ w d', same_core (w_db w) d' → R w (set_db w d').

Ltac core_tac := moves_tac; apply (moves_exec _); intros ?; by apply Hcore.

Lemma core_env : EnvRelation R.
Proof using Type*.
  split; intros;
    unfold ExpireEnvironmentInputReservation, SettleEnvironmentInputReservation,
      FailSessionEnvironmentInput, SettleEnvironmentFileWriteQ, ReplaceEnvironmentConnectionQ,
      AdvanceEnvironmentConnection, DeleteEnvironmentConnection, CreateDeviceQ, RevokeDeviceQ, TouchDevice,
      BindSessionDeviceQ, CreateEnvironmentDeviceQ, CreateRuntimeAllocation, ObserveRuntimeRunningQ,
      KeepRuntimeAllocationQ, RequestRuntimeCleanupQ, SettleRuntimeCreationQ, ReleaseRuntimeAllocationQ,
      ClaimRuntimeInitializationQ, CompleteRuntimeInitializationQ, update_allocation; core_tac.
Qed.

Lemma core_set_status env status : moves R (SetEnvironmentConnectionStatus env status).
Proof using Type*. unfold SetEnvironmentConnectionStatus. core_tac. Qed.

Lemma core_relation :
  (∀ tenantID session key batch, moves R (admit_batch tenantID session key 0 batch)) →
  (∀ p first events, Z.of_nat (length events) ≤ 64 → moves R (append_events p first events)) →
  (∀ p status outcome native applied session, terminalStatus status = true →
     moves R (complete_turn p status outcome native applied session)) →
  StoreRelation R.
Proof using Type*.
  intros Ha He Hc. pose proof core_env.
  assert (∀ id session key batch initial, moves R (CreateEnvironmentInputReservation id session key batch initial)) as Hr.
  { intros. unfold CreateEnvironmentInputReservation. core_tac. }
  split; [done|done|by apply admit_relation|apply conn_relation, core_set_status|done|done| | |apply ks_metadata].
  - apply reserve_write_moves. intros. unfold CreateEnvironmentFileWrite. core_tac.
  - intros. by apply create_moves.
Qed.

Lemma simple_relation :
  (∀ id session, moves R (CreateTurn id session)) →
  (∀ session turn key kind payload pos, moves R (CreateTurnInput session turn key kind payload pos)) →
  (∀ session turn ordinal kind payload, moves R (insert_event session turn ordinal kind payload)) →
  (∀ session turn n bytes, moves R (CountTurnEvent session turn n bytes)) →
  StoreRelation R.
Proof using Type*.
  intros. apply core_relation; intros.
  - by apply (admit_batch_moves _).
  - by apply (append_events_moves _).
  - by apply (complete_turn_moves _).
Qed.
End builders.

(** ** Requests *)

(** The calls that write, with their arguments.  Reads under the Session lock
    prune its event log, so they are among them.  Creating a Session and updating
    its metadata are here up to their commit; the rest of them only reads. *)
Inductive request :=
  | ReqTransitionTurn (tenantID sessionID turnID expected status : string) (outcome : raw_message)
  | ReqDeleteSession (tenantID sessionID : string)
  | ReqSubmitFunctionResult (tenantID sessionID turnID callID : string) (res : raw_message)
  | ReqConfirmFunctionResult (tenantID sessionID turnID callID : string)
  | ReqRecordFunctionCall (tenantID sessionID turnID : string) (call : FunctionCall)
  | ReqPendingFunctionCalls (tenantID sessionID turnID : string)
  | ReqSubmitInputs (tenantID sessionID key : string) (inputs : list Input)
  | ReqAppendTurnEvents (leased : bool) (tenantID sessionID turnID : string) (first : Z)
      (events : list ExecutionEvent)
  | ReqCompleteExecution (tenantID sessionID turnID status : string) (outcome : raw_message)
      (native : string) (applied : Z)
  | ReqBeginTurnArtifactCapture (tenantID sessionID turnID : string) (applied : Z)
  | ReqReserveInput (tenantID sessionID key : string) (inputs : list Input)
  | ReqPromoteInput (leased : bool) (tenantID sessionID reservationID : string)
  | ReqCancelInput (tenantID sessionID reservationID : string)
  | ReqExpireInput (tenantID sessionID reservationID : string)
  | ReqReadInput (tenantID sessionID reservationID : string)
  | ReqListItems (tenantID sessionID cursor : string) (limit : Z) (ascending : bool)
  | ReqExpireInputs (leased : bool) (locked : N → bool)
  | ReqReplaceConnection (leased : bool) (tenantID environmentID generation : string)
  | ReqObserveConnection (leased : bool) (tenantID environmentID generation : string) (revision : Z) (connected : bool)
  | ReqDropConnection (leased : bool) (tenantID environmentID : string)
  | ReqReserveFileWrite (leased : bool) (tenant environment : string) (key : FileWriteIdentity)
  | ReqSettleFileWrite (leased : bool) (tenant environment : string) (key : FileWriteIdentity) (state : string)
  | ReqCreateDevice (tenantID name hash : string)
  | ReqRevokeDevice (tenantID deviceID : string)
  | ReqHeartbeat (deviceID : string)
  | ReqBindDevice (tenantID sessionID deviceID : string)
  | ReqCreateEnvironmentDevice (tenantID environmentID name hash : string)
  | ReqReserveAllocation (leased : bool) (tenant environment provider hash : string)
  | ReqObserveRunning (leased : bool) (owner : RuntimeAllocation)
  | ReqKeepAllocation (leased : bool) (owner : RuntimeAllocation)
  | ReqSettleCreation (leased : bool) (owner : RuntimeAllocation)
  | ReqClaimInitialization (leased : bool) (owner : RuntimeAllocation)
  | ReqCompleteInitialization (leased : bool) (owner : RuntimeAllocation)
  | ReqCleanup (leased : bool) (owner : RuntimeAllocation)
  | ReqRelease (leased : bool) (owner : RuntimeAllocation)
  | ReqCreateSession (inputs : CreationInputs) (tenantID : string) (input : CreateSessionInput)
  | ReqUpdateMetadata (tenantID sessionID : string) (metadata : list (string * string)).

Definition ignore {A} (m : tx A) : tx unit := _ ← m; mret tt.

Definition serve (r : request) : tx unit :=
  match r with
  | ReqTransitionTurn tenantID sessionID turnID expected status outcome =>
      ignore (TransitionTurn tenantID sessionID turnID expected status outcome)
  | ReqDeleteSession tenantID sessionID => DeleteSession tenantID sessionID
  | ReqSubmitFunctionResult tenantID sessionID turnID callID res =>
      SubmitFunctionResult tenantID sessionID turnID callID res
  | ReqConfirmFunctionResult tenantID sessionID turnID callID =>
      ConfirmFunctionResult tenantID sessionID turnID callID
  | ReqRecordFunctionCall tenantID sessionID turnID call =>
      RecordFunctionCall tenantID sessionID turnID call
  | ReqPendingFunctionCalls tenantID sessionID turnID =>
      ignore (PendingFunctionCalls tenantID sessionID turnID)
  | ReqSubmitInputs tenantID sessionID key inputs =>
      ignore (SubmitInputs tenantID sessionID key inputs)
  | ReqAppendTurnEvents leased tenantID sessionID turnID first events =>
      AppendTurnEvents leased tenantID sessionID turnID first events
  | ReqCompleteExecution tenantID sessionID turnID status outcome native applied =>
      ignore (CompleteExecution tenantID sessionID turnID status outcome native applied)
  | ReqBeginTurnArtifactCapture tenantID sessionID turnID applied =>
      BeginTurnArtifactCapture tenantID sessionID turnID applied
  | ReqReserveInput tenantID sessionID key inputs => ignore (ReserveEnvironmentInput tenantID sessionID key inputs)
  | ReqPromoteInput leased tenantID sessionID reservationID =>
      ignore (PromoteEnvironmentInput leased tenantID sessionID reservationID)
  | ReqCancelInput tenantID sessionID reservationID => ignore (CancelEnvironmentInput tenantID sessionID reservationID)
  | ReqExpireInput tenantID sessionID reservationID => ignore (ExpireEnvironmentInput tenantID sessionID reservationID)
  | ReqReadInput tenantID sessionID reservationID => ignore (GetEnvironmentInputReservation tenantID sessionID reservationID)
  | ReqListItems tenantID sessionID cursor limit ascending => ignore (ListItems tenantID sessionID cursor limit ascending)
  | ReqExpireInputs leased locked => ignore (ExpireEnvironmentInputs leased locked)
  | ReqReplaceConnection leased tenantID environmentID generation =>
      ReplaceEnvironmentConnection leased tenantID environmentID generation
  | ReqObserveConnection leased tenantID environmentID generation revision connected =>
      ObserveEnvironmentConnection leased tenantID environmentID generation revision connected
  | ReqDropConnection leased tenantID environmentID =>
      withEnvironmentConnection leased tenantID environmentID drop_connection
  | ReqReserveFileWrite leased tenant environment key => ignore (ReserveEnvironmentFileWrite leased tenant environment key)
  | ReqSettleFileWrite leased tenant environment key state =>
      ignore (SettleEnvironmentFileWrite leased tenant environment key state)
  | ReqCreateDevice tenantID name hash => ignore (CreateDevice tenantID name hash)
  | ReqRevokeDevice tenantID deviceID => RevokeDevice tenantID deviceID
  | ReqHeartbeat deviceID => ignore (TouchRuntimeHeartbeat deviceID)
  | ReqBindDevice tenantID sessionID deviceID => BindSessionDevice tenantID sessionID deviceID
  | ReqCreateEnvironmentDevice tenantID environmentID name hash =>
      ignore (CreateEnvironmentDevice tenantID environmentID name hash)
  | ReqReserveAllocation leased tenant environment provider hash =>
      ignore (ReserveRuntimeAllocation leased tenant environment provider hash)
  | ReqObserveRunning leased owner => ignore (ObserveRuntimeRunning leased owner)
  | ReqKeepAllocation leased owner => ignore (KeepRuntimeAllocation leased owner)
  | ReqSettleCreation leased owner => ignore (SettleRuntimeCreation leased owner)
  | ReqClaimInitialization leased owner => ignore (ClaimRuntimeInitialization leased owner)
  | ReqCompleteInitialization leased owner => ignore (CompleteRuntimeInitialization leased owner)
  | ReqCleanup leased owner => ignore (RequestRuntimeCleanup leased owner)
  | ReqRelease leased owner => ignore (ReleaseRuntimeAllocation leased owner)
  | ReqCreateSession inputs tenantID input => ignore (commit_session tenantID input)
  | ReqUpdateMetadata tenantID sessionID metadata => ignore (commit_metadata tenantID sessionID metadata)
  end.

(** One transition of the service: the world after a request, whatever it
    returned. *)
Inductive step (w : world) : world → Prop :=
  | step_serve r : step w (serve r w).2.

(** Interleavings of operations. *)
Definition steps : relation world := rtc step.

Lemma reads_require c e : reads (require c e).
Proof. by destruct c. Qed.

Lemma atomic_withSessionState {A} public tenantID sessionID (apply : N → tx A) :
  atomic (withSessionState public tenantID sessionID apply).
Proof.
  unfold withSessionState. apply atomic_bind; [done|intros tenant].
  apply atomic_bind; [done|intros id]. apply atomic_begin.
Qed.

Lemma atomic_withFunctionCall tenantID sessionID turnID callID fn :
  atomic (withFunctionCall tenantID sessionID turnID callID fn).
Proof.
  unfold withFunctionCall. apply atomic_bind; [done|intros p].
  apply atomic_bind; [apply reads_require|intros _]. apply atomic_withSessionState.
Qed.

Lemma reads_uuid : reads uuid_new.
Proof. done. Qed.
Lemma reads_clock : reads clock_timestamp.
Proof. done. Qed.

Lemma reads_GetEnvironment tenantID environmentID : reads (GetEnvironment tenantID environmentID).
Proof.
  unfold GetEnvironment, GetEnvironmentQ. repeat (apply reads_bind; [done|intros ?]). done.
Qed.

Lemma reads_newDeviceParams tenant name hash : reads (newDeviceParams tenant name hash).
Proof.
  unfold newDeviceParams. destruct (sha256_digest hash); [|done].
  apply reads_bind; [apply reads_require|intros _]. by apply reads_bind.
Qed.

Lemma reads_GetRuntimeAllocation tenant environment : reads (GetRuntimeAllocation tenant environment).
Proof.
  unfold GetRuntimeAllocation, GetRuntimeAllocationQ. apply reads_bind; [done|intros lookup].
  apply reads_bind; [by apply reads_bind|]. by intros [r|].
Qed.

Lemma reads_GetEnvironmentFileWrite tenant environment id : reads (GetEnvironmentFileWrite tenant environment id).
Proof.
  unfold GetEnvironmentFileWrite, GetEnvironmentFileWriteQ. apply reads_bind; [done|intros lookup].
  apply reads_bind; [done|]. by intros [[x s]|].
Qed.

Hint Resolve reads_require reads_uuid reads_clock reads_GetEnvironment reads_newDeviceParams reads_GetRuntimeAllocation
  reads_GetEnvironmentFileWrite atomic_withSessionState atomic_withFunctionCall atomic_begin : store.

Ltac atomic_tac :=
  repeat first
    [ solve [auto with store]
    | apply atomic_bind; [solve [auto with store]|intros ?]
    | apply atomic_then; [|intros; eexists; reflexivity]
    | match goal with |- atomic (match ?x with _ => _ end) => destruct x end
    | apply reads_atomic ].

Lemma atomic_withEnvironmentConnection {A} leased tenantID environmentID (apply : SessionEnvironmentRow → tx A) :
  atomic (withEnvironmentConnection leased tenantID environmentID apply).
Proof. unfold withEnvironmentConnection, withPublicSession. atomic_tac. Qed.

Lemma atomic_settleEnvironmentInput tenantID sessionID reservationID state :
  atomic (settleEnvironmentInput tenantID sessionID reservationID state).
Proof. unfold settleEnvironmentInput, withEnvironmentInputSession, withPublicSession. atomic_tac. Qed.

Lemma atomic_mutateRuntimeAllocation leased owner live apply :
  atomic (mutateRuntimeAllocation leased owner live apply).
Proof. unfold mutateRuntimeAllocation, withSession. atomic_tac. Qed.

(** One INSERT, nothing behind it. *)
Lemma atomic_CreateDeviceQ id tenant name hash : atomic (CreateDeviceQ id tenant name hash).
Proof. unfold CreateDeviceQ. intros w. by run_tx. Qed.

Lemma atomic_TouchDevice id : atomic (TouchDevice id).
Proof. done. Qed.

(** Revoking an unknown device changes nothing. *)
Lemma atomic_RevokeDevice tenantID deviceID : atomic (RevokeDevice tenantID deviceID).
Proof.
  unfold RevokeDevice. apply atomic_bind; [done|intros p]. intros w.
  unfold RevokeDeviceQ, require. unfold mbind, tx_bind, clock_timestamp, query, exec, mret, tx_ret. cbn.
  destruct (List.filter (device_is (dl_tenant p) (dl_id p)) (devices (w_db w))) as [|x l] eqn:E; [|done].
  cbn. rewrite update_where_id; [by destruct (w_db w)|]. intros x Hx Hp.
  assert (In x (List.filter (device_is (dl_tenant p) (dl_id p)) (devices (w_db w)))) as Hin by (by apply List.filter_In).
  by rewrite E in Hin.
Qed.

Hint Resolve atomic_withEnvironmentConnection atomic_settleEnvironmentInput atomic_mutateRuntimeAllocation
  atomic_CreateDeviceQ atomic_TouchDevice atomic_RevokeDevice : store.

Lemma atomic_commit_session `{CreationInputs} tenantID input : atomic (commit_session tenantID input).
Proof.
  unfold commit_session, createSessionResources. apply atomic_bind; [done|intros [[params batch] encoded]].
  apply atomic_bind; [done|intros id]. apply atomic_then; [|intros; eexists; reflexivity].
  apply atomic_catch; [|apply atomic_begin]. intros e. destruct (e =?s ErrNoRows); eauto.
Qed.

(** Without a row to update, the statement wrote nothing. *)
Lemma atomic_commit_metadata tenantID sessionID metadata : atomic (commit_metadata tenantID sessionID metadata).
Proof.
  unfold commit_metadata. do 3 (apply atomic_bind; [done|intros ?]). intros w. unfold UpdateSessionMetadataQ. by run_tx.
Qed.

Hint Resolve atomic_commit_session atomic_commit_metadata : store.

Lemma serve_atomic r : atomic (serve r).
Proof.
  destruct r; unfold serve, ignore, TransitionTurn, DeleteSession, SubmitFunctionResult,
    ConfirmFunctionResult, RecordFunctionCall, PendingFunctionCalls, SubmitInputs,
    AppendTurnEvents, CompleteExecution, BeginTurnArtifactCapture, ReserveEnvironmentInput, PromoteEnvironmentInput,
    CancelEnvironmentInput, ExpireEnvironmentInput, GetEnvironmentInputReservation, ListItems, ExpireEnvironmentInputs, ReplaceEnvironmentConnection,
    ObserveEnvironmentConnection, ReserveEnvironmentFileWrite, SettleEnvironmentFileWrite, CreateDevice,
    TouchRuntimeHeartbeat, BindSessionDevice, CreateEnvironmentDevice, ReserveRuntimeAllocation, ObserveRuntimeRunning,
    KeepRuntimeAllocation, SettleRuntimeCreation, ClaimRuntimeInitialization, CompleteRuntimeInitialization,
    RequestRuntimeCleanup, ReleaseRuntimeAllocation, withEnvironmentInputSession, withSession, withPublicSession;
    atomic_tac.
Qed.

(** An atomic operation confined to [R] relates the worlds before and after it,
    failed or not. *)
Lemma atomic_moves {A} (R : relation world) `{!WorldRel R} (m : tx A) w :
  atomic m → moves R m → R w (m w).2.
Proof.
  intros Ha Hm. specialize (Ha w). specialize (Hm w).
  destruct (m w) as [[a|e] w']; [done|]. by apply wr_same.
Qed.

Lemma ignore_moves {A} R `{!WorldRel R} (m : tx A) : moves R m → moves R (ignore m).
Proof. intros. unfold ignore. moves_tac. Qed.

Lemma settleEnvironmentInput_moves R `{!StoreRelation R} tenantID sessionID reservationID state :
  moves R (settleEnvironmentInput tenantID sessionID reservationID state).
Proof.
  unfold settleEnvironmentInput. moves_tac. apply (withSessionState_moves _). intros session.
  apply (withEnvironmentInputActivity_moves _). unfold GetEnvironmentInputReservationQ. moves_tac. apply ar_settle.
Qed.

Lemma ReserveEnvironmentInput_moves R `{!StoreRelation R} tenantID sessionID key inputs :
  moves R (ReserveEnvironmentInput tenantID sessionID key inputs).
Proof.
  unfold ReserveEnvironmentInput. apply (moves_bind _); [moves_tac|intros _].
  destruct (validateInitialInputs inputs) as [[batch encoded]|e] eqn:E; [|by apply (moves_throw_bind _)].
  apply bind_Ok in E as (_ & _ & E). apply validate_encoded in E as ->. apply (moves_ret_bind _). moves_tac.
  apply (withSessionState_moves _). intros session. apply (withEnvironmentInputActivity_moves _). apply ar_reserve.
Qed.

Lemma ReserveEnvironmentFileWrite_moves R `{!StoreRelation R} leased tenant environment key :
  moves R (ReserveEnvironmentFileWrite leased tenant environment key).
Proof.
  unfold ReserveEnvironmentFileWrite. moves_tac; [by apply (GetEnvironment_moves _)|].
  apply (withSessionState_moves _). intros. apply er_write.
Qed.

Lemma GetEnvironmentInputReservation_moves R `{!StoreRelation R} tenantID sessionID reservationID :
  moves R (GetEnvironmentInputReservation tenantID sessionID reservationID).
Proof.
  unfold GetEnvironmentInputReservation. moves_tac. apply (withSessionState_moves _). intros session.
  unfold GetEnvironmentInputReservationQ, environmentInputOutcome, inputBatchReceipts, FindInputBatch. moves_tac.
Qed.

Lemma ListItems_moves R `{!StoreRelation R} tenantID sessionID cursor limit ascending :
  moves R (ListItems tenantID sessionID cursor limit ascending).
Proof.
  unfold ListItems. moves_tac. apply (withSessionState_moves _). intros session.
  unfold GetSessionItem, ListSessionItems. moves_tac.
Qed.

Lemma serve_moves R `{!StoreRelation R} r : moves R (serve r).
Proof.
  destruct r; unfold serve; try (apply (ignore_moves _));
    try solve [auto using TransitionTurn_moves, DeleteSession_moves, SubmitFunctionResult_moves,
      ConfirmFunctionResult_moves, RecordFunctionCall_moves, PendingFunctionCalls_moves,
      SubmitInputs_moves, AppendTurnEvents_moves, CompleteExecution_moves,
      BeginTurnArtifactCapture_moves, er_turn, er_env, ReserveEnvironmentInput_moves,
      ExpireEnvironmentInputs_moves, ReserveEnvironmentFileWrite_moves,
      GetEnvironmentInputReservation_moves, ListItems_moves,
      SettleEnvironmentFileWrite_moves, CreateDevice_moves, RevokeDevice_moves, TouchRuntimeHeartbeat_moves,
      BindSessionDevice_moves, CreateEnvironmentDevice_moves, ReserveRuntimeAllocation_moves].
  all: match goal with
    | |- moves _ (commit_session _ _) =>
        unfold commit_session, createSessionResources; moves_tac; apply (moves_catch _);
          [intros e; destruct (e =?s ErrNoRows); eauto|apply (moves_begin _), er_create]
    | |- moves _ (commit_metadata _ _ _) => unfold commit_metadata; moves_tac; apply er_metadata
    | |- moves _ (ReplaceEnvironmentConnection _ _ _ _) => apply cr_replace
    | |- moves _ (ObserveEnvironmentConnection _ _ _ _ _ _) => apply cr_observe
    | |- moves _ (withEnvironmentConnection _ _ _ _) => apply cr_drop
    | |- moves _ (RequestRuntimeCleanup _ _) => apply cr_cleanup
    | |- moves _ (PromoteEnvironmentInput _ _ _ _) =>
        unfold PromoteEnvironmentInput; moves_tac; by apply settleEnvironmentInput_moves
    | |- moves _ (CancelEnvironmentInput _ _ _) => by apply settleEnvironmentInput_moves
    | |- moves _ (ExpireEnvironmentInput _ _ _) => by apply settleEnvironmentInput_moves
    | _ => apply (mutateRuntimeAllocation_moves _); intros row
    end.
  - apply (moves_one _), vr_running.
  - apply (moves_one _), vr_keep.
  - moves_tac. apply vr_created.
  - apply (moves_one _), vr_claim.
  - apply (moves_one _), vr_complete.
  - moves_tac. apply vr_release.
Qed.

Lemma step_moves R `{!StoreRelation R} w w' : step w w' → R w w'.
Proof. destruct 1. apply (atomic_moves R); auto using serve_atomic, serve_moves. Qed.

Lemma steps_moves R `{!StoreRelation R} w w' : steps w w' → R w w'.
Proof.
  induction 1 as [|w1 w2 w3 Hs _ IH]; [by apply (wr_refl R)|].
  etrans; [|done]. by apply step_moves.
Qed.

End relations.

#[export] Hint Extern 0 (LogRelation _) => apply _ : store.
#[export] Hint Extern 0 (TurnRelation _) => apply _ : store.
