(* ===== verification/Tables.v ===== *)
(** * Tables

    Tables whose rows are never removed: a row has a key and a well-formedness
    condition, some sets of rows (the slots) hold at most one of them, and rows
    change along a preorder.  The invariants of the environment tables are of
    this kind. *)
From stdpp Require Import base tactics list strings numbers relations.
From S2P Require Import Prelude GoJson Contract Items Database Queries EnvQueries SessionLog Turns Environments Reads Configuration Setup Creation Relations.

Section table.
Context {A K S : Type} (get : db → list A) (key : A → K) (ok : A → Prop) (slot : S → A → bool).
Context (E : relation A) `{!PreOrder E}.

Record table_wf (l : list A) : Prop := MkTableWf {
  tb_keys : NoDup (key <$> l);
  tb_rows : Forall ok l;
  tb_slots s : (length (List.filter (slot s) l) ≤ 1)%nat;
}.

Lemma table_wf_append l x :
  table_wf l → (∀ y, In y l → key y ≠ key x) → ok x →
  (∀ s, slot s x = true → existsb (slot s) l = false) → table_wf (l ++ [x]).
Proof.
  intros [Hk Ho Hs] Hfresh Hx Hslot. split.
  - rewrite fmap_app. apply NoDup_app. split; [done|]. split; [|apply NoDup_singleton].
    intros k Hin ->%list_elem_of_singleton. apply list_elem_of_fmap in Hin as (y & Ey & Hy%list_elem_of_In).
    by apply (Hfresh y).
  - apply Forall_app. split; [done|]. by apply Forall_singleton.
  - intros s. rewrite List.filter_app, length_app. cbn. specialize (Hs s). destruct (slot s x) eqn:Ex; cbn; [|lia].
    specialize (Hslot s Ex). rewrite existsb_false_iff in Hslot.
    destruct (List.filter (slot s) l) as [|y k] eqn:El; [cbn; lia|].
    assert (In y (List.filter (slot s) l)) as [Hy Hsy]%List.filter_In by (rewrite El; by left).
    rewrite Hslot in Hsy; done.
Qed.

Lemma table_wf_update l p f :
  table_wf l → (∀ x, p x = true → key (f x) = key x) → (∀ x, p x = true → ok x → ok (f x)) →
  (∀ s x, p x = true → slot s (f x) = true → slot s x = true) → table_wf (update_where p f l).
Proof.
  intros [Hk Ho Hs] Hkey Hok Hslot. split.
  - change (NoDup (List.map key (update_where p f l))). by rewrite update_where_map_proj.
  - apply Forall_forall. intros x Hx%list_elem_of_In. apply in_update_where in Hx as (y & Hy & ->).
    assert (ok y) by (eapply Forall_forall; [done|by apply list_elem_of_In]). destruct (p y) eqn:Ep; auto.
  - intros s. etrans; [apply filter_update_where_le; eauto|done].
Qed.

(** Two rows of one slot are the same row. *)
Lemma slot_unique l s x y :
  table_wf l → In x l → In y l → slot s x = true → slot s y = true → x = y.
Proof.
  intros [_ _ Hs] Hx Hy Hsx Hsy. specialize (Hs s).
  assert (In x (List.filter (slot s) l)) as Hx' by (by apply List.filter_In).
  assert (In y (List.filter (slot s) l)) as Hy' by (by apply List.filter_In).
  destruct (List.filter (slot s) l) as [|a [|b k]]; [done| |cbn in Hs; lia].
  destruct Hx' as [->|[]], Hy' as [->|[]]. done.
Qed.

(** From a well-formed table on, the table stays well formed and its rows
    follow [E]. *)
Definition any_row (_ : A) : Prop := True.

Definition advances (d d' : db) : Prop :=
  table_wf (get d) → table_wf (get d') ∧ rows_evolve E any_row (get d) (get d').

Lemma any_row_kept x y : E x y → any_row x → any_row y.
Proof. done. Qed.

#[export] Instance advances_preorder : PreOrder advances.
Proof using Type*.
  split.
  - intros d Hd. split; [done|]. apply (rows_evolve_refl _ _ any_row_kept).
  - intros d1 d2 d3 H1 H2 Hd. destruct (H1 Hd) as [Hd2 E1]. destruct (H2 Hd2) as [Hd3 E2].
    split; [done|]. by eapply (rows_evolve_trans _ _ any_row_kept).
Qed.

Lemma advances_same d d' : get d' = get d → advances d d'.
Proof using Type*. intros Eq Hd. rewrite Eq. split; [done|]. apply (rows_evolve_refl _ _ any_row_kept). Qed.

Lemma advances_append d d' x :
  get d' = get d ++ [x] → (∀ y, In y (get d) → key y ≠ key x) → ok x →
  (∀ s, slot s x = true → existsb (slot s) (get d) = false) → advances d d'.
Proof using Type*.
  intros Eq Hk Ho Hs Hd. rewrite Eq. split; [by apply table_wf_append|].
  by apply (rows_evolve_append _ _ any_row_kept).
Qed.

Lemma advances_update d d' p f :
  get d' = update_where p f (get d) →
  (∀ x, p x = true → key (f x) = key x) → (∀ x, p x = true → ok x → ok (f x)) →
  (∀ s x, p x = true → slot s (f x) = true → slot s x = true) →
  (∀ x, p x = true → E x (f x)) → advances d d'.
Proof using Type*.
  intros Eq Hk Ho Hs He Hd. rewrite Eq. split; [by apply table_wf_update|].
  apply (rows_evolve_update _ _ any_row_kept). auto.
Qed.

(** The row with the key of [x] is what became of [x]. *)
Lemma advances_follow d d' x y :
  (∀ x y, E x y → key y = key x) → advances d d' → table_wf (get d) →
  In x (get d) → In y (get d') → key y = key x → E x y.
Proof using Type*.
  intros Hkey Ha Hd Hx Hy Hxy. destruct (Ha Hd) as [[Hk _ _] Hr].
  by apply (rows_evolve_follow _ _ any_row_kept key (get d) (get d')).
Qed.

(** A row that is there stays there. *)
Lemma advances_persist d d' x :
  advances d d' → table_wf (get d) → In x (get d) → ∃ y, In y (get d') ∧ E x y.
Proof using Type*.
  intros Ha Hd Hx. destruct (Ha Hd) as [_ (old & new & -> & HF & _)].
  apply list_elem_of_In, list_elem_of_lookup in Hx as [i Hi].
  destruct (Forall2_lookup_l _ _ _ _ _ HF Hi) as (y & Hy & He).
  exists y. split; [|done]. apply in_app_iff. left. apply list_elem_of_In. by eapply list_elem_of_lookup_2.
Qed.
End table.

(** Statements that write other tables: [lemma] says that the relation holds
    when its own table is the same. *)
Ltac unfold_statements :=
  unfold AppendSessionEvent, PutSessionItem, FinishSessionItems, PutTurnUsage, PutSubagentIdentity, PublishTurnArtifacts,
    DeleteUnpublishedTurnArtifacts, PruneSessionEvents, CreateTurn, RequestTurnCancel, TransitionTurnQ, CreateFunctionCall,
    storeFunctionResult, MatchFunctionResult, SubmitFunctionResultQ, ApplyFunctionResult, BeginTurnArtifactCaptureQ,
    RememberNativeSession, CancelSessionEnvironmentInput, MarkSessionDeleted, DeleteSessionArtifacts, CreateTurnInput,
    insert_event, CountTurnEvent, CreateEnvironmentInputReservation, ExpireEnvironmentInputReservation,
    SettleEnvironmentInputReservation, FailSessionEnvironmentInput, CreateEnvironmentFileWrite, SettleEnvironmentFileWriteQ,
    ReplaceEnvironmentConnectionQ, AdvanceEnvironmentConnection, SetEnvironmentConnectionStatus,
    DeleteEnvironmentConnection, CreateDeviceQ, RevokeDeviceQ, TouchDevice, BindSessionDeviceQ, CreateEnvironmentDeviceQ,
    CreateRuntimeAllocation, ObserveRuntimeRunningQ, KeepRuntimeAllocationQ, RequestRuntimeCleanupQ,
    SettleRuntimeCreationQ, ReleaseRuntimeAllocationQ, ClaimRuntimeInitializationQ, CompleteRuntimeInitializationQ,
    update_allocation, CreateSessionQ, SetSessionInitialFileMetadata, SetSessionSetupMetadata, set_configuration,
    CreateInitialEnvironmentFile, CreateEnvironmentSetup, SaveSessionModelExecution, CreateEnvironment, UpdateSessionMetadataQ.

Ltac other_statement lemma :=
  unfold_statements; moves_tac; apply (moves_exec _); intros ?; (split; [by apply lemma|cbn; lia]).
