(* ===== verification/Scenario.v ===== *)
(** * Scenario

    A concrete service for the witnesses: a clock that counts, identifiers drawn
    in sequence, and one tenant with one Session served by a bound device. *)
From stdpp Require Import base tactics list strings numbers relations.
From S2P Require Import Prelude GoJson Contract Items Database Queries SessionLog Turns Relations.

#[export] Existing Instance binary_uuids.
#[export] Existing Instance binary_uuid_laws.

#[export] Instance demo_oracle : Oracle := {|
  clock n := 1000 + Z.of_nat n;
  rand n := (100 + N.of_nat n)%N;
|}.

#[export] Instance demo_sizes : EventSizes := λ _, 400%N.

Definition tenant_id : string := uuid_string 1%N.
Definition session_id : string := uuid_string 2%N.
(** The identifier the first draw gives. *)
Definition turn_id : string := uuid_string 100%N.

Definition demo_session : session_row :=
  MkSession 2%N 1%N "codex" (JObj []) "create" "" 900 (JObj []) 0 None None None.

Definition demo_db : db :=
  with_session_devices
    (with_sessions empty_db [demo_session]) [MkBinding 2%N 7%N ""].

Definition world0 : world := MkWorld demo_db 0 0 0.

(** The world after a list of requests, whatever each returned. *)
Fixpoint run (rs : list request) (w : world) : world :=
  match rs with
  | [] => w
  | r :: rs' => run rs' (serve r w).2
  end.

Lemma steps_trans w1 w2 w3 : steps w1 w2 → steps w2 w3 → steps w1 w3.
Proof. unfold steps. intros. by etrans. Qed.

Lemma run_steps rs w : steps w (run rs w).
Proof.
  revert w. induction rs as [|r rs IH]; intros w; cbn; [done|].
  eapply rtc_l; [|apply IH]. constructor.
Qed.

Definition text_input (text : string) : Input :=
  MkInput "message" (raw_of (JObj [("text", JStr text)])).
Definition cancel_input : Input := MkInput "cancel" (raw_of (JObj [])).
Definition empty_object : raw_message := raw_of (JObj []).

Definition req_message (key text : string) : request :=
  ReqSubmitInputs tenant_id session_id key [text_input text].
Definition req_cancel (key : string) : request :=
  ReqSubmitInputs tenant_id session_id key [cancel_input].
Definition req_start : request :=
  ReqTransitionTurn tenant_id session_id turn_id "queued" "in_progress" empty_object.
Definition req_complete (applied : Z) : request :=
  ReqCompleteExecution tenant_id session_id turn_id "completed" empty_object "" applied.
Definition demo_event (text : string) : ExecutionEvent :=
  MkExecEvent "delta" (raw_of (JObj [("delta", JStr text); ("item_id", JStr "m1")])).
Definition req_events (first : Z) (texts : list string) : request :=
  ReqAppendTurnEvents false tenant_id session_id turn_id first (List.map demo_event texts).
Definition demo_call : FunctionCall :=
  MkFunctionCall "call-1" "exec-1" "lookup" (raw_of (JObj [("q", JStr "x")])) None false.
Definition req_call : request := ReqRecordFunctionCall tenant_id session_id turn_id demo_call.
Definition req_result : request :=
  ReqSubmitFunctionResult tenant_id session_id turn_id "call-1" (raw_of (JObj [("output", JStr "y")])).
Definition req_confirm : request := ReqConfirmFunctionResult tenant_id session_id turn_id "call-1".

(** A Turn is queued, started, streams three deltas, calls a function, and
    completes. *)
Definition queued_world : world := run [req_message "k1" "hello"] world0.
Definition started_world : world := run [req_start] queued_world.
Definition streamed_world : world := run [req_events 1 ["a"; "b"; "c"]] started_world.
Definition called_world : world := run [req_call] streamed_world.
Definition resumed_world : world := run [req_result; req_confirm] called_world.
Definition completed_world : world := run [req_complete 1] resumed_world.

Lemma queued_steps : steps world0 queued_world.
Proof. unfold queued_world. apply run_steps. Qed.
Lemma started_steps : steps queued_world started_world.
Proof. unfold started_world. apply run_steps. Qed.
Lemma streamed_steps : steps started_world streamed_world.
Proof. unfold streamed_world. apply run_steps. Qed.
Lemma called_steps : steps streamed_world called_world.
Proof. unfold called_world. apply run_steps. Qed.
Lemma resumed_steps : steps called_world resumed_world.
Proof. unfold resumed_world. apply run_steps. Qed.
Lemma completed_steps : steps resumed_world completed_world.
Proof. unfold completed_world. apply run_steps. Qed.

#[global] Opaque queued_world started_world streamed_world called_world resumed_world completed_world.

Lemma queued_completed_steps : steps queued_world completed_world.
Proof.
  exact (steps_trans _ _ _ started_steps (steps_trans _ _ _ streamed_steps
    (steps_trans _ _ _ called_steps (steps_trans _ _ _ resumed_steps completed_steps)))).
Qed.

Lemma to_completed_steps : steps world0 completed_world.
Proof. exact (steps_trans _ _ _ queued_steps queued_completed_steps). Qed.

Lemma to_called_steps : steps world0 called_world.
Proof.
  exact (steps_trans _ _ _ queued_steps (steps_trans _ _ _ started_steps
    (steps_trans _ _ _ streamed_steps called_steps))).
Qed.
