(* ===== verification/EnvScenario.v ===== *)
(** * EnvScenario

    A concrete Session with a hosted environment for the witnesses: its inputs
    are reserved and promoted, a file is written, and its runtime is allocated
    and cleaned up. *)
From stdpp Require Import base tactics list strings numbers relations.
From S2P Require Import Prelude GoJson Contract Items Database Queries EnvQueries SessionLog Turns Environments.
From S2P Require Import Relations Scenario.

Definition env_id : string := uuid_string 5%N.
Definition device_id : string := uuid_string 7%N.
Definition digest : string := "0123456789abcdef0123456789abcdef0123456789abcdef0123456789abcdef".

Definition hosted_config : json := JObj [("environment", JObj [("type", JStr "openai_hosted")])].

Definition hosted_session : session_row :=
  MkSession 2%N 1%N "codex" (JObj []) "create" "" 900 hosted_config 0 None None None.

(** The environment has no runtime yet. *)
Definition bare_db : db :=
  with_environments (with_sessions empty_db [hosted_session]) [MkEnvironment 5%N 2%N "pending" 900].

Definition bare_world : world := MkWorld bare_db 0 0 0.

(** The environment is served by a dedicated device. *)
Definition env_db : db :=
  with_session_devices (with_devices bare_db [MkDevice 7%N 1%N "runtime" digest 900 None None (Some 5%N)])
    [MkBinding 2%N 7%N ""].

Definition env_world : world := MkWorld env_db 0 0 0.

(** ** A reserved input *)

Definition req_reserve (key text : string) : request := ReqReserveInput tenant_id session_id key [text_input text].
(** The identifier the first draw gives. *)
Definition reservation_id : string := uuid_string 100%N.
Definition req_promote : request := ReqPromoteInput true tenant_id session_id reservation_id.

Definition reserved_world : world := run [req_reserve "k1" "hello"] env_world.
Definition promoted_world : world := run [req_promote] reserved_world.

Lemma reserved_steps : steps env_world reserved_world.
Proof. unfold reserved_world. apply run_steps. Qed.
Lemma promoted_steps : steps reserved_world promoted_world.
Proof. unfold promoted_world. apply run_steps. Qed.

(** ** A file write *)

Definition write_id : string := uuid_string 9%N.
Definition write_key : FileWriteIdentity := MkFileWriteIdentity write_id device_id digest.
Definition req_write : request := ReqReserveFileWrite true tenant_id env_id write_key.
Definition req_commit : request := ReqSettleFileWrite true tenant_id env_id write_key "committed".

Definition writing_world : world := run [req_write] env_world.
Definition written_world : world := run [req_commit] writing_world.

Lemma writing_steps : steps env_world writing_world.
Proof. unfold writing_world. apply run_steps. Qed.
Lemma written_steps : steps writing_world written_world.
Proof. unfold written_world. apply run_steps. Qed.

(** ** A runtime allocation *)

Definition provider_key : string := uuid_string 11%N.
Definition req_allocate : request := ReqReserveAllocation true tenant_id env_id provider_key digest.
(** Drawn in this order: the device, then the allocation. *)
Definition owner : RuntimeAllocation :=
  MkRuntimeAllocation (uuid_string 101%N) env_id session_id tenant_id (uuid_string 100%N) provider_key "complete"
    "creating" false false false false 0 0.

Definition allocated_world : world := run [req_allocate] bare_world.
Definition running_world : world := run [ReqObserveRunning true owner] allocated_world.
Definition cleaned_world : world := run [ReqCleanup true owner] running_world.
Definition freed_world : world := run [ReqRelease true owner] cleaned_world.

Lemma allocated_steps : steps bare_world allocated_world.
Proof. unfold allocated_world. apply run_steps. Qed.
Lemma running_steps : steps allocated_world running_world.
Proof. unfold running_world. apply run_steps. Qed.
Lemma cleaned_steps : steps running_world cleaned_world.
Proof. unfold cleaned_world. apply run_steps. Qed.
Lemma freed_steps : steps cleaned_world freed_world.
Proof. unfold freed_world. apply run_steps. Qed.

#[global] Opaque reserved_world promoted_world writing_world written_world allocated_world running_world cleaned_world
  freed_world.
