(* ===== verification/Frames.v ===== *)
(** * Frames

    What the change log and the Item projection leave alone: recording a change
    writes events, Items, token counts, subagents and artifacts, and nothing
    that decides how a Turn goes on. *)
From stdpp Require Import base tactics list strings numbers relations.
From S2P Require Import Prelude GoJson Contract Items Database Queries EnvQueries SessionLog Turns Environments Reads Configuration Setup Creation Relations Tables.

(** A Turn row less its token usage, a Session row less its event counter. *)
Definition turn_core (t : turn_row) : turn_row :=
  MkTurnRow (t_id t) (t_session t) (t_status t) (t_created t) (t_started t) (t_completed t) (t_cancel t)
    (t_outcome t) (t_event_count t) (t_event_bytes t) None (t_capture t).

Definition session_core (s : session_row) : session_row :=
  MkSession (s_id s) (s_tenant s) (s_engine s) (s_metadata s) (s_key s) (s_request_hash s) (s_created s)
    (s_config s) 0 (s_creation_hash s) (s_deleted s) (s_creator s).

Record log_frame (d d' : db) : Prop := MkFrame {
  lf_turns : turn_core <$> turns d' = turn_core <$> turns d;
  lf_sessions : session_core <$> sessions d' = session_core <$> sessions d;
  lf_inputs : turn_inputs d' = turn_inputs d;
  lf_events : turn_events d' = turn_events d;
  lf_calls : function_calls d' = function_calls d;
  lf_devices : devices d' = devices d;
  lf_bindings : session_devices d' = session_devices d;
  lf_environments : environments d' = environments d;
  lf_connections : environment_connections d' = environment_connections d;
  lf_reservations : reservations d' = reservations d;
  lf_writes : file_writes d' = file_writes d;
  lf_allocations : allocations d' = allocations d;
}.

#[export] Instance log_frame_preorder : PreOrder log_frame.
Proof.
  split.
  - intros d. by split.
  - intros d1 d2 d3 [] []. split; congruence.
Qed.

(** Rows that agree on everything else agree on what is read of them. *)
Lemma core_row {A B} (core : A → A) (g : A → B) l l' x :
  (∀ a b, core a = core b → g a = g b) → core <$> l' = core <$> l → In x l' →
  ∃ y, In y l ∧ core x = core y ∧ g x = g y.
Proof.
  intros Hg E Hx. apply list_elem_of_In in Hx.
  assert (core x ∈ core <$> l) as Hin by (rewrite <- E; by apply list_elem_of_fmap_2).
  apply list_elem_of_fmap in Hin as (y & Exy & Hy). exists y.
  split; [by apply list_elem_of_In|]. auto.
Qed.

Lemma core_filter {A} (core : A → A) (p : A → bool) l l' :
  (∀ a b, core a = core b → p a = p b) → core <$> l' = core <$> l →
  core <$> List.filter p l' = core <$> List.filter p l.
Proof.
  intros Hp. revert l. induction l' as [|x l' IH]; intros [|y l] E; try discriminate E; [done|].
  cbn in E. injection E as Exy E. cbn. rewrite (Hp x y Exy). destruct (p y); cbn; [f_equal|]; auto.
Qed.

Lemma core_head {A} (core : A → A) l l' :
  core <$> l' = core <$> l → core <$> head l' = core <$> head l.
Proof. destruct l, l'; try done. cbn. intros [=]. by f_equal. Qed.

Lemma core_existsb {A} (core : A → A) (p : A → bool) l l' :
  (∀ a b, core a = core b → p a = p b) → core <$> l' = core <$> l → existsb p l' = existsb p l.
Proof.
  intros Hp. revert l. induction l' as [|x l' IH]; intros [|y l] E; try discriminate E; [done|].
  cbn in E. injection E as Exy E. cbn. by rewrite (Hp x y Exy), (IH l).
Qed.

Section frames.
Context `{UUIDs, Oracle, EventSizes}.

Ltac frame_tac := moves_tac; apply (moves_exec _); intros w; (split; [by split|cbn; lia]).

#[export] Instance log_frame_log : LogRelation (on_db log_frame).
Proof.
  split; [apply _|..]; intros.
  - unfold AppendSessionEvent. moves_tac; apply (moves_exec _); intros w; (split; [|cbn; lia]); [|by split].
    split; try done. cbn. change (session_core <$> ?l) with (List.map session_core l).
    by rewrite update_where_map_proj.
  - unfold PutSessionItem. frame_tac.
  - unfold FinishSessionItems. frame_tac.
  - apply (moves_exec _). intros w. split; [|cbn; lia]. split; try done. cbn.
    change (turn_core <$> ?l) with (List.map turn_core l). by rewrite update_where_map_proj.
  - unfold PutSubagentIdentity. frame_tac.
  - unfold PublishTurnArtifacts. frame_tac.
  - unfold DeleteUnpublishedTurnArtifacts. frame_tac.
Qed.

(** ** Runs under the Session lock *)

Definition pruned (session : N) (d : db) : db :=
  with_session_events d (List.filter
    (λ e, negb ((se_session e =?s session) && existsb (Z.eqb (se_seq e)) (prunable session d)))
    (session_events d)).

(** A successful Session transaction: the identifiers parse, the Session is the
    caller's (and live, for a public operation), the body succeeds, and old
    events are pruned. *)
Lemma withSessionState_run {A} public tenantID sessionID (apply : N → tx A) w a w' :
  withSessionState public tenantID sessionID apply w = (Ok a, w') →
  ∃ tenant session s w1,
    parseID tenantID = Ok tenant ∧ parseID sessionID = Ok session
    ∧ head (List.filter (session_is tenant session) (sessions (w_db w))) = Some s
    ∧ (public = true → s_deleted s = None)
    ∧ apply session w = (Ok a, w1) ∧ w' = set_db w1 (pruned session (w_db w1)).
Proof.
  unfold withSessionState, LockSession, PruneSessionEvents. intros Hr.
  apply bind_run in Hr as (tenant & w1 & Ht & Hr). apply of_result_run in Ht as [Ht ->].
  apply bind_run in Hr as (session & w1 & Hs & Hr). apply of_result_run in Hs as [Hs ->].
  apply begin_run, bind_run in Hr as (row & w1 & Hq & Hr). apply query_run in Hq as [-> ->].
  destruct (head _) as [s|] eqn:E; [|discriminate Hr].
  destruct (public && bool_decide (is_Some (s_deleted s))) eqn:Ep; [discriminate Hr|].
  tx_inv. do 4 eexists. repeat (split; [done|]). split; [|done].
  intros ->. apply bool_decide_eq_false_1 in Ep. by destruct (s_deleted s); [destruct Ep|].
Qed.

(** The same, forwards. *)
Lemma withSessionState_eval {A} public tenantID sessionID (apply : N → tx A) w tenant session s :
  parseID tenantID = Ok tenant → parseID sessionID = Ok session →
  head (List.filter (session_is tenant session) (sessions (w_db w))) = Some s →
  (public = true → s_deleted s = None) →
  withSessionState public tenantID sessionID apply w =
    match apply session w with
    | (Ok a, w1) => (Ok a, set_db w1 (pruned session (w_db w1)))
    | (Err e, w1) => (Err e, set_db w1 (w_db w))
    end.
Proof.
  intros Ht Hs Hh Hd. unfold withSessionState, LockSession, PruneSessionEvents, begin_func, of_result, query, exec.
  rewrite Ht, Hs. unfold mbind, tx_bind. rewrite Hh.
  assert (public && bool_decide (is_Some (s_deleted s)) = false) as ->.
  { destruct public; [|done]. by rewrite Hd. }
  by destruct (apply session w) as [[a|e] w1].
Qed.

Lemma pruned_frame session d : log_frame d (pruned session d).
Proof. by split. Qed.

Lemma environmentInputActivity_run session w a w' : environmentInputActivity session w = (Ok a, w') → w' = w.
Proof.
  unfold environmentInputActivity, GetEnvironmentInputActivity. intros Hr.
  apply bind_run in Hr as (o & w1 & Hq & Hr). apply query_run in Hq as [_ ->].
  destruct o; [|by tx_inv]. destruct (_ && _ && _); by tx_inv.
Qed.

(** The activity a body leads to is only logged. *)
Lemma withEnvironmentInputActivity_run {A} session (apply : tx A) w a w' :
  withEnvironmentInputActivity session apply w = (Ok a, w') →
  ∃ w1, apply w = (Ok a, w1) ∧ log_frame (w_db w1) (w_db w').
Proof.
  unfold withEnvironmentInputActivity. intros Hr.
  apply bind_run in Hr as (before & w1 & Hb & Hr). apply environmentInputActivity_run in Hb as ->.
  apply bind_run in Hr as (a' & w1 & Ha & Hr).
  apply bind_run in Hr as (after & w2 & Hb & Hr). apply environmentInputActivity_run in Hb as ->.
  exists w1.
  assert (moves (on_db log_frame) (match after with
    | None => mret a'
    | Some act =>
        if match before with Some b => same_activity b act | None => false end then mret a' else
        usage ← SessionTokenUsage session;
        _ ← recordSessionChange session
              (MkChange 0 (typed_event ("agent.session." +:+ ac_status act) None) None usage [] (Some act));
        mret a'
    end)) as Hm by (unfold SessionTokenUsage; moves_tac; by apply (recordSessionChange_moves _)).
  apply (moves_run _ _ _ _ _ Hm) in Hr as Hf. split; [|apply Hf].
  destruct after as [act|]; [|by tx_inv]. destruct (match before with Some _ => _ | None => _ end); [by tx_inv|].
  apply bind_run in Hr as (u & w2 & _ & Hr). apply bind_run in Hr as (u' & w3 & _ & Hr). by tx_inv.
Qed.

Lemma withEnvironmentInputSession_run {A} tenantID sessionID (apply : N → tx A) w a w' :
  withEnvironmentInputSession tenantID sessionID apply w = (Ok a, w') →
  ∃ tenant session s w1,
    parseID tenantID = Ok tenant ∧ parseID sessionID = Ok session
    ∧ head (List.filter (session_is tenant session) (sessions (w_db w))) = Some s ∧ s_deleted s = None
    ∧ apply session w = (Ok a, w1) ∧ log_frame (w_db w1) (w_db w').
Proof.
  intros Hr. apply withSessionState_run in Hr as (tenant & session & s & w1 & Ht & Hs & Hh & Hd & Hr & ->).
  apply withEnvironmentInputActivity_run in Hr as (w2 & Hr & Hf).
  exists tenant, session, s, w2. repeat (split; [auto|]). etrans; [done|]. apply pruned_frame.
Qed.

(** The environment a Session owns. *)
Lemma GetSessionEnvironment_run tenant session w row w' :
  GetSessionEnvironmentQ tenant session w = (Ok (Some row), w') →
  w' = w ∧ In (ser_env row) (environments (w_db w)) ∧ e_session (ser_env row) = session ∧ ser_tenant row = tenant.
Proof.
  intros Hq. apply query_run in Hq as [Hq ->]. split; [done|].
  symmetry in Hq. apply fmap_Some in Hq as ([e s] & Hh & ->). apply head_filter_Some in Hh as [Hin Hk].
  unfold env_sessions in Hin. apply in_flat_map in Hin as (e' & He & Hin). apply in_map_iff in Hin as (s' & [= -> ->] & Hs).
  apply List.filter_In in Hs as [_ Hs]. cbn in Hk |- *. by bsolve.
Qed.

Lemma GetEnvironment_run tenantID environmentID w owned w' :
  GetEnvironment tenantID environmentID w = (Ok owned, w') →
  w' = w ∧ ∃ e, In e (environments (w_db w)) ∧ parseID environmentID = Ok (e_id e)
    ∧ en_session owned = uuid_string (e_session e).
Proof.
  unfold GetEnvironment. intros Hr.
  apply bind_run in Hr as (tenant & w1 & Ht & Hr). apply of_result_run in Ht as [Ht ->].
  apply bind_run in Hr as (id & w1 & Hid & Hr). apply of_result_run in Hid as [Hid ->].
  apply bind_run in Hr as (row & w1 & Hq & Hr). apply query_run in Hq as [-> ->].
  apply of_result_run in Hr as [Hr ->]. split; [done|].
  destruct (head _) as [[e s]|] eqn:Eh; [|discriminate Hr]. apply head_filter_Some in Eh as [Hin Hk].
  unfold env_sessions in Hin. apply in_flat_map in Hin as (e' & He & Hin). apply in_map_iff in Hin as (s' & [= -> ->] & _).
  apply bind_Ok in Hr as (config & _ & Hr). injection Hr as <-. exists e. cbn in Hk |- *. bsolve. by rewrite Hid.
Qed.

Lemma withEnvironmentConnection_run {A} leased tenantID environmentID (apply : SessionEnvironmentRow → tx A) w a w' :
  withEnvironmentConnection leased tenantID environmentID apply w = (Ok a, w') →
  ∃ tenant e row w1, leased = true ∧ parseID tenantID = Ok tenant
    ∧ In e (environments (w_db w)) ∧ parseID environmentID = Ok (e_id e)
    ∧ parseID (uuid_string (e_session e)) = Ok (e_session (ser_env row))
    ∧ In (ser_env row) (environments (w_db w)) ∧ ser_tenant row = tenant
    ∧ apply row w = (Ok a, w1) ∧ log_frame (w_db w1) (w_db w').
Proof.
  unfold withEnvironmentConnection. intros Hr.
  apply bind_run in Hr as ([] & w1 & Hl & Hr). apply require_run in Hl as [-> ->].
  apply bind_run in Hr as (owned & w1 & Ho & Hr). apply GetEnvironment_run in Ho as (-> & e & He & Hid & Eo).
  apply bind_run in Hr as (tenant & w1 & Ht & Hr). apply of_result_run in Ht as [Ht ->].
  apply withSessionState_run in Hr as (tenant' & session & s & w1 & _ & Hs & _ & _ & Hr & ->).
  apply bind_run in Hr as (o & w2 & Hq & Hr). destruct o as [row|]; [|discriminate Hr].
  apply GetSessionEnvironment_run in Hq as (-> & Hin & Hes & Hten).
  apply withEnvironmentInputActivity_run in Hr as (w2 & Hr & Hf).
  rewrite Eo in Hs. exists tenant, e, row, w2. rewrite Hes. repeat (split; [done|]). etrans; [done|]. apply pruned_frame.
Qed.

(** Only whether the lease is over depends on the clock. *)
Lemma allocation_rows_clock now now' d :
  allocation_rows now d
  = List.map (λ r, MkAllocationRow (alr_alloc r) (alr_session r) (alr_tenant r) (alr_deleted r) (lease_over now (alr_alloc r)))
      (allocation_rows now' d).
Proof.
  unfold allocation_rows. induction (allocations d) as [|a l IH]; [done|]. cbn. rewrite map_app, <- IH. f_equal.
  rewrite map_map. done.
Qed.

Lemma allocation_head_clock now now' d tenant env r :
  let q := λ r, (alr_tenant r =?s tenant) && (al_env (alr_alloc r) =?s env) in
  head (List.filter q (allocation_rows now d)) = Some r →
  ∃ r', head (List.filter q (allocation_rows now' d)) = Some r'
    ∧ r = MkAllocationRow (alr_alloc r') (alr_session r') (alr_tenant r') (alr_deleted r') (lease_over now (alr_alloc r')).
Proof.
  intros q. rewrite (allocation_rows_clock now now'). induction (allocation_rows now' d) as [|x l IH]; [done|].
  cbn [List.map List.filter]. change (q (MkAllocationRow _ _ _ _ _)) with (q x).
  destruct (q x); [intros [= <-]; by exists x|apply IH].
Qed.

Lemma allocation_rows_in now d r :
  In r (allocation_rows now d) →
  In (alr_alloc r) (allocations d)
  ∧ ∃ e s, In e (environments d) ∧ In s (sessions d) ∧ e_id e = al_env (alr_alloc r) ∧ e_session e = alr_session r
      ∧ s_id s = e_session e ∧ s_tenant s = alr_tenant r ∧ s_deleted s = alr_deleted r.
Proof.
  unfold allocation_rows, env_sessions. intros Hin. apply in_flat_map in Hin as (a & Ha & Hin).
  apply in_map_iff in Hin as ([e s] & <- & Hin). split; [done|]. apply List.filter_In in Hin as [Hin Hid].
  apply in_flat_map in Hin as (e' & He & Hin). apply in_map_iff in Hin as (s' & [= -> ->] & Hs).
  apply List.filter_In in Hs as [Hs Hsid]. cbn in *. bsolve. by exists e, s.
Qed.

(** A runtime's owner names its allocation row. *)
Lemma mutateRuntimeAllocation_run leased owner live apply w res w' :
  mutateRuntimeAllocation leased owner live apply w = (Ok res, w') →
  ∃ tenant current w1 row w2 session, leased = true ∧ parseID (ra_tenant owner) = Ok tenant
    ∧ uuid_string (al_id (alr_alloc current)) = ra_id owner ∧ uuid_string (al_device (alr_alloc current)) = ra_device owner
    ∧ (∃ now, In current (allocation_rows now (w_db w))) ∧ alr_tenant current = tenant
    ∧ w_db w1 = w_db w ∧ apply (alr_alloc current) w1 = (Ok row, w2) ∧ log_frame (w_db w2) (w_db w')
    ∧ res = runtimeAllocationFromRow row session tenant (alr_deleted current) (alr_expired current) false.
Proof.
  unfold mutateRuntimeAllocation. intros Hr.
  apply bind_run in Hr as ([] & w1 & Hq & Hr). apply require_run in Hq as [-> ->].
  apply bind_run in Hr as (previous & w1 & Hp & Hr). unfold GetRuntimeAllocation in Hp.
  apply bind_run in Hp as (look & w2 & Hl & Hp). apply of_result_run in Hl as [Hl ->].
  apply bind_run in Hp as (prow & w2 & Hq & Hp). unfold GetRuntimeAllocationQ in Hq.
  apply bind_run in Hq as (now0 & w3 & Hn & Hq). apply clock_run in Hn as [En _]. apply query_run in Hq as [-> ->].
  destruct (head _) as [p|] eqn:Ep; [|discriminate Hp]. apply ret_run in Hp as [-> ->].
  apply bind_run in Hr as ([] & w1 & Hq & Hr). apply require_run in Hq as [Hid ->].
  apply bind_run in Hr as (look' & w1 & Hq & Hr). rewrite Hl in Hq. apply of_result_run in Hq as [[= <-] ->].
  apply withSessionState_run in Hr as (tenant & session & s & w1 & Ht & _ & _ & _ & Hr & ->).
  unfold mutate_row, GetRuntimeAllocationQ in Hr. apply bind_run in Hr as (current & w2 & Hq & Hr). apply one_run in Hq.
  apply bind_run in Hq as (now1 & w4 & Hn & Hq). apply clock_run in Hn as [En1 _]. apply query_run in Hq as [Hc ->].
  rewrite En1, En in Hc. symmetry in Hc. apply (allocation_head_clock _ now0) in Hc as (p' & Hp' & Ecur).
  rewrite En, Hp' in Ep. injection Ep as ->.
  apply bind_run in Hr as (u & w2 & Hlive & Hr). apply bind_run in Hr as (row & w5 & Ha & Hr).
  apply catch_run in Ha; [|intros e; destruct (e =?s ErrNoRows); eauto].
  assert (w_db w2 = w_db w4) as E2.
  { unfold live_owner in Hlive. destruct live; [|by tx_inv].
    apply bind_run in Hlive as (u1 & w6 & Hq & Hlive). apply require_run in Hq as [_ ->].
    apply bind_run in Hlive as (x & w6 & Hq & Hlive). apply one_run, query_run in Hq as [_ ->].
    by apply require_run in Hlive as [_ ->]. }
  apply ret_run in Hr as [-> ->]. unfold deviceLookup in Hl. rewrite Ht in Hl.
  apply bind_Ok in Hl as (t & [= <-] & Hl). apply bind_Ok in Hl as (env & _ & [= <-]).
  cbn in *. rewrite !andb_true_iff in Hid. destruct Hid as [[Hid%bool_decide_eq_true_1 Hdev%bool_decide_eq_true_1] _].
  apply head_filter_Some in Hp' as [Hin Hk]. cbn in Hk.
  apply andb_true_iff in Hk as [Hk%bool_decide_eq_true_1 _].
  exists tenant, current, w2, row, w5, session. subst current. repeat (split; [done|]).
  split; [exists now1; rewrite (allocation_rows_clock now1 now0); apply in_map_iff; by exists p|].
  split; [done|]. split; [by rewrite E2, En1|]. split; [done|]. split; [apply pruned_frame|done].
Qed.

(** ** Gates, which only read *)

Lemma checkEnvironmentFileWriteGate_run session w u w' :
  checkEnvironmentFileWriteGate session w = (Ok u, w') →
  w' = w ∧ EnvironmentFileWriteBlocksSession session w = (Ok false, w).
Proof.
  unfold checkEnvironmentFileWriteGate, EnvironmentFileWriteBlocksSession. intros Hr.
  apply bind_run in Hr as (b & w1 & Hq & Hr). apply query_run in Hq as [-> ->].
  apply require_run in Hr as [Hg%negb_true_iff ->]. split; [done|]. unfold query. by rewrite Hg.
Qed.

Lemma checkEnvironmentInputGate_run session key batch w u w' :
  checkEnvironmentInputGate session key batch w = (Ok u, w') → w' = w.
Proof. unfold checkEnvironmentInputGate, CheckEnvironmentInputGate. intros Hr. by tx_inv. Qed.

Lemma inputBatchReceipts_run session key batch w rs w' :
  inputBatchReceipts session key batch w = (Ok rs, w') → w' = w.
Proof. unfold inputBatchReceipts, FindInputBatch. intros Hr. by tx_inv. Qed.

Lemma must_turn_eval p w t :
  tenant_session (w_db w) (lk_tenant p) (lk_session p) = true →
  head (List.filter (turn_is (lk_session p) (lk_turn p)) (turns (w_db w))) = Some t →
  must_turn p w = (Ok t, w).
Proof.
  intros Htn Ht. unfold must_turn, get_turn, GetTurnQ, query, mbind, tx_bind. by rewrite Htn, Ht.
Qed.

Lemma locked_tenant d tenant session s :
  head (List.filter (session_is tenant session) (sessions d)) = Some s → tenant_session d tenant session = true.
Proof. intros [Hin Hs]%head_filter_Some. apply existsb_exists. eauto. Qed.

Lemma must_turn_run p w t w' :
  must_turn p w = (Ok t, w') →
  w' = w ∧ tenant_session (w_db w) (lk_tenant p) (lk_session p) = true
  ∧ head (List.filter (turn_is (lk_session p) (lk_turn p)) (turns (w_db w))) = Some t.
Proof.
  unfold must_turn, get_turn, GetTurnQ. intros Hr.
  apply bind_run in Hr as (o & w1 & Hq & Hr). apply query_run in Hq as [-> ->].
  destruct (tenant_session _ _ _); [|discriminate Hr].
  destruct (head _) as [t'|] eqn:E; [|discriminate Hr]. tx_inv. auto.
Qed.

Lemma turnLookup_run tenantID sessionID turnID p :
  turnLookup tenantID sessionID turnID = Ok p →
  parseID tenantID = Ok (lk_tenant p) ∧ parseID sessionID = Ok (lk_session p) ∧ parseID turnID = Ok (lk_turn p).
Proof.
  unfold turnLookup. intros Hr.
  apply bind_Ok in Hr as (? & ? & Hr). apply bind_Ok in Hr as (? & ? & Hr).
  apply bind_Ok in Hr as (? & ? & Hr). by simplify_eq/=.
Qed.

Lemma turnLookup_eval tenantID sessionID turnID tenant session turn :
  parseID tenantID = Ok tenant → parseID sessionID = Ok session → parseID turnID = Ok turn →
  turnLookup tenantID sessionID turnID = Ok (MkLookup tenant session turn).
Proof. intros Ht Hs Hu. unfold turnLookup. by rewrite Ht, Hs, Hu. Qed.

(** ** The row of a new Session *)

Definition new_row (p : CreateSessionParams) (metadata config : json) (now : Z) : session_row :=
  MkSession (sp_id p) (sp_tenant p) (sp_engine p) metadata (sp_key p) (sp_hash p) now config 0
    (sp_creation_hash p) None (Some (sp_creator p)).

(** The statement finds the Session of the key, or adds a row of its own. *)
Lemma CreateSessionQ_run p w o w' :
  CreateSessionQ p w = (Ok o, w') →
  w_seq w' = w_seq w ∧
  match head (List.filter (keyed_session (sp_tenant p) (sp_key p)) (sessions (w_db w))) with
  | Some s => o = (if same_creation p s then Some s else None) ∧ w_db w' = w_db w
  | None =>
      existsb (λ s, s_id s =?s sp_id p) (sessions (w_db w)) = false
      ∧ creator_ok (sp_creator p) = true
      ∧ ∃ metadata config now, is_object metadata = true ∧ is_object config = true
        ∧ jsonb_in (sp_metadata p) = Some metadata ∧ jsonb_in (sp_config p) = Some config
        ∧ o = Some (new_row p metadata config now)
        ∧ w_db w' = with_sessions (w_db w) (sessions (w_db w) ++ [new_row p metadata config now])
  end.
Proof.
  unfold CreateSessionQ, clock_timestamp. intros Hr. tx_inv. simplify_eq/=.
  cbn in *. destruct (head _) eqn:E; tx_inv; cbn in *; (split; [done|]); [done|]. bsolve.
  do 2 (split; [done|]). by exists x, x1, (clock (w_tick w)).
Qed.

(** A relation that holds when a new row is added holds of the statement. *)
Lemma CreateSessionQ_moves (R : relation db) `{!PreOrder R} p :
  (∀ d metadata config now,
    existsb (λ s, s_id s =?s sp_id p) (sessions d) = false →
    existsb (keyed_session (sp_tenant p) (sp_key p)) (sessions d) = false →
    creator_ok (sp_creator p) = true → is_object metadata = true → is_object config = true → jsonb_in (sp_config p) = Some config →
    R d (with_sessions d (sessions d ++ [new_row p metadata config now]))) →
  moves (on_db R) (CreateSessionQ p).
Proof.
  intros HR. refine (on_db_runs (keeps (λ _, True)) _ _ _ _).
  { other_statement (λ d d' : db, λ _ : True, I). }
  intros w o w' (_ & Hr)%CreateSessionQ_run. destruct (head _) as [s|] eqn:E; [by destruct Hr as [_ ->]|].
  destruct Hr as (Hid & Hc & metadata & config & now & Hm & Ho & _ & Hj & _ & ->). apply HR; try done.
  apply existsb_false_iff. by apply head_filter_None.
Qed.

End frames.
