(* ===== verification/Snapshots.v ===== *)
(** * Snapshots

    The configuration of a Session as it is stored: its members are in [jsonb]
    order, and the metadata creation adds to it does not change the environment
    it asks for.  With it, what a successful creation went through. *)
From stdpp Require Import base tactics list strings numbers relations sorting.
From S2P Require Import Prelude GoJson Contract Items Database Queries EnvQueries SessionLog Turns Environments Reads.
From S2P Require Import Configuration Setup Creation Relations Tables Frames.

(** ** Objects in [jsonb] order *)

Definition member_before (a b : string * json) : Prop := jsonb_key_compare a.1 b.1 = Lt.

Lemma key_compare_eq a b : jsonb_key_compare a b = Eq → a = b.
Proof.
  unfold jsonb_key_compare. destruct (Nat.compare _ _); [|done..]. apply String.compare_eq_iff.
Qed.

Lemma key_compare_antisym a b : jsonb_key_compare a b = CompOpp (jsonb_key_compare b a).
Proof.
  unfold jsonb_key_compare. rewrite (Nat.compare_antisym (String.length b)).
  destruct (Nat.compare (String.length b) _); cbn; [apply String.compare_antisym|done..].
Qed.

Lemma key_compare_refl a : jsonb_key_compare a a = Eq.
Proof. unfold jsonb_key_compare. rewrite Nat.compare_refl. apply string_compare_refl. Qed.

Lemma key_compare_trans a b c :
  jsonb_key_compare a b = Lt → jsonb_key_compare b c = Lt → jsonb_key_compare a c = Lt.
Proof.
  unfold jsonb_key_compare.
  destruct (Nat.compare_spec (String.length a) (String.length b)); try done;
  destruct (Nat.compare_spec (String.length b) (String.length c)); try done; intros Hab Hbc;
  destruct (Nat.compare_spec (String.length a) (String.length c)); try lia; eauto using string_compare_lt_trans.
Qed.

Definition in_order (j : json) : Prop := match j with JObj kvs => StronglySorted member_before kvs | _ => True end.

Lemma jsonb_put_forall (P : string → Prop) k v m :
  P k → Forall (λ kv, P kv.1) m → Forall (λ kv, P kv.1) (jsonb_put k v m).
Proof.
  intros Hk. induction 1 as [|[k' v'] m Hkv Hm IH]; cbn; [by repeat constructor|].
  destruct (jsonb_key_compare k k'); repeat constructor; auto.
Qed.

Lemma jsonb_put_order k v m : StronglySorted member_before m → StronglySorted member_before (jsonb_put k v m).
Proof.
  induction 1 as [|[k' v'] m Hm IH Hk']; cbn; [repeat constructor|].
  destruct (jsonb_key_compare k k') eqn:E.
  - apply key_compare_eq in E as ->. by constructor.
  - constructor; [by constructor|]. constructor; [done|].
    eapply Forall_impl; [done|]. intros [k2 v2]. unfold member_before; cbn. eauto using key_compare_trans.
  - constructor; [done|]. apply (jsonb_put_forall (λ x, jsonb_key_compare k' x = Lt)); [|done].
    by rewrite key_compare_antisym, E.
Qed.

Lemma jsonb_in_order j j' : jsonb_in j = Some j' → in_order j'.
Proof.
  destruct j as [| | | |l|kvs]; cbn; intros E; try (by simplify_eq).
  - by apply fmap_Some in E as (? & _ & ->).
  - by case_match; simplify_eq.
  - by apply fmap_Some in E as (? & _ & ->).
  - apply fmap_Some in E as (m & E & ->). cbn. assert (StronglySorted member_before []) as Ha by constructor.
    revert Ha E. generalize (@nil (string * json)). induction kvs as [|kv kvs IH]; cbn; intros acc Ha E; [by simplify_eq|].
    destruct (jsonb_in kv.2) as [v|], (text_ok kv.1); cbn in E;
      try (exfalso; clear -E; induction kvs; [discriminate E|auto]).
    eapply IH; [|exact E]. by apply jsonb_put_order.
Qed.

(** Putting a member that is there replaces it where it is. *)
Lemma jsonb_put_member k v w m :
  StronglySorted member_before m → In (k, v) m →
  ∃ l r, m = l ++ (k, v) :: r ∧ jsonb_put k w m = l ++ (k, w) :: r.
Proof.
  induction 1 as [|[k' v'] m Hm IH Hk']; intros Hin; [done|]. cbn. destruct Hin as [[= -> ->]|Hin].
  - exists [], m. by rewrite key_compare_refl.
  - destruct (IH Hin) as (l & r & -> & Ep). exists ((k', v') :: l), r. split; [done|].
    eapply Forall_forall in Hk'; [|by apply list_elem_of_In]. unfold member_before in Hk'. cbn in Hk'.
    rewrite key_compare_antisym, Hk'. cbn. by rewrite Ep.
Qed.

Lemma obj_get_member k v kvs : obj_get k kvs = Some v → In (k, v) kvs.
Proof.
  unfold obj_get. intros ([k' v'] & E & ->)%fmap_Some. apply List.find_some in E as [Hin E%String.eqb_eq].
  cbn in E. subst. by apply in_rev.
Qed.

(** ** Members a decoder does not look at *)

Section ignored.
Context {A : Type} (member : A → string → json → option A).

Lemma fold_ignored k v m acc :
  (∀ a v, member a k v = Some a) →
  List.fold_left (λ acc kv, a ← acc; member a kv.1 kv.2) (jsonb_put k v m) acc
  = List.fold_left (λ acc kv, a ← acc; member a kv.1 kv.2) m acc.
Proof.
  intros Hk. assert (∀ acc w, (a ← acc; member a k w) = acc) as Hid by (intros [a|] w; cbn; auto).
  revert acc. induction m as [|[k' v'] m IH]; intros acc; cbn; [apply Hid|].
  destruct (jsonb_key_compare k k') eqn:E; cbn.
  - apply key_compare_eq in E as ->. by rewrite !Hid.
  - by rewrite Hid.
  - apply IH.
Qed.

Lemma fold_replaced k v w m acc :
  StronglySorted member_before m → In (k, v) m → (∀ a, member a k w = member a k v) →
  List.fold_left (λ acc kv, a ← acc; member a kv.1 kv.2) (jsonb_put k w m) acc
  = List.fold_left (λ acc kv, a ← acc; member a kv.1 kv.2) m acc.
Proof.
  intros Hs Hin Hm. destruct (jsonb_put_member k v w m Hs Hin) as (l & r & -> & ->).
  rewrite !fold_left_app. cbn. f_equal. destruct (List.fold_left _ l acc); cbn; auto.
Qed.
End ignored.

(** ** The environment a configuration asks for *)

Definition hosted (config : json) : bool :=
  match dec_snapshot None config with
  | Some (Some ty) => (ty =?s "self_hosted") || (ty =?s "openai_hosted")
  | _ => false
  end.

Lemma set2_snapshot k v config config' :
  in_order config → key_is "type" k = false → jsonb_set2 "environment" k v config = Some config' →
  in_order config' ∧ dec_snapshot None config' = dec_snapshot None config.
Proof.
  intros Ho Hk. unfold jsonb_set2. destruct (jsonb_field "environment" config) as [[| | | |l|env]|] eqn:E;
    try (by intros [= <-]). intros [= <-]. destruct config as [| | | | |kvs]; try discriminate E. cbn in E.
  apply obj_get_member in E. split; [by apply jsonb_put_order|]. cbn.
  apply (fold_replaced (λ s k v, if key_is "environment" k then dec_ptr "" dec_type s v else Some s)
    "environment" (JObj env)); [done|done|]. intros a. cbn. f_equal.
  apply (fold_ignored (λ s k v, if key_is "type" k then dec_string s v else Some s)). intros. by rewrite Hk.
Qed.

Lemma hosted_snapshot config config' :
  dec_snapshot None config' = dec_snapshot None config → hosted config' = hosted config.
Proof. unfold hosted. by intros ->. Qed.

(** ** What a new Session is given *)

(** The database without the configuration of [id] and without the tables of
    files, setups and model providers. *)
Definition other_config (id : N) (s : session_row) : session_row := if s_id s =?s id then config_row JNull s else s.

Definition blank (id : N) (d : db) : db :=
  with_model_executions (with_setups (with_initial_files
    (with_sessions d (List.map (other_config id) (sessions d))) []) []) [].

Definition stores (id : N) (d d' : db) : Prop := blank id d' = blank id d.

#[export] Instance stores_preorder id : PreOrder (stores id).
Proof. split; [by intros d|]. unfold stores. intros d1 d2 d3. congruence. Qed.

(** The row the table has for its Session. *)
Definition current (d : db) (row : session_row) : Prop :=
  head (List.filter (λ s, s_id s =?s s_id row) (sessions d)) = Some row.

(** Two configurations ask for the same environment. *)
Definition same_snapshot (row row' : session_row) : Prop :=
  s_id row' = s_id row ∧ in_order (s_config row') ∧ dec_snapshot None (s_config row') = dec_snapshot None (s_config row).

Section snapshots.
Context `{UUIDs, Oracle, EventSizes}.

Lemma head_filter_config id config l s :
  head (List.filter (λ s, s_id s =?s id) l) = Some s →
  head (List.filter (λ s, s_id s =?s id) (update_where (λ s, s_id s =?s id) (config_row config) l)) = Some (config_row config s).
Proof.
  induction l as [|x l IH]; [done|]. cbn. destruct (s_id x =?s id) eqn:E; cbn; rewrite E; cbn; [|done]. by intros [= ->].
Qed.

Lemma blank_sessions id d l :
  List.map (other_config id) l = List.map (other_config id) (sessions d) → stores id d (with_sessions d l).
Proof. unfold stores, blank. cbn. by intros ->. Qed.

Lemma stores_configuration id f : moves (on_db (stores id)) (set_configuration id f).
Proof.
  unfold set_configuration. moves_tac. apply (moves_exec _). intros w. split; [|cbn; lia]. apply blank_sessions.
  apply update_where_map_proj. intros x Hx. cbn beta in Hx. unfold other_config. cbn. by rewrite Hx.
Qed.

(** Changing the configuration without changing the type of the environment. *)
Lemma set_configuration_run f row w o w' :
  (∀ c c', in_order c → f c = Some c' → in_order c' ∧ dec_snapshot None c' = dec_snapshot None c) →
  in_order (s_config row) → current (w_db w) row → set_configuration (s_id row) f w = (Ok o, w') →
  ∃ row', o = Some row' ∧ same_snapshot row row' ∧ current (w_db w') row' ∧ stores (s_id row) (w_db w) (w_db w').
Proof.
  intros Hf Ho Hc Hr. pose proof (moves_run _ _ _ _ _ (stores_configuration (s_id row) f) Hr) as [Hst _].
  unfold set_configuration in Hr. apply bind_run in Hr as (old & w1 & Hq & Hr). apply query_run in Hq as [-> ->].
  rewrite Hc in Hr. destruct (f (s_config row)) as [c|] eqn:E; [|discriminate Hr]. tx_inv. exists (config_row c row).
  destruct (Hf _ _ Ho E). split; [done|]. split; [done|]. split; [|done]. by apply head_filter_config.
Qed.

Lemma stores_current id d d' row :
  stores id d d' → sessions d' = sessions d → current d row → current d' row.
Proof. unfold current. by intros _ ->. Qed.

(** Statements that do not write the Session. *)
Lemma save_files_stores `{CreationInputs} tenant session position files :
  moves (on_db (λ d d', stores session d d' ∧ sessions d' = sessions d)) (save_files tenant session position files).
Proof.
  assert (PreOrder (λ d d', stores session d d' ∧ sessions d' = sessions d)) as Hpre.
  { split; [by intros d|]. intros d1 d2 d3 [A1 B1] [A2 B2]. split; [by etrans|congruence]. }
  revert position. induction files as [|f files IH]; intros position; cbn [save_files]; [moves_tac|].
  unfold CreateInitialEnvironmentFile. moves_tac. apply (moves_exec _). intros w. by split; [|cbn; lia].
Qed.

Lemma saveSessionModelExecution_run `{CreationInputs} session provider w u w' :
  saveSessionModelExecution session provider w = (Ok u, w') →
  stores session (w_db w) (w_db w') ∧ sessions (w_db w') = sessions (w_db w).
Proof.
  unfold saveSessionModelExecution, SaveSessionModelExecution. intros Hr. destruct provider; tx_inv; by split.
Qed.

Lemma saveEnvironmentSetup_run `{CreationInputs} tenantID session setup w u w' :
  saveEnvironmentSetup tenantID session setup w = (Ok u, w') →
  stores session (w_db w) (w_db w') ∧ sessions (w_db w') = sessions (w_db w).
Proof.
  unfold saveEnvironmentSetup, CreateEnvironmentSetup. intros Hr. apply bind_run in Hr as ([] & w1 & Hq & Hr).
  apply of_result_run in Hq as [_ ->]. destruct (setup_empty setup); tx_inv; by split.
Qed.
(** A hosted Session gets one environment, which waits to be connected. *)
Definition environment_saved (row : session_row) (d d' : db) : Prop :=
  if hosted (s_config row) then
    ∃ id now, existsb (λ e, e_id e =?s id) (environments d) = false
      ∧ existsb (λ e, e_session e =?s s_id row) (environments d) = false
      ∧ d' = with_environments d (environments d ++ [MkEnvironment id (s_id row) "pending" now])
  else d' = d.

Lemma createSessionEnvironment_run row w u w' :
  createSessionEnvironment row w = (Ok u, w') → environment_saved row (w_db w) (w_db w').
Proof.
  unfold createSessionEnvironment, environment_saved, hosted, CreateEnvironment, uuid_new, clock_timestamp. intros Hr.
  destruct (dec_snapshot None (s_config row)) as [[ty|]|]; [|by tx_inv|discriminate Hr].
  destruct (ty =?s "none") eqn:En; [by bsolve; tx_inv|].
  destruct ((ty =?s "self_hosted") || (ty =?s "openai_hosted")); [|discriminate Hr]. tx_inv. simplify_eq/=. bsolve. eauto.
Qed.

(** Metadata that leaves the type of the environment alone. *)
Lemma set_files_ok metadata c c' :
  in_order c → jsonb_set2 "environment" "files" metadata c = Some c' →
  in_order c' ∧ dec_snapshot None c' = dec_snapshot None c.
Proof. intros Ho. by apply set2_snapshot. Qed.

Lemma set_packages_ok packages c c' :
  in_order c →
  (c ← jsonb_set2 "environment" "packages" packages c; jsonb_set2 "environment" "initialization" (JBool true) c) = Some c' →
  in_order c' ∧ dec_snapshot None c' = dec_snapshot None c.
Proof.
  intros Ho. destruct (jsonb_set2 "environment" "packages" packages c) as [c1|] eqn:E; [|done]. cbn. intros E2.
  apply set2_snapshot in E as [Ho1 E1]; [|done..]. apply set2_snapshot in E2 as [Ho2 ->]; done.
Qed.

Lemma same_snapshot_trans r1 r2 r3 : same_snapshot r1 r2 → same_snapshot r2 r3 → same_snapshot r1 r3.
Proof. unfold same_snapshot. intros (-> & _ & ->). naive_solver. Qed.

Lemma save_resources_run `{CreationInputs} tenantID row files setup provider w row' w' :
  in_order (s_config row) → current (w_db w) row →
  save_resources tenantID row files setup provider w = (Ok row', w') →
  ∃ d, stores (s_id row) (w_db w) d ∧ current d row' ∧ same_snapshot row row' ∧ environment_saved row' d (w_db w').
Proof.
  intros Ho Hc Hr. unfold save_resources in Hr.
  apply bind_run in Hr as ([] & w1 & Hm & Hr). apply saveSessionModelExecution_run in Hm as [S1 E1].
  apply (stores_current _ _ _ _ S1 E1) in Hc.
  apply bind_run in Hr as (row1 & w2 & Hf & Hr).
  assert (stores (s_id row) (w_db w1) (w_db w2) ∧ current (w_db w2) row1 ∧ same_snapshot row row1) as (S2 & C2 & N2).
  { destruct files as [|f files]; [by tx_inv|].
    apply bind_run in Hf as (metadata & w3 & Hs & Hf). unfold saveInitialFiles in Hs. tx_inv.
    rename select (save_files _ _ _ _ _ = _) into Hl.
    apply (moves_run _ _ _ _ _ (save_files_stores _ _ _ _)) in Hl as [[S3 E3] _].
    apply (stores_current _ _ _ _ S3 E3) in Hc. unfold SetSessionInitialFileMetadata in Hf. tx_inv.
    apply (set_configuration_run _ row) in Hf as (row2 & [= <-] & N & C & S); [|apply set_files_ok|done|done].
    split; [by etrans|]. done. }
  apply bind_run in Hr as ([] & w3 & Hs & Hr). pose proof N2 as (Eid & O1 & _). rewrite Eid in Hr, Hs.
  apply saveEnvironmentSetup_run in Hs as [S3 E3]. apply (stores_current _ _ _ _ S3 E3) in C2.
  apply bind_run in Hr as (row2 & w4 & Hp & Hr).
  assert (stores (s_id row) (w_db w3) (w_db w4) ∧ current (w_db w4) row2 ∧ same_snapshot row1 row2) as (S4 & C4 & N4).
  { destruct (setup_empty setup); [by tx_inv|]. unfold SetSessionSetupMetadata in Hp. tx_inv. rewrite <- Eid in *.
    apply (set_configuration_run _ row1) in Hp as (row3 & [= <-] & N & C & S); [|apply set_packages_ok|done|done]. done. }
  apply bind_run in Hr as ([] & w5 & Henv & Hr). tx_inv. apply createSessionEnvironment_run in Henv.
  exists (w_db w4). split; [by repeat (etrans; [eassumption|])|]. split; [done|].
  split; [by eapply same_snapshot_trans|done].
Qed.

Lemma sessionEnvironmentSnapshot_run row w o w' :
  sessionEnvironmentSnapshot row w = (Ok o, w') → w' = w.
Proof.
  unfold sessionEnvironmentSnapshot, GetSessionEnvironmentQ. intros Hr. apply bind_run in Hr as (r & w1 & Hq & Hr).
  apply query_run in Hq as [_ ->]. destruct r; by tx_inv.
Qed.

(** A successful creation: the row of the key, and if the row is new what it is
    given and the admission of the initial inputs. *)
Lemma create_resources_run `{CreationInputs} tenantID p batch encoded files setup provider w row env w' :
  create_resources tenantID p batch encoded files setup provider w = (Ok (row, env), w') →
  ∃ row0 w1 w2, CreateSessionQ p w = (Ok (Some row0), w1)
    ∧ sessionEnvironmentSnapshot row w2 = (Ok env, w2)
    ∧ if s_id row0 =?s sp_id p
      then save_resources tenantID row0 files setup provider w1 = (Ok row, w2)
        ∧ match batch, encoded with
          | _ :: _, Some encoded => admit_initial tenantID (s_id row) env batch encoded w2 = (Ok tt, w')
          | _, _ => w' = w2
          end
      else row = row0 ∧ w2 = w1 ∧ w' = w1.
Proof.
  unfold create_resources. intros Hr. apply bind_run in Hr as (row0 & w1 & Hq & Hr). apply one_run in Hq.
  apply bind_run in Hr as (row1 & w2 & Hs & Hr). apply bind_run in Hr as (env1 & w3 & He & Hr).
  pose proof (sessionEnvironmentSnapshot_run _ _ _ _ He) as ->. exists row0, w1, w2. split; [done|].
  assert ((row1, env1) = (row, env)) as [= -> ->].
  { destruct batch as [|i batch]; [|destruct encoded as [j|]]; tx_inv; congruence. }
  split; [done|]. destruct (s_id row0 =?s sp_id p); [split; [done|]|apply ret_run in Hs as [-> ->]; do 2 (split; [done|])];
    (destruct batch as [|i batch]; [|destruct encoded as [j|]]); 
    try apply bind_run in Hr as ([] & w4 & Ha & Hr); apply ret_run in Hr as [_ ->]; try done; by apply ret_run in Ha as [_ ->].
Qed.
End snapshots.

