(* ===== verification/Lifecycle.v ===== *)
(** * Lifecycle

    The Turn state machine: every operation moves every Turn along
    [validTransition], settled Turns are frozen, and cancellation is final.
    Also the well-formedness invariant of the Turn and function call tables. *)
From stdpp Require Import base tactics list strings numbers relations.
From S2P Require Import Prelude GoJson Contract Items Database Queries SessionLog Turns Environments Reads Configuration Setup Creation Relations Tables Scenario.

(** ** How one Turn may change *)

(** One edge of the state machine. *)
Definition status_step (a b : string) : Prop := validTransition a b = true.

Record turn_evolves (t t' : turn_row) : Prop := MkEvolves {
  evo_id : t_id t' = t_id t;
  evo_session : t_session t' = t_session t;
  evo_created : t_created t' = t_created t;
  evo_path : rtc status_step (t_status t) (t_status t');
  evo_started : is_Some (t_started t) → t_started t' = t_started t;
  evo_cancel : is_Some (t_cancel t) → t_cancel t' = t_cancel t;
  evo_frozen : done_status (t_status t) = true →
    t_completed t' = t_completed t ∧ t_outcome t' = t_outcome t;
  evo_stop : is_Some (t_cancel t) → t_status t' = "in_progress" → t_status t = "in_progress";
}.

(** Rows stay, in place; new rows descend from a queued Turn. *)
Definition turns_evolve (d d' : db) : Prop :=
  rows_evolve turn_evolves (λ t, rtc status_step "queued" (t_status t)) (turns d) (turns d').

Lemma done_no_step a b : done_status a = true → ¬ status_step a b.
Proof.
  unfold done_status, status_step, validTransition. intros Ha Hs.
  apply orb_true_iff in Ha as [Ha|Ha]; [apply orb_true_iff in Ha as [Ha|Ha]|]; bsolve.
Qed.

Lemma done_path a b : done_status a = true → rtc status_step a b → b = a.
Proof. intros Ha. destruct 1 as [|x y z Hs _]; [done|]. by destruct (done_no_step x y). Qed.

#[export] Instance turn_evolves_preorder : PreOrder turn_evolves.
Proof.
  split.
  - intros t. by split.
  - intros t1 t2 t3 [] []. split; try congruence; try (by etrans); intros.
    + rewrite evo_started1, evo_started0; auto. by rewrite evo_started0.
    + rewrite evo_cancel1, evo_cancel0; auto. by rewrite evo_cancel0.
    + assert (t_status t2 = t_status t1) as E by (by apply done_path).
      destruct evo_frozen0 as [??]; [done|]. destruct evo_frozen1 as [??]; [by rewrite E|].
      split; congruence.
    + apply evo_stop0; [done|]. apply evo_stop1; [|done]. by rewrite evo_cancel0.
Qed.

Lemma evolves_from_queued t t' :
  turn_evolves t t' → rtc status_step "queued" (t_status t) → rtc status_step "queued" (t_status t').
Proof. intros [] ?. by etrans. Qed.

#[export] Instance turns_evolve_preorder : PreOrder turns_evolve.
Proof.
  split; intros d *.
  - apply (rows_evolve_refl _ _ evolves_from_queued).
  - apply (rows_evolve_trans _ _ evolves_from_queued).
Qed.

Lemma turns_evolve_same d d' : turns d' = turns d → turns_evolve d d'.
Proof. intros E. unfold turns_evolve. rewrite E. apply (rows_evolve_refl _ _ evolves_from_queued). Qed.

Lemma turns_evolve_update d d' p f :
  turns d' = update_where p f (turns d) →
  (∀ t, p t = true → turn_evolves t (f t)) → turns_evolve d d'.
Proof. intros E Hf. unfold turns_evolve. rewrite E. apply (rows_evolve_update _ _ evolves_from_queued). auto. Qed.

(** ** The statements that write the Turn table *)

Section lifecycle.
Context `{UUIDs, Oracle, EventSizes}.

Lemma count_row_evolves n b t : turn_evolves t (count_row n b t).
Proof. by split. Qed.
Lemma usage_row_evolves u t : turn_evolves t (usage_row u t).
Proof. by split. Qed.
Lemma capture_row_evolves t : turn_evolves t (capture_row t).
Proof. by split. Qed.

Lemma active_not_done s : active_status s = true → done_status s = false.
Proof.
  unfold active_status. intros Ha.
  apply orb_true_iff in Ha as [Ha|Ha]; [apply orb_true_iff in Ha as [Ha|Ha]|]; by bsolve.
Qed.

Lemma cancel_row_evolves now1 now2 t :
  active_status (t_status t) = true → turn_evolves t (cancel_row now1 now2 t).
Proof.
  intros Ha%active_not_done. split; cbn; try done.
  - case_bool_decide as E; [|done]. rewrite E. by apply rtc_once.
  - by intros [c ->].
  - intros. congruence.
  - by case_bool_decide.
Qed.

Lemma transition_row_evolves id session expected new now outcome t :
  validTransition expected new = true →
  may_transition id session expected new t = true →
  turn_evolves t (transition_row now new outcome t).
Proof.
  unfold may_transition. intros Hv Hm. apply andb_true_iff in Hm as [Hm Hc]. bsolve.
  assert (done_status (t_status t) = false) as Hd by (by apply active_not_done).
  split; cbn; try done.
  - by apply rtc_once.
  - intros [s Hs]. rewrite Hs. by case_bool_decide.
  - intros. congruence.
  - intros [c Hs] ->. by rewrite Hs in Hc.
Qed.

(** Statements that do not write the Turn table. *)
Ltac other_tables lemma :=
  moves_tac; apply (moves_exec _); intros w; (split; [apply lemma; done|cbn; lia]).

#[export] Instance turns_evolve_log : LogRelation (on_db turns_evolve).
Proof.
  split; [apply _|..]; intros.
  - unfold AppendSessionEvent. other_tables turns_evolve_same.
  - unfold PutSessionItem. other_tables turns_evolve_same.
  - unfold FinishSessionItems. other_tables turns_evolve_same.
  - apply (moves_exec _). intros w. split; [|cbn; lia].
    eapply turns_evolve_update; [done|]. intros. apply usage_row_evolves.
  - unfold PutSubagentIdentity. other_tables turns_evolve_same.
  - unfold PublishTurnArtifacts. other_tables turns_evolve_same.
  - unfold DeleteUnpublishedTurnArtifacts. other_tables turns_evolve_same.
Qed.

#[export] Instance turns_evolve_turn : TurnRelation (on_db turns_evolve).
Proof.
  split; [apply _|..]; intros.
  - unfold PruneSessionEvents. other_tables turns_evolve_same.
  - unfold RequestTurnCancel. moves_tac. apply (moves_exec _). intros w. split; [|cbn; lia].
    eapply turns_evolve_update; [done|]. intros t Ht. cbn beta in Ht. apply andb_true_iff in Ht as [_ Ht]. by apply cancel_row_evolves.
  - unfold TransitionTurnQ. moves_tac. apply (moves_exec _). intros w. split; [|cbn; lia].
    eapply turns_evolve_update; [done|]. intros. by eapply transition_row_evolves.
  - unfold CreateFunctionCall. other_tables turns_evolve_same.
  - unfold storeFunctionResult, MatchFunctionResult, SubmitFunctionResultQ. other_tables turns_evolve_same.
  - unfold ApplyFunctionResult. other_tables turns_evolve_same.
  - unfold BeginTurnArtifactCaptureQ. moves_tac. apply (moves_exec _). intros w. split; [|cbn; lia].
    eapply turns_evolve_update; [done|]. intros. apply capture_row_evolves.
  - unfold RememberNativeSession. other_tables turns_evolve_same.
  - unfold CancelSessionEnvironmentInput. other_tables turns_evolve_same.
  - unfold MarkSessionDeleted. other_tables turns_evolve_same.
  - unfold DeleteSessionArtifacts. other_tables turns_evolve_same.
Qed.

#[export] Instance turns_evolve_create : CreateStatements (on_db turns_evolve).
Proof. split; intros; other_statement turns_evolve_same. Qed.

#[export] Instance turns_evolve_store : StoreRelation (on_db turns_evolve).
Proof.
  apply (simple_relation _).
  - intros w d' []. split; [by apply turns_evolve_same|cbn; lia].
  - intros. unfold CreateTurn. moves_tac. apply (moves_exec _). intros w. split; [|cbn; lia].
    apply (rows_evolve_append _ _ evolves_from_queued). apply rtc_refl.
  - intros. unfold CreateTurnInput. other_tables turns_evolve_same.
  - intros. unfold insert_event. other_tables turns_evolve_same.
  - intros. apply (moves_exec _). intros w. split; [|cbn; lia].
    eapply turns_evolve_update; [done|]. intros. apply count_row_evolves.
Qed.

(** ** Well-formed Turns *)

Definition turn_ok (t : turn_row) : Prop :=
  turn_status_ok (t_status t) = true
  ∧ (is_Some (t_completed t) ↔ done_status (t_status t) = true)
  ∧ (t_status t = "queued" → t_started t = None ∧ t_cancel t = None)
  ∧ (t_status t = "in_progress" ∨ t_status t = "waiting" → is_Some (t_started t))
  ∧ (active_status (t_status t) = true → t_outcome t = JObj []).

Record turns_wf (d : db) : Prop := MkTurnsWf {
  tw_ids : NoDup (t_id <$> turns d);
  tw_active session : (length (List.filter (active_in session) (turns d)) ≤ 1)%nat;
  tw_rows : Forall turn_ok (turns d);
}.

Lemma turns_wf_same d d' : turns d' = turns d → turns_wf d → turns_wf d'.
Proof. intros E []. split; by rewrite E. Qed.

Lemma turns_wf_update d d' p f :
  turns d' = update_where p f (turns d) →
  (∀ t, p t = true → t_id (f t) = t_id t ∧ t_session (f t) = t_session t) →
  (∀ t, p t = true → active_status (t_status (f t)) = true → active_status (t_status t) = true) →
  (∀ t, p t = true → turn_ok t → turn_ok (f t)) →
  turns_wf d → turns_wf d'.
Proof.
  intros E Hid Hact Hok []. split; rewrite E.
  - change (NoDup (List.map t_id (update_where p f (turns d)))).
    rewrite update_where_map_proj; [done|]. naive_solver.
  - intros session. etrans; [apply filter_update_where_le|apply tw_active0].
    unfold active_in. intros t Ha Hp. destruct (Hid _ Hp) as [_ Hs]. rewrite Hs in Ha.
    apply andb_true_iff in Ha as [-> Ha]. cbn. eauto.
  - apply Forall_forall. intros t Ht%list_elem_of_In. apply in_update_where in Ht as (u & Hu & ->).
    assert (turn_ok u) by (eapply Forall_forall; [done|by apply list_elem_of_In]).
    destruct (p u) eqn:Ep; auto.
Qed.

Lemma cancel_row_ok now1 now2 t : active_status (t_status t) = true → turn_ok t → turn_ok (cancel_row now1 now2 t).
Proof.
  intros Ha (Hst & Hc & Hq & Hs & Ho). unfold cancel_row, turn_ok. cbn.
  destruct (decide (t_status t = "queued")) as [E|E].
  - rewrite bool_decide_eq_true_2 by done. repeat split; try done; by intros [?|?].
  - rewrite bool_decide_eq_false_2 by done. by repeat split; try apply Hc.
Qed.

Lemma valid_target a b : validTransition a b = true →
  turn_status_ok b = true ∧ b ≠ "queued" ∧ (b = "waiting" → a = "in_progress").
Proof.
  unfold validTransition, terminalStatus. intros Hv.
  repeat (case_bool_decide; simplify_eq/=); by repeat split.
Qed.

Lemma transition_row_ok id session expected new now outcome t :
  validTransition expected new = true →
  terminalStatus new = true ∨ outcome = JObj [] →
  may_transition id session expected new t = true →
  turn_ok t → turn_ok (transition_row now new outcome t).
Proof.
  intros Hv Ho Hm (Hst & Hc & Hq & Hs & Hx). unfold may_transition in Hm.
  apply andb_true_iff in Hm as [Hm _]. bsolve.
  destruct (valid_target _ _ Hv) as (Hok & Hnq & Hw). unfold turn_ok, transition_row. cbn.
  split; [done|]. split; [|split; [done|split]].
  - destruct (done_status new); [naive_solver|]. by split; [intros [??]|].
  - intros [-> | ->]; [by case_bool_decide|]. cbn. auto.
  - intros Ha%active_not_done. destruct Ho as [Ho|Ho]; [|done].
    change (terminalStatus new) with (done_status new) in Ho. congruence.
Qed.

(** A statement that leaves the Turn table alone. *)
Ltac keeps_other lemma :=
  moves_tac; apply (moves_exec _); intros w; (split; [apply lemma; done|cbn; lia]).

#[export] Instance turns_wf_log : LogRelation (keeps turns_wf).
Proof.
  split; [apply _|..]; intros.
  - unfold AppendSessionEvent. keeps_other turns_wf_same.
  - unfold PutSessionItem. keeps_other turns_wf_same.
  - unfold FinishSessionItems. keeps_other turns_wf_same.
  - apply (moves_exec _). intros w. split; [|cbn; lia].
    by eapply turns_wf_update.
  - unfold PutSubagentIdentity. keeps_other turns_wf_same.
  - unfold PublishTurnArtifacts. keeps_other turns_wf_same.
  - unfold DeleteUnpublishedTurnArtifacts. keeps_other turns_wf_same.
Qed.

Lemma CreateTurn_wf id session : moves (keeps turns_wf) (CreateTurn id session).
Proof.
  intros w. unfold CreateTurn. run_tx; try lia. split; [|cbn; lia]. cbn. intros [].
  bsolve. rewrite existsb_false_iff in *.
  split; cbn.
  - rewrite fmap_app. apply NoDup_app. split; [done|]. split; [|apply NoDup_singleton].
    intros x Hx ->%list_elem_of_singleton.
    apply list_elem_of_fmap in Hx as (t & Ht & Hin%list_elem_of_In).
    rename select (∀ x, In x _ → (_ =?s id) = false) into Hf. apply Hf in Hin. by bsolve.
  - intros s. rewrite List.filter_app, length_app. specialize (tw_active0 s). cbn.
    destruct (active_in s _) eqn:E; cbn; [|lia].
    unfold active_in in E; cbn in E. bsolve.
    destruct (List.filter (active_in s) (turns (w_db w))) as [|t l] eqn:El; [cbn; lia|].
    assert (In t (List.filter (active_in s) (turns (w_db w)))) as Hin by (rewrite El; by left).
    apply List.filter_In in Hin as [Hin Ha].
    rename select (∀ x, In x _ → active_in _ _ = false) into Hf. apply Hf in Hin. congruence.
  - apply Forall_app. split; [done|]. apply Forall_singleton. unfold turn_ok; cbn.
    repeat split; try done; naive_solver.
Qed.

#[export] Instance turns_wf_turn : TurnRelation (keeps turns_wf).
Proof.
  split; [apply _|..]; intros.
  - unfold PruneSessionEvents. keeps_other turns_wf_same.
  - unfold RequestTurnCancel. moves_tac. apply (moves_exec _). intros w. split; [|cbn; lia].
    eapply turns_wf_update; [done|done|..]; intros t Ht; apply andb_true_iff in Ht as [_ Ht];
      [done|by apply cancel_row_ok].
  - intros w. unfold TransitionTurnQ. run_tx; try lia; [|by apply wr_same]. split; [|cbn; lia].
    eapply turns_wf_update; [done|done|..]; cbn; intros u Ht.
    + intros _. unfold may_transition in Ht. by bsolve.
    + eapply transition_row_ok; [done| |done].
      rename select (terminalStatus _ = _ ∨ _) into Ho. destruct Ho as [? | ->]; [by left|right]. by simplify_eq/=.
  - unfold CreateFunctionCall. keeps_other turns_wf_same.
  - unfold storeFunctionResult, MatchFunctionResult, SubmitFunctionResultQ. keeps_other turns_wf_same.
  - unfold ApplyFunctionResult. keeps_other turns_wf_same.
  - unfold BeginTurnArtifactCaptureQ. moves_tac. apply (moves_exec _). intros w. split; [|cbn; lia].
    by eapply turns_wf_update.
  - unfold RememberNativeSession. keeps_other turns_wf_same.
  - unfold CancelSessionEnvironmentInput. keeps_other turns_wf_same.
  - unfold MarkSessionDeleted. keeps_other turns_wf_same.
  - unfold DeleteSessionArtifacts. keeps_other turns_wf_same.
Qed.

#[export] Instance turns_wf_create : CreateStatements (keeps turns_wf).
Proof. split; intros; other_statement turns_wf_same. Qed.

#[export] Instance turns_wf_store : StoreRelation (keeps turns_wf).
Proof.
  apply (simple_relation _).
  - intros w d' []. split; [by apply turns_wf_same|cbn; lia].
  - intros. apply CreateTurn_wf.
  - intros. unfold CreateTurnInput. keeps_other turns_wf_same.
  - intros. unfold insert_event. keeps_other turns_wf_same.
  - intros. apply (moves_exec _). intros w. split; [|cbn; lia]. by eapply turns_wf_update.
Qed.

(** ** What holds along every run *)

Lemma follow_turn d d' t t' :
  turns_wf d' → turns_evolve d d' → In t (turns d) → In t' (turns d') → t_id t' = t_id t →
  turn_evolves t t'.
Proof.
  intros Hwf Hev. apply (rows_evolve_follow _ _ evolves_from_queued t_id _ _ _ _ evo_id Hev), Hwf.
Qed.

Lemma steps_turns_wf w w' : steps w w' → turns_wf (w_db w) → turns_wf (w_db w').
Proof. intros Hs. apply (steps_moves (keeps turns_wf) _ _ Hs). Qed.

Lemma steps_follow w w' t t' :
  steps w w' → turns_wf (w_db w) → In t (turns (w_db w)) → In t' (turns (w_db w')) →
  t_id t' = t_id t → turn_evolves t t'.
Proof.
  intros Hs Hwf. apply follow_turn; [by eapply steps_turns_wf|].
  apply (steps_moves (on_db turns_evolve) _ _ Hs).
Qed.

End lifecycle.

(** ** Properties *)

Section properties.
Context `{UUIDs, Oracle, EventSizes}.


(** The Turn tables stay well formed: identifiers are unique, a Session has
    at most one active Turn, a Turn has a completion time exactly when it is
    settled, a queued Turn has neither started nor been cancelled, a running or
    waiting one has started, and only settled Turns carry an outcome. *)
Theorem turns_wf_invariant w w' :
  steps w w' → turns_wf (w_db w) → turns_wf (w_db w').
Proof. apply steps_turns_wf. Qed.

(** A settled Turn is final: whatever is requested afterwards, the row with
    its identifier keeps its status, outcome and completion time. *)
Theorem settled_turns_are_final w w' t t' :
  turns_wf (w_db w) → steps w w' →
  In t (turns (w_db w)) → terminalStatus (t_status t) = true →
  In t' (turns (w_db w')) → t_id t' = t_id t →
  t_status t' = t_status t ∧ t_completed t' = t_completed t ∧ t_outcome t' = t_outcome t.
Proof.
  intros Hwf Hs Ht Hterm Ht' Hid.
  destruct (steps_follow _ _ _ _ Hs Hwf Ht Ht' Hid) as [? ? ? Hpath ? ? Hfrozen ?].
  split; [by apply done_path|]. by apply Hfrozen.
Qed.

(** C7. A cancellation request is final: a Turn whose cancellation was recorded
    keeps that record, and if it is not running it never runs again. *)
Theorem cancellation_is_final w w' t t' :
  turns_wf (w_db w) → steps w w' →
  In t (turns (w_db w)) → is_Some (t_cancel t) → t_status t ≠ "in_progress" →
  In t' (turns (w_db w')) → t_id t' = t_id t →
  t_cancel t' = t_cancel t ∧ t_status t' ≠ "in_progress".
Proof.
  intros Hwf Hs Ht Hc Hn Ht' Hid.
  destruct (steps_follow _ _ _ _ Hs Hwf Ht Ht' Hid) as [? ? ? ? ? Hcancel ? Hstop].
  split; [auto|]. intros E. by apply Hn, Hstop.
Qed.

End properties.

(** ** Witnesses *)

(** A list has at most one active Turn per Session if it has one Turn. *)
Lemma turns_wf_singleton d t : turns d = [t] → turn_ok t → turns_wf d.
Proof.
  intros E Hok. split; rewrite E.
  - apply NoDup_singleton.
  - intros session. cbn. by destruct (active_in session t); cbn; lia.
  - by apply Forall_singleton.
Qed.

Lemma world0_turns_wf : turns_wf (w_db world0).
Proof. by split; cbn; [apply NoDup_nil|lia|]. Qed.


Lemma turns_wf_invariant_witness :
  turns_wf (w_db completed_world) ∧ length (turns (w_db completed_world)) = 1%nat.
Proof.
  split; [|vm_compute; reflexivity].
  exact (turns_wf_invariant world0 completed_world to_completed_steps world0_turns_wf).
Defined.

(** Requests after completion: another transition, another event. *)
Definition after_completion : world := run [req_start; req_events 4 ["late"]; req_cancel "k2"] completed_world.
Definition turn_of (w : world) : turn_row :=
  hd (MkTurnRow 0 0 "" 0 None None None (JObj []) 0 0 None false) (turns (w_db w)).

Lemma completed_world_wf : turns_wf (w_db completed_world).
Proof.
  exact (steps_turns_wf _ _ to_completed_steps world0_turns_wf).
Qed.

Lemma settled_turns_are_final_witness :
  t_status (turn_of after_completion) = "completed"
  ∧ t_completed (turn_of after_completion) = t_completed (turn_of completed_world).
Proof.
  destruct (settled_turns_are_final completed_world after_completion
              (turn_of completed_world) (turn_of after_completion)) as (Hs & Hc & _).
  - apply completed_world_wf.
  - unfold after_completion. apply run_steps.
  - vm_compute; auto.
  - vm_compute; reflexivity.
  - vm_compute; auto.
  - vm_compute; reflexivity.
  - split; [|exact Hc]. rewrite Hs. vm_compute; reflexivity.
Defined.

(** A waiting Turn is cancelled; its pending result arrives, and a restart is
    tried. *)
Definition cancelling_world : world := run [req_cancel "k3"] called_world.
Definition after_cancel : world :=
  run [req_result; req_confirm; ReqTransitionTurn tenant_id session_id turn_id "waiting" "in_progress" empty_object]
    cancelling_world.

Lemma cancelling_steps : steps called_world cancelling_world.
Proof. unfold cancelling_world. apply run_steps. Qed.

Lemma cancellation_is_final_witness :
  is_Some (t_cancel (turn_of cancelling_world)) ∧ t_status (turn_of cancelling_world) = "waiting"
  ∧ t_status (turn_of after_cancel) ≠ "in_progress".
Proof.
  split; [vm_compute; eauto|]. split; [vm_compute; reflexivity|].
  apply (cancellation_is_final cancelling_world after_cancel (turn_of cancelling_world) (turn_of after_cancel)).
  - exact (steps_turns_wf _ _ (steps_trans _ _ _ to_called_steps cancelling_steps) world0_turns_wf).
  - unfold after_cancel. apply run_steps.
  - vm_compute; auto.
  - vm_compute; eauto.
  - vm_compute; discriminate.
  - vm_compute; auto.
  - vm_compute; reflexivity.
Defined.
