(* ===== verification/Calls.v ===== *)
(** * Calls

    Function calls: identities are unique, a submitted result and an applied
    mark are never withdrawn, and a Turn waits exactly while it has calls whose
    result was not applied. *)
From stdpp Require Import base tactics list strings numbers relations.
From S2P Require Import Prelude GoJson Contract Items Database Queries SessionLog Turns Relations Tables Scenario Frames Lifecycle.

Definition call_key (f : call_row) : N * N * string := (fc_session f, fc_turn f, fc_call f).

Record calls_wf (d : db) : Prop := MkCallsWf {
  cw_keys : NoDup (call_key <$> function_calls d);
  cw_applied f : In f (function_calls d) → fc_applied f = true → is_Some (fc_result f);
}.

Record call_evolves (f f' : call_row) : Prop := MkCallEvolves {
  ce_key : call_key f' = call_key f;
  ce_executor : fc_executor f' = fc_executor f;
  ce_name : fc_name f' = fc_name f;
  ce_args : fc_args f' = fc_args f;
  ce_result : is_Some (fc_result f) → fc_result f' = fc_result f;
  ce_applied : fc_applied f = true → fc_applied f' = true;
}.

#[export] Instance call_evolves_preorder : PreOrder call_evolves.
Proof.
  split.
  - intros f. by split.
  - intros f1 f2 f3 [] []. split; try congruence; auto.
    intros. rewrite ce_result1, ce_result0; auto. by rewrite ce_result0.
Qed.

Definition any_call (_ : call_row) : Prop := True.

(** From well-formed calls on, calls stay well formed and evolve. *)
Definition calls_advance (d d' : db) : Prop :=
  calls_wf d → calls_wf d' ∧ rows_evolve call_evolves any_call (function_calls d) (function_calls d').

Lemma any_call_kept (f f' : call_row) : call_evolves f f' → any_call f → any_call f'.
Proof. done. Qed.

#[export] Instance calls_advance_preorder : PreOrder calls_advance.
Proof.
  split.
  - intros d Hd. split; [done|]. apply (rows_evolve_refl _ _ any_call_kept).
  - intros d1 d2 d3 H1 H2 Hd. destruct (H1 Hd) as [Hd2 E1]. destruct (H2 Hd2) as [Hd3 E2].
    split; [done|]. by eapply (rows_evolve_trans _ _ any_call_kept).
Qed.

Lemma calls_advance_same d d' : function_calls d' = function_calls d → calls_advance d d'.
Proof.
  intros E []. split; [by split; rewrite E|]. rewrite E. apply (rows_evolve_refl _ _ any_call_kept).
Qed.

Lemma calls_advance_update d d' p f :
  function_calls d' = update_where p f (function_calls d) →
  (∀ c, In c (function_calls d) → p c = true → call_evolves c (f c)) →
  (∀ c, In c (function_calls d) → p c = true → fc_applied (f c) = true → is_Some (fc_result (f c))) →
  calls_advance d d'.
Proof.
  intros E Hf Ha [Hk Happ]. split.
  - assert (call_key <$> function_calls d' = call_key <$> function_calls d) as Ek.
    { rewrite E. clear -Hf. unfold update_where. induction (function_calls d) as [|c l IH]; [done|].
      cbn. rewrite IH by (intros; apply Hf; cbn; auto). f_equal.
      destruct (p c) eqn:Ec; [|done]. apply Hf; cbn; auto. }
    split; [by rewrite Ek|]. rewrite E. intros c Hc.
    apply in_update_where in Hc as (u & Hu & ->). destruct (p u) eqn:Ep; eauto.
  - rewrite E. by apply (rows_evolve_update _ _ any_call_kept).
Qed.

Lemma call_is_key session turn call f :
  call_is session turn call f = true ↔ call_key f = (session, turn, call).
Proof.
  unfold call_is, call_key. split.
  - intros Hc. by bsolve.
  - intros [=]. by rewrite !bool_decide_eq_true_2.
Qed.

(** The row a key selects is the only one. *)
Lemma call_unique d session turn call f c :
  calls_wf d → head (List.filter (call_is session turn call) (function_calls d)) = Some f →
  In c (function_calls d) → call_is session turn call c = true → c = f.
Proof.
  intros [Hk _] [Hin Hf]%head_filter_Some Hc Hcc.
  apply (nodup_key call_key (function_calls d)); auto.
  apply call_is_key in Hf, Hcc. congruence.
Qed.

Section calls.
Context `{UUIDs, Oracle, EventSizes}.

Ltac calls_other := moves_tac; apply (moves_exec _); intros w; (split; [by apply calls_advance_same|cbn; lia]).

#[export] Instance calls_advance_log : LogRelation (on_db calls_advance).
Proof.
  split; [apply _|..]; intros.
  - unfold AppendSessionEvent. calls_other.
  - unfold PutSessionItem. calls_other.
  - unfold FinishSessionItems. calls_other.
  - unfold PutTurnUsage. calls_other.
  - unfold PutSubagentIdentity. calls_other.
  - unfold PublishTurnArtifacts. calls_other.
  - unfold DeleteUnpublishedTurnArtifacts. calls_other.
Qed.

Lemma CreateFunctionCall_advance session turn call executor name args :
  moves (on_db calls_advance) (CreateFunctionCall session turn call executor name args).
Proof.
  intros w. unfold CreateFunctionCall. run_tx; try lia; [by apply wr_same|].
  split; [|cbn; lia]. intros [Hk Ha]. cbn. rewrite existsb_false_iff in *. split.
  - split; cbn.
    + rewrite fmap_app. apply NoDup_app. split; [done|]. split; [|apply NoDup_singleton].
      intros k Hk' ->%list_elem_of_singleton.
      apply list_elem_of_fmap in Hk' as (f & Hf & Hin%list_elem_of_In).
      rename select (∀ x, In x _ → _ = false) into Hno. apply Hno in Hin.
      unfold call_key in Hf. cbn in Hf. injection Hf as -> -> ->.
      cbn in Hin. by rewrite !bool_decide_eq_true_2 in Hin.
    + intros f [Hf|[<-|[]]]%in_app_iff; [by apply Ha|done].
  - by apply (rows_evolve_append _ _ any_call_kept).
Qed.

Lemma storeFunctionResult_advance turn call res :
  moves (on_db calls_advance) (storeFunctionResult turn call res).
Proof.
  intros w. unfold storeFunctionResult, MatchFunctionResult, SubmitFunctionResultQ.
  run_tx; try lia; try (by apply wr_same).
  rename select (_ <$> head _ = Some _) into Hm. apply fmap_Some in Hm as (f & Hhead & Hf).
  destruct (fc_result f) eqn:Er; [discriminate Hf|].
  split; [|cbn; lia]. intros Hwf.
  eapply calls_advance_update; [reflexivity|..|done]; cbn; intros c Hc Hcc.
  - assert (c = f) as -> by (by eapply call_unique). split; try done. rewrite Er. by intros [].
  - eauto.
Qed.

Lemma ApplyFunctionResult_advance session turn call :
  moves (on_db calls_advance) (ApplyFunctionResult session turn call).
Proof.
  intros w. unfold ApplyFunctionResult. run_tx; try lia. split; [|cbn; lia].
  eapply calls_advance_update; [reflexivity|..]; intros c Hc Hcc; [by split|].
  rename select (List.forallb _ _ = true) into Hall. rewrite List.forallb_forall in Hall.
  apply Hall in Hc. rewrite Hcc in Hc. cbn in Hc. by bsolve.
Qed.

#[export] Instance calls_advance_turn : TurnRelation (on_db calls_advance).
Proof.
  split; [apply _|..]; intros.
  - unfold PruneSessionEvents. calls_other.
  - unfold RequestTurnCancel. calls_other.
  - unfold TransitionTurnQ. calls_other.
  - apply CreateFunctionCall_advance.
  - apply storeFunctionResult_advance.
  - apply ApplyFunctionResult_advance.
  - unfold BeginTurnArtifactCaptureQ. calls_other.
  - unfold RememberNativeSession. calls_other.
  - unfold CancelSessionEnvironmentInput. calls_other.
  - unfold MarkSessionDeleted. calls_other.
  - unfold DeleteSessionArtifacts. calls_other.
Qed.

#[export] Instance calls_advance_create : CreateStatements (on_db calls_advance).
Proof. split; intros; other_statement calls_advance_same. Qed.

#[export] Instance calls_advance_store : StoreRelation (on_db calls_advance).
Proof.
  apply (simple_relation _).
  - intros w d' []. split; [by apply calls_advance_same|cbn; lia].
  - intros. unfold CreateTurn. calls_other.
  - intros. unfold CreateTurnInput. calls_other.
  - intros. unfold insert_event. calls_other.
  - intros. unfold CountTurnEvent. calls_other.
Qed.

Lemma steps_calls w w' : steps w w' → calls_advance (w_db w) (w_db w').
Proof. intros Hs. apply (steps_moves (on_db calls_advance) _ _ Hs). Qed.

(** ** Waiting for results *)

(** The Turn's status says whether it has calls left. *)
Definition waits_for_calls (d : db) (session turn : N) : Prop :=
  ∃ t, In t (turns d) ∧ turn_is session turn t = true ∧ acceptsFunctionResult t = true
    ∧ (t_status t = "waiting" ↔ pending_calls d session turn ≠ []).

(** The calls [pending_calls] lists for a Turn that takes results. *)
Definition open_calls (d : db) (session turn : N) : list call_row :=
  sort_by call_order (List.filter (λ f, (fc_session f =?s session) && (fc_turn f =?s turn)
    && negb (fc_applied f)) (function_calls d)).

Lemma pending_open d t session id :
  In t (turns d) → turn_is session id t = true → acceptsFunctionResult t = true →
  pending_calls d session id = open_calls d session id.
Proof.
  intros Ht Hid Ha. unfold pending_calls.
  rewrite (proj2 (existsb_exists _ _)); [done|]. exists t. split; [done|].
  unfold acceptsFunctionResult in Ha. rewrite Hid. exact Ha.
Qed.

Lemma turn_is_self t : turn_is (t_session t) (t_id t) t = true.
Proof. unfold turn_is. by rewrite !bool_decide_eq_true_2. Qed.

Lemma TransitionTurnQ_run id session expected new outcome w t' w' :
  TransitionTurnQ id session expected new outcome w = (Ok (Some t'), w') →
  ∃ t now o, In t (turns (w_db w)) ∧ may_transition id session expected new t = true
    ∧ jsonb_in outcome = Some o ∧ t' = transition_row now new o t
    ∧ w_db w' = with_turns (w_db w) (update_where (may_transition id session expected new)
                                       (transition_row now new o) (turns (w_db w))).
Proof.
  unfold TransitionTurnQ. run_tx; try (intros; discriminate). intros [= <- <-]. cbn.
  rename select (head _ = Some _) into Hh. apply head_filter_Some in Hh as [Hin Hm]. eauto 10.
Qed.

Lemma recordSessionActivity_frame row actions w u w' :
  recordSessionActivity row actions w = (Ok u, w') → log_frame (w_db w) (w_db w').
Proof. intros Hr. eapply moves_run in Hr; [|by apply (recordSessionActivity_moves (on_db log_frame))]. apply Hr. Qed.

Lemma recordTurnChange_frame row created w u w' :
  recordTurnChange row created w = (Ok u, w') → log_frame (w_db w) (w_db w').
Proof. intros Hr. eapply moves_run in Hr; [|by apply (recordTurnChange_moves (on_db log_frame))]. apply Hr. Qed.

(** A row of the Turn table survives logging, less its token usage. *)
Lemma frame_turn d d' t :
  log_frame d d' → In t (turns d) → ∃ t', In t' (turns d') ∧ turn_core t' = turn_core t.
Proof.
  intros Hf Ht. destruct (core_row turn_core turn_core (turns d') (turns d) t) as (t' & ? & ? & _); eauto.
  symmetry. apply Hf.
Qed.

(** A row with the accepted state [status]. *)
Definition running_as (d : db) (session id : N) (status : string) : Prop :=
  ∃ t, In t (turns d) ∧ turn_is session id t = true ∧ t_cancel t = None ∧ t_status t = status.

Lemma frame_running d d' session id status :
  log_frame d d' → running_as d session id status → running_as d' session id status.
Proof.
  intros Hf (t & Ht & Hid & Hc & Hs). destruct (frame_turn _ _ _ Hf Ht) as (t' & Ht' & E).
  exists t'. split; [done|]. destruct t, t'. injection E as ???????????. by subst.
Qed.

Lemma accepts_running d turn :
  In turn (turns d) → acceptsFunctionResult turn = true →
  running_as d (t_session turn) (t_id turn) (t_status turn).
Proof.
  intros Ht Ha. unfold acceptsFunctionResult in Ha. apply andb_true_iff in Ha as [_ Hc].
  apply bool_decide_eq_true_1 in Hc. exists turn. auto using turn_is_self.
Qed.

(** The status change inside [recordFunctionState]. *)
Lemma settle_status_run turn status w x w' :
  turns_wf (w_db w) → In turn (turns (w_db w)) → acceptsFunctionResult turn = true →
  (if negb (t_status turn =?s status) then
     moved ← TransitionTurnQ (t_id turn) (t_session turn) (t_status turn) status (JObj []);
     match moved with
     | None => throw ErrNoRows
     | Some turn => _ ← recordTurnChange turn false; mret turn
     end
   else mret turn) w = (Ok x, w') →
  running_as (w_db w') (t_session turn) (t_id turn) status ∧ function_calls (w_db w') = function_calls (w_db w).
Proof.
  intros Hwf Hin Ha Hr. pose proof (accepts_running _ _ Hin Ha) as Hrun.
  destruct (t_status turn =?s status) eqn:E; cbn [negb] in Hr.
  { tx_inv. apply bool_decide_eq_true_1 in E. by rewrite <- E. }
  apply bind_run in Hr as ([t1|] & w1 & Ht & Hr); [|discriminate Hr].
  apply bind_run in Hr as (u & w2 & Hlog & Hr). tx_inv. apply recordTurnChange_frame in Hlog.
  apply TransitionTurnQ_run in Ht as (t & now & o & Ht & Hm & _ & -> & Ed).
  rewrite (lf_calls _ _ Hlog), Ed. split; [|done].
  eapply frame_running; [done|]. rewrite Ed.
  exists (transition_row now status o t). pose proof Hm as Hm'. unfold may_transition in Hm'.
  apply andb_true_iff in Hm' as [Hm' _]. bsolve.
  assert (t = turn) as -> by (apply (nodup_key t_id (turns (w_db w))); [apply Hwf|done..|]; unfold turn_is in *; by bsolve).
  split; [by apply in_update_where_hit|]. split; [done|]. split; [|done]. cbn.
  unfold acceptsFunctionResult in Ha. by bsolve.
Qed.

Lemma running_waits d session id status :
  running_as d session id status →
  status = (if bool_decide (open_calls d session id = []) then "in_progress" else "waiting") →
  waits_for_calls d session id.
Proof.
  intros (t & Ht & Hid & Hc & Hs) E. exists t. split; [done|]. split; [done|].
  assert (acceptsFunctionResult t = true) as Ha.
  { unfold acceptsFunctionResult. rewrite Hs, E, Hc. by destruct (open_calls d session id =?s []). }
  split; [done|]. rewrite (pending_open _ t) by done. rewrite Hs, E. case_bool_decide as Ho; [|done]. by rewrite Ho.
Qed.

Lemma recordFunctionState_run turn w u w' :
  turns_wf (w_db w) → In turn (turns (w_db w)) → acceptsFunctionResult turn = true →
  recordFunctionState turn w = (Ok u, w') →
  function_calls (w_db w') = function_calls (w_db w)
  ∧ waits_for_calls (w_db w') (t_session turn) (t_id turn).
Proof.
  intros Hwf Hin Ha Hr. unfold recordFunctionState, functionActions, ListPendingFunctionCalls in Hr.
  apply bind_run in Hr as (actions & w1 & Hact & Hr). rewrite Ha in Hact. cbn [negb] in Hact. tx_inv.
  apply settle_status_run in H2 as [Hrun Hcalls]; [|done..].
  apply recordSessionActivity_frame in Hr.
  rewrite (lf_calls _ _ Hr), Hcalls. split; [done|].
  eapply running_waits; [by eapply frame_running|].
  rewrite (pending_open _ turn) by auto using turn_is_self. unfold open_calls. rewrite (lf_calls _ _ Hr), Hcalls.
  by destruct (sort_by _ _).
Qed.

(** Pruning events touches neither table. *)
Lemma pruned_waits d session s t : waits_for_calls d s t → waits_for_calls (pruned session d) s t.
Proof. done. Qed.

Lemma CreateFunctionCall_run session turn call executor name args w w' :
  CreateFunctionCall session turn call executor name args w = (Ok 1, w') →
  ∃ a now, jsonb_in args = Some a ∧
    w_db w' = with_function_calls (w_db w)
      (function_calls (w_db w) ++ [MkCall session turn call executor name a None false now]).
Proof.
  unfold CreateFunctionCall. run_tx; try (intros; discriminate). intros [= <-]. cbn. eauto.
Qed.

Lemma lookup_turn_row d session id t :
  head (List.filter (turn_is session id) (turns d)) = Some t →
  In t (turns d) ∧ t_session t = session ∧ t_id t = id.
Proof. intros [Hin Ht]%head_filter_Some. unfold turn_is in Ht. by bsolve. Qed.

(** ** Properties *)

(** C8. Function calls are append-only facts: along every run no two calls of a
    Turn share an identifier, only a call with a result is marked applied, and
    for every recorded call its executor, name and arguments, its result once
    submitted, and its applied mark once set, never change. *)
Theorem function_results_are_final w w' :
  calls_wf (w_db w) → steps w w' →
  calls_wf (w_db w') ∧
  ∀ f f', In f (function_calls (w_db w)) → In f' (function_calls (w_db w')) →
    call_key f' = call_key f → call_evolves f f'.
Proof.
  intros Hwf Hs. destruct (steps_calls _ _ Hs Hwf) as [Hwf' Hev]. split; [done|].
  intros f f'. apply (rows_evolve_follow _ _ any_call_kept call_key _ _ _ _ ce_key Hev), Hwf'.
Qed.

(** Recording a new call makes its Turn wait: afterwards the Turn is
    waiting and the call is pending, without a result. *)
Theorem RecordFunctionCall_waits w w' tenantID sessionID turnID call p :
  turns_wf (w_db w) → turnLookup tenantID sessionID turnID = Ok p →
  (∀ f, In f (function_calls (w_db w)) → call_is (lk_session p) (lk_turn p) (call_id call) f = false) →
  RecordFunctionCall tenantID sessionID turnID call w = (Ok tt, w') →
  (∃ t, In t (turns (w_db w')) ∧ turn_is (lk_session p) (lk_turn p) t = true ∧ t_status t = "waiting")
  ∧ ∃ f, In f (pending_calls (w_db w') (lk_session p) (lk_turn p))
      ∧ fc_call f = call_id call ∧ fc_name f = call_name call ∧ fc_result f = None.
Proof.
  intros Hwf Hp Hnew Hr. unfold RecordFunctionCall, MatchFunctionCall in Hr. rewrite Hp in Hr.
  destruct (turnLookup_run _ _ _ _ Hp) as (_ & Hs & _).
  apply bind_run in Hr as (p' & w1 & Hq & Hr). apply of_result_run in Hq as [[= <-] ->].
  apply bind_run in Hr as ([] & w1 & Hv & Hr). apply require_run in Hv as [_ ->].
  destruct (raw_value (call_args call)) as [args|]; [|discriminate Hr].
  apply withSessionState_run in Hr as (tenant & session & s & w1 & _ & Hs' & _ & _ & Hr & ->).
  rewrite Hs in Hs'. injection Hs' as <-.
  apply bind_run in Hr as (turn & w2 & Hturn & Hr). apply must_turn_run in Hturn as (-> & _ & Hturn).
  apply lookup_turn_row in Hturn as (Hin & Hts & Hti).
  apply bind_run in Hr as (m & w2 & Hm & Hr). tx_inv.
  rewrite (proj2 (head_filter_None _ _) Hnew) in Hr. cbn in Hr. tx_inv. bsolve.
  apply CreateFunctionCall_run in H4 as (a & now & _ & Ed).
  apply recordFunctionState_run in Hr as [Hcalls Hwaits].
  2: { eapply turns_wf_same; [|exact Hwf]. by rewrite Ed. }
  2: { by rewrite Ed. }
  2: { done. }
  rewrite Hts, Hti in Hwaits. destruct Hwaits as (t & Ht & Hid & Hacc & Hiff). 
  assert (In (MkCall (lk_session p) (lk_turn p) (call_id call) (call_executor call) (call_name call) a None false now)
            (pending_calls (w_db w1) (lk_session p) (lk_turn p))) as Hpend.
  { rewrite (pending_open _ t) by done. apply in_sort_by, List.filter_In. split.
    - rewrite Hcalls, Ed. apply in_app_iff. right. by left.
    - cbn. by rewrite !bool_decide_eq_true_2. }
  split; [|eauto]. exists t. split; [done|]. split; [done|]. apply Hiff. intros E. by rewrite E in Hpend.
Qed.

(** Confirming a submitted result marks the call applied and leaves the
    Turn waiting exactly if it has other calls to apply. *)
Theorem ConfirmFunctionResult_resumes w w' tenantID sessionID turnID callID p f :
  turns_wf (w_db w) → calls_wf (w_db w) → turnLookup tenantID sessionID turnID = Ok p →
  In f (function_calls (w_db w)) → call_is (lk_session p) (lk_turn p) callID f = true → fc_applied f = false →
  ConfirmFunctionResult tenantID sessionID turnID callID w = (Ok tt, w') →
  is_Some (fc_result f) ∧ In (applied_row f) (function_calls (w_db w'))
  ∧ waits_for_calls (w_db w') (lk_session p) (lk_turn p).
Proof.
  intros Hwf Hcwf Hp Hf Hfi Hna Hr. unfold ConfirmFunctionResult, withFunctionCall, GetFunctionCallQ in Hr.
  rewrite Hp in Hr. destruct (turnLookup_run _ _ _ _ Hp) as (_ & Hs & _).
  apply bind_run in Hr as (p' & w1 & Hq & Hr). apply of_result_run in Hq as [[= <-] ->].
  apply bind_run in Hr as ([] & w1 & Hv & Hr). apply require_run in Hv as [_ ->].
  apply withSessionState_run in Hr as (tenant & session & s & w1 & _ & Hs' & _ & _ & Hr & ->).
  rewrite Hs in Hs'. injection Hs' as <-.
  apply bind_run in Hr as (turn & w2 & Hturn & Hr). apply must_turn_run in Hturn as (-> & Htn & Hturn).
  apply lookup_turn_row in Hturn as (Hin & Hts & Hti).
  apply bind_run in Hr as (c & w2 & Hc & Hr). tx_inv. rewrite Htn in Hr.
  destruct (head (List.filter (call_is (lk_session p) (lk_turn p) callID) _)) as [c|] eqn:Eh; [|discriminate Hr].
  assert (f = c) as <- by (by eapply call_unique). rewrite Hna in Hr. unfold ApplyFunctionResult in Hr. tx_inv. bsolve.
  assert (fc_call f = callID) as Hcall by (apply call_is_key in Hfi; by injection Hfi).
  rewrite Hts, Hti, Hcall in *.
  apply recordFunctionState_run in Hr as [Hcalls Hwaits]; [|by apply (turns_wf_same (w_db w))|done..].
  rewrite Hts, Hti in Hwaits. split; [done|]. split; [|done].
  cbn. rewrite Hcalls. cbn. by apply in_update_where_hit.
Qed.

End calls.

(** ** Witnesses *)

Lemma world0_calls_wf : calls_wf (w_db world0).
Proof. split; [apply NoDup_nil_2|done]. Qed.

Lemma function_results_are_final_witness :
  calls_wf (w_db resumed_world) ∧ fc_applied <$> function_calls (w_db called_world) = [false]
  ∧ fc_applied <$> function_calls (w_db resumed_world) = [true].
Proof.
  split; [|split; vm_compute; reflexivity].
  apply (function_results_are_final called_world resumed_world); [|exact resumed_steps].
  exact (proj1 (steps_calls _ _ to_called_steps world0_calls_wf)).
Defined.

Definition demo_lookup : TurnLookup := MkLookup 1%N 2%N 100%N.

Lemma streamed_world_wf : turns_wf (w_db streamed_world).
Proof.
  exact (steps_turns_wf _ _ (steps_trans _ _ _ queued_steps
    (steps_trans _ _ _ started_steps streamed_steps)) world0_turns_wf).
Qed.

Lemma RecordFunctionCall_waits_witness :
  ∃ t, In t (turns (w_db called_world)) ∧ t_status t = "waiting".
Proof.
  destruct (RecordFunctionCall_waits streamed_world called_world tenant_id session_id turn_id demo_call demo_lookup)
    as [(t & Ht & _ & Hs) _].
  - apply streamed_world_wf.
  - vm_compute; reflexivity.
  - vm_compute. tauto.
  - vm_compute; reflexivity.
  - exists t. split; [exact Ht|exact Hs].
Defined.

Definition result_world : world := run [req_result] called_world.
Definition demo_call_row : call_row :=
  hd (MkCall 0 0 "" "" "" JNull None false 0) (function_calls (w_db result_world)).

Lemma result_steps : steps world0 result_world.
Proof. refine (steps_trans _ _ _ to_called_steps _). unfold result_world. apply run_steps. Qed.

Lemma ConfirmFunctionResult_resumes_witness :
  waits_for_calls (w_db (run [req_confirm] result_world)) 2%N 100%N
  ∧ t_status <$> turns (w_db (run [req_confirm] result_world)) = ["in_progress"].
Proof.
  split; [|vm_compute; reflexivity].
  apply (ConfirmFunctionResult_resumes result_world (run [req_confirm] result_world)
           tenant_id session_id turn_id "call-1" demo_lookup demo_call_row).
  - exact (steps_turns_wf _ _ result_steps world0_turns_wf).
  - exact (proj1 (steps_calls _ _ result_steps world0_calls_wf)).
  - vm_compute; reflexivity.
  - vm_compute; auto.
  - vm_compute; reflexivity.
  - vm_compute; reflexivity.
  - vm_compute; reflexivity.
Defined.
