(* ===== verification/EventLog.v ===== *)
(** * EventLog

    The public change log of a Session: the retained events are the consecutive
    numbers up to the Session's counter, old events are pruned from the front
    only, and a reader gets consecutive changes or is told of the gap. *)
From stdpp Require Import base tactics list strings numbers relations sorting.
From S2P Require Import Prelude GoJson Contract Items Database Queries SessionLog Turns Environments Reads Configuration Setup Creation Relations Tables Scenario Frames.

(** ** The invariant *)

Record log_wf (d : db) : Prop := MkLogWf {
  lw_ids : NoDup (s_id <$> sessions d);
  lw_events s : In s (sessions d) →
    ∃ lo, 0 ≤ lo ≤ s_event_seq s ∧ (lo = s_event_seq s → lo = 0)
      ∧ se_seq <$> events_of (s_id s) d = seqZ (lo + 1) (s_event_seq s - lo);
  lw_owned e : In e (session_events d) → se_session e ∈ s_id <$> sessions d;
}.

Record session_evolves (s s' : session_row) : Prop := MkSessionEvolves {
  se_id : s_id s' = s_id s;
  se_tenant : s_tenant s' = s_tenant s;
  se_cursor : s_event_seq s ≤ s_event_seq s';
  se_deleted : is_Some (s_deleted s) → s_deleted s' = s_deleted s;
}.

#[export] Instance session_evolves_preorder : PreOrder session_evolves.
Proof.
  split.
  - intros s. by split.
  - intros s1 s2 s3 [] []. split; try congruence; try lia.
    intros. rewrite se_deleted1, se_deleted0; auto. by rewrite se_deleted0.
Qed.

Definition any_session (_ : session_row) : Prop := True.
Lemma any_session_kept (s s' : session_row) : session_evolves s s' → any_session s → any_session s'.
Proof. done. Qed.

(** What an observer of the log may rely on: the log stays contiguous, counters
    only grow, deletions stay, and an event numbered within an observed counter
    is the one that was there. *)
Record log_advances (d d' : db) : Prop := MkLogAdvances {
  la_wf : log_wf d';
  la_sessions : rows_evolve session_evolves any_session (sessions d) (sessions d');
  la_events s e : In s (sessions d) → In e (session_events d') → se_session e = s_id s →
    se_seq e ≤ s_event_seq s → In e (session_events d);
}.

Definition log_relation (d d' : db) : Prop := log_wf d → log_advances d d'.

Lemma evolved_session (d d' : db) s :
  rows_evolve session_evolves any_session (sessions d) (sessions d') → In s (sessions d) →
  ∃ s', In s' (sessions d') ∧ session_evolves s s'.
Proof.
  intros (old & new & E & HF & _) Hs.
  apply list_elem_of_In, list_elem_of_lookup in Hs as [i Hi].
  destruct (Forall2_lookup_l _ _ _ _ _ HF Hi) as (s' & Hs' & Hev). exists s'. split; [|done].
  rewrite E. apply in_app_iff. left. apply list_elem_of_In. by eapply list_elem_of_lookup_2.
Qed.

#[export] Instance log_relation_preorder : PreOrder log_relation.
Proof.
  split.
  - intros d Hd. split; auto. apply (rows_evolve_refl _ _ any_session_kept).
  - intros d1 d2 d3 R1 R2 Hd. destruct (R1 Hd) as [Hd2 S1 E1]. destruct (R2 Hd2) as [Hd3 S2 E2].
    split; [done|by eapply (rows_evolve_trans _ _ any_session_kept)|].
    intros s e Hs He Hid Hle. destruct (evolved_session _ _ _ S1 Hs) as (s' & Hs' & []).
    eapply E1; eauto. eapply E2; [done|done|congruence|lia].
Qed.

Lemma log_same d d' : sessions d' = sessions d → session_events d' = session_events d → log_relation d d'.
Proof.
  intros Es Ee Hd. split.
  - destruct Hd. split; unfold events_of; rewrite ?Es, ?Ee; done.
  - rewrite Es. apply (rows_evolve_refl _ _ any_session_kept).
  - by rewrite Ee.
Qed.

(** ** Pruning *)

Section pruning.
Context `{EventSizes}.

Definition octets (l : list sevent_row) : Z :=
  fold_right (λ e acc, Z.of_N (payload_octets (se_change e)) + acc) 0 l.

Lemma octets_app l k : octets (l ++ k) = octets l + octets k.
Proof. unfold octets. induction l; cbn; lia. Qed.

Lemma octets_nonneg l : 0 ≤ octets l.
Proof. unfold octets. induction l; cbn; lia. Qed.

Lemma running_rows total n l : (λ r, r.1.1) <$> running total n l = l.
Proof. revert total n. induction l as [|e l IH]; intros; cbn; [done|]. f_equal. apply IH. Qed.

Lemma running_lookup total n l i r :
  running total n l !! i = Some r →
  r.1.2 = n + Z.of_nat i + 1 ∧ r.2 = total + octets (take (S i) l).
Proof.
  revert total n i. induction l as [|e l IH]; intros total n i Hr; [done|].
  destruct i as [|i]; cbn in Hr.
  - simplify_eq. unfold octets. cbn. rewrite ?take_0. cbn. lia.
  - apply IH in Hr as [-> ->]. unfold octets. cbn. lia.
Qed.

Lemma running_bounds total n l : Forall (λ r, n < r.1.2 ∧ total ≤ r.2) (running total n l).
Proof.
  apply Forall_lookup. intros i r Hr. apply running_lookup in Hr as [-> ->].
  pose proof (octets_nonneg (take (S i) l)). lia.
Qed.

Lemma running_sorted total n l :
  StronglySorted (λ a b, a.1.2 < b.1.2 ∧ a.2 ≤ b.2) (running total n l).
Proof.
  revert total n. induction l as [|e l IH]; intros; cbn; constructor; auto.
  apply running_bounds.
Qed.

Definition over_limit (r : sevent_row * Z * Z) : bool :=
  (256 <? r.1.2) || ((67108864 <? r.2) && (1 <? r.1.2)).

Lemma over_limit_sorted total n l :
  StronglySorted (λ a b, over_limit a = true → over_limit b = true) (running total n l).
Proof.
  induction (running_sorted total n l) as [|a k Hk IH Ha]; constructor; [done|].
  eapply Forall_impl; [done|]. intros b [Hr Ht]. unfold over_limit. rewrite !orb_true_iff, !andb_true_iff, !Z.ltb_lt. lia.
Qed.

(** The newest [k] events are kept, at least one of them, within the bounds. *)
Lemma running_cut l :
  ∃ k, (k ≤ length l)%nat ∧ (l ≠ [] → 1 ≤ k)%nat ∧ (k ≤ 256)%nat
    ∧ (octets (take k l) ≤ 67108864 ∨ (k ≤ 1)%nat)
    ∧ List.map (λ r, se_seq r.1.1) (List.filter over_limit (running 0 0 l)) = se_seq <$> drop k l.
Proof.
  destruct (filter_suffix over_limit _ (over_limit_sorted 0 0 l)) as (k & Hk & Hf & _ & Hall).
  assert (length (running 0 0 l) = length l) as Hlen.
  { rewrite <- (running_rows 0 0 l) at 2. by rewrite length_fmap. }
  exists k. rewrite Hlen in Hk. split; [done|].
  assert (∀ i r, (i < k)%nat → running 0 0 l !! i = Some r → over_limit r = false) as Hi.
  { intros i r Hik Hr. refine (Forall_lookup_1 _ _ i r Hall _). by rewrite lookup_take_lt. }
  assert (∀ i, (S i = k)%nat → Z.of_nat k ≤ 256 ∧ (octets (take k l) ≤ 67108864 ∨ Z.of_nat k ≤ 1)) as Hlast.
  { intros i Hik. destruct (lookup_lt_is_Some_2 (running 0 0 l) i) as [r Hr]; [lia|].
    pose proof (Hi i r ltac:(lia) Hr) as Ho. apply running_lookup in Hr as [E1 E2].
    unfold over_limit in Ho. rewrite E1, E2, Hik, orb_false_iff, andb_false_iff, !Z.ltb_ge in Ho. lia. }
  split; [|split; [|split]].
  - intros Hl. destruct k; [|lia]. destruct l as [|e l]; [done|]. rewrite drop_0 in Hf.
    assert (In (e, 0 + 1, 0 + Z.of_N (payload_octets (se_change e))) (List.filter over_limit (running 0 0 (e :: l)))) as Hin
      by (rewrite Hf; by left).
    apply List.filter_In in Hin as [_ Ho]. unfold over_limit in Ho. cbn in Ho. by rewrite andb_false_r in Ho.
  - destruct k as [|i]; [lia|]. destruct (Hlast i eq_refl). lia.
  - destruct k as [|i]; [right; lia|]. destruct (Hlast i eq_refl) as [_ [?|?]]; [by left|right; lia].
  - rewrite Hf. change (se_seq <$> drop k l) with (List.map se_seq (drop k l)).
    rewrite <- (running_rows 0 0 l) at 2. change ((λ r, r.1.1) <$> ?x) with (List.map (λ r : sevent_row * Z * Z, r.1.1) x).
    by rewrite skipn_map, List.map_map.
Qed.

Definition ascending : list sevent_row → Prop := StronglySorted (λ a b, se_seq a < se_seq b).

Lemma seqZ_ascending l a n : se_seq <$> l = seqZ a n → ascending l.
Proof.
  revert a n. induction l as [|e l IH]; intros a n E; [constructor|].
  destruct (decide (n ≤ 0)); [by rewrite seqZ_nil in E by done|].
  rewrite seqZ_cons in E by lia. cbn in E. injection E as Ee El. constructor; [by eapply IH|].
  apply Forall_forall. intros e' He'.
  assert (se_seq e' ∈ seqZ (Z.succ a) (Z.pred n)) as Hin by (rewrite <- El; by apply list_elem_of_fmap_2).
  apply elem_of_seqZ in Hin. lia.
Qed.

Lemma ascending_nodup l : ascending l → NoDup (se_seq <$> l).
Proof.
  induction 1 as [|e l Hl IH He]; cbn; constructor; [|done].
  intros Hin. apply list_elem_of_fmap in Hin as (e' & E & Hin).
  eapply Forall_forall in He; [|exact Hin]. lia.
Qed.

Lemma octets_reverse l : octets (reverse l) = octets l.
Proof.
  induction l as [|e l IH]; [done|]. rewrite reverse_cons, octets_app, IH. unfold octets. cbn. lia.
Qed.

(** Removing a prefix by its numbers. *)
Lemma filter_not_prefix l m :
  NoDup (se_seq <$> l) →
  List.filter (λ e, negb (existsb (Z.eqb (se_seq e)) (se_seq <$> reverse (take m l)))) l = drop m l.
Proof.
  intros Hnd. set (S := se_seq <$> reverse (take m l)).
  transitivity (List.filter (λ e, negb (existsb (Z.eqb (se_seq e)) S)) (take m l ++ drop m l)); [by rewrite take_drop|].
  rewrite <- (take_drop m l), fmap_app in Hnd.
  apply NoDup_app in Hnd as (_ & Hdis & _).
  rewrite List.filter_app.
  rewrite (proj2 (List.filter_ext_in_iff _ (λ _, false) (take m l))); [|].
  2: { intros e He. apply negb_false_iff, existsb_exists. exists (se_seq e). split; [|apply Z.eqb_refl].
       apply list_elem_of_In, list_elem_of_fmap_2, elem_of_reverse. by apply list_elem_of_In. }
  rewrite (proj2 (List.filter_ext_in_iff _ (λ _, true) (drop m l))); [|].
  2: { intros e He. apply negb_true_iff, existsb_false_iff. intros z Hz%list_elem_of_In.
       apply list_elem_of_fmap in Hz as (e' & -> & He'). rewrite elem_of_reverse in He'.
       apply Z.eqb_neq. intros E. apply (Hdis (se_seq e')); [by apply list_elem_of_fmap_2|].
       rewrite <- E. apply list_elem_of_fmap_2. by apply list_elem_of_In. }
  by rewrite filter_none, filter_all.
Qed.

Lemma events_of_pruned session d :
  events_of session (pruned session d)
  = List.filter (λ e, negb (existsb (Z.eqb (se_seq e)) (prunable session d))) (events_of session d).
Proof.
  unfold events_of, pruned. cbn. induction (session_events d) as [|e l IH]; [done|]. cbn.
  destruct (se_session e =?s session) eqn:E; cbn; [|by rewrite E].
  destruct (existsb _ _); cbn; rewrite ?E, IH; done.
Qed.

Lemma events_of_other session other d :
  other ≠ session → events_of other (pruned session d) = events_of other d.
Proof.
  intros Hne. unfold events_of, pruned. cbn. induction (session_events d) as [|e l IH]; [done|]. cbn.
  destruct (decide (se_session e = other)) as [E|E].
  - rewrite (bool_decide_eq_false_2 (se_session e = session)) by congruence. cbn.
    rewrite bool_decide_eq_true_2 by done. by rewrite IH.
  - destruct (negb _); cbn; rewrite ?bool_decide_eq_false_2 by done; done.
Qed.

(** Pruning keeps the newest events: never none, at most 256, and at most 64 MiB
    unless a single event is larger. *)
Lemma pruned_suffix session d :
  ascending (events_of session d) →
  ∃ m, events_of session (pruned session d) = drop m (events_of session d)
    ∧ (events_of session d ≠ [] → m < length (events_of session d))%nat
    ∧ (length (drop m (events_of session d)) ≤ 256)%nat
    ∧ (octets (drop m (events_of session d)) ≤ 67108864 ∨ (length (drop m (events_of session d)) ≤ 1)%nat).
Proof.
  intros Hasc. rewrite events_of_pruned. unfold prunable.
  set (l := events_of session d) in *.
  assert (sort_by by_seq_desc l = reverse l) as ->.
  { apply sort_by_reverse. eapply sorted_impl; [|exact Hasc].
    intros a b Hab. cbn in Hab. unfold by_seq_desc. apply Z.leb_gt. exact Hab. }
  destruct (running_cut (reverse l)) as (k & Hk & H1 & H256 & Hoct & E).
  rewrite length_reverse in Hk. unfold over_limit in E. rewrite E.
  exists (length l - k)%nat.
  assert (drop k (reverse l) = reverse (take (length l - k) l)) as ->.
  { rewrite <- (take_drop (length l - k) l) at 1. rewrite reverse_app, drop_app_length'; [done|].
    rewrite length_reverse, length_drop. lia. }
  assert (take k (reverse l) = reverse (drop (length l - k) l)) as Etake.
  { rewrite <- (take_drop (length l - k) l) at 1. rewrite reverse_app, take_app_length'; [done|].
    rewrite length_reverse, length_drop. lia. }
  rewrite Etake, octets_reverse in Hoct.
  split; [by apply filter_not_prefix, ascending_nodup|]. rewrite length_drop.
  split; [|split; [lia|destruct Hoct; [by left|right; lia]]].
  intros Hl. assert (reverse l ≠ []) as Hr.
  { intros Er. apply Hl. by rewrite <- (reverse_involutive l), Er. }
  apply H1 in Hr. destruct l; [done|]. cbn in *. lia.
Qed.

End pruning.

Lemma drop_seqZ m a n : drop m (seqZ a n) = seqZ (a + Z.of_nat m) (n - Z.of_nat m).
Proof.
  apply list_eq. intros i. rewrite lookup_drop. apply option_eq. intros z.
  rewrite !lookup_seqZ. lia.
Qed.

(** ** The log relation *)

Section log_statements.
Context `{UUIDs, Oracle, EventSizes}.

Lemma pruned_advances session : moves (on_db log_relation) (PruneSessionEvents session).
Proof.
  apply (moves_exec _). intros w. split; [|cbn; lia]. change (log_relation (w_db w) (pruned session (w_db w))).
  set (d := w_db w). intros [Hids Hev Hown]. split.
  - split; [done| |intros e [He _]%List.filter_In; by apply Hown]. intros s Hs. destruct (Hev s Hs) as (lo & Hlo & Hz & E).
    destruct (decide (s_id s = session)) as [<-|Hne]; [|rewrite events_of_other by done; eauto].
    destruct (pruned_suffix (s_id s) d (seqZ_ascending _ _ _ E)) as (m & -> & Hm & _).
    assert (length (events_of (s_id s) d) = Z.to_nat (s_event_seq s - lo)) as Hlen.
    { rewrite <- (length_fmap se_seq), E. apply length_seqZ. }
    exists (Z.min (lo + Z.of_nat m) (s_event_seq s)).
    destruct (events_of (s_id s) d) as [|e l] eqn:El.
    + cbn in Hlen. assert (lo = 0 ∧ s_event_seq s = 0) as [-> Hs0] by lia. rewrite Hs0.
      split; [lia|]. split; [lia|]. rewrite drop_nil, seqZ_nil by lia. done.
    + assert (m < length (e :: l))%nat as Hml by (by apply Hm).
      rewrite Hlen in Hml. split; [lia|]. split; [lia|].
      rewrite fmap_drop, E, drop_seqZ. f_equal; lia.
  - apply (rows_evolve_refl _ _ any_session_kept).
  - intros s e _ He _ _. unfold pruned in He. cbn in He. by apply List.filter_In in He as [He _].
Qed.

Lemma events_of_app session d d' e :
  session_events d' = session_events d ++ [e] →
  events_of session d' = events_of session d ++ (if se_session e =?s session then [e] else []).
Proof. intros E. unfold events_of. rewrite E, List.filter_app. done. Qed.

Lemma AppendSessionEvent_advances session change :
  moves (on_db log_relation) (AppendSessionEvent session change).
Proof.
  intros w. unfold AppendSessionEvent. run_tx; try lia; [|by apply wr_same].
  split; [|cbn; lia]. cbn. match goal with |- log_relation (w_db ?x) _ => set (d := w_db x) in * end.
  intros [Hids Hev Hown].
  rename s into s0. rename select (head _ = Some _) into Hh. apply head_filter_Some in Hh as [Hs0 Hid0]. bsolve.
  assert (∀ s, In s (sessions d) → s_id s = s_id s0 → s = s0) as Huniq by (intros; by eapply nodup_key).
  split.
  - split.
    + change (NoDup (List.map s_id (update_where (λ s, s_id s =?s s_id s0) bump_row (sessions d)))).
      by rewrite update_where_map_proj.
    + intros s' Hs'. cbn in Hs'. apply in_update_where in Hs' as (s & Hs & ->).
      destruct (Hev s Hs) as (lo & Hlo & Hz & E).
      assert (s_id (if s_id s =?s s_id s0 then bump_row s else s) = s_id s) as -> by (by destruct (s_id s =?s s_id s0)).
      erewrite (events_of_app _ d) by reflexivity. cbn [se_session].
      destruct (decide (s_id s = s_id s0)) as [Eid|Hne].
      * rewrite (Huniq s Hs Eid) in *. rewrite !bool_decide_eq_true_2 by done. cbn [bump_row s_event_seq].
        exists lo. split; [lia|]. split; [lia|]. rewrite fmap_app, E. cbn.
        replace (s_event_seq s0 + 1 - lo) with (s_event_seq s0 - lo + 1) by lia.
        rewrite seqZ_snoc by lia. do 2 f_equal. lia.
      * rewrite (bool_decide_eq_false_2 (s_id s = s_id s0)) by done.
        rewrite bool_decide_eq_false_2 by congruence. rewrite app_nil_r. eauto.
    + intros e He. cbn in He. cbn. rewrite (update_where_map_proj s_id) by done.
      apply in_app_iff in He as [He|[<-|[]]]; [by apply Hown|]. cbn.
      by apply (list_elem_of_fmap_2 s_id), list_elem_of_In.
  - cbn. apply (rows_evolve_update _ _ any_session_kept). intros s _ _. split; cbn; try done. lia.
  - cbn. intros s e Hs [He|[<-|[]]]%in_app_iff Hse Hle; [done|]. cbn in *.
    rewrite (Huniq s) in Hle by auto. lia.
Qed.

Ltac log_other := moves_tac; apply (moves_exec _); intros w; (split; [by apply log_same|cbn; lia]).

#[export] Instance log_relation_log : LogRelation (on_db log_relation).
Proof.
  split; [apply _|..]; intros.
  - apply AppendSessionEvent_advances.
  - unfold PutSessionItem. log_other.
  - unfold FinishSessionItems. log_other.
  - unfold PutTurnUsage. log_other.
  - unfold PutSubagentIdentity. log_other.
  - unfold PublishTurnArtifacts. log_other.
  - unfold DeleteUnpublishedTurnArtifacts. log_other.
Qed.

(** An update that leaves identifiers, tenants and counters alone. *)
Lemma log_update d d' p f :
  sessions d' = update_where p f (sessions d) → session_events d' = session_events d →
  (∀ s, s_id (f s) = s_id s ∧ s_tenant (f s) = s_tenant s ∧ s_event_seq (f s) = s_event_seq s) →
  (∀ s, p s = true → is_Some (s_deleted s) → s_deleted (f s) = s_deleted s) → log_relation d d'.
Proof.
  intros Es Ee Hf Hdel [Hids Hev Hown]. split; [split| |by rewrite Ee]; rewrite Es.
  - change (NoDup (s_id <$> ?l)) with (NoDup (List.map s_id l)). rewrite update_where_map_proj; [done|]. intros; apply Hf.
  - intros s' Hs'. apply in_update_where in Hs' as (s & Hs & ->). destruct (Hev s Hs) as (lo & Hlo).
    exists lo. unfold events_of in *. rewrite Ee. destruct (p s); [|done]. by destruct (Hf s) as (-> & _ & ->).
  - rewrite Ee. intros e He. change (s_id <$> ?l) with (List.map s_id l). rewrite update_where_map_proj; [by apply Hown|].
    intros; apply Hf.
  - apply (rows_evolve_update _ _ any_session_kept). intros s _ Hp. destruct (Hf s) as (? & ? & E). split; auto. by rewrite E.
Qed.

Lemma MarkSessionDeleted_advances session : moves (on_db log_relation) (MarkSessionDeleted session).
Proof.
  unfold MarkSessionDeleted. moves_tac. apply (moves_exec _). intros w. split; [|cbn; lia].
  eapply log_update; [reflexivity|done|done|]. intros s Hs [x Hx]. cbn in Hs. by bsolve.
Qed.

(** A new Session has no events: those of the log belong to other Sessions. *)
Lemma log_new d d' s :
  sessions d' = sessions d ++ [s] → session_events d' = session_events d → s_event_seq s = 0 →
  (∀ x, In x (sessions d) → s_id x ≠ s_id s) → log_relation d d'.
Proof.
  intros Es Ee Hz Hfresh [Hids Hev Hown]. assert (s_id s ∉ s_id <$> sessions d) as Hno.
  { intros (x & E & Hx%list_elem_of_In)%list_elem_of_fmap. by apply (Hfresh x). }
  split; [split| |by rewrite Ee]; rewrite Es, ?Ee, ?fmap_app.
  - apply NoDup_app. split; [done|]. split; [|apply NoDup_singleton]. by intros x Hx ->%list_elem_of_singleton.
  - unfold events_of in *. rewrite Ee. intros x [Hx|[<-|[]]]%in_app_iff; [by apply Hev|]. exists 0.
    rewrite Hz. split; [lia|]. split; [done|]. rewrite seqZ_nil by lia.
    rewrite (proj2 (List.filter_ext_in_iff _ (λ _, false) _)); [by rewrite filter_none|].
    intros e He. apply bool_decide_eq_false_2. intros E. apply Hown in He. by rewrite E in He.
  - intros e He. apply elem_of_app. left. by apply Hown.
  - by apply (rows_evolve_append _ _ any_session_kept).
Qed.

#[export] Instance log_relation_create : CreateStatements (on_db log_relation).
Proof.
  assert (∀ id f, moves (on_db log_relation) (set_configuration id f)) as Hconfig.
  { intros. unfold set_configuration. moves_tac. apply (moves_exec _). intros w. split; [|cbn; lia].
    by eapply log_update. }
  split; intros; try solve [other_statement log_same | unfold SetSessionInitialFileMetadata, SetSessionSetupMetadata; moves_tac].
  - apply CreateSessionQ_moves; [apply _|]. intros d metadata config now Hid _ _ _ _ _.
    eapply log_new; [reflexivity|done|done|]. cbn. intros x Hx E. rewrite existsb_false_iff in Hid.
    apply Hid in Hx. by rewrite E, bool_decide_eq_true_2 in Hx.
  - unfold UpdateSessionMetadataQ. moves_tac. apply (moves_exec _). intros w. split; [|cbn; lia]. by eapply log_update.
Qed.

#[export] Instance log_relation_turn : TurnRelation (on_db log_relation).
Proof.
  split; [apply _|..]; intros.
  - apply pruned_advances.
  - unfold RequestTurnCancel. log_other.
  - unfold TransitionTurnQ. log_other.
  - unfold CreateFunctionCall. log_other.
  - unfold storeFunctionResult, MatchFunctionResult, SubmitFunctionResultQ. log_other.
  - unfold ApplyFunctionResult. log_other.
  - unfold BeginTurnArtifactCaptureQ. log_other.
  - unfold RememberNativeSession. log_other.
  - unfold CancelSessionEnvironmentInput. log_other.
  - apply MarkSessionDeleted_advances.
  - unfold DeleteSessionArtifacts. log_other.
Qed.

#[export] Instance log_relation_store : StoreRelation (on_db log_relation).
Proof.
  apply (simple_relation _).
  - intros w d' []. split; [by apply log_same|cbn; lia].
  - intros. unfold CreateTurn. log_other.
  - intros. unfold CreateTurnInput. log_other.
  - intros. unfold insert_event. log_other.
  - intros. unfold CountTurnEvent. log_other.
Qed.

(** A Session that can be locked can be locked later. *)
Lemma session_persists d d' tenant session s :
  log_wf d → log_relation d d' →
  head (List.filter (session_is tenant session) (sessions d)) = Some s →
  ∃ s', head (List.filter (session_is tenant session) (sessions d')) = Some s' ∧ session_evolves s s'.
Proof.
  intros Hwf Hrel [Hin Hs]%head_filter_Some. destruct (Hrel Hwf) as [Hwf' Hev _].
  destruct (evolved_session _ _ _ Hev Hin) as (s' & Hs' & E). unfold session_is in Hs. bsolve.
  destruct (head (List.filter (session_is (s_tenant s) (s_id s)) (sessions d'))) as [s2|] eqn:E2.
  - exists s2. split; [done|]. apply head_filter_Some in E2 as [Hin2 Hs2].
    assert (s2 = s') as -> by (apply (nodup_key s_id (sessions d')); [apply Hwf'|done..|];
      unfold session_is in Hs2; destruct E; bsolve; congruence). done.
  - rewrite head_filter_None in E2. specialize (E2 s' Hs'). unfold session_is in E2. destruct E as [E1 E3 _ _].
    by rewrite E1, E3, !bool_decide_eq_true_2 in E2.
Qed.

Lemma steps_log w w' : steps w w' → log_relation (w_db w) (w_db w').
Proof. intros Hs. apply (steps_moves (on_db log_relation) _ _ Hs). Qed.

End log_statements.

(** ** Reading the stream *)

Lemma filter_seqZ a b n :
  List.filter (Z.ltb a) (seqZ b n) = seqZ (Z.max b (a + 1)) (b + n - Z.max b (a + 1)).
Proof.
  destruct (decide (0 ≤ n)) as [Hn|]; [|rewrite !seqZ_nil by lia; done].
  pattern n. revert b. apply natlike_ind with (x := n); [| |done]; clear n Hn.
  - intros b. rewrite !seqZ_nil by lia. done.
  - intros n Hn IH b. rewrite seqZ_cons by lia. cbn. rewrite Z.pred_succ, IH.
    destruct (Z.ltb_spec a b).
    + rewrite (seqZ_cons (Z.max b (a + 1))) by lia. f_equal; [lia|]. f_equal; lia.
    + f_equal; lia.
Qed.

Lemma filter_fmap_seq a l :
  se_seq <$> List.filter (λ e, a <? se_seq e) l = List.filter (Z.ltb a) (se_seq <$> l).
Proof. induction l as [|e l IH]; [done|]. cbn. destruct (a <? se_seq e); cbn; by rewrite IH. Qed.

Section stream.
Context `{UUIDs, Oracle, EventSizes}.

Definition past_page (r : sevent_row * Z * Z) : bool := negb ((r.1.2 =? 1) || (r.2 <=? 1048576)).

Lemma past_page_sorted total n l : 0 ≤ n →
  StronglySorted (λ a b, past_page a = true → past_page b = true) (running total n l).
Proof.
  intros Hn. pose proof (running_bounds total n l) as Hb.
  induction (running_sorted total n l) as [|a k Hk IH Ha]; constructor.
  - apply IH. by inversion Hb.
  - inversion_clear Hb as [|? ? [Hb1 _] _].
    eapply Forall_impl; [done|]. intros b [Hr Ht]. unfold past_page.
    rewrite !negb_true_iff, !orb_false_iff, !Z.eqb_neq, !Z.leb_gt. lia.
Qed.

(** One page: at most 32 events, at least one when there are any. *)
Lemma page_prefix l :
  ∃ n, (1 ≤ n ≤ 32)%nat ∧
    take 32 (List.map (λ r, r.1.1) (List.filter (λ r, (r.1.2 =? 1) || (r.2 <=? 1048576)) (running 0 0 l))) = take n l.
Proof.
  destruct (filter_suffix past_page _ (past_page_sorted 0 0 l ltac:(lia))) as (k & Hk & _ & Hf & Hall).
  rewrite (List.filter_ext _ (λ r, negb (past_page r))).
  2: { intros r. unfold past_page. by rewrite negb_involutive. }
  rewrite Hf. exists (Nat.max 1 (Nat.min 32 k)). split; [lia|].
  rewrite <- firstn_map. change (List.map (λ r : sevent_row * Z * Z, r.1.1) ?x) with ((λ r : sevent_row * Z * Z, r.1.1) <$> x).
  rewrite running_rows, take_take. destruct k as [|k]; [|f_equal; lia].
  destruct l as [|e l]; [by rewrite !take_nil|].
  assert (In (e, 0 + 1, 0 + Z.of_N (payload_octets (se_change e))) (List.filter (λ r, negb (past_page r)) (running 0 0 (e :: l)))) as Hin.
  { apply List.filter_In. split; [by left|]. unfold past_page. by rewrite negb_involutive. }
  rewrite Hf in Hin. destruct Hin.
Qed.

Lemma contiguous_changes_ok after rows n :
  se_seq <$> rows = seqZ (after + 1) n → contiguous_changes after rows = Ok (List.map decode_change rows).
Proof.
  revert after n. induction rows as [|e rows IH]; intros after n E; [done|].
  destruct (decide (n ≤ 0)); [by rewrite seqZ_nil in E by done|].
  rewrite seqZ_cons in E by lia. cbn in E. injection E as Ee E. cbn.
  rewrite Ee, Z.eqb_refl. cbn. by rewrite (IH _ _ E).
Qed.

(** The events after a position, in a contiguous log. *)
Lemma rest_numbers d s after :
  log_wf d → In s (sessions d) →
  ∃ lo, 0 ≤ lo ≤ s_event_seq s ∧ (lo = s_event_seq s → lo = 0)
    ∧ se_seq <$> events_of (s_id s) d = seqZ (lo + 1) (s_event_seq s - lo)
    ∧ se_seq <$> List.filter (λ e, after <? se_seq e) (events_of (s_id s) d)
      = seqZ (Z.max lo after + 1) (s_event_seq s - Z.max lo after).
Proof.
  intros [_ Hev] Hs. destruct (Hev s Hs) as (lo & Hlo & Hz & E). exists lo. repeat (split; [done|]).
  rewrite filter_fmap_seq, E, filter_seqZ. f_equal; lia.
Qed.

Lemma live_head d tenant session s :
  head (List.filter (λ s, session_is tenant session s && bool_decide (s_deleted s = None)) (sessions d)) = Some s →
  In s (sessions d) ∧ s_id s = session ∧ live_session d tenant session = true.
Proof.
  intros [Hin Hs]%head_filter_Some. split; [done|]. split; [unfold session_is in Hs; by bsolve|].
  apply existsb_exists. eauto.
Qed.

(** The position a reader may continue from: nothing newer exists, or the next
    event is still retained. *)
Definition resumable (d : db) (s : session_row) (after : Z) : bool :=
  (s_event_seq s <=? after) || existsb (λ e, se_seq e =? after + 1) (events_of (s_id s) d).

Lemma resumable_lo d s after lo :
  0 ≤ lo ≤ s_event_seq s → (lo = s_event_seq s → lo = 0) → 0 ≤ after →
  se_seq <$> events_of (s_id s) d = seqZ (lo + 1) (s_event_seq s - lo) →
  resumable d s after = (lo <=? after).
Proof.
  intros Hlo Hz Ha E. unfold resumable. apply eq_true_iff_eq.
  rewrite orb_true_iff, existsb_exists, !Z.leb_le. split.
  - intros [?|(e & He & Hn)]; [lia|]. apply Z.eqb_eq in Hn.
    assert (se_seq e ∈ seqZ (lo + 1) (s_event_seq s - lo)) as Hin
      by (rewrite <- E; by apply list_elem_of_fmap_2, list_elem_of_In).
    apply elem_of_seqZ in Hin. lia.
  - intros Hle. destruct (decide (s_event_seq s ≤ after)); [by left|right].
    assert (after + 1 ∈ se_seq <$> events_of (s_id s) d) as Hin by (rewrite E; apply elem_of_seqZ; lia).
    apply list_elem_of_fmap in Hin as (e & He & Hin). exists e.
    split; [by apply list_elem_of_In|]. by apply Z.eqb_eq.
Qed.

(** ** Properties *)

(** C9. Along every run the log of every Session stays contiguous: its retained
    events are numbered consecutively up to the Session's counter and the
    newest is never lost, counters never go back, and an event an observer
    could already see is still the same event if it is still there. *)
Theorem session_log_contiguous w w' :
  log_wf (w_db w) → steps w w' → log_advances (w_db w) (w_db w').
Proof. intros Hd Hs. by apply (steps_log _ _ Hs). Qed.

(** A successful Session transaction leaves the Session with at most 256
    retained events, and with at most 64 MiB of them unless only one is
    left. *)
Theorem session_retention {A} public tenantID sessionID (apply : N → tx A) w a w' :
  log_wf (w_db w) → (∀ id, moves (on_db log_relation) (apply id)) →
  withSessionState public tenantID sessionID apply w = (Ok a, w') →
  ∃ session, parseID sessionID = Ok session
    ∧ (length (events_of session (w_db w')) ≤ 256)%nat
    ∧ (octets (events_of session (w_db w')) ≤ 64 * 1024 * 1024 ∨ (length (events_of session (w_db w')) ≤ 1)%nat).
Proof.
  intros Hd Hm Hr. apply withSessionState_run in Hr as (tenant & session & s & w1 & _ & Hs & Hh & _ & Hr & ->).
  exists session. split; [done|].
  apply (moves_run _ _ _ _ _ (Hm session)) in Hr as [Hr _]. destruct (Hr Hd) as [[_ Hev] Hsess _].
  apply head_filter_Some in Hh as [Hin Hid].
  destruct (evolved_session _ _ _ Hsess Hin) as (s' & Hs' & [Eid _ _ _]).
  assert (s_id s' = session) as <- by (unfold session_is in Hid; bsolve; congruence).
  destruct (Hev s' Hs') as (lo & _ & _ & E).
  destruct (pruned_suffix (s_id s') (w_db w1) (seqZ_ascending _ _ _ E)) as (m & Em & _ & H256 & Hoct).
  change (w_db (set_db w1 ?x)) with x. rewrite Em. split; [done|]. destruct Hoct; [left; lia|by right].
Qed.

(** C10. Reading a Session's stream after a position returns the next changes,
    numbered consecutively from there, in pages of one to 32; it reports a gap
    exactly when newer events exist and the next one was pruned. *)
Theorem ListSessionEvents_spec w tenantID sessionID tenant session s after :
  log_wf (w_db w) → parseID tenantID = Ok tenant → parseID sessionID = Ok session →
  head (List.filter (λ s, session_is tenant session s && bool_decide (s_deleted s = None)) (sessions (w_db w))) = Some s →
  0 ≤ after →
  ∃ n, (1 ≤ n ≤ 32)%nat ∧
    let page := take n (List.filter (λ e, after <? se_seq e) (events_of session (w_db w))) in
    ListSessionEvents tenantID sessionID after w
      = (if resumable (w_db w) s after then Ok (List.map decode_change page) else Err ErrStreamGap, w)
    ∧ (resumable (w_db w) s after = true → se_seq <$> page = seqZ (after + 1) (Z.of_nat (length page))).
Proof.
  intros Hd Ht Hs Hh Ha. destruct (live_head _ _ _ _ Hh) as (Hin & <- & Hlive).
  destruct (rest_numbers _ _ after Hd Hin) as (lo & Hlo & Hz & Eall & Erest).
  rewrite (resumable_lo _ _ _ lo) by done.
  set (rest := List.filter (λ e, after <? se_seq e) (events_of (s_id s) (w_db w))) in *.
  destruct (page_prefix rest) as (n & Hn & Epage). exists n. split; [done|]. cbn zeta.
  assert (Z.of_nat (length rest) = Z.max 0 (s_event_seq s - Z.max lo after)) as Hlen.
  { rewrite <- (length_fmap se_seq), Erest, length_seqZ. lia. }
  assert (sort_by by_seq rest = rest) as Hsort.
  { apply sort_by_id. eapply sorted_impl; [|by eapply seqZ_ascending].
    intros a b Hab. cbn in Hab. apply Z.leb_le. lia. }
  assert (lo ≤ after → se_seq <$> take n rest = seqZ (after + 1) (Z.of_nat (length (take n rest)))) as Hnum.
  { intros Hle. rewrite fmap_take, Erest, Z.max_r, length_take by lia. apply list_eq. intros i.
    apply option_eq. intros z. rewrite lookup_take_Some, !lookup_seqZ. lia. }
  split; [|intros Hle; apply Hnum; lia].
  unfold ListSessionEvents, SessionEventCursor, SessionEventCursorQ, ListSessionEventsQ.
  unfold mbind, tx_bind, require, of_result, query, mret, tx_ret. rewrite (proj2 (Z.leb_le 0 after)) by done.
  rewrite Ht, Hs, Hh. cbn. rewrite Hlive. fold rest. rewrite Hsort, Epage.
  destruct (Z.leb_spec lo after) as [Hle|Hgt].
  - rewrite (contiguous_changes_ok _ _ _ (Hnum Hle)).
    destruct (take n rest =?s []) eqn:En; [|done]. apply bool_decide_eq_true_1 in En.
    assert (s_event_seq s ≤ after) as Hend.
    { destruct rest; [cbn in Hlen; lia|]. destruct n; [lia|discriminate En]. }
    cbn. by rewrite (proj2 (Z.ltb_ge after (s_event_seq s))).
  - destruct rest as [|e rest]; [cbn in Hlen; lia|]. destruct n as [|n]; [lia|]. cbn.
    assert (se_seq e = lo + 1) as Ee.
    { cbn in Erest. rewrite seqZ_cons in Erest by lia. injection Erest. lia. }
    by rewrite Ee, (proj2 (Z.eqb_neq (lo + 1) (after + 1))) by lia.
Qed.

End stream.

(** ** Witnesses *)

Lemma world0_log_wf : log_wf (w_db world0).
Proof.
  split; [apply NoDup_singleton| |by intros e []]. intros s [<-|[]]. exists 0. by repeat split.
Qed.

Lemma session_log_contiguous_witness :
  log_wf (w_db completed_world) ∧ se_seq <$> session_events (w_db completed_world) = seqZ 1 17.
Proof.
  split; [|vm_compute; reflexivity].
  apply (session_log_contiguous world0 completed_world); [apply world0_log_wf|exact to_completed_steps].
Defined.

Lemma session_retention_witness :
  ∃ session, parseID session_id = Ok session
    ∧ (length (events_of session (w_db queued_world)) ≤ 256)%nat.
Proof.
  destruct (session_retention true tenant_id session_id
              (submit_batch tenant_id "k1" [("message", JObj [("text", JStr "hello")])]
                 (encode_batch [("message", JObj [("text", JStr "hello")])]))
              world0 [MkReceipt 1 turn_id false] queued_world) as (session & Hs & H256 & _).
  - apply world0_log_wf.
  - intros. apply ar_submit.
  - vm_compute; reflexivity.
  - exists session. split; [exact Hs|exact H256].
Defined.

Definition live_demo_session : session_row := hd demo_session (sessions (w_db completed_world)).

Lemma ListSessionEvents_spec_witness :
  ∃ n, (1 ≤ n ≤ 32)%nat ∧
    (ListSessionEvents tenant_id session_id 14 completed_world).1
      = Ok (List.map decode_change (take n (List.filter (λ e, 14 <? se_seq e) (events_of 2%N (w_db completed_world))))).
Proof.
  destruct (ListSessionEvents_spec completed_world tenant_id session_id 1%N 2%N live_demo_session 14)
    as (n & Hn & E & _).
  - apply (steps_log _ _ to_completed_steps world0_log_wf).
  - vm_compute; reflexivity.
  - vm_compute; reflexivity.
  - vm_compute; reflexivity.
  - discriminate.
  - exists n. split; [exact Hn|]. rewrite E.
    assert (resumable (w_db completed_world) live_demo_session 14 = true) as -> by (vm_compute; reflexivity).
    reflexivity.
Defined.
