(* ===== verification/TurnLog.v ===== *)
(** * TurnLog

    Execution events of a Turn: numbered from one without gaps, counted by the
    Turn, bounded, and never rewritten.  Appending is idempotent: the same
    batch at the same position is accepted again without effect. *)
From stdpp Require Import base tactics list strings numbers relations sorting.
From S2P Require Import Prelude GoJson Contract Items Database Queries SessionLog Turns Relations Tables Scenario Frames Lifecycle Calls EventLog.

(** ** The invariant *)

(** The final event of a Turn may exceed the limit by one. *)
Definition event_limit (t : turn_row) : Z := max_events + (if done_status (t_status t) then 1 else 0).

Definition events_at (d : db) (t : turn_row) : list tevent_row :=
  List.filter (event_of (t_session t) (t_id t)) (turn_events d).

Record events_wf (d : db) : Prop := MkEventsWf {
  ew_ids : NoDup (t_id <$> turns d);
  ew_count t : In t (turns d) → 0 ≤ t_event_count t ≤ event_limit t;
  ew_ordinals t : In t (turns d) → te_ordinal <$> events_at d t = seqZ 1 (t_event_count t);
  ew_turn e : In e (turn_events d) → turn_exists d (te_session e) (te_turn e) = true;
}.

(** Events are only appended, and the numbering is kept. *)
Definition events_relation (d d' : db) : Prop :=
  turn_events d `prefix_of` turn_events d' ∧ (events_wf d → events_wf d').

#[export] Instance events_relation_preorder : PreOrder events_relation.
Proof.
  split.
  - by intros d.
  - intros d1 d2 d3 [P1 W1] [P2 W2]. split; [by etrans|auto].
Qed.

Lemma events_same d d' : turns d' = turns d → turn_events d' = turn_events d → events_relation d d'.
Proof.
  intros Et Ee. split; [by rewrite Ee|]. intros [].
  split; unfold events_at, turn_exists; rewrite ?Et, ?Ee; done.
Qed.

Lemma turn_exists_update d d' p f session id :
  turns d' = update_where p f (turns d) →
  (∀ t, p t = true → t_id (f t) = t_id t ∧ t_session (f t) = t_session t) →
  turn_exists d' session id = turn_exists d session id.
Proof.
  intros E Hf. unfold turn_exists. rewrite E. clear E. unfold update_where.
  induction (turns d) as [|t l IH]; [done|]. cbn. rewrite IH. f_equal.
  destruct (p t) eqn:Ep; [|done]. destruct (Hf t Ep) as [Hi Hs]. unfold turn_is. by rewrite Hi, Hs.
Qed.

(** An update of Turn rows that leaves their numbering alone. *)
Lemma events_update d d' p f :
  turns d' = update_where p f (turns d) → turn_events d' = turn_events d →
  (∀ t, p t = true → t_id (f t) = t_id t ∧ t_session (f t) = t_session t ∧ t_event_count (f t) = t_event_count t) →
  (∀ t, p t = true → done_status (t_status t) = true → done_status (t_status (f t)) = true) →
  events_relation d d'.
Proof.
  intros Et Ee Hf Hd. split; [by rewrite Ee|]. intros [Hi Hc Ho Ht]. split.
  - rewrite Et. change (NoDup (List.map t_id (update_where p f (turns d)))).
    rewrite update_where_map_proj; [done|]. naive_solver.
  - rewrite Et. intros t' H'. apply in_update_where in H' as (t & Hin & ->). specialize (Hc t Hin).
    destruct (p t) eqn:Ep; [|done]. destruct (Hf t Ep) as (_ & _ & ->). specialize (Hd t Ep).
    unfold event_limit in *. destruct (done_status (t_status t)); [rewrite Hd by done; lia|].
    destruct (done_status (t_status (f t))); lia.
  - rewrite Et. intros t' H'. apply in_update_where in H' as (t & Hin & ->). specialize (Ho t Hin).
    unfold events_at in *. rewrite Ee. destruct (p t) eqn:Ep; [|done]. by destruct (Hf t Ep) as (-> & -> & ->).
  - rewrite Ee. intros e He. erewrite turn_exists_update; [by apply Ht|done|]. naive_solver.
Qed.

Section turn_log.
Context `{UUIDs, Oracle, EventSizes}.

Ltac events_other := moves_tac; apply (moves_exec _); intros w; (split; [by apply events_same|cbn; lia]).

#[export] Instance events_relation_log : LogRelation (on_db events_relation).
Proof.
  split; [apply _|..]; intros.
  - unfold AppendSessionEvent. events_other.
  - unfold PutSessionItem. events_other.
  - unfold FinishSessionItems. events_other.
  - apply (moves_exec _). intros w. split; [|cbn; lia]. by eapply events_update.
  - unfold PutSubagentIdentity. events_other.
  - unfold PublishTurnArtifacts. events_other.
  - unfold DeleteUnpublishedTurnArtifacts. events_other.
Qed.

Lemma CreateTurn_events id session : moves (on_db events_relation) (CreateTurn id session).
Proof.
  intros w. unfold CreateTurn. run_tx; try lia. split; [|cbn; lia]. cbn. split; [done|]. intros [Hi Hc Ho Ht].
  bsolve. rewrite existsb_false_iff in *.
  rename select (∀ x, In x _ → (_ =?s id) = false) into Hfresh.
  split; cbn.
  - rewrite fmap_app. apply NoDup_app. split; [done|]. split; [|apply NoDup_singleton].
    intros x Hx ->%list_elem_of_singleton. apply list_elem_of_fmap in Hx as (t & Ht' & Hin%list_elem_of_In).
    apply Hfresh in Hin. by bsolve.
  - intros t [Hin|[<-|[]]]%in_app_iff; [by apply Hc|]. unfold event_limit, max_events. cbn [t_event_count t_status].
    change (done_status "queued") with false. lia.
  - intros t [Hin|[<-|[]]]%in_app_iff; [by apply Ho|]. cbn. unfold events_at. cbn.
    destruct (List.filter (event_of session id) _) as [|e l] eqn:E; [done|].
    assert (In e (e :: l)) as Hin by (by left). rewrite <- E in Hin.
    apply List.filter_In in Hin as [Hin He]. apply Ht in Hin. unfold event_of in He. bsolve.
    apply existsb_exists in Hin as (t & Hin & Hti). apply Hfresh in Hin. unfold turn_is in Hti. by bsolve.
  - intros e He. apply Ht in He. unfold turn_exists. cbn. rewrite existsb_app. apply orb_true_iff. by left.
Qed.

#[export] Instance events_relation_turn : TurnRelation (on_db events_relation).
Proof.
  split; [apply _|..]; intros.
  - unfold PruneSessionEvents. events_other.
  - unfold RequestTurnCancel. moves_tac. apply (moves_exec _). intros w. split; [|cbn; lia].
    eapply events_update; [done..|]. intros t Ht Hd. apply andb_true_iff in Ht as [_ Ht%active_not_done]. congruence.
  - unfold TransitionTurnQ. moves_tac. apply (moves_exec _). intros w. split; [|cbn; lia].
    eapply events_update; [done..|]. intros t' Ht Hd. unfold may_transition in Ht.
    apply andb_true_iff in Ht as [Ht _]. apply andb_true_iff in Ht as [_ Ht%active_not_done]. congruence.
  - unfold CreateFunctionCall. events_other.
  - unfold storeFunctionResult, MatchFunctionResult, SubmitFunctionResultQ. events_other.
  - unfold ApplyFunctionResult. events_other.
  - unfold BeginTurnArtifactCaptureQ. moves_tac. apply (moves_exec _). intros w. split; [|cbn; lia].
    by eapply events_update.
  - unfold RememberNativeSession. events_other.
  - unfold CancelSessionEnvironmentInput. events_other.
  - unfold MarkSessionDeleted. events_other.
  - unfold DeleteSessionArtifacts. events_other.
Qed.

(** ** Appending a batch *)

(** The rows a batch becomes. *)
Definition stored_as (session turn : N) (b : string * json) (e : tevent_row) : Prop :=
  te_session e = session ∧ te_turn e = turn ∧ te_kind e = b.1 ∧ jsonb_in b.2 = Some (te_payload e).

Lemma insert_event_run session turn ordinal kind payload w u w' :
  insert_event session turn ordinal kind payload w = (Ok u, w') →
  ∃ e, w_db w' = with_turn_events (w_db w) (turn_events (w_db w) ++ [e])
    ∧ te_ordinal e = ordinal ∧ stored_as session turn (kind, payload) e ∧ turn_exists (w_db w) session turn = true.
Proof.
  unfold insert_event. run_tx; try (intros; discriminate). intros [= <- <-]. cbn.
  eexists. split; [reflexivity|]. by repeat split.
Qed.

Lemma InsertTurnEventBatch_run session turn first batch w u w' :
  InsertTurnEventBatch session turn first batch w = (Ok u, w') →
  ∃ rows, w_db w' = with_turn_events (w_db w) (turn_events (w_db w) ++ rows)
    ∧ te_ordinal <$> rows = seqZ first (Z.of_nat (length batch))
    ∧ Forall2 (stored_as session turn) batch rows
    ∧ (rows ≠ [] → turn_exists (w_db w) session turn = true).
Proof.
  revert first w. induction batch as [|[kind payload] batch IH]; intros first w Hr; cbn [InsertTurnEventBatch] in Hr.
  - tx_inv. exists []. rewrite app_nil_r. split; [by destruct (w_db w)|]. by repeat split.
  - apply bind_run in Hr as (u1 & w1 & He & Hr).
    apply insert_event_run in He as (e & Ed & Eo & Es & Ex).
    apply IH in Hr as (rows & Ed' & Eo' & Es' & _).
    exists (e :: rows). rewrite Ed', Ed. cbn. split; [by rewrite <- app_assoc|].
    split; [|split; [by constructor|done]].
    rewrite seqZ_cons by lia. cbn. rewrite Eo, Eo'. f_equal. f_equal; lia.
Qed.

(** Appending rows behind the last number of a Turn and counting them. *)
Lemma counted_append d t rows n bytes d' :
  events_wf d → In t (turns d) →
  te_ordinal <$> rows = seqZ (t_event_count t + 1) n → 0 ≤ n → t_event_count t + n ≤ event_limit t →
  Forall (λ e, te_session e = t_session t ∧ te_turn e = t_id t) rows →
  turn_events d' = turn_events d ++ rows →
  turns d' = update_where (turn_is (t_session t) (t_id t)) (count_row n bytes) (turns d) →
  events_wf d'.
Proof.
  intros [Hi Hc Ho Ht] Hin Eo Hn Hlim Hrows Ee Et.
  assert (∀ u, In u (turns d) → turn_is (t_session t) (t_id t) u = true → u = t) as Huniq.
  { intros u Hu Hut. apply (nodup_key t_id (turns d)); auto. unfold turn_is in Hut. by bsolve. }
  assert (∀ session id, turn_exists d' session id = turn_exists d session id) as Hex.
  { intros. by eapply turn_exists_update. }
  split.
  - rewrite Et. change (NoDup (List.map t_id (update_where (turn_is (t_session t) (t_id t)) (count_row n bytes) (turns d)))).
    by rewrite update_where_map_proj.
  - rewrite Et. intros u' Hu'. apply in_update_where in Hu' as (u & Hu & ->). specialize (Hc u Hu).
    destruct (turn_is _ _ u) eqn:E; [|done]. rewrite (Huniq u Hu E) in *. unfold event_limit in *. cbn. lia.
  - rewrite Et. intros u' Hu'. apply in_update_where in Hu' as (u & Hu & ->). specialize (Ho u Hu).
    unfold events_at in *. rewrite Ee, List.filter_app.
    destruct (turn_is _ _ u) eqn:E.
    + rewrite (Huniq u Hu E) in *. cbn [t_session t_id t_event_count count_row].
      rewrite fmap_app, Ho, (proj2 (List.filter_ext_in_iff _ (λ _, true) rows)).
      2: { intros e He. rewrite Forall_forall in Hrows. destruct (Hrows e) as [E1 E2]; [by apply list_elem_of_In|].
           unfold event_of. by rewrite E1, E2, !bool_decide_eq_true_2. }
      rewrite filter_all.
      rewrite Eo, seqZ_app by (specialize (Hc t Hin); lia). f_equal. f_equal. lia.
    + rewrite fmap_app, Ho. assert (List.filter (event_of (t_session u) (t_id u)) rows = []) as ->; [|by rewrite app_nil_r].
      destruct (List.filter _ rows) as [|e l] eqn:El; [done|].
      assert (In e (List.filter (event_of (t_session u) (t_id u)) rows)) as He by (rewrite El; by left).
      apply List.filter_In in He as [He Heu]. rewrite Forall_forall in Hrows.
      destruct (Hrows e) as [E1 E2]; [by apply list_elem_of_In|]. unfold event_of in Heu. bsolve.
      unfold turn_is in E. apply andb_false_iff in E as [E|E]; bsolve; congruence.
  - rewrite Ee. intros e [He|He]%in_app_iff; rewrite Hex; [by apply Ht|].
    rewrite Forall_forall in Hrows. destruct (Hrows e) as [-> ->]; [by apply list_elem_of_In|].
    apply existsb_exists. exists t. auto using turn_is_self.
Qed.

(** Logging does not disturb the numbering. *)
Lemma events_wf_core d d' :
  turn_core <$> turns d' = turn_core <$> turns d → turn_events d' = turn_events d → events_wf d → events_wf d'.
Proof.
  intros Et Ee [Hi Hc Ho Ht].
  assert (∀ t', In t' (turns d') → ∃ t, In t (turns d) ∧ turn_core t' = turn_core t) as Hrow.
  { intros t' Ht'. destruct (core_row turn_core turn_core _ _ _ (λ _ _ E, E) Et Ht') as (t & ? & ? & _). eauto. }
  split.
  - assert (t_id <$> turns d' = t_id <$> turns d) as ->; [|done].
    assert (∀ l, t_id <$> l = t_id <$> (turn_core <$> l)) as Hid by (intros l; by rewrite <- list_fmap_compose).
    by rewrite Hid, Et, <- Hid.
  - intros t' Ht'. destruct (Hrow t' Ht') as (t & Hin & E). specialize (Hc t Hin).
    destruct t, t'. injection E as. unfold event_limit in *. cbn in *. by subst.
  - intros t' Ht'. destruct (Hrow t' Ht') as (t & Hin & E). specialize (Ho t Hin).
    unfold events_at in *. rewrite Ee. destruct t, t'. injection E as. cbn in *. by subst.
  - rewrite Ee. intros e He. apply Ht in He. unfold turn_exists in *. rewrite <- He.
    eapply core_existsb; [|exact Et]. intros a b E. destruct a, b. injection E as. unfold turn_is. cbn. by subst.
Qed.

Lemma indexEvents_frame session turn first w u w' :
  indexEvents session turn first w = (Ok u, w') → log_frame (w_db w) (w_db w').
Proof. intros Hr. eapply moves_run in Hr; [|by apply (indexEvents_moves (on_db log_frame))]. apply Hr. Qed.

(** Rows inserted, logged and counted. *)
Lemma logged_append d d1 d2 t rows n bytes :
  events_wf d → In t (turns d) →
  te_ordinal <$> rows = seqZ (t_event_count t + 1) n → 0 ≤ n → t_event_count t + n ≤ event_limit t →
  Forall (λ e, te_session e = t_session t ∧ te_turn e = t_id t) rows →
  d1 = with_turn_events d (turn_events d ++ rows) → log_frame d1 d2 →
  events_wf (with_turns d2 (update_where (turn_is (t_session t) (t_id t)) (count_row n bytes) (turns d2))).
Proof.
  intros Hwf Hin Eo Hn Hlim Hrows -> Hf.
  destruct (frame_turn _ _ t Hf Hin) as (t2 & Ht2 & E2).
  assert (events_wf (with_turn_events d2 (turn_events d))) as Hwf2.
  { eapply events_wf_core; [..|exact Hwf]; [apply Hf|done]. }
  assert (t_session t2 = t_session t ∧ t_id t2 = t_id t ∧ t_event_count t2 = t_event_count t ∧ event_limit t2 = event_limit t)
    as (Es & Ei & Ec & El) by (destruct t, t2; injection E2 as; unfold event_limit; cbn; by subst).
  eapply (counted_append _ t2 rows n bytes _ Hwf2); rewrite ?Es, ?Ei, ?Ec, ?El; try done. apply Hf.
Qed.

Lemma stored_rows session turn batch rows :
  Forall2 (stored_as session turn) batch rows → Forall (λ e, te_session e = session ∧ te_turn e = turn) rows.
Proof. induction 1 as [|b e batch rows (Hs & Ht & _) _ IH]; constructor; auto. Qed.

(** What a successful append did: nothing for a batch that is already there, or
    the batch was inserted behind the last event. *)
Lemma append_events_run p first events w u w' :
  append_events p first events w = (Ok u, w') →
  ∃ t, head (List.filter (turn_is (lk_session p) (lk_turn p)) (turns (w_db w))) = Some t
    ∧ ((first ≤ t_event_count t ∧ w_db w' = w_db w)
       ∨ (t_event_count t < first ∧ first = wrap32 (t_event_count t + 1)
          ∧ (t_status t = "in_progress" ∨ t_status t = "waiting")
          ∧ wrap32 (t_event_count t + Z.of_nat (length events)) ≤ max_events
          ∧ t_event_bytes t + payload_bytes events ≤ max_event_bytes
          ∧ ∃ rows d2,
              te_ordinal <$> rows = seqZ first (Z.of_nat (length events))
              ∧ Forall2 (stored_as (lk_session p) (lk_turn p)) events rows
              ∧ log_frame (with_turn_events (w_db w) (turn_events (w_db w) ++ rows)) d2
              ∧ w_db w' = with_turns d2 (update_where (turn_is (lk_session p) (lk_turn p))
                   (count_row (Z.of_nat (length events)) (payload_bytes events)) (turns d2)))).
Proof.
  intros Hr. unfold append_events in Hr. apply bind_run in Hr as (t & w1 & Ht & Hr).
  apply must_turn_run in Ht as (-> & _ & Ht). exists t. split; [done|].
  destruct (Z.leb_spec first (t_event_count t)) as [Hle|Hgt].
  - left. unfold MatchTurnEventBatch in Hr. by tx_inv.
  - right. split; [done|]. tx_inv. apply andb_true_iff in H2 as [Hst Hfirst]. bsolve.
    apply InsertTurnEventBatch_run in H4 as (rows & Ed & Eo & Es & _).
    apply indexEvents_frame in H5. rewrite Ed in H5. unfold CountTurnEvent in Hr. tx_inv.
    apply orb_true_iff in Hst. split; [done|].
    split; [destruct Hst as [Hst|Hst]; [left|right]; by bsolve|]. split; [done|]. split; [done|].
    exists rows, (w_db x6). done.
Qed.

Lemma append_events_relation p first events :
  Z.of_nat (length events) ≤ 64 → moves (on_db events_relation) (append_events p first events).
Proof.
  intros H64. apply (on_db_runs (on_db turns_evolve)); [by apply er_append|]. intros w u w' Hr.
  apply append_events_run in Hr as (t & Ht & [[_ ->]|(Hgt & Ef & Hst & Hcnt & _ & rows & d2 & Eo & Es & Hf & ->)]).
  { reflexivity. }
  apply lookup_turn_row in Ht as (Hin & Hs & Hi). split.
  - cbn. rewrite (lf_events _ _ Hf). cbn. by apply prefix_app_r.
  - intros Hwf. pose proof (ew_count _ Hwf t Hin) as Hc.
    assert (event_limit t = max_events) as El by (unfold event_limit; by destruct Hst as [-> | ->]).
    pose proof (stored_rows _ _ _ _ Es) as Hrows.
    rewrite El in Hc. unfold max_events in *.
    rewrite wrap32_id in Ef by (unfold int32_min, int32_max; lia).
    assert (t_event_count t + Z.of_nat (length events) ≤ 65536) as Hlim.
    { rewrite wrap32_id in Hcnt by (unfold int32_min, int32_max; lia). done. }
    rewrite <- Hs, <- Hi in *.
    eapply (logged_append (w_db w)); try done; [by rewrite Eo, Ef|lia|lia].
Qed.

(** ** The completion event *)

Lemma insertTurnEvent_relation row kind payload w u w' :
  In row (turns (w_db w)) → insertTurnEvent row kind payload w = (Ok u, w') →
  turn_events (w_db w) `prefix_of` turn_events (w_db w')
  ∧ (t_event_count row + 1 ≤ event_limit row → events_wf (w_db w) → events_wf (w_db w')).
Proof.
  intros Hin Hr. unfold insertTurnEvent, InsertTurnEvent, CountTurnEvent in Hr.
  apply bind_run in Hr as (u1 & w1 & He & Hr). apply bind_run in Hr as (u2 & w2 & Hc & Hr). tx_inv.
  apply insert_event_run in He as (e & Ed & Eo & (Es & Et & _) & _).
  apply (moves_run (on_db events_relation)) in Hr as [Hr _]; [|by apply (indexEvents_moves _)].
  destruct Hr as [Hpre Hr]. cbn in Hpre, Hr. rewrite Ed in Hpre, Hr.
  split; [etrans; [|exact Hpre]; cbn; by apply prefix_app_r|]. intros Hlim Hwf. apply Hr.
  pose proof (ew_count _ Hwf row Hin) as Hcount.
  eapply (logged_append (w_db w) _ _ row [e]); [done|done|..|reflexivity|reflexivity].
  - cbn. by rewrite Eo, seqZ_1.
  - lia.
  - done.
  - by apply Forall_singleton.
Qed.

Lemma complete_turn_relation p status outcome native applied session :
  terminalStatus status = true →
  moves (on_db events_relation) (complete_turn p status outcome native applied session).
Proof.
  intros Hst. apply (on_db_runs (on_db turns_evolve)); [by apply er_complete|]. intros w row w' Hr.
  unfold complete_turn in Hr. apply bind_run in Hr as (t & w1 & Ht & Hr). apply must_turn_run in Ht as (-> & _ & Ht).
  apply bind_run in Hr as (u1 & w1 & Hreq & Hr). apply require_run in Hreq as [Hact ->].
  assert (validTransition (t_status t) status = true) as Hv.
  { unfold validTransition. apply orb_true_iff in Hact as [E|E]; bsolve;
      repeat match goal with Hq : t_status t = _ |- _ => rewrite Hq end; cbn; by rewrite Hst, ?orb_true_r. }
  apply bind_run in Hr as (u2 & w1 & Hpend & Hr).
  assert (w_db w1 = w_db w) as E1.
  { destruct (status =?s "completed"); [unfold HasUnappliedMessages in Hpend|]; by tx_inv. }
  apply bind_run in Hr as ([moved|] & w2 & Hmove & Hr); [|discriminate Hr].
  assert (events_relation (w_db w1) (w_db w2)) as R12.
  { apply (moves_run (on_db events_relation)) in Hmove as [R _]; [done|]. apply tr_transition; auto. }
  apply TransitionTurnQ_run in Hmove as (t0 & now & o & Ht0 & Hm & _ & -> & Ed).
  apply bind_run in Hr as (u3 & w3 & Hins & Hr).
  apply insertTurnEvent_relation in Hins as [Hpre Hwf3]; [|rewrite Ed; by apply in_update_where_hit].
  rewrite <- E1. transitivity (w_db w3).
  { destruct R12 as [Hpre2 Hwf2]. split; [by etrans|]. intros Hwf. apply Hwf3; [|by apply Hwf2].
    pose proof (ew_count _ Hwf t0 Ht0) as Hc. unfold may_transition in Hm.
    apply andb_true_iff in Hm as [Hm _]. apply andb_true_iff in Hm as [_ Hm%active_not_done].
    unfold event_limit in *. rewrite Hm in Hc. cbn [transition_row t_event_count t_status].
    change (done_status status) with (terminalStatus status). rewrite Hst. lia. }
  apply (moves_run (on_db events_relation)
    (_ ← (if negb (native =?s "") then n ← RememberNativeSession session native; require (n =? 1) ErrNotFound else mret tt);
     again ← get_turn p;
     match again with None => throw ErrNoRows | Some row => _ ← recordTurnChange row false; mret row end)) in Hr as [R _];
    [done|].
  unfold get_turn, GetTurnQ. moves_tac; [apply tr_native|by apply (recordTurnChange_moves _)].
Qed.

#[export] Instance events_relation_create : CreateStatements (on_db events_relation).
Proof. split; intros; other_statement events_same. Qed.

#[export] Instance events_relation_store : StoreRelation (on_db events_relation).
Proof.
  apply (core_relation _).
  - intros w d' []. split; [by apply events_same|cbn; lia].
  - intros. apply (admit_batch_moves _); intros; [apply CreateTurn_events|]. unfold CreateTurnInput. events_other.
  - apply append_events_relation.
  - apply complete_turn_relation.
Qed.

Lemma steps_events w w' : steps w w' → events_relation (w_db w) (w_db w').
Proof. intros Hs. apply (steps_moves (on_db events_relation) _ _ Hs). Qed.

(** ** Replays *)

Definition in_window (first n z : Z) : bool := (first <=? z) && (z <? first + n).

Lemma window_seqZ first n c : 0 ≤ c →
  List.filter (in_window first n) (seqZ 1 c)
  = seqZ (Z.max 1 first) (Z.min (c + 1) (first + n) - Z.max 1 first).
Proof.
  intros Hc. pattern c. apply natlike_ind; [| |done]; clear c Hc.
  - rewrite !seqZ_nil by lia. done.
  - intros c Hc IH. rewrite <- Z.add_1_r, seqZ_app, List.filter_app, IH by lia.
    rewrite seqZ_1. cbn [List.filter]. unfold in_window.
    destruct (Z.leb_spec first (1 + c)), (Z.ltb_spec (1 + c) (first + n)); cbn; rewrite ?app_nil_r.
    + replace (Z.min (c + 1 + 1) (first + n) - Z.max 1 first) with (Z.min (c + 1) (first + n) - Z.max 1 first + 1) by lia.
      rewrite seqZ_snoc by lia. do 2 f_equal. lia.
    + f_equal. lia.
    + rewrite !seqZ_nil by lia. done.
    + rewrite !seqZ_nil by lia. done.
Qed.

Lemma window_fmap first n l :
  te_ordinal <$> List.filter (λ e, in_window first n (te_ordinal e)) l = List.filter (in_window first n) (te_ordinal <$> l).
Proof. induction l as [|e l IH]; [done|]. cbn. destruct (in_window first n (te_ordinal e)); cbn; by rewrite IH. Qed.

(** The window of a numbered Turn, in order. *)
Lemma events_between_window d t first n :
  te_ordinal <$> events_at d t = seqZ 1 (t_event_count t) →
  events_between d (t_session t) (t_id t) first n
  = List.filter (λ e, in_window first n (te_ordinal e)) (events_at d t).
Proof.
  intros E. unfold events_between.
  assert (List.filter (λ e, event_of (t_session t) (t_id t) e && (first <=? te_ordinal e) && (te_ordinal e <? first + n)) (turn_events d)
          = List.filter (λ e, in_window first n (te_ordinal e)) (events_at d t)) as ->.
  { unfold events_at, in_window. clear. induction (turn_events d) as [|e l IH]; [done|]. cbn.
    destruct (event_of _ _ e); cbn; [destruct (_ && _); cbn; by rewrite IH|done]. }
  apply sort_by_id.
  assert (StronglySorted (λ a b, a < b) (te_ordinal <$> events_at d t)) as Hs.
  { rewrite E. clear. generalize 1 as a. generalize (t_event_count t). intros n a.
    destruct (decide (0 ≤ n)) as [Hn|]; [|rewrite seqZ_nil by lia; constructor].
    pattern n. revert a. apply natlike_ind with (x := n); [| |done]; clear n Hn; [constructor|].
    intros n Hn IH a. rewrite seqZ_cons, Z.pred_succ by lia. constructor; [apply IH|].
    apply Forall_forall. intros z Hz%elem_of_seqZ. lia. }
  clear E. induction (events_at d t) as [|e l IH]; cbn; [constructor|].
  cbn in Hs. apply StronglySorted_inv in Hs as [Hl He].
  destruct (in_window first n (te_ordinal e)); [|auto]. constructor; [auto|].
  apply Forall_forall. intros e' He'%list_elem_of_In%List.filter_In. destruct He' as [He' _].
  apply Z.leb_le. rewrite Forall_forall in He.
  assert (te_ordinal e < te_ordinal e') as Hlt by (apply He; by apply list_elem_of_fmap_2, list_elem_of_In). lia.
Qed.

(** A window that is full stays as it is. *)
Lemma window_stable d d' t t' first n :
  events_wf d → events_wf d' → turn_events d `prefix_of` turn_events d' →
  In t (turns d) → In t' (turns d') → t_session t' = t_session t → t_id t' = t_id t →
  1 ≤ first → 0 ≤ n → Z.of_nat (length (events_between d (t_session t) (t_id t) first n)) = n →
  events_between d' (t_session t) (t_id t) first n = events_between d (t_session t) (t_id t) first n.
Proof.
  intros Hwf Hwf' [ext Eext] Ht Ht' Hs Hi Hf Hn Hlen.
  pose proof (ew_ordinals _ Hwf t Ht) as Eo. pose proof (ew_ordinals _ Hwf' t' Ht') as Eo'.
  pose proof (ew_count _ Hwf t Ht) as Hc. pose proof (ew_count _ Hwf' t' Ht') as Hc'.
  rewrite (events_between_window d t) in * by done.
  rewrite <- Hs, <- Hi, (events_between_window d' t') by done.
  assert (events_at d' t' = events_at d t ++ List.filter (event_of (t_session t) (t_id t)) ext) as Eat.
  { unfold events_at. by rewrite Eext, List.filter_app, Hs, Hi. }
  rewrite Eat, List.filter_app.
  assert (length (List.filter (λ e, in_window first n (te_ordinal e)) (events_at d t)) = Z.to_nat (Z.min (t_event_count t + 1) (first + n) - first)) as Hw.
  { rewrite <- (length_fmap te_ordinal), window_fmap, Eo, window_seqZ, length_seqZ by lia. f_equal. lia. }
  rewrite Hw in Hlen.
  assert (List.filter (λ e, in_window first n (te_ordinal e)) (List.filter (event_of (t_session t) (t_id t)) ext) = []) as ->;
    [|by rewrite app_nil_r].
  rewrite Eat, fmap_app, Eo in Eo'.
  assert (t_event_count t ≤ t_event_count t') as Hle.
  { apply (f_equal length) in Eo'. rewrite length_app, !length_seqZ in Eo'. lia. }
  replace (t_event_count t') with (t_event_count t + (t_event_count t' - t_event_count t)) in Eo' by lia.
  rewrite seqZ_app in Eo' by lia. apply app_inv_head in Eo'.
  destruct (List.filter (λ e, in_window first n (te_ordinal e)) (List.filter (event_of (t_session t) (t_id t)) ext)) as [|e l] eqn:El; [done|].
  assert (In e (e :: l)) as Hin by (by left). rewrite <- El in Hin. apply List.filter_In in Hin as [Hin Hwin].
  assert (te_ordinal e ∈ seqZ (1 + t_event_count t) (t_event_count t' - t_event_count t)) as Hz.
  { rewrite <- Eo'. by apply list_elem_of_fmap_2, list_elem_of_In. }
  apply elem_of_seqZ in Hz. unfold in_window in Hwin. bsolve. lia.
Qed.

(** The window of freshly appended rows is the rows. *)
Lemma window_appended old rows c n :
  te_ordinal <$> old = seqZ 1 c → te_ordinal <$> rows = seqZ (c + 1) n →
  List.filter (λ e, in_window (c + 1) n (te_ordinal e)) (old ++ rows) = rows.
Proof.
  intros Eold Erows. rewrite List.filter_app.
  rewrite (proj2 (List.filter_ext_in_iff _ (λ _, false) old)).
  2: { intros e He. assert (te_ordinal e ∈ seqZ 1 c) as Hz by (rewrite <- Eold; by apply list_elem_of_fmap_2, list_elem_of_In).
       apply elem_of_seqZ in Hz. unfold in_window. apply andb_false_iff. left. apply Z.leb_gt. lia. }
  rewrite (proj2 (List.filter_ext_in_iff _ (λ _, true) rows)).
  2: { intros e He. assert (te_ordinal e ∈ seqZ (c + 1) n) as Hz by (rewrite <- Erows; by apply list_elem_of_fmap_2, list_elem_of_In).
       apply elem_of_seqZ in Hz. unfold in_window. apply andb_true_iff. rewrite Z.leb_le, Z.ltb_lt. lia. }
  clear. rewrite filter_none, filter_all. done.
Qed.

(** The batch is stored at its place. *)
Definition batch_held (d : db) (session turn : N) (first : Z) (events : list (string * json)) : Prop :=
  let held := events_between d session turn first (Z.of_nat (length events)) in
  length held = length events ∧
  ∃ batch, jsonb_in (JArr (List.map (λ e, event_json e.1 e.2) events)) = Some batch
    ∧ jsonb_eq (JArr (List.map (λ e, event_json (te_kind e) (te_payload e)) held)) batch = true.

Lemma match_held session turn first events w w' :
  MatchTurnEventBatch session turn first (Z.of_nat (length events)) events w = (Ok true, w') →
  w' = w ∧ batch_held (w_db w) session turn first events.
Proof.
  unfold MatchTurnEventBatch. intros Hr. apply bind_run in Hr as (batch & w1 & Hj & Hr). tx_inv.
  apply query_run in Hr as [Hr ->]. split; [done|]. unfold batch_held. 
  destruct (events_between _ _ _ _ _) as [|e l]; [discriminate Hr|]. symmetry in Hr.
  split; [|eauto]. destruct (jsonb_in_array_length _ _ H2) as (bl & -> & Hl).
  apply jsonb_eq_array_length in Hr. by rewrite !List.length_map in *; congruence.
Qed.

Lemma held_match session turn first events w :
  events ≠ [] → batch_held (w_db w) session turn first events →
  MatchTurnEventBatch session turn first (Z.of_nat (length events)) events w = (Ok true, w).
Proof.
  intros Hne (Hlen & batch & Hj & Heq). unfold MatchTurnEventBatch, mbind, tx_bind, jsonb, query. rewrite Hj.
  destruct (events_between _ _ _ _ _); [by destruct events|]. by rewrite Heq.
Qed.

Lemma append_held p first events w u w' :
  events_wf (w_db w) → Z.of_nat (length events) ≤ 64 → 1 ≤ first → Forall (λ e, text_ok e.1 = true) events →
  append_events p first events w = (Ok u, w') → batch_held (w_db w') (lk_session p) (lk_turn p) first events.
Proof.
  intros Hwf H64 Hfirst Htext Hr. pose proof Hr as Hrun.
  apply append_events_run in Hr as (t & Ht & [[Hle Ed]|(Hgt & Ef & Hst & Hcnt & _ & rows & d2 & Eo & Es & Hf & Ed)]).
  { unfold append_events in Hrun. apply bind_run in Hrun as (t' & w1 & Ht' & Hrun).
    apply must_turn_run in Ht' as (-> & _ & Ht'). rewrite Ht in Ht'. injection Ht' as <-.
    rewrite (proj2 (Z.leb_le _ _) Hle) in Hrun. apply bind_run in Hrun as (b & w2 & Hm & Hrun). tx_inv. subst b.
    apply match_held in Hm as [-> Hh]. done. }
  apply lookup_turn_row in Ht as (Hin & Hs & Hi).
  assert (events_wf (w_db w')) as Hwf'.
  { apply (moves_run (on_db events_relation)) in Hrun as [[_ R] _]; [auto|]. by apply append_events_relation. }
  destruct (frame_turn _ _ t Hf Hin) as (t2 & Ht2 & E2).
  set (n := Z.of_nat (length events)) in *.
  assert (In (count_row n (payload_bytes events) t2) (turns (w_db w'))) as Hin'.
  { rewrite Ed. apply in_update_where_hit; [done|]. destruct t, t2. injection E2 as. subst. cbn in *. subst. apply turn_is_self. }
  assert (t_session t2 = lk_session p ∧ t_id t2 = lk_turn p ∧ t_event_count t2 = t_event_count t) as (Es2 & Ei2 & Ec2)
    by (destruct t, t2; injection E2 as; cbn in *; by subst).
  pose proof (ew_ordinals _ Hwf' _ Hin') as Eo'.
  pose proof (ew_count _ Hwf t Hin) as Hc.
  assert (event_limit t = max_events) as El by (unfold event_limit; by destruct Hst as [-> | ->]).
  rewrite El in Hc. unfold max_events in *. rewrite wrap32_id in Ef by (unfold int32_min, int32_max; lia).
  assert (events_between (w_db w') (lk_session p) (lk_turn p) first n = rows) as Ebetween.
  { rewrite <- Es2, <- Ei2.
    change (t_session t2) with (t_session (count_row n (payload_bytes events) t2)).
    change (t_id t2) with (t_id (count_row n (payload_bytes events) t2)).
    rewrite events_between_window by done. rewrite Ef.
    assert (events_at (w_db w') (count_row n (payload_bytes events) t2) = events_at (w_db w) t ++ rows) as ->.
    { unfold events_at. cbn [count_row t_session t_id]. rewrite Es2, Ei2, <- Hs, <- Hi, Ed. cbn. rewrite (lf_events _ _ Hf). cbn.
      rewrite List.filter_app. f_equal. rewrite (proj2 (List.filter_ext_in_iff _ (λ _, true) rows)); [apply filter_all|].
      intros e He. pose proof (stored_rows _ _ _ _ Es) as Hrows. rewrite Forall_forall in Hrows.
      destruct (Hrows e) as [E1 E3]; [by apply list_elem_of_In|]. unfold event_of. by rewrite E1, E3, Hs, Hi, !bool_decide_eq_true_2. }
    apply window_appended; [by apply (ew_ordinals _ Hwf)|by rewrite <- Ef]. }
  unfold batch_held. fold n. rewrite Ebetween. split; [by rewrite (Forall2_length _ _ _ Es)|].
  exists (JArr (List.map (λ e, event_json (te_kind e) (te_payload e)) rows)). split; [|apply jsonb_eq_refl].
  apply jsonb_in_batch. clear -Es Htext. induction Es as [|b e events rows (_ & _ & Hk & Hp) _ IH]; constructor.
  - inversion_clear Htext. rewrite Hk. by apply jsonb_in_input.
  - inversion_clear Htext. auto.
Qed.

(** ** Evaluating an append *)

(** The arguments pass validation and name a Turn of the tenant's Session. *)
Record append_ready (leased : bool) (tenantID sessionID turnID : string) (first : Z)
    (events : list ExecutionEvent) (w : world) (p : TurnLookup) (normalized : list (string * json))
    (s : session_row) (t : turn_row) : Prop := MkReady {
  ar_tenant : parseID tenantID = Ok (lk_tenant p);
  ar_session : parseID sessionID = Ok (lk_session p);
  ar_turn : parseID turnID = Ok (lk_turn p);
  ar_first : 1 ≤ first;
  ar_some : events ≠ [];
  ar_most : Z.of_nat (length events) ≤ 64;
  ar_normal : normalize_events leased events = Ok normalized;
  ar_bytes : payload_bytes normalized ≤ 1024 * 1024;
  ar_lock : head (List.filter (session_is (lk_tenant p) (lk_session p)) (sessions (w_db w))) = Some s;
  ar_row : head (List.filter (turn_is (lk_session p) (lk_turn p)) (turns (w_db w))) = Some t;
}.

Lemma AppendTurnEvents_eval leased tenantID sessionID turnID first events w p normalized s t :
  append_ready leased tenantID sessionID turnID first events w p normalized s t →
  AppendTurnEvents leased tenantID sessionID turnID first events w =
    match append_events p first normalized w with
    | (Ok a, w1) => (Ok a, set_db w1 (pruned (lk_session p) (w_db w1)))
    | (Err e, w1) => (Err e, set_db w1 (w_db w))
    end.
Proof.
  intros []. unfold AppendTurnEvents, mbind, tx_bind, of_result, require.
  rewrite (turnLookup_eval _ _ _ _ _ _ ar_tenant0 ar_session0 ar_turn0), ar_normal0.
  rewrite (proj2 (Z.leb_le _ _) ar_first0), (proj2 (Z.leb_le _ _) ar_most0), (proj2 (Z.leb_le _ _) ar_bytes0).
  rewrite bool_decide_eq_false_2 by done. destruct p. cbn [negb andb].
  unfold withSession. by rewrite (withSessionState_eval _ _ _ _ _ _ _ _ ar_tenant0 ar_session0 ar_lock0).
Qed.

Lemma AppendTurnEvents_ready leased tenantID sessionID turnID first events w u w' :
  AppendTurnEvents leased tenantID sessionID turnID first events w = (Ok u, w') →
  ∃ p normalized s t w1,
    append_ready leased tenantID sessionID turnID first events w p normalized s t
    ∧ append_events p first normalized w = (Ok u, w1) ∧ w' = set_db w1 (pruned (lk_session p) (w_db w1)).
Proof.
  intros Hr. unfold AppendTurnEvents in Hr.
  apply bind_run in Hr as (p & w1 & Hp & Hr). apply of_result_run in Hp as [Hp ->].
  destruct (turnLookup_run _ _ _ _ Hp) as (Ht & Hs & Hu).
  apply bind_run in Hr as (u1 & w1 & Hv & Hr). apply require_run in Hv as [Hv ->].
  apply bind_run in Hr as (normalized & w1 & Hn & Hr). apply of_result_run in Hn as [Hn ->].
  apply bind_run in Hr as (u2 & w1 & Hb & Hr). apply require_run in Hb as [Hb ->].
  apply withSessionState_run in Hr as (tenant & session & s & w1 & Ht' & Hs' & Hh & _ & Hr & ->).
  rewrite Ht in Ht'. rewrite Hs in Hs'. injection Ht' as <-. injection Hs' as <-.
  destruct (append_events_run _ _ _ _ _ _ Hr) as (t & Hrow & _). bsolve.
  exists p, normalized, s, t, w1. by split; [split|].
Qed.

Lemma engine_text_ok s : enginePattern s = true → text_ok s = true.
Proof.
  assert (∀ c, in_range 97 122 c || in_range 48 57 c || in_range 95 95 c || in_range 45 45 c = true →
               Ascii.nat_of_ascii c ≠ 0%nat) as Hc.
  { intros c Hc. unfold in_range in Hc. rewrite !orb_true_iff, !andb_true_iff, !Nat.leb_le in Hc. lia. }
  assert (∀ s, engine_tail s = true → text_ok s = true) as Htail.
  { unfold text_ok. intros r. induction r as [|c r IH]; [done|]. cbn. intros Hr.
    apply andb_true_iff in Hr as [Hr Htl]. apply Hc in Hr.
    rewrite (proj2 (Nat.eqb_neq _ _) Hr). cbn. auto. }
  destruct s as [|c s]; [done|]. cbn. intros Hp. bsolve. unfold text_ok. cbn.
  rewrite (proj2 (Nat.eqb_neq (Ascii.nat_of_ascii c) 0)); [by apply Htail|].
  apply Hc. by rewrite H2.
Qed.

Lemma normalize_text leased events normalized :
  normalize_events leased events = Ok normalized → Forall (λ e, text_ok e.1 = true) normalized.
Proof.
  revert normalized. induction events as [|e events IH]; intros normalized Hn; cbn in Hn; [by simplify_eq|].
  apply bind_Ok in Hn as (_ & _ & Hn). apply bind_Ok in Hn as (u & Hk & Hn).
  apply bind_Ok in Hn as (payload & _ & Hn). apply bind_Ok in Hn as (es & Hes & Hn).
  simplify_eq. apply reject_if_Ok in Hk. bsolve. constructor; [by apply engine_text_ok|by apply IH].
Qed.

Lemma turn_persists d d' session id t :
  turns_evolve d d' → head (List.filter (turn_is session id) (turns d)) = Some t →
  ∃ t', head (List.filter (turn_is session id) (turns d')) = Some t' ∧ t_session t' = t_session t ∧ t_id t' = t_id t.
Proof.
  intros (old & new & E & HF & _) Ht. apply lookup_turn_row in Ht as (Hin & <- & <-).
  apply list_elem_of_In, list_elem_of_lookup in Hin as [i Hi].
  destruct (Forall2_lookup_l _ _ _ _ _ HF Hi) as (u & Hu & [Eid Es _ _ _ _ _ _]).
  destruct (head (List.filter (turn_is (t_session t) (t_id t)) (turns d'))) as [t'|] eqn:Eh.
  - exists t'. split; [done|]. apply lookup_turn_row in Eh as (_ & ? & ?). done.
  - rewrite head_filter_None in Eh. specialize (Eh u). rewrite <- Eid, <- Es, turn_is_self in Eh.
    discriminate Eh. rewrite E. apply in_app_iff. left. apply list_elem_of_In. by eapply list_elem_of_lookup_2.
Qed.

(** A held batch is found again. *)
Lemma held_replay p first events w t :
  events_wf (w_db w) → events ≠ [] → batch_held (w_db w) (lk_session p) (lk_turn p) first events →
  tenant_session (w_db w) (lk_tenant p) (lk_session p) = true →
  head (List.filter (turn_is (lk_session p) (lk_turn p)) (turns (w_db w))) = Some t →
  append_events p first events w = (Ok tt, w).
Proof.
  intros Hwf Hne Hh Htn Ht. unfold append_events, mbind, tx_bind. rewrite (must_turn_eval _ _ _ Htn Ht).
  destruct (lookup_turn_row _ _ _ _ Ht) as (Hin & Es & Ei).
  assert (first ≤ t_event_count t) as Hle.
  { destruct Hh as [Hlen _]. pose proof (ew_ordinals _ Hwf t Hin) as Eo.
    rewrite <- Es, <- Ei, (events_between_window _ t) in Hlen by done.
    destruct (List.filter _ (events_at (w_db w) t)) as [|e l] eqn:El; [by destruct events|].
    assert (In e (e :: l)) as He by (by left). rewrite <- El in He. apply List.filter_In in He as [He Hw].
    assert (te_ordinal e ∈ seqZ 1 (t_event_count t)) as Hz by (rewrite <- Eo; by apply list_elem_of_fmap_2, list_elem_of_In).
    apply elem_of_seqZ in Hz. unfold in_window in Hw. bsolve. lia. }
  rewrite (proj2 (Z.leb_le _ _) Hle). by rewrite (held_match _ _ _ _ _ Hne Hh).
Qed.

(** A held batch stays held. *)
Lemma held_stable d d' session id first events t :
  events_wf d → events_relation d d' → turns_evolve d d' →
  head (List.filter (turn_is session id) (turns d)) = Some t → 1 ≤ first →
  batch_held d session id first events → batch_held d' session id first events.
Proof.
  intros Hwf [Hpre Hw] Hev Ht Hf [Hlen Hb]. destruct (turn_persists _ _ _ _ _ Hev Ht) as (t' & Ht' & Es & Ei).
  destruct (lookup_turn_row _ _ _ _ Ht) as (Hin & <- & <-). destruct (lookup_turn_row _ _ _ _ Ht') as (Hin' & _ & _).
  unfold batch_held. erewrite window_stable; [done|..]; eauto; lia.
Qed.

(** An accepted batch is accepted again. *)
Lemma append_replay leased tenantID sessionID turnID first events w w1 w2 :
  events_wf (w_db w) → log_wf (w_db w) →
  AppendTurnEvents leased tenantID sessionID turnID first events w = (Ok tt, w1) → steps w1 w2 →
  ∃ session, parseID sessionID = Ok session ∧
    AppendTurnEvents leased tenantID sessionID turnID first events w2
      = (Ok tt, set_db w2 (pruned session (w_db w2))).
Proof.
  intros Hwf Hlog Hr Hs.
  apply AppendTurnEvents_ready in Hr as (p & normalized & s & t & w1' & [] & Hr & ->).
  pose proof (normalize_length _ _ _ ar_normal0) as Hlen.
  pose proof (moves_run (on_db events_relation) _ _ _ _ (append_events_relation p first normalized ltac:(by rewrite Hlen)) Hr) as [[_ Hw1] _].
  pose proof (moves_run (on_db turns_evolve) _ _ _ _ (er_append (R := on_db turns_evolve) p first normalized ltac:(by rewrite Hlen)) Hr) as [He1 _].
  pose proof (moves_run (on_db log_relation) _ _ _ _ (er_append (R := on_db log_relation) p first normalized ltac:(by rewrite Hlen)) Hr) as [Hl1 _].
  apply append_held in Hr; [|done|by rewrite Hlen|done|by eapply normalize_text].
  destruct (turn_persists _ _ _ _ _ He1 ar_row0) as (t1 & Ht1 & _).
  destruct (session_persists _ _ _ _ _ Hlog Hl1 ar_lock0) as (s1 & Hs1 & _).
  set (d1 := pruned (lk_session p) (w_db w1')) in *.
  assert (log_wf d1) as Hlog1.
  { pose proof (pruned_advances (lk_session p) w1') as [Hp _]. apply Hp. by apply Hl1. }
  assert (events_wf d1) as Hwf1 by (destruct (Hw1 Hwf); by split).
  destruct (turn_persists _ _ _ _ _ (proj1 (steps_moves (on_db turns_evolve) _ _ Hs)) Ht1) as (t2 & Ht2 & _).
  destruct (session_persists d1 _ _ _ s1 Hlog1 (steps_log _ _ Hs) Hs1) as (s2 & Hs2 & _).
  assert (batch_held (w_db w2) (lk_session p) (lk_turn p) first normalized) as Hheld.
  { eapply (held_stable d1); [done|exact (steps_events _ _ Hs)|exact (proj1 (steps_moves (on_db turns_evolve) _ _ Hs))|done..]. }
  exists (lk_session p). split; [done|].
  rewrite (AppendTurnEvents_eval _ _ _ _ _ _ _ p normalized s2 t2) by (by split).
  rewrite (held_replay _ _ _ _ t2); try done.
  - by apply (steps_events _ _ Hs).
  - intros ->. by destruct events.
  - by eapply locked_tenant.
Qed.

(** ** Properties *)

(** Along every run execution events are append-only, the events of every
    Turn are numbered 1, 2, ... up to the count on its row, and there are never
    more than 65536 of them before the Turn's final event. *)
Theorem turn_events_numbered w w' :
  events_wf (w_db w) → steps w w' →
  events_wf (w_db w') ∧ turn_events (w_db w) `prefix_of` turn_events (w_db w').
Proof. intros Hwf Hs. destruct (steps_events _ _ Hs) as [Hp Hw]. auto. Qed.

(** C11. Appending is idempotent: a batch that was accepted is accepted again at
    the same position, however much later, and writes nothing (the Session's
    old public events may be pruned). *)
Theorem AppendTurnEvents_replay leased tenantID sessionID turnID first events w w1 w2 :
  events_wf (w_db w) → log_wf (w_db w) →
  AppendTurnEvents leased tenantID sessionID turnID first events w = (Ok tt, w1) → steps w1 w2 →
  ∃ session, parseID sessionID = Ok session ∧
    AppendTurnEvents leased tenantID sessionID turnID first events w2
      = (Ok tt, set_db w2 (pruned session (w_db w2))).
Proof. apply append_replay. Qed.

(** A batch is refused, and nothing is written, when it would leave a gap or
    the Turn is not running ([ErrTurnConflict]), and when it would exceed the
    Turn's 65536 events or 32 MiB ([ErrEventLimit]). *)
Theorem AppendTurnEvents_refused leased tenantID sessionID turnID first events w p normalized s t :
  append_ready leased tenantID sessionID turnID first events w p normalized s t →
  0 ≤ t_event_count t ≤ max_events + 1 → t_event_count t < first →
  let running := (t_status t =?s "in_progress") || (t_status t =?s "waiting") in
  (running = false ∨ first ≠ t_event_count t + 1 →
     AppendTurnEvents leased tenantID sessionID turnID first events w = (Err ErrTurnConflict, w))
  ∧ (running = true → first = t_event_count t + 1 →
     max_events < t_event_count t + Z.of_nat (length events)
       ∨ max_event_bytes < t_event_bytes t + payload_bytes normalized →
     AppendTurnEvents leased tenantID sessionID turnID first events w = (Err ErrEventLimit, w)).
Proof.
  intros Hready Hc Hgt. cbn zeta. rewrite (AppendTurnEvents_eval _ _ _ _ _ _ _ _ _ _ _ Hready).
  destruct Hready. pose proof (normalize_length _ _ _ ar_normal0) as Hlen. unfold max_events in *.
  unfold append_events, mbind, tx_bind.
  rewrite (must_turn_eval _ _ _ (locked_tenant _ _ _ _ ar_lock0) ar_row0), (proj2 (Z.leb_gt _ _) Hgt).
  unfold require. rewrite !wrap32_id by (unfold int32_min, int32_max; lia).
  destruct w as [d q tick draw]. split.
  - intros Hbad. assert (((t_status t =?s "in_progress") || (t_status t =?s "waiting")) && (first =? t_event_count t + 1) = false) as ->.
    { apply andb_false_iff. destruct Hbad as [->|?]; [by left|right; by apply Z.eqb_neq]. }
    done.
  - intros -> Ef Hbig. rewrite (proj2 (Z.eqb_eq _ _) Ef). cbn [andb].
    assert ((t_event_count t + Z.of_nat (length normalized) <=? max_events) && (t_event_bytes t + payload_bytes normalized <=? max_event_bytes) = false) as ->.
    { apply andb_false_iff. rewrite !Z.leb_gt, Hlen. unfold max_events in *. lia. }
    done.
Qed.

End turn_log.

(** ** Witnesses *)

Lemma world0_events_wf : events_wf (w_db world0).
Proof. by split; [apply NoDup_nil_2|..]. Qed.

Lemma turn_events_numbered_witness :
  events_wf (w_db completed_world) ∧ te_ordinal <$> turn_events (w_db completed_world) = [1; 2; 3; 4].
Proof.
  split; [|vm_compute; reflexivity].
  apply (turn_events_numbered world0 completed_world); [apply world0_events_wf|exact to_completed_steps].
Defined.

Lemma started_world_steps : steps world0 started_world.
Proof. exact (steps_trans _ _ _ queued_steps started_steps). Qed.

(** The three deltas are sent again after the Turn completed. *)
Lemma AppendTurnEvents_replay_witness :
  ∃ session, parseID session_id = Ok session ∧
    AppendTurnEvents false tenant_id session_id turn_id 1 (List.map demo_event ["a"; "b"; "c"]) completed_world
      = (Ok tt, set_db completed_world (pruned session (w_db completed_world))).
Proof.
  apply (AppendTurnEvents_replay false tenant_id session_id turn_id 1 (List.map demo_event ["a"; "b"; "c"])
           started_world streamed_world completed_world).
  - exact (proj2 (steps_events _ _ started_world_steps) world0_events_wf).
  - exact (la_wf _ _ (steps_log _ _ started_world_steps world0_log_wf)).
  - vm_compute; reflexivity.
  - exact (steps_trans _ _ _ called_steps (steps_trans _ _ _ resumed_steps completed_steps)).
Defined.

Definition demo_normalized : list (string * json) :=
  [("delta", JObj [("delta", JStr "z"); ("item_id", JStr "m1")])].

Lemma AppendTurnEvents_refused_witness :
  AppendTurnEvents false tenant_id session_id turn_id 5 [demo_event "z"] streamed_world
    = (Err ErrTurnConflict, streamed_world).
Proof.
  apply (AppendTurnEvents_refused false tenant_id session_id turn_id 5 [demo_event "z"] streamed_world
           demo_lookup demo_normalized (hd demo_session (sessions (w_db streamed_world))) (turn_of streamed_world)).
  - split; try (vm_compute; reflexivity); vm_compute; discriminate.
  - vm_compute. split; discriminate.
  - vm_compute. reflexivity.
  - right. vm_compute. discriminate.
Defined.
