(* ===== verification/Inputs.v ===== *)
(** * Inputs

    The admission of Session inputs: sequence numbers grow, a batch is stored
    under its key once, in order, and submitting it again returns the receipts
    it got the first time. *)
From stdpp Require Import base tactics list strings numbers relations sorting.
From S2P Require Import Prelude GoJson Contract Items Database Queries SessionLog Turns Relations Tables Scenario Frames EventLog.

Definition keyed (d : db) (session : N) (key : string) : list input_row :=
  List.filter (λ i, (in_session i =?s session) && (in_key i =?s key)) (turn_inputs d).

(** ** The invariant *)

(** Sequence numbers increase, from 1 on, and all of them were drawn. *)
Record sequenced (w : world) : Prop := MkSequenced {
  iw_sorted : StronglySorted Z.lt (in_seq <$> turn_inputs (w_db w));
  iw_drawn : Forall (λ i, 0 < in_seq i ≤ w_seq w) (turn_inputs (w_db w));
  iw_start : 0 ≤ w_seq w;
}.

(** A key that has inputs has a first one. *)
Record inputs_wf (w : world) : Prop := MkInputsWf {
  iw_seq : sequenced w;
  iw_first session key : keyed (w_db w) session key ≠ [] →
    ∃ i, In i (keyed (w_db w) session key) ∧ in_pos i = 0;
}.

Lemma sequenced_same w w' :
  turn_inputs (w_db w') = turn_inputs (w_db w) → w_seq w ≤ w_seq w' → sequenced w → sequenced w'.
Proof.
  intros E Hs []. split; rewrite ?E; [done| |lia]. eapply Forall_impl; [done|]. cbn. lia.
Qed.

Lemma inputs_wf_same w w' :
  turn_inputs (w_db w') = turn_inputs (w_db w) → w_seq w ≤ w_seq w' → inputs_wf w → inputs_wf w'.
Proof.
  intros E Hs [Hq Hf]. split; [by eapply sequenced_same|]. intros session key. unfold keyed. rewrite E. apply Hf.
Qed.

(** Inputs are only appended; a key that has inputs gets no more. *)
Record inputs_advance (w w' : world) : Prop := MkInputsAdvance {
  ia_prefix : turn_inputs (w_db w) `prefix_of` turn_inputs (w_db w');
  ia_closed session key : inputs_wf w → keyed (w_db w) session key ≠ [] →
    keyed (w_db w') session key = keyed (w_db w) session key;
  ia_wf : inputs_wf w → inputs_wf w';
  ia_seq : w_seq w ≤ w_seq w';
}.

(** Inputs are only appended, all under one key. *)
Record admits (session : N) (key : string) (w w' : world) : Prop := MkAdmits {
  ad_rows : ∃ new, turn_inputs (w_db w') = turn_inputs (w_db w) ++ new
    ∧ Forall (λ i, in_session i = session ∧ in_key i = key) new;
  ad_wf : sequenced w → sequenced w';
  ad_seq : w_seq w ≤ w_seq w';
}.

Definition same_inputs (d d' : db) : Prop := turn_inputs d' = turn_inputs d.

#[export] Instance same_inputs_preorder : PreOrder same_inputs.
Proof. split; [done|]. intros d1 d2 d3 E1 E2. unfold same_inputs in *. congruence. Qed.

#[export] Instance inputs_advance_rel : WorldRel inputs_advance.
Proof.
  split.
  - intros w1 w2 w3 [P1 C1 W1 S1] [P2 C2 W2 S2]. split; [by etrans| |auto|lia].
    intros session key Hw Hk. rewrite <- (C1 session key Hw Hk). apply C2; [auto|]. by rewrite C1.
  - by intros w w' [].
  - intros w w' E Hs. split; [by rewrite E|unfold keyed; by rewrite E| |done].
    apply inputs_wf_same; [by rewrite E|done].
Qed.

#[export] Instance admits_rel session key : WorldRel (admits session key).
Proof.
  split.
  - intros w1 w2 w3 [(n1 & E1 & F1) W1 S1] [(n2 & E2 & F2) W2 S2]. split; [|auto|lia].
    exists (n1 ++ n2). split; [by rewrite E2, E1, <- app_assoc|]. by apply Forall_app.
  - by intros w w' [].
  - intros w w' E Hs. split; [exists []; by rewrite E, app_nil_r| |done].
    apply sequenced_same; [by rewrite E|done].
Qed.

Section inputs.
Context `{UUIDs, Oracle, EventSizes}.

Ltac inputs_other := moves_tac; apply (moves_exec _); intros w; (split; [done|cbn; lia]).

#[export] Instance same_inputs_turn : TurnRelation (on_db same_inputs).
Proof.
  split; [split; [apply _|..]|..]; intros.
  - unfold AppendSessionEvent. inputs_other.
  - unfold PutSessionItem. inputs_other.
  - unfold FinishSessionItems. inputs_other.
  - unfold PutTurnUsage. inputs_other.
  - unfold PutSubagentIdentity. inputs_other.
  - unfold PublishTurnArtifacts. inputs_other.
  - unfold DeleteUnpublishedTurnArtifacts. inputs_other.
  - unfold PruneSessionEvents. inputs_other.
  - unfold RequestTurnCancel. inputs_other.
  - unfold TransitionTurnQ. inputs_other.
  - unfold CreateFunctionCall. inputs_other.
  - unfold storeFunctionResult, MatchFunctionResult, SubmitFunctionResultQ. inputs_other.
  - unfold ApplyFunctionResult. inputs_other.
  - unfold BeginTurnArtifactCaptureQ. inputs_other.
  - unfold RememberNativeSession. inputs_other.
  - unfold CancelSessionEnvironmentInput. inputs_other.
  - unfold MarkSessionDeleted. inputs_other.
  - unfold DeleteSessionArtifacts. inputs_other.
Qed.

Lemma CreateTurn_inputs id session : moves (on_db same_inputs) (CreateTurn id session).
Proof. unfold CreateTurn. inputs_other. Qed.

#[export] Instance admits_turn session key : TurnRelation (admits session key).
Proof.
  refine (turn_relation_weaken (on_db same_inputs) _ _). intros w w' [E Hs]. split; [|by apply sequenced_same|done].
  exists []. by rewrite app_nil_r.
Qed.

#[export] Instance inputs_advance_turn : TurnRelation inputs_advance.
Proof.
  refine (turn_relation_weaken (on_db same_inputs) _ _). intros w w' [E Hs]. unfold same_inputs in E.
  split; [by rewrite E|unfold keyed; by rewrite E|by apply inputs_wf_same|done].
Qed.

(** ** Storing one input *)

(** The row an input becomes. *)
Definition input_stored (session : N) (key : string) (input : CanonInput) (i : input_row) : Prop :=
  in_session i = session ∧ in_key i = key ∧ in_kind i = input.1 ∧ jsonb_in input.2 = Some (in_payload i).

Lemma CreateTurnInput_run session turn key kind payload pos w seq w' :
  CreateTurnInput session turn key kind payload pos w = (Ok seq, w') →
  ∃ i, turn_inputs (w_db w') = turn_inputs (w_db w) ++ [i]
    ∧ input_stored session key (kind, payload) i ∧ in_turn i = turn ∧ in_pos i = pos
    ∧ in_seq i = seq ∧ seq = w_seq w + 1 ∧ w_seq w' = seq ∧ input_kind_ok kind = true
    ∧ ∀ j, In j (keyed (w_db w) session key) → in_pos j ≠ pos.
Proof.
  unfold CreateTurnInput. run_tx; try (intros; discriminate); intros [= <- <-]; cbn;
    (eexists; split; [reflexivity|]; split; [by repeat split|]; split_and!; try done; intros i' [Hj Hk]%List.filter_In Hpos;
     rewrite negb_true_iff, existsb_false_iff in *;
     match goal with Hno : ∀ x, In x _ → _ = false |- _ => apply Hno in Hj end;
     by rewrite Hk, bool_decide_eq_true_2 in Hj).
Qed.

Lemma CreateTurnInput_admits session turn key kind payload pos :
  moves (admits session key) (CreateTurnInput session turn key kind payload pos).
Proof.
  assert (moves (on_db (λ _ _, True)) (CreateTurnInput session turn key kind payload pos)) as Hm.
  { assert (PreOrder (λ _ _ : db, True)) by (by split). unfold CreateTurnInput. moves_tac.
    apply (moves_exec _). intros w. split; [done|cbn; lia]. }
  intros w. specialize (Hm w).
  destruct (CreateTurnInput session turn key kind payload pos w) as [[seq|e] w'] eqn:E; [|done].
  apply CreateTurnInput_run in E as (i & Ei & (Hs & Hk & _) & _ & _ & Hi & Hseq & Hw & _ & _).
  split; [|intros [Hsort Hdrawn Hstart]|lia].
  - exists [i]. split; [done|]. by apply Forall_singleton.
  - split; rewrite ?Ei; [| |lia].
    + rewrite fmap_app. apply StronglySorted_app_2; [|done|repeat constructor].
      intros x y Hx Hy%list_elem_of_singleton. apply list_elem_of_fmap in Hx as (j & -> & Hj).
      rewrite Forall_forall in Hdrawn. apply Hdrawn in Hj. lia.
    + apply Forall_app. split; [|apply Forall_singleton; lia]. eapply Forall_impl; [done|]. cbn. lia.
Qed.

Lemma admit_batch_admits tenantID session key position batch :
  moves (admits session key) (admit_batch tenantID session key position batch).
Proof.
  apply (admit_batch_moves _); intros; [|apply CreateTurnInput_admits].
  apply (moves_weaken (on_db same_inputs)); [|apply CreateTurn_inputs].
  intros w w' [E Hs]. split; [|by apply sequenced_same|done]. exists []. by rewrite app_nil_r.
Qed.

(** ** A whole batch *)

Lemma moves_inputs {A} (m : tx A) w a w' :
  moves (on_db same_inputs) m → m w = (Ok a, w') →
  turn_inputs (w_db w') = turn_inputs (w_db w) ∧ w_seq w ≤ w_seq w'.
Proof. intros Hm Hr. by apply (moves_run _ _ _ _ _ Hm) in Hr. Qed.

(** The row of one admitted input, and its receipt. *)
Definition admitted (session : N) (key : string) (position : Z) (input : CanonInput) (r : InputReceipt)
    (i : input_row) : Prop :=
  input_stored session key input i ∧ in_pos i = position ∧ input_kind_ok input.1 = true
  ∧ r = inputReceipt (in_seq i) (in_turn i) false.

Lemma admitInput_run tenantID session key position input w r w' :
  admitInput tenantID session key position input w = (Ok r, w') →
  ∃ i, turn_inputs (w_db w') = turn_inputs (w_db w) ++ [i] ∧ admitted session key position input r i
    ∧ w_seq w < in_seq i ≤ w_seq w' ∧ ∀ j, In j (keyed (w_db w) session key) → in_pos j ≠ position.
Proof.
  unfold admitInput. destruct (input.1 =?s "tool_result"); intros Hr.
  - unfold admitFunctionResult in Hr.
    apply bind_run in Hr as (f & w1 & Hf & Hr). apply of_result_run in Hf as [_ ->].
    apply bind_run in Hr as (p & w1 & Hp & Hr). apply of_result_run in Hp as [_ ->].
    apply bind_run in Hr as (t & w1 & Ht & Hr). apply must_turn_run in Ht as (-> & _).
    apply bind_run in Hr as (u & w1 & Hres & Hr).
    apply moves_inputs in Hres as [E1 S1]; [|apply tr_result].
    apply bind_run in Hr as (seq & w2 & Hc & Hr). tx_inv.
    apply CreateTurnInput_run in Hc as (i & Ei & Hi & Ht & Hpos & <- & Hseq & Hw & Hk & Hno).
    exists i. rewrite Ei, E1. unfold keyed in *. rewrite E1 in Hno. split; [done|]. split; [|split; [lia|done]].
    split; [by destruct input|]. by rewrite Ht.
  - apply bind_run in Hr as (turn & w1 & Ht & Hr).
    apply moves_inputs in Ht as [E1 S1]; [|unfold input_turn, GetActiveTurn; moves_tac; [apply CreateTurn_inputs|by apply (recordTurnChange_moves _)]].
    apply bind_run in Hr as (seq & w2 & Hc & Hr).
    apply CreateTurnInput_run in Hc as (i & Ei & Hi & Hti & Hpos & <- & Hseq & Hw & Hk & Hno).
    apply bind_run in Hr as (u & w3 & Hcancel & Hr).
    apply moves_inputs in Hcancel as [E2 S2]; [|moves_tac; by apply (requestTurnCancel_moves _)].
    apply bind_run in Hr as (u' & w4 & Hix & Hr).
    apply moves_inputs in Hix as [E3 S3]; [|by apply (indexInput_moves _)]. tx_inv.
    exists i. rewrite E3, E2, Ei, E1. unfold keyed in *. rewrite E1 in Hno. split; [done|]. split; [|split; [lia|done]].
    split; [by destruct input|]. by rewrite Hti.
Qed.

Lemma admit_batch_run tenantID session key position batch w rs w' :
  admit_batch tenantID session key position batch w = (Ok rs, w') →
  ∃ rows, turn_inputs (w_db w') = turn_inputs (w_db w) ++ rows
    ∧ Forall2 (input_stored session key) batch rows
    ∧ Forall (λ input : CanonInput, input_kind_ok input.1 = true) batch
    ∧ in_pos <$> rows = seqZ position (Z.of_nat (length batch))
    ∧ rs = (λ i, inputReceipt (in_seq i) (in_turn i) false) <$> rows
    ∧ StronglySorted Z.lt (in_seq <$> rows) ∧ Forall (λ i, w_seq w < in_seq i ≤ w_seq w') rows
    ∧ w_seq w ≤ w_seq w'
    ∧ (batch ≠ [] → ∀ j, In j (keyed (w_db w) session key) → in_pos j ≠ position).
Proof.
  revert position w rs. induction batch as [|input batch IH]; intros position w rs Hr; cbn [admit_batch] in Hr.
  - tx_inv. exists []. rewrite app_nil_r. repeat split; try done; constructor.
  - apply bind_run in Hr as (r & w1 & Hi & Hr). apply bind_run in Hr as (rs' & w2 & Hb & Hr). tx_inv.
    apply admitInput_run in Hi as (i & Ei & (Hst & Hpos & Hk & ->) & Hseq & Hno).
    apply IH in Hb as (rows & Erows & Hrows & Hks & Epos & -> & Hsort & Hdrawn & Hle & _).
    exists (i :: rows). rewrite Erows, Ei, <- app_assoc. split; [done|]. split; [by constructor|]. split; [by constructor|].
    split; [rewrite seqZ_cons by (cbn; lia); cbn; rewrite Hpos, Epos; f_equal; f_equal; lia|]. split; [done|].
    split; [|split; [|split; [lia|by intros _]]].
    + cbn. constructor; [done|]. apply Forall_forall. intros z Hz. apply list_elem_of_fmap in Hz as (j & -> & Hj).
      rewrite Forall_forall in Hdrawn. apply Hdrawn in Hj. lia.
    + constructor; [lia|]. eapply Forall_impl; [exact Hdrawn|]. intros j Hj. cbn in Hj. lia.
Qed.

(** The rows a batch with these contents has been stored as. *)
Definition batch_stored (d : db) (session : N) (key : string) (batch : list CanonInput) (rows : list input_row) : Prop :=
  batch_rows d session key = rows ∧ ∃ encoded, jsonb_in (encode_batch batch) = Some encoded
    ∧ jsonb_eq (JArr (List.map (λ i, input_json (in_kind i) (in_payload i)) rows)) encoded = true.

Lemma keyed_app d d' session key rows :
  turn_inputs d' = turn_inputs d ++ rows →
  Forall (λ i, in_session i = session ∧ in_key i = key) rows →
  keyed d' session key = keyed d session key ++ rows.
Proof.
  intros E Hr. unfold keyed. rewrite E, List.filter_app. f_equal.
  rewrite (proj2 (List.filter_ext_in_iff _ (λ _, true) rows)); [apply filter_all|].
  intros i Hi%list_elem_of_In. rewrite Forall_forall in Hr. destruct (Hr i Hi) as [-> ->].
  by rewrite !bool_decide_eq_true_2.
Qed.

Lemma keyed_other d d' session key s k rows :
  turn_inputs d' = turn_inputs d ++ rows →
  Forall (λ i, in_session i = session ∧ in_key i = key) rows → (s, k) ≠ (session, key) →
  keyed d' s k = keyed d s k.
Proof.
  intros E Hr Hne. unfold keyed. rewrite E, List.filter_app.
  rewrite (proj2 (List.filter_ext_in_iff _ (λ _, false) rows)); [by rewrite filter_none, app_nil_r|].
  intros i Hi%list_elem_of_In. rewrite Forall_forall in Hr. destruct (Hr i Hi) as [-> ->].
  apply andb_false_iff. destruct (decide (session = s)) as [->|]; [right|left]; apply bool_decide_eq_false_2; congruence.
Qed.

Definition receipts (replayed : bool) (rows : list input_row) : list InputReceipt :=
  (λ i, inputReceipt (in_seq i) (in_turn i) replayed) <$> rows.

Lemma batch_receipts_match rows :
  batch_receipts (List.map (λ i, MkBatchRow (in_seq i) (in_turn i) true) rows) = Ok (receipts true rows).
Proof. induction rows as [|i rows IH]; [done|]. cbn. by rewrite IH. Qed.

Lemma stored_kinds session key batch rows :
  Forall2 (input_stored session key) batch rows → Forall (λ i, in_session i = session ∧ in_key i = key) rows.
Proof. induction 1 as [|b e batch rows (Hs & Ht & _) _ IH]; constructor; auto. Qed.

Lemma input_kind_text k : input_kind_ok k = true → text_ok k = true.
Proof.
  unfold input_kind_ok. intros Hk. apply orb_true_iff in Hk as [Hk|Hk]; [apply orb_true_iff in Hk as [Hk|Hk]|]; by bsolve.
Qed.

Lemma stored_encoded session key batch rows :
  Forall2 (input_stored session key) batch rows → Forall (λ input : CanonInput, input_kind_ok input.1 = true) batch →
  jsonb_in (encode_batch batch) = Some (JArr (List.map (λ i, input_json (in_kind i) (in_payload i)) rows)).
Proof.
  intros Hst Hk. apply jsonb_in_batch.
  induction Hst as [|b i batch rows (_ & _ & Hkind & Hp) _ IH]; constructor; inversion_clear Hk; [|auto].
  rewrite Hkind. apply jsonb_in_input; [by apply input_kind_text|done].
Qed.

Lemma positions_sorted position rows :
  in_pos <$> rows = seqZ position (Z.of_nat (length rows)) →
  sort_by (λ a b, in_pos a <=? in_pos b) rows = rows.
Proof.
  intros E. apply sort_by_id. revert position E. induction rows as [|i rows IH]; intros position E; [constructor|].
  rewrite seqZ_cons in E by (cbn; lia). cbn in E. injection E as Ei E.
  replace (Z.pred (Z.of_nat (S (length rows)))) with (Z.of_nat (length rows)) in E by lia. constructor; [by eapply IH|].
  apply Forall_forall. intros j Hj.
  assert (in_pos j ∈ seqZ (Z.succ position) (Z.of_nat (length rows))) as Hz by (rewrite <- E; by apply list_elem_of_fmap_2).
  apply elem_of_seqZ in Hz. apply Z.leb_le. lia.
Qed.

(** The empty batch of rows is that of an unused key. *)
Lemma batch_rows_nil d session key : batch_rows d session key = [] ↔ keyed d session key = [].
Proof.
  unfold batch_rows, keyed. split; [|by intros ->]. intros E.
  apply (f_equal length) in E. rewrite sort_by_length in E. by apply nil_length_inv in E.
Qed.

(** What admitting a batch under an unused key stores. *)
Lemma admit_batch_stored tenantID session key batch w rs w' :
  keyed (w_db w) session key = [] → admit_batch tenantID session key 0 batch w = (Ok rs, w') →
  ∃ rows, length rows = length batch ∧ batch_stored (w_db w') session key batch rows ∧ rs = receipts false rows
    ∧ StronglySorted Z.lt (in_seq <$> rows) ∧ Forall (λ i, w_seq w < in_seq i) rows.
Proof.
  intros Hkey Hr. apply admit_batch_run in Hr as (rows & Erows & Hst & Hk & Epos & -> & Hsort & Hdrawn & _ & _).
  assert (length rows = length batch) as Hlen by (symmetry; by eapply Forall2_length).
  exists rows. split; [done|]. split; [|split; [done|split; [done|]]].
  - split.
    + unfold batch_rows. change (List.filter _ _) with (keyed (w_db w') session key).
      rewrite (keyed_app (w_db w) _ _ _ rows), Hkey by (done || by eapply stored_kinds).
      apply (positions_sorted 0). by rewrite Hlen.
    + exists (JArr (List.map (λ i, input_json (in_kind i) (in_payload i)) rows)).
      split; [by eapply stored_encoded|apply jsonb_eq_refl].
  - eapply Forall_impl; [exact Hdrawn|]. intros i Hi. cbn in Hi. lia.
Qed.

(** What a successful submission did: return the receipts of the stored batch,
    or admit the batch under an unused key. *)
Lemma submit_batch_run tenantID key batch session w rs w' :
  submit_batch tenantID key batch (encode_batch batch) session w = (Ok rs, w') →
  (w' = w ∧ ∃ rows, rows ≠ [] ∧ batch_stored (w_db w) session key batch rows ∧ rs = receipts true rows)
  ∨ (keyed (w_db w) session key = [] ∧ admits session key w w'
     ∧ ∃ rows, length rows = length batch ∧ batch_stored (w_db w') session key batch rows ∧ rs = receipts false rows
       ∧ StronglySorted Z.lt (in_seq <$> rows) ∧ Forall (λ i, w_seq w < in_seq i) rows).
Proof.
  intros Hr. unfold submit_batch, inputBatchReceipts, FindInputBatch in Hr.
  apply bind_run in Hr as (previous & w1 & Hprev & Hr).
  apply bind_run in Hprev as (rows & w2 & Hfind & Hprev).
  apply bind_run in Hfind as (encoded & w3 & Hj & Hfind). apply jsonb_run in Hj as [Hj ->].
  apply query_run in Hfind as [-> ->]. apply of_result_run in Hprev as [Hprev ->].
  destruct (batch_rows (w_db w) session key) as [|i rows] eqn:Erows.
  - right. apply batch_rows_nil in Erows. injection Hprev as <-.
    apply bind_run in Hr as (u1 & w1 & Hg1 & Hr).
    assert (w1 = w) as -> by (destruct (existsb _ batch); [unfold checkEnvironmentFileWriteGate, EnvironmentFileWriteBlocksSession in Hg1|]; by tx_inv).
    apply bind_run in Hr as (u2 & w1 & Hg2 & Hr).
    assert (w1 = w) as -> by (unfold checkEnvironmentInputGate, CheckEnvironmentInputGate in Hg2; by tx_inv).
    split; [done|]. split; [|by eapply admit_batch_stored].
    apply (moves_run (admits session key) _ _ _ _ (admit_batch_admits _ _ _ _ _) Hr).
  - left. set (all := i :: rows) in *.
    destruct (jsonb_eq (JArr (List.map (λ i, input_json (in_kind i) (in_payload i)) all)) encoded) eqn:Em;
      [|discriminate Hprev].
    rewrite batch_receipts_match in Hprev. injection Hprev as <-. cbn in Hr. tx_inv.
    split; [done|]. exists all. split; [done|]. split; [|done]. split; [done|]. eauto.
Qed.

Lemma same_inputs_advance w w' : on_db same_inputs w w' → inputs_advance w w'.
Proof.
  intros [E Hs]. unfold same_inputs in E.
  split; [by rewrite E|unfold keyed; by rewrite E|by apply inputs_wf_same|done].
Qed.

Lemma admit_batch_advance tenantID session key batch :
  moves inputs_advance (admit_batch tenantID session key 0 batch).
Proof.
  intros w. pose proof (admit_batch_admits tenantID session key 0 batch w) as Hm.
  destruct (admit_batch tenantID session key 0 batch w) as [[rs|e] w'] eqn:Hr; [|done].
  destruct Hm as [_ Hq Hs]. apply admit_batch_run in Hr as (rows & E & Hst & _ & Epos & _ & _ & _ & _ & Hno).
  pose proof (stored_kinds _ _ _ _ Hst) as Hrows. pose proof (Forall2_length _ _ _ Hst) as Hlen.
  assert (inputs_wf w → keyed (w_db w) session key ≠ [] → rows = []) as Hopen.
  { intros [_ Hf] Hk. destruct (Hf _ _ Hk) as (i & Hi & Hpos). destruct batch; [by destruct rows|].
    by destruct (Hno ltac:(done) i Hi). }
  split; [rewrite E; by apply prefix_app_r| |intros Hw|done].
  - intros s k Hw Hk. destruct (decide ((s, k) = (session, key))) as [[= -> ->]|Hne]; [|by eapply keyed_other].
    rewrite (keyed_app (w_db w) _ _ _ rows), (Hopen Hw Hk), app_nil_r by done. done.
  - split; [apply Hq, Hw|]. intros s k Hk.
    destruct (decide ((s, k) = (session, key))) as [[= -> ->]|Hne].
    + rewrite (keyed_app (w_db w) _ _ _ rows) in * by done.
      destruct (keyed (w_db w) session key) as [|i l] eqn:Ek; cbn [app] in *.
      * destruct rows as [|i rows]; [done|]. exists i. split; [by left|]. rewrite Hlen, seqZ_cons in Epos by (cbn; lia). by injection Epos.
      * destruct (iw_first _ Hw session key) as (j & Hj & Hpos); [by rewrite Ek|]. rewrite Ek in Hj. exists j.
        split; [|done]. apply (in_or_app (i :: l) rows). by left.
    + rewrite (keyed_other (w_db w) (w_db w') session key s k rows) in Hk |- * by done. by apply (iw_first _ Hw).
Qed.

Lemma insert_event_inputs session turn ordinal kind payload :
  moves inputs_advance (insert_event session turn ordinal kind payload).
Proof. apply (moves_weaken (on_db same_inputs)); [apply same_inputs_advance|]. unfold insert_event. inputs_other. Qed.

Lemma CountTurnEvent_inputs session turn n bytes : moves inputs_advance (CountTurnEvent session turn n bytes).
Proof. apply (moves_weaken (on_db same_inputs)); [apply same_inputs_advance|]. unfold CountTurnEvent. inputs_other. Qed.

#[export] Instance inputs_advance_create : CreateStatements inputs_advance.
Proof.
  split; intros; (apply (moves_weaken (on_db same_inputs)); [apply same_inputs_advance|]);
    other_statement (λ d d' : db, λ E : same_inputs d d', E).
Qed.

#[export] Instance inputs_advance_store : StoreRelation inputs_advance.
Proof.
  apply (core_relation _).
  - intros w d' []. apply same_inputs_advance. split; [done|cbn; lia].
  - apply admit_batch_advance.
  - intros. apply (append_events_moves _); intros; [apply insert_event_inputs|apply CountTurnEvent_inputs].
  - intros. apply (complete_turn_moves _); [intros; apply insert_event_inputs|intros; apply CountTurnEvent_inputs|done].
Qed.

Lemma steps_inputs w w' : steps w w' → inputs_advance w w'.
Proof. apply (steps_moves inputs_advance). Qed.

(** ** Submitting *)

(** The call passes validation and addresses a live Session of the tenant. *)
Record submit_ready (tenantID sessionID key : string) (inputs : list Input) (w : world)
    (tenant session : N) (s : session_row) (batch : list CanonInput) : Prop := MkSubmitReady {
  sr_key : validateInputKey key = Ok tt;
  sr_batch : validateInputs inputs = Ok (batch, encode_batch batch);
  sr_tenant : parseID tenantID = Ok tenant;
  sr_session : parseID sessionID = Ok session;
  sr_lock : head (List.filter (session_is tenant session) (sessions (w_db w))) = Some s;
  sr_live : s_deleted s = None;
}.

Lemma SubmitInputs_eval tenantID sessionID key inputs w tenant session s batch :
  submit_ready tenantID sessionID key inputs w tenant session s batch →
  SubmitInputs tenantID sessionID key inputs w =
    match submit_batch tenantID key batch (encode_batch batch) session w with
    | (Ok a, w1) => (Ok a, set_db w1 (pruned session (w_db w1)))
    | (Err e, w1) => (Err e, set_db w1 (w_db w))
    end.
Proof.
  intros []. unfold SubmitInputs, mbind, tx_bind, of_result. rewrite sr_key0, sr_batch0. cbn [fst snd].
  unfold withPublicSession. by rewrite (withSessionState_eval _ _ _ _ _ _ _ _ sr_tenant0 sr_session0 sr_lock0).
Qed.

Lemma SubmitInputs_ready tenantID sessionID key inputs w rs w' :
  SubmitInputs tenantID sessionID key inputs w = (Ok rs, w') →
  ∃ tenant session s batch w1,
    submit_ready tenantID sessionID key inputs w tenant session s batch
    ∧ submit_batch tenantID key batch (encode_batch batch) session w = (Ok rs, w1)
    ∧ w' = set_db w1 (pruned session (w_db w1)).
Proof.
  intros Hr. unfold SubmitInputs in Hr.
  apply bind_run in Hr as ([] & w1 & Hk & Hr). apply of_result_run in Hk as [Hk ->].
  apply bind_run in Hr as ([batch encoded] & w1 & Hb & Hr). apply of_result_run in Hb as [Hb ->].
  pose proof (validate_encoded _ _ _ Hb) as ->.
  apply withSessionState_run in Hr as (tenant & session & s & w1 & Ht & Hs & Hh & Hd & Hr & ->).
  exists tenant, session, s, batch, w1. split; [|done]. by split; auto.
Qed.

(** A stored batch is found again. *)
Lemma stored_replay tenantID key batch session w rows :
  rows ≠ [] → batch_stored (w_db w) session key batch rows →
  submit_batch tenantID key batch (encode_batch batch) session w = (Ok (receipts true rows), w).
Proof.
  intros Hne (Erows & encoded & Hj & Heq).
  unfold submit_batch, inputBatchReceipts, FindInputBatch, mbind, tx_bind, jsonb, query, of_result.
  rewrite Hj, Erows, Heq, batch_receipts_match. destruct rows; [done|]. done.
Qed.

Lemma stored_stable w w' session key batch rows :
  inputs_wf w → rows ≠ [] → inputs_advance w w' → batch_stored (w_db w) session key batch rows →
  batch_stored (w_db w') session key batch rows.
Proof.
  intros Hw Hne [_ Hclosed _ _] (Erows & Hj). split; [|done]. rewrite <- Erows.
  unfold batch_rows. change (List.filter _ (turn_inputs (w_db w'))) with (keyed (w_db w') session key).
  change (List.filter _ (turn_inputs (w_db w))) with (keyed (w_db w) session key).
  rewrite Hclosed; [done..|]. intros E. apply Hne. rewrite <- Erows. by apply batch_rows_nil.
Qed.

Lemma validate_length inputs batch encoded :
  validateInputs inputs = Ok (batch, encoded) → length batch = length inputs ∧ batch ≠ [].
Proof.
  unfold validateInputs. intros E. apply bind_Ok in E as (u & Hne & E). apply bind_Ok in E as (b & Hb & E).
  simplify_eq. apply reject_if_Ok in Hne. apply orb_false_iff in Hne as [Hne _]. apply bool_decide_eq_false_1 in Hne.
  assert (length batch = length inputs) as Hlen.
  { clear Hne. revert batch Hb. generalize 0. induction inputs as [|i inputs IH]; intros size batch Hb; cbn in Hb; [by simplify_eq|].
    apply bind_Ok in Hb as (_ & _ & Hb). apply bind_Ok in Hb as (c & _ & Hb). apply bind_Ok in Hb as (rest & Hrest & Hb).
    simplify_eq. cbn. f_equal. by eapply IH. }
  split; [done|]. intros ->. by destruct inputs.
Qed.

(** ** Properties *)

(** Along every run inputs are append-only, their sequence numbers strictly
    increase and none is ever reused, and a key that has inputs gets no more. *)
Theorem input_sequences_increase w w' :
  inputs_wf w → steps w w' →
  inputs_wf w' ∧ turn_inputs (w_db w) `prefix_of` turn_inputs (w_db w')
  ∧ ∀ session key, keyed (w_db w) session key ≠ [] → keyed (w_db w') session key = keyed (w_db w) session key.
Proof. intros Hwf Hs. destruct (steps_inputs _ _ Hs). auto 6. Qed.

(** C20. Submission is idempotent: while the Session is live, submitting an
    accepted batch again under its key, however much later, returns the same
    sequence numbers and Turns, marked replayed, and writes nothing (old public
    events of the Session may be pruned). *)
Theorem SubmitInputs_replay tenantID sessionID key inputs w w1 w2 rs tenant session s batch :
  inputs_wf w → SubmitInputs tenantID sessionID key inputs w = (Ok rs, w1) → steps w1 w2 →
  submit_ready tenantID sessionID key inputs w2 tenant session s batch →
  SubmitInputs tenantID sessionID key inputs w2
  = (Ok ((λ r, MkReceipt (rc_sequence r) (rc_turn r) true) <$> rs), set_db w2 (pruned session (w_db w2))).
Proof.
  intros Hwf Hr Hs Hready. rewrite (SubmitInputs_eval _ _ _ _ _ _ _ _ _ Hready).
  pose proof (moves_run _ _ _ _ _ (SubmitInputs_moves inputs_advance tenantID sessionID key inputs) Hr) as Hadv.
  apply ia_wf in Hadv; [|done]. apply SubmitInputs_ready in Hr as (tenant' & session' & s' & batch' & w1' & [] & Hr & ->).
  destruct Hready as [_ Hb _ Hs2 _ _]. rewrite Hb in sr_batch0. injection sr_batch0 as <- _.
  rewrite Hs2 in sr_session0. injection sr_session0 as <-.
  assert (∃ replayed rows, rows ≠ [] ∧ batch_stored (w_db w1') session key batch rows ∧ rs = receipts replayed rows)
    as (replayed & rows & Hne & Hst & ->).
  { apply submit_batch_run in Hr as [[-> (rows & Hne & Hst & ->)]|(_ & _ & rows & Hlen & Hst & -> & _)]; [eauto 10|].
    exists false, rows. split; [|done]. intros ->. by destruct (validate_length _ _ _ Hb) as [_ []]; destruct batch. }
  rewrite (stored_replay _ _ _ _ _ rows); [| |eapply (stored_stable (set_db w1' (pruned session (w_db w1')))); [done|done|by apply steps_inputs|done]]; [|done].
  f_equal. f_equal. unfold receipts. rewrite <- list_fmap_compose. done.
Qed.

(** A first submission under a key admits the whole batch: one receipt per
    input, in order, with sequence numbers beyond every earlier one. *)
Theorem SubmitInputs_admits tenantID sessionID key inputs w w1 rs session :
  inputs_wf w → parseID sessionID = Ok session → keyed (w_db w) session key = [] →
  SubmitInputs tenantID sessionID key inputs w = (Ok rs, w1) →
  length rs = length inputs ∧ StronglySorted Z.lt (rc_sequence <$> rs)
  ∧ (∀ r i, In r rs → In i (turn_inputs (w_db w)) → in_seq i < rc_sequence r)
  ∧ (∀ r, In r rs → rc_replayed r = false).
Proof.
  intros Hwf Hs Hk Hr. apply SubmitInputs_ready in Hr as (tenant & session' & s & batch & w1' & [] & Hr & _).
  rewrite Hs in sr_session0. injection sr_session0 as <-. destruct (validate_length _ _ _ sr_batch0) as [Hlen Hne].
  apply submit_batch_run in Hr as [[_ (rows & Hrows & (E & _) & _)]|(_ & _ & rows & Hl & _ & -> & Hsort & Hdrawn)].
  { apply batch_rows_nil in Hk. congruence. }
  unfold receipts. split; [rewrite length_fmap; congruence|]. split; [by rewrite <- list_fmap_compose|]. split.
  - intros r i Hr Hi. apply list_elem_of_In, list_elem_of_fmap in Hr as (j & -> & Hj). cbn.
    rewrite Forall_forall in Hdrawn. apply Hdrawn in Hj.
    destruct Hwf as [[_ Hd] _]. rewrite Forall_forall in Hd. apply list_elem_of_In, Hd in Hi. lia.
  - intros r Hr. by apply list_elem_of_In, list_elem_of_fmap in Hr as (j & -> & _).
Qed.

(** A key is bound to its batch: while it has inputs, submitting a batch
    that differs as JSON is refused with [ErrIdempotencyConflict] and changes
    nothing. *)
Theorem SubmitInputs_conflict tenantID sessionID key inputs w tenant session s batch encoded :
  submit_ready tenantID sessionID key inputs w tenant session s batch →
  keyed (w_db w) session key ≠ [] → jsonb_in (encode_batch batch) = Some encoded →
  jsonb_eq (JArr (List.map (λ i, input_json (in_kind i) (in_payload i)) (batch_rows (w_db w) session key))) encoded = false →
  SubmitInputs tenantID sessionID key inputs w = (Err ErrIdempotencyConflict, w).
Proof.
  intros Hready Hk Hj Hne. rewrite (SubmitInputs_eval _ _ _ _ _ _ _ _ _ Hready).
  unfold submit_batch, inputBatchReceipts, FindInputBatch, mbind, tx_bind, jsonb, query, of_result.
  rewrite Hj, Hne. destruct (batch_rows (w_db w) session key) as [|i rows] eqn:E; [by apply batch_rows_nil in E|].
  by destruct w.
Qed.

End inputs.

(** ** Witnesses *)

Lemma world0_inputs_wf : inputs_wf world0.
Proof. split; [split; [constructor..|done]|done]. Qed.

Lemma input_sequences_increase_witness :
  inputs_wf completed_world ∧ in_seq <$> turn_inputs (w_db completed_world) = [1].
Proof.
  split; [|vm_compute; reflexivity].
  apply (input_sequences_increase world0 completed_world); [apply world0_inputs_wf|exact to_completed_steps].
Defined.

Lemma SubmitInputs_replay_witness :
  (SubmitInputs tenant_id session_id "k1" [text_input "hello"] completed_world).1 = Ok [MkReceipt 1 turn_id true].
Proof.
  rewrite (SubmitInputs_replay tenant_id session_id "k1" [text_input "hello"] world0 queued_world completed_world
            [MkReceipt 1 turn_id false] 1%N 2%N (hd demo_session (sessions (w_db completed_world)))
            [("message", JObj [("text", JStr "hello")])]).
  - reflexivity.
  - exact world0_inputs_wf.
  - vm_compute; reflexivity.
  - exact queued_completed_steps.
  - split; vm_compute; reflexivity.
Defined.

Lemma SubmitInputs_admits_witness :
  let rs := [MkReceipt 1 turn_id false; MkReceipt 2 turn_id false] in
  length rs = 2%nat ∧ StronglySorted Z.lt (rc_sequence <$> rs).
Proof.
  destruct (SubmitInputs_admits tenant_id session_id "k9" [text_input "a"; text_input "b"] world0
              (SubmitInputs tenant_id session_id "k9" [text_input "a"; text_input "b"] world0).2
              [MkReceipt 1 turn_id false; MkReceipt 2 turn_id false] 2%N) as (Hl & Hsort & _).
  - apply world0_inputs_wf.
  - vm_compute; reflexivity.
  - vm_compute; reflexivity.
  - vm_compute; reflexivity.
  - split; [exact Hl|exact Hsort].
Defined.

Lemma SubmitInputs_conflict_witness :
  SubmitInputs tenant_id session_id "k1" [text_input "other"] queued_world = (Err ErrIdempotencyConflict, queued_world).
Proof.
  apply (SubmitInputs_conflict tenant_id session_id "k1" [text_input "other"] queued_world 1%N 2%N
           (hd demo_session (sessions (w_db queued_world)))
           [("message", JObj [("text", JStr "other")])]
           (JArr [JObj [("kind", JStr "message"); ("payload", JObj [("text", JStr "other")])]])).
  - split; vm_compute; reflexivity.
  - vm_compute; discriminate.
  - vm_compute; reflexivity.
  - vm_compute; reflexivity.
Defined.
