(* ===== verification/Outcomes.v ===== *)
(** * Outcomes

    What the operations that move a Turn do to it: transitions, completion,
    cancellation, deletion of the Session; and that a failed request changes
    nothing. *)
From stdpp Require Import base tactics list strings numbers relations.
From S2P Require Import Prelude GoJson Contract Items Database Queries SessionLog Turns Relations Scenario Frames Lifecycle Calls.

Section outcomes.
Context `{UUIDs, Oracle, EventSizes}.

(** ** Runs of the pieces *)

Lemma projectSource_frame session turn kind sequence raw created w u w' :
  projectSource session turn kind sequence raw created w = (Ok u, w') → log_frame (w_db w) (w_db w').
Proof. intros Hr. eapply moves_run in Hr; [|by apply (projectSource_moves (on_db log_frame))]. apply Hr. Qed.

Lemma get_turn_run p w o w' :
  get_turn p w = (Ok o, w') →
  w' = w ∧ ∀ t, o = Some t → head (List.filter (turn_is (lk_session p) (lk_turn p)) (turns (w_db w))) = Some t.
Proof.
  unfold get_turn, GetTurnQ. intros Hr. apply query_run in Hr as [-> ->]. split; [done|].
  by destruct (tenant_session _ _ _).
Qed.

(** The row a Turn's identifier selects, and the state it must be in. *)
Definition turn_at (d : db) (session id : N) (status : string) : Prop :=
  ∃ t, head (List.filter (turn_is session id) (turns d)) = Some t ∧ t_status t = status.

(** Only the Turn's own row is selected. *)
Lemma selected_row d session id t t' :
  turns_wf d → head (List.filter (turn_is session id) (turns d)) = Some t →
  In t' (turns d) → turn_is session id t' = true → t' = t.
Proof.
  intros Hwf Ht Hin Hid. apply lookup_turn_row in Ht as (Hin0 & Hs & Hi).
  apply (nodup_key t_id (turns d)); [apply Hwf|done..|]. unfold turn_is in Hid. by bsolve.
Qed.

Lemma select_row d t :
  turns_wf d → In t (turns d) → head (List.filter (turn_is (t_session t) (t_id t)) (turns d)) = Some t.
Proof.
  intros Hwf Hin. destruct (head _) as [t'|] eqn:E.
  - f_equal. apply lookup_turn_row in E as (Hin' & _ & Hi). by apply (nodup_key t_id (turns d)); [apply Hwf|..].
  - rewrite head_filter_None in E. specialize (E t Hin). by rewrite turn_is_self in E.
Qed.

(** Logging keeps the selected row, less its token usage. *)
Lemma frame_select d d' session id t :
  log_frame d d' → head (List.filter (turn_is session id) (turns d)) = Some t →
  ∃ t', head (List.filter (turn_is session id) (turns d')) = Some t' ∧ turn_core t' = turn_core t.
Proof.
  intros Hf Ht. pose proof (core_filter turn_core (turn_is session id) _ _ ltac:(intros a b E; by destruct a, b; injection E as; unfold turn_is; cbn; subst) (lf_turns _ _ Hf)) as E.
  apply core_head in E. rewrite Ht in E. cbn in E. apply fmap_Some in E as (t' & -> & E). by exists t'.
Qed.

Lemma core_status t t' : turn_core t' = turn_core t →
  t_id t' = t_id t ∧ t_session t' = t_session t ∧ t_status t' = t_status t ∧ t_outcome t' = t_outcome t
  ∧ t_cancel t' = t_cancel t ∧ t_completed t' = t_completed t ∧ t_event_count t' = t_event_count t.
Proof. destruct t, t'. intros E. injection E as. cbn. by subst. Qed.

(** A transition moves exactly the selected row. *)
Lemma transition_select id session expected new outcome w t' w' :
  turns_wf (w_db w) → TransitionTurnQ id session expected new outcome w = (Ok (Some t'), w') →
  ∃ t, head (List.filter (turn_is session id) (turns (w_db w))) = Some t
    ∧ t_status t = expected ∧ (new = "in_progress" → t_cancel t = None)
    ∧ head (List.filter (turn_is session id) (turns (w_db w'))) = Some t'
    ∧ t_status t' = new ∧ t_cancel t' = t_cancel t ∧ t_event_count t' = t_event_count t
    ∧ t_session t' = session ∧ t_id t' = id
    ∧ turn_inputs (w_db w') = turn_inputs (w_db w) ∧ reservations (w_db w') = reservations (w_db w).
Proof.
  intros Hwf Hr. apply TransitionTurnQ_run in Hr as (t & now & o & Hin & Hm & _ & -> & Ed).
  pose proof Hm as Hm'. unfold may_transition in Hm'. apply andb_true_iff in Hm' as [Hm' Hc].
  apply andb_true_iff in Hm' as [Hm' _]. apply andb_true_iff in Hm' as [Hid Hst]. apply bool_decide_eq_true_1 in Hst.
  assert (t_session t = session ∧ t_id t = id) as [<- <-] by (unfold turn_is in Hid; by bsolve).
  exists t. split; [by apply select_row|]. split; [done|]. split.
  { intros ->. rewrite bool_decide_eq_true_2 in Hc by done. cbn in Hc. by apply bool_decide_eq_true_1 in Hc. }
  rewrite Ed. cbn [turns with_turns]. split; [|done].
  rewrite update_where_filter by done.
  assert (head (List.filter (turn_is (t_session t) (t_id t)) (turns (w_db w))) = Some t) as Eh by (by apply select_row).
  destruct (List.filter _ _) as [|u l]; [done|]. cbn in Eh |- *. injection Eh as ->. by rewrite Hm.
Qed.

(** ** Transitions *)

Lemma transitionTurn_run p expected status outcome w row w' :
  turns_wf (w_db w) → transitionTurn p expected status outcome w = (Ok row, w') →
  ∃ t t', head (List.filter (turn_is (lk_session p) (lk_turn p)) (turns (w_db w))) = Some t
    ∧ t_status t = expected ∧ (status = "in_progress" → t_cancel t = None)
    ∧ head (List.filter (turn_is (lk_session p) (lk_turn p)) (turns (w_db w'))) = Some t'
    ∧ t_status t' = status ∧ t_status row = status ∧ t_id row = lk_turn p
    ∧ turn_inputs (w_db w') = turn_inputs (w_db w) ∧ reservations (w_db w') = reservations (w_db w).
Proof.
  intros Hwf Hr. unfold transitionTurn in Hr.
  apply bind_run in Hr as (t0 & w3 & Hmust & Hr). apply must_turn_run in Hmust as (-> & _).
  apply bind_run in Hr as ([t1|] & w3 & Hmove & Hr); [|discriminate Hr].
  destruct (transition_select _ _ _ _ _ _ _ _ Hwf Hmove) as (t & Ht & Hst & Hc & Ht1 & Hst1 & _ & _ & Hs1 & Hi1 & Ei & Er).
  exists t.
  apply bind_run in Hr as (row' & w4 & Hproj & Hr). apply bind_run in Hr as (u & w5 & Hlog & Hr). tx_inv.
  apply recordTurnChange_frame in Hlog.
  assert (∃ t2, head (List.filter (turn_is (lk_session p) (lk_turn p)) (turns (w_db w4))) = Some t2
            ∧ t_status t2 = status ∧ t_status row' = status ∧ t_id row' = lk_turn p
            ∧ turn_inputs (w_db w4) = turn_inputs (w_db w3) ∧ reservations (w_db w4) = reservations (w_db w3))
    as (t2 & Ht2 & Hst2 & Hrow & Hid & Ei4 & Er4).
  { destruct (terminalStatus (t_status t1)); [|tx_inv; by exists t1].
    apply bind_run in Hproj as (u1 & w6 & Hsrc & Hproj). apply projectSource_frame in Hsrc.
    apply bind_run in Hproj as (again & w7 & Hget & Hproj). apply get_turn_run in Hget as [-> Hget].
    destruct again as [r|]; [|discriminate Hproj]. tx_inv. specialize (Hget r eq_refl).
    destruct (frame_select _ _ _ _ _ Hsrc Ht1) as (t2 & Ht2 & E%core_status). rewrite Hget in Ht2. injection Ht2 as <-.
    exists r. split; [done|]. destruct E as (Ei' & _ & Es & _). rewrite Es, Ei'. by destruct Hsrc. }
  destruct (frame_select _ _ _ _ _ Hlog Ht2) as (t3 & Ht3 & E%core_status). exists t3.
  destruct E as (_ & _ & Es & _). rewrite Es, (lf_inputs _ _ Hlog), (lf_reservations _ _ Hlog), Ei4, Er4. done.
Qed.

(** A successful [TransitionTurn] moved the Turn it names along an edge of
    the state machine: it was in the expected state, a cancelled Turn was not
    started, it is now in the requested state, and that row is returned. *)
Theorem TransitionTurn_spec tenantID sessionID turnID expected status outcome w turn w' p :
  turns_wf (w_db w) → turnLookup tenantID sessionID turnID = Ok p →
  TransitionTurn tenantID sessionID turnID expected status outcome w = (Ok turn, w') →
  validTransition expected status = true
  ∧ (∃ t, head (List.filter (turn_is (lk_session p) (lk_turn p)) (turns (w_db w))) = Some t
      ∧ t_status t = expected ∧ (status = "in_progress" → t_cancel t = None))
  ∧ (∃ t', head (List.filter (turn_is (lk_session p) (lk_turn p)) (turns (w_db w'))) = Some t'
      ∧ t_status t' = status ∧ tn_status turn = status ∧ tn_id turn = uuid_string (lk_turn p)).
Proof.
  intros Hwf Hp Hr. unfold TransitionTurn in Hr. rewrite Hp in Hr.
  apply bind_run in Hr as (p' & w1 & Hq & Hr). apply of_result_run in Hq as [[= <-] ->].
  apply bind_run in Hr as ([] & w1 & Hv & Hr). apply require_run in Hv as [Hv ->]. apply andb_true_iff in Hv as [Hv _].
  apply bind_run in Hr as (o & w1 & Ho & Hr). apply of_result_run in Ho as [_ ->].
  apply bind_run in Hr as ([] & w1 & Ht & Hr). apply require_run in Ht as [_ ->].
  apply bind_run in Hr as (row & w1 & Hr & Hret). tx_inv.
  apply withSessionState_run in Hr as (tenant & session & s & w2 & _ & _ & _ & _ & Hr & ->).
  split; [done|]. destruct (transitionTurn_run _ _ _ _ _ _ _ Hwf Hr) as (t & t' & Ht & Hst & Hc & Ht' & Hst' & Hrow & Hid & _).
  split; [by exists t|]. exists t'. cbn. by rewrite Hrow, Hid.
Qed.

(** ** Completion *)

Lemma frame_turn_at d d' session id status :
  log_frame d d' → turn_at d session id status → turn_at d' session id status.
Proof.
  intros Hf (t & Ht & Hst). destruct (frame_select _ _ _ _ _ Hf Ht) as (t' & Ht' & E%core_status).
  exists t'. split; [done|]. destruct E as (_ & _ & -> & _). done.
Qed.

Lemma insertTurnEvent_turn_at row kind payload w u w' session id status :
  insertTurnEvent row kind payload w = (Ok u, w') →
  turn_at (w_db w) session id status → turn_at (w_db w') session id status.
Proof.
  unfold insertTurnEvent, InsertTurnEvent, insert_event, CountTurnEvent. intros Hr (t & Ht & Hst).
  apply bind_run in Hr as (u1 & w1 & Hins & Hr). apply bind_run in Hr as (u2 & w2 & Hc & Hr).
  assert (turns (w_db w1) = turns (w_db w)) as E1 by (revert Hins; run_tx; try (intros; discriminate); by intros [= <- <-]).
  eapply frame_turn_at.
  { eapply moves_run in Hr; [|by apply (indexEvents_moves (on_db log_frame))]. apply Hr. }
  apply exec_run in Hc as ->. exists (if turn_is (t_session row) (t_id row) t then count_row 1 (json_len payload) t else t).
  cbn. rewrite E1, update_where_filter by done.
  destruct (List.filter _ _) as [|t0 l]; [done|]. cbn in Ht |- *. injection Ht as ->.
  split; [done|]. by destruct (turn_is _ _ t).
Qed.

(** What a completion that succeeds has done. *)
Lemma complete_execution_run tenantID sessionID turnID status outcome native applied w turn w' p :
  turns_wf (w_db w) → turnLookup tenantID sessionID turnID = Ok p →
  CompleteExecution tenantID sessionID turnID status outcome native applied w = (Ok turn, w') →
  terminalStatus status = true
  ∧ (∃ t, head (List.filter (turn_is (lk_session p) (lk_turn p)) (turns (w_db w))) = Some t
      ∧ (t_status t = "in_progress" ∨ t_status t = "waiting" ∧ status ≠ "completed"))
  ∧ turn_at (w_db w') (lk_session p) (lk_turn p) status ∧ tn_status turn = status
  ∧ (status = "completed" → ∀ i, In i (turn_inputs (w_db w)) → in_session i = lk_session p →
       in_turn i = Some (lk_turn p) → in_kind i = "message" → in_seq i ≤ applied).
Proof.
  intros Hwf Hp Hr. unfold CompleteExecution in Hr. rewrite Hp in Hr.
  destruct (turnLookup_run _ _ _ _ Hp) as (_ & Hs & _).
  apply bind_run in Hr as (p' & w1 & Hq & Hr). apply of_result_run in Hq as [[= <-] ->].
  apply bind_run in Hr as ([] & w1 & Hv & Hr). apply require_run in Hv as [Hv ->]. bsolve.
  apply bind_run in Hr as (o & w1 & Ho & Hr). apply of_result_run in Ho as [_ ->].
  apply bind_run in Hr as (row & w1 & Hr & Hret). tx_inv.
  apply withSessionState_run in Hr as (tenant & session & s & w2 & _ & Hs' & _ & _ & Hr & ->).
  rewrite Hs in Hs'. injection Hs' as <-. split; [done|]. unfold complete_turn, HasUnappliedMessages in Hr.
  apply bind_run in Hr as (t & w3 & Ht & Hr). apply must_turn_run in Ht as (-> & _ & Ht).
  apply bind_run in Hr as ([] & w3 & Hact & Hr). apply require_run in Hact as [Hact ->].
  apply bind_run in Hr as ([] & w3 & Hpend & Hr).
  assert (w3 = w ∧ (status = "completed" → existsb (λ i, (in_session i =?s lk_session p) && (in_turn i =?s Some (lk_turn p))
             && (applied <? in_seq i) && (in_kind i =?s "message")) (turn_inputs (w_db w)) = false)) as [-> Hnone].
  { destruct (status =?s "completed") eqn:Est.
    - apply bind_run in Hpend as (b & w4 & Hb & Hpend). apply query_run in Hb as [-> ->].
      apply require_run in Hpend as [Hb ->]. split; [done|]. intros _. by apply negb_true_iff.
    - apply ret_run in Hpend as [_ ->]. split; [done|]. intros ->. by apply bool_decide_eq_false_1 in Est. }
  apply bind_run in Hr as ([t1|] & w3 & Hmove & Hr); [|discriminate Hr].
  destruct (transition_select _ _ _ _ _ _ _ _ Hwf Hmove) as (t' & Ht' & _ & _ & Ht1 & Hst1 & _).
  apply bind_run in Hr as (u1 & w4 & Hins & Hr).
  apply (insertTurnEvent_turn_at _ _ _ _ _ _ (lk_session p) (lk_turn p) status) in Hins; [|by exists t1].
  apply bind_run in Hr as (u2 & w5 & Hnat & Hr).
  assert (turns (w_db w5) = turns (w_db w4)) as E5.
  { clear -Hnat. destruct (negb _); [unfold RememberNativeSession in Hnat|]; tx_inv; done. }
  apply bind_run in Hr as (again & w6 & Hget & Hr). apply get_turn_run in Hget as [-> Hget].
  destruct again as [r|]; [|discriminate Hr]. specialize (Hget r eq_refl).
  apply bind_run in Hr as (u3 & w7 & Hlog & Hr). tx_inv. apply recordTurnChange_frame in Hlog.
  destruct Hins as (t2 & Ht2 & Hst2). rewrite <- E5, Hget in Ht2. injection Ht2 as <-.
  split; [|split; [|split; [done|]]].
  - exists t. split; [done|]. apply orb_true_iff in Hact as [Hact|Hact]; [left|right]; bsolve; done.
  - apply (frame_turn_at _ _ _ _ _ Hlog). by exists r.
  - intros -> i Hi Hsi Hti Hki. specialize (Hnone eq_refl). rewrite existsb_false_iff in Hnone.
    specialize (Hnone i Hi). rewrite Hsi, Hti, Hki, !bool_decide_eq_true_2 in Hnone by done.
    cbn in Hnone. rewrite andb_true_r in Hnone. by apply Z.ltb_ge in Hnone.
Qed.

(** A successful [CompleteExecution] settles a running Turn with the given
    status and records its final event; it reports completion only when every
    message of the Turn up to now was applied, and never from a Turn that
    still waits for function results. *)
Theorem CompleteExecution_spec tenantID sessionID turnID status outcome native applied w turn w' p :
  turns_wf (w_db w) → turnLookup tenantID sessionID turnID = Ok p →
  CompleteExecution tenantID sessionID turnID status outcome native applied w = (Ok turn, w') →
  terminalStatus status = true
  ∧ (∃ t, head (List.filter (turn_is (lk_session p) (lk_turn p)) (turns (w_db w))) = Some t
      ∧ (t_status t = "in_progress" ∨ t_status t = "waiting" ∧ status ≠ "completed"))
  ∧ turn_at (w_db w') (lk_session p) (lk_turn p) status ∧ tn_status turn = status
  ∧ (status = "completed" → ∀ i, In i (turn_inputs (w_db w)) → in_session i = lk_session p →
       in_turn i = Some (lk_turn p) → in_kind i = "message" → in_seq i ≤ applied).
Proof. apply complete_execution_run. Qed.

(** ** Failure *)


(** ** Deletion *)

(** Cancelling is one update of the Turn table, and logging. *)
Lemma requestTurnCancel_run session turn w u w' :
  requestTurnCancel session turn w = (Ok u, w') →
  ∃ now1 now2, log_frame (with_turns (w_db w)
      (update_where (λ t, turn_is session (t_id turn) t && active_status (t_status t))
         (cancel_row now1 now2) (turns (w_db w)))) (w_db w').
Proof.
  intros Hr. unfold requestTurnCancel, RequestTurnCancel, SessionEventTurn in Hr.
  apply bind_run in Hr as (u1 & w1 & Hc & Hr).
  apply bind_run in Hc as (now1 & w2 & Hn1 & Hc). apply clock_run in Hn1 as [E1 _].
  apply bind_run in Hc as (now2 & w3 & Hn2 & Hc). apply clock_run in Hn2 as [E2 _]. apply exec_run in Hc as ->.
  exists now1, now2. rewrite <- E1, <- E2.
  destruct (t_status turn =?s "queued"); [|destruct (_ && _); [|by tx_inv]];
    apply bind_run in Hr as (o & w4 & Ho & Hr); apply query_run in Ho as [-> ->];
    (destruct (head _); [|discriminate Hr]);
    [by apply recordTurnChange_frame in Hr|by apply recordSessionActivity_frame in Hr].
Qed.

(** A Session has one active Turn. *)
Lemma one_active d session a b :
  turns_wf d → In a (turns d) → In b (turns d) → active_in session a = true → active_in session b = true → a = b.
Proof.
  intros Hwf Ha Hb Haa Hba. pose proof (tw_active _ Hwf session) as Hlen.
  assert (In a (List.filter (active_in session) (turns d))) as Hina by (by apply List.filter_In).
  assert (In b (List.filter (active_in session) (turns d))) as Hinb by (by apply List.filter_In).
  destruct (List.filter _ _) as [|x [|y l]]; cbn in *; [done| |lia]. naive_solver.
Qed.

(** After the active Turn was cancelled, whatever is still active carries the
    request and is not queued. *)
Lemma cancelled_actives d d' session turn now1 now2 :
  turns_wf d → In turn (turns d) → active_in session turn = true →
  log_frame (with_turns d (update_where (λ t, turn_is session (t_id turn) t && active_status (t_status t))
    (cancel_row now1 now2) (turns d))) d' →
  ∀ t, In t (turns d') → active_in session t = true → is_Some (t_cancel t) ∧ t_status t ≠ "queued".
Proof.
  intros Hwf Hturn Hact Hf t Ht Ha.
  destruct (core_row turn_core turn_core _ _ _ (λ _ _ E, E) (lf_turns _ _ Hf) Ht) as (t0 & Hin & E & _).
  apply core_status in E as (_ & Es & Est & _ & Ec & _). unfold active_in in Ha. rewrite Es, Est in Ha.
  rewrite Ec, Est. cbn in Hin. apply in_update_where in Hin as (t1 & Hin & ->).
  destruct (turn_is session (t_id turn) t1 && active_status (t_status t1)) eqn:Ep.
  - cbn in *. split; [done|]. by case_bool_decide.
  - assert (t1 = turn) as -> by (by eapply one_active).
    unfold active_in, turn_is in *. apply andb_true_iff in Hact as [Hs Hact].
    rewrite Hs, Hact, bool_decide_eq_true_2 in Ep by done. done.
Qed.

Lemma cancelled_inputs session now l r :
  In r (update_where (λ r, (r_session r =?s session) && (r_state r =?s "pending")) (settle_row now "cancelled") l) →
  r_session r = session → r_state r ≠ "pending".
Proof.
  intros Hin Hid. apply in_update_where in Hin as (r0 & Hin & ->).
  destruct ((r_session r0 =?s session) && (r_state r0 =?s "pending")) eqn:Ep; [done|].
  intros E. rewrite Hid, E, !bool_decide_eq_true_2 in Ep by done. done.
Qed.

(** Cancelling a Session's work leaves nothing of it waiting or uncancelled. *)
Lemma cancelSessionWork_run session w u w' :
  turns_wf (w_db w) → cancelSessionWork session w = (Ok u, w') →
  (∀ t, In t (turns (w_db w')) → active_in session t = true → is_Some (t_cancel t) ∧ t_status t ≠ "queued")
  ∧ (∀ r, In r (reservations (w_db w')) → r_session r = session → r_state r ≠ "pending")
  ∧ environments (w_db w') = environments (w_db w) ∧ devices (w_db w') = devices (w_db w)
  ∧ allocations (w_db w') = allocations (w_db w).
Proof.
  intros Hwf Hr. unfold cancelSessionWork, GetActiveTurn in Hr.
  apply bind_run in Hr as (o & w4 & Ho & Hr). apply query_run in Ho as [-> ->].
  apply bind_run in Hr as (u3 & w4 & Hcancel & Hr). unfold CancelSessionEnvironmentInput in Hr.
  apply bind_run in Hr as (now' & w5 & Hn' & Hr). apply clock_run in Hn' as [En' _]. apply exec_run in Hr as ->.
  cbn. rewrite En'. destruct (head _) as [t|] eqn:Eh.
  - apply head_filter_Some in Eh as [Hin Ha]. apply requestTurnCancel_run in Hcancel as (n1 & n2 & Hf).
    split; [by eapply cancelled_actives|]. split; [apply cancelled_inputs|]. destruct Hf. by repeat split.
  - apply ret_run in Hcancel as [_ ->]. rewrite head_filter_None in Eh.
    split; [intros t Hin Ha; by rewrite Eh in Ha|]. split; [apply cancelled_inputs|done].
Qed.

(** C22. Deleting a Session hides it, cancels its work and drops its artifacts:
    afterwards the Session is marked deleted, no Turn of it is queued and every
    active one carries a cancellation, no input waits for its environment, and
    it has no artifacts left. *)
Theorem DeleteSession_spec tenantID sessionID w w' tenant session :
  turns_wf (w_db w) → parseID tenantID = Ok tenant → parseID sessionID = Ok session →
  DeleteSession tenantID sessionID w = (Ok tt, w') →
  (∀ s, In s (sessions (w_db w')) → s_id s = session → is_Some (s_deleted s))
  ∧ (∀ t, In t (turns (w_db w')) → active_in session t = true → is_Some (t_cancel t) ∧ t_status t ≠ "queued")
  ∧ (∀ r, In r (reservations (w_db w')) → r_session r = session → r_state r ≠ "pending")
  ∧ (∀ a, In a (artifacts (w_db w')) → ar_session a ≠ session).
Proof.
  intros Hwf Ht Hs Hr. apply withSessionState_run in Hr as (tenant' & session' & s & w1 & _ & Hs' & _ & _ & Hr & ->).
  rewrite Hs in Hs'. injection Hs' as <-.
  apply bind_run in Hr as (u1 & w2 & Hwork & Hr). apply bind_run in Hr as (u2 & w3 & Hart & Hr).
  apply exec_run in Hart as ->. unfold MarkSessionDeleted in Hr.
  apply bind_run in Hr as (now & w3 & Hn & Hr). apply clock_run in Hn as [En _]. apply exec_run in Hr as ->.
  apply cancelSessionWork_run in Hwork as (Hact & Hres & _); [|done].
  cbn. rewrite En. cbn. split; [|split; [done|split; [done|]]].
  - intros s' Hin Hid. apply in_update_where in Hin as (s0 & Hin & ->).
    destruct (decide (s_deleted s0 = None)) as [E|E].
    + destruct ((s_id s0 =?s session) && _) eqn:Ep; [done|].
      rewrite (bool_decide_eq_true_2 (s_deleted s0 = None)) in Ep by done. rewrite andb_true_r in Ep. by bsolve.
    + rewrite (bool_decide_eq_false_2 (s_deleted s0 = None)), andb_false_r by done. by apply not_eq_None_Some.
  - intros a Hin Hid. apply List.filter_In in Hin as [_ Hn']. by rewrite bool_decide_eq_true_2 in Hn'.
Qed.

(** ** Cancellation *)

(** A cancellation takes effect at once on a queued Turn, which becomes
    cancelled; a running or waiting Turn stays as it is with the request
    recorded for its executor. *)
Theorem cancel_input_spec session turn w u w' :
  turns_wf (w_db w) → In turn (turns (w_db w)) → active_in session turn = true →
  requestTurnCancel session turn w = (Ok u, w') →
  ∃ t', head (List.filter (turn_is session (t_id turn)) (turns (w_db w'))) = Some t'
    ∧ is_Some (t_cancel t')
    ∧ (t_status turn = "queued" → t_status t' = "cancelled" ∧ is_Some (t_completed t'))
    ∧ (t_status turn ≠ "queued" → t_status t' = t_status turn).
Proof.
  intros Hwf Hin Ha Hr. apply requestTurnCancel_run in Hr as (now1 & now2 & Hf).
  unfold active_in in Ha. apply andb_true_iff in Ha as [Hs Ha]. apply bool_decide_eq_true_1 in Hs as <-.
  pose proof (select_row _ _ Hwf Hin) as Ht.
  destruct (frame_select _ _ (t_session turn) (t_id turn) (cancel_row now1 now2 turn) Hf) as (t' & Ht' & E%core_status).
  { cbn. rewrite update_where_filter by done. destruct (List.filter _ _) as [|t0 l]; [done|]. cbn in Ht |- *.
    injection Ht as ->. by rewrite turn_is_self, Ha. }
  exists t'. split; [done|]. destruct E as (_ & _ & Es & _ & Ec & Ed & _). rewrite Ec, Es, Ed. cbn.
  split; [done|]. split; [intros ->; done|]. intros Hn. by rewrite bool_decide_eq_false_2.
Qed.

End outcomes.

(** ** Witnesses *)

Lemma queued_world_wf : turns_wf (w_db queued_world).
Proof. exact (steps_turns_wf _ _ queued_steps world0_turns_wf). Qed.

Lemma TransitionTurn_spec_witness :
  ∃ t', head (List.filter (turn_is 2 100) (turns (w_db started_world))) = Some t' ∧ t_status t' = "in_progress".
Proof.
  destruct (TransitionTurn_spec tenant_id session_id turn_id "queued" "in_progress" empty_object
              queued_world (turnFromRow (turn_of started_world)) started_world demo_lookup)
    as (_ & _ & t' & Ht' & Hs & _).
  - exact queued_world_wf.
  - vm_compute; reflexivity.
  - vm_compute; reflexivity.
  - exists t'. split; [exact Ht'|exact Hs].
Defined.

Lemma resumed_world_wf : turns_wf (w_db resumed_world).
Proof. exact (steps_turns_wf _ _ (steps_trans _ _ _ to_called_steps resumed_steps) world0_turns_wf). Qed.

Lemma CompleteExecution_spec_witness :
  turn_at (w_db completed_world) 2 100 "completed"
  ∧ ∀ i, In i (turn_inputs (w_db resumed_world)) → in_session i = 2%N → in_turn i = Some 100%N →
      in_kind i = "message" → in_seq i ≤ 1.
Proof.
  destruct (CompleteExecution_spec tenant_id session_id turn_id "completed" empty_object "" 1
              resumed_world (turnFromRow (turn_of completed_world)) completed_world demo_lookup)
    as (_ & _ & Hat & _ & Happlied).
  - exact resumed_world_wf.
  - vm_compute; reflexivity.
  - vm_compute; reflexivity.
  - split; [exact Hat|exact (Happlied eq_refl)].
Defined.


Definition deleted_world : world := (DeleteSession tenant_id session_id started_world).2.

Lemma DeleteSession_spec_witness :
  (∀ s, In s (sessions (w_db deleted_world)) → s_id s = 2%N → is_Some (s_deleted s))
  ∧ t_status <$> turns (w_db deleted_world) = ["in_progress"].
Proof.
  split; [|vm_compute; reflexivity].
  apply (DeleteSession_spec tenant_id session_id started_world deleted_world 1 2).
  - exact (steps_turns_wf _ _ (steps_trans _ _ _ queued_steps started_steps) world0_turns_wf).
  - vm_compute; reflexivity.
  - vm_compute; reflexivity.
  - vm_compute; reflexivity.
Defined.

Lemma cancel_input_spec_witness :
  ∃ t', head (List.filter (turn_is 2 100) (turns (w_db (requestTurnCancel 2 (turn_of queued_world) queued_world).2))) = Some t'
    ∧ t_status t' = "cancelled".
Proof.
  destruct (cancel_input_spec 2 (turn_of queued_world) queued_world tt
              (requestTurnCancel 2 (turn_of queued_world) queued_world).2) as (t' & Ht' & _ & Hq & _).
  - exact queued_world_wf.
  - vm_compute; auto.
  - vm_compute; reflexivity.
  - vm_compute; reflexivity.
  - exists t'. split; [exact Ht'|]. apply Hq. vm_compute; reflexivity.
Defined.
