(* ===== verification/ItemFacts.v ===== *)
(** * ItemFacts

    Items and payloads: what a merge may change, how streamed text adds up, what
    projected Items look like, which token counts are believed, and what input
    validation lets through. *)
From stdpp Require Import base tactics list strings numbers pretty.
From S2P Require Import Prelude GoJson Contract Items Database Queries SessionLog Turns Scenario.

Section items.
Context `{UUIDs}.

(** ** Merging *)

(** A settled Item is final: an update of any kind that merges into an Item
    that is not in progress leaves it as it is; the single exception is a
    legacy final message, which may replace an incomplete one. *)
Theorem Merge_settled update previous item :
  it_id previous ≠ "" → it_status previous ≠ "in_progress" →
  up_legacy update = false ∨ it_status previous ≠ "incomplete" →
  Merge update previous = Ok item → item = previous.
Proof.
  intros Hid Hst Hleg Hm. unfold Merge in Hm. destruct (up_command_delta update) as [delta|].
  - unfold mergeCommandOutput in Hm. apply bind_Ok in Hm as (u & _ & Hm).
    rewrite bool_decide_eq_false_2 in Hm by done. by simplify_eq/=.
  - rewrite (bool_decide_eq_false_2 (it_id previous = "")) in Hm by done.
    rewrite (bool_decide_eq_false_2 (it_status previous = "in_progress")) in Hm by done.
    assert (up_legacy update && (it_status previous =?s "incomplete") = false) as E.
    { destruct Hleg as [->|?]; [done|]. rewrite bool_decide_eq_false_2 by done. by destruct (up_legacy update). }
    rewrite E in Hm. by simplify_eq/=.
Qed.

(** Observations folded into one Item, as [projectItemSource] does with the
    stored Item. *)
Fixpoint merge_updates (updates : list Update) (item : Item) : result Item :=
  match updates with
  | [] => Ok item
  | u :: updates' => i ← Merge u item; merge_updates updates' i
  end.

Fixpoint observe_all (turn kind : string) (raws : list json) (item : Item) : result Item :=
  match raws with
  | [] => Ok item
  | raw :: raws' =>
      updates ← Project turn kind 0 raw;
      i ← merge_updates updates item;
      observe_all turn kind raws' i
  end.

Definition text_item (turn key text status phase : string) : Item :=
  set_phase (message turn key "assistant" text status) phase.

Lemma delta_update turn seq raw p :
  dec_delta (MkDelta "" "" 0) raw = Some p → dp_item p ≠ "" →
  Project turn "delta" seq raw
  = Ok [MkUpdate (text_item turn ("message:" +:+ dp_item p) (dp_delta p) "in_progress" "") true None false].
Proof.
  intros Hp Hi. unfold Project. decide_literals. rewrite Hp. cbn [decode_or mbind result_bind].
  by rewrite bool_decide_eq_false_2.
Qed.

(** Appending text to a message in progress. *)
Lemma merge_text turn key old new status phase phase' :
  Identity turn key ≠ "" →
  Merge (MkUpdate (text_item turn key new status phase') true None false) (text_item turn key old "in_progress" phase)
  = Ok (text_item turn key (old +:+ new) status (if phase' =?s "" then phase else phase')).
Proof.
  intros Hid. unfold Merge, text_item, message. cbn -[bool_decide]. decide_literals.
  rewrite (bool_decide_eq_false_2 (Identity turn key = "")) by done. cbn -[bool_decide].
  by destruct (phase' =?s "").
Qed.

Lemma observe_deltas turn item raws ps text :
  Identity turn ("message:" +:+ item) ≠ "" → item ≠ "" →
  Forall2 (λ raw p, dec_delta (MkDelta "" "" 0) raw = Some p ∧ dp_item p = item) raws ps →
  observe_all turn "delta" raws (text_item turn ("message:" +:+ item) text "in_progress" "")
  = Ok (text_item turn ("message:" +:+ item) (fold_left String.append (dp_delta <$> ps) text) "in_progress" "").
Proof.
  intros Hid Hi HF. revert text. induction HF as [|raw p raws ps [Hp Hip] _ IH]; intros text; [done|]. cbn [observe_all].
  rewrite (delta_update _ _ _ p) by (done || congruence). cbn. rewrite Hip.
  pose proof (merge_text turn ("message:" +:+ item) text (dp_delta p) "in_progress" "" "" Hid) as Hm. cbn in Hm.
  rewrite Hm. cbn. apply IH.
Qed.

(** The text a list of deltas adds up to. *)
Definition streamed (ps : list DeltaPayload) : string := fold_left String.append (dp_delta <$> ps) "".

Lemma identity_nonempty `{!UUIDLaws} turn ns key : uuid_parse turn = Some ns → Identity turn key ≠ "".
Proof. intros Hp. unfold Identity. rewrite Hp. apply uuid_string_nonempty. Qed.

Lemma completion_update turn seq raw m :
  dec_output_message (MkOutputMessage "" "" "" None) raw = Some m →
  om_id m ≠ "" → om_status m = "completed" → om_text m = None →
  ∃ phase, Project turn "output_message" seq raw
    = Ok [MkUpdate (text_item turn ("message:" +:+ om_id m) "" "completed" phase) true None false].
Proof.
  intros Hm Hid Hst Ht. unfold Project. decide_literals. rewrite Hm. cbn [decode_or mbind result_bind].
  rewrite Hst, Ht, (bool_decide_eq_false_2 (om_id m = "")) by done. decide_literals. cbn [mbind result_bind reject_if].
  exists (if (om_phase m =?s "commentary") || (om_phase m =?s "final_answer") then om_phase m else "").
  by destruct (_ || _).
Qed.

(** C26. Streamed text adds up: the deltas of one assistant message, observed in
    order, give one message Item whose text is their concatenation, and the
    closing observation without a text completes the Item with that text. *)
Theorem streamed_text_adds_up `{!UUIDLaws} turn ns item raws ps raw m :
  uuid_parse turn = Some ns → item ≠ "" → raws ≠ [] →
  Forall2 (λ raw p, dec_delta (MkDelta "" "" 0) raw = Some p ∧ dp_item p = item) raws ps →
  dec_output_message (MkOutputMessage "" "" "" None) raw = Some m →
  om_id m = item → om_status m = "completed" → om_text m = None →
  observe_all turn "delta" raws zero_item
    = Ok (text_item turn ("message:" +:+ item) (streamed ps) "in_progress" "")
  ∧ ∃ phase, (i ← observe_all turn "delta" raws zero_item; observe_all turn "output_message" [raw] i)
      = Ok (text_item turn ("message:" +:+ item) (streamed ps) "completed" phase).
Proof.
  intros Hns Hi Hne HF Hm <- Hst Ht. pose proof (identity_nonempty turn ns ("message:" +:+ om_id m) Hns) as Hid.
  assert (observe_all turn "delta" raws zero_item
          = Ok (text_item turn ("message:" +:+ om_id m) (streamed ps) "in_progress" "")) as E.
  { destruct HF as [|raw0 p raws ps [Hp Hip] HF]; [done|]. cbn [observe_all].
    rewrite (delta_update _ _ _ p) by (done || congruence). cbn. rewrite Hip. by apply observe_deltas. }
  split; [done|]. rewrite E. cbn [mbind result_bind observe_all].
  destruct (completion_update turn 0 raw m Hm Hi Hst Ht) as (phase & ->). cbn [mbind result_bind merge_updates].
  rewrite merge_text by done. cbn [mbind result_bind merge_updates]. exists (if phase =?s "" then "" else phase).
  do 2 f_equal. clear. induction (streamed ps) as [|c t IH]; [done|].
  change (String.String c t +:+ "") with (String.String c (t +:+ "")). by rewrite IH.
Qed.

(** ** Projected Items *)

Definition item_status_ok (s : string) : bool :=
  (s =?s "in_progress") || (s =?s "completed") || (s =?s "failed") || (s =?s "incomplete").

(** An update belongs to its Turn: its Item carries the Turn's identifier, an
    identifier derived from it, and a status, unless it only adds output to a
    stored command. *)
Definition update_ok (turn : string) (u : Update) : Prop :=
  it_turn (up_item u) = turn ∧ (∃ key, it_id (up_item u) = Identity turn key)
  ∧ (item_status_ok (it_status (up_item u)) = true ∨ is_Some (up_command_delta u)).

Lemma message_ok turn key role text status append delta legacy :
  item_status_ok status = true → update_ok turn (MkUpdate (message turn key role text status) append delta legacy).
Proof. intros Hs. split; [done|]. split; [by exists key|by left]. Qed.

Lemma inputMessages_ok turn sequence raw : Forall (update_ok turn) (inputMessages turn sequence raw).
Proof.
  unfold inputMessages. destruct (dec_input_body _ raw) as [b|]; [|done].
  destruct (ib_text b) as [text|]; [apply Forall_singleton; by apply message_ok|].
  generalize 0%nat. induction (default [] (ib_input b)) as [|e l IH]; intros i; cbn; [done|].
  destruct (_ || _); [done|]. destruct (List.forallb _ _); [|done]. constructor; [|done].
  split; [done|]. split; [by eexists|by left].
Qed.

(** An Item built on the tool's identity. *)
Definition tool_item (turn : string) (i : Item) : Prop :=
  it_turn i = turn ∧ (∃ key, it_id i = Identity turn key) ∧ item_status_ok (it_status i) = true.

Lemma tool_update turn i : tool_item turn i → Forall (update_ok turn) [plain_update i].
Proof. intros (Ht & Hi & Hs). apply Forall_singleton. split; [done|]. split; [done|by left]. Qed.

Lemma projectTool_ok turn raw updates : projectTool turn raw = Ok updates → Forall (update_ok turn) updates.
Proof.
  unfold projectTool. intros Hr. apply bind_Ok in Hr as (p & _ & Hr).
  destruct (tb_observation p) as [n|]; [|discriminate Hr].
  apply bind_Ok in Hr as (u1 & _ & Hr). apply bind_Ok in Hr as (u2 & Hst & Hr). apply reject_if_Ok, negb_false_iff in Hst.
  apply bind_Ok in Hr as (u3 & _ & Hr).
  assert (tool_item turn (set_status (set_turn (set_id zero_item (Identity turn ("tool:" +:+ tb_id p))) turn) (ob_status n))) as Hbase
    by (split; [done|]; split; [by eexists|done]).
  set (item := set_status _ _) in *.
  destruct (ob_kind n =?s "command").
  { apply bind_Ok in Hr as (u4 & _ & Hr). apply bind_Ok in Hr as (o & _ & Hr). simplify_eq. by apply tool_update. }
  destruct (ob_kind n =?s "mcp").
  { apply bind_Ok in Hr as (u4 & _ & Hr). simplify_eq. by apply tool_update. }
  destruct (ob_kind n =?s "function").
  { apply bind_Ok in Hr as (u4 & _ & Hr). cbv zeta in Hr.
    destruct (ob_content n) as [content|]; [|simplify_eq; by apply tool_update].
    destruct (tb_stage p =?s "after"); [|simplify_eq; by apply tool_update].
    apply bind_Ok in Hr as (u5 & _ & Hr). injection Hr as <-. apply Forall_cons. split; [by apply Forall_singleton, tool_update|].
    apply tool_update. split; [done|]. split; [by eexists|done]. }
  destruct (ob_kind n =?s "web_search"); [|discriminate Hr]. cbv zeta in Hr.
  assert (tool_item turn (if it_status (set_type item "web_search_call") =?s "failed"
            then set_status (set_type item "web_search_call") "incomplete" else set_type item "web_search_call")) as Hweb
    by (destruct (_ =?s "failed"); [destruct Hbase as (? & ? & _); by split|done]).
  destruct (ob_action n) as [a|]; [|simplify_eq; by apply tool_update].
  apply bind_Ok in Hr as (u4 & _ & Hr). simplify_eq. by apply tool_update.
Qed.


End items.

(** ** Token usage *)

(** Token counts are believed only when they are consistent: counts are
    non-negative int64 values, cached input tokens are among the input tokens,
    reasoning tokens among the output tokens, and the total is their sum
    without overflow. *)
Theorem measuredUsage_sound kind raw u :
  measuredUsage kind raw = Some u →
  0 ≤ tu_cached u ≤ tu_input u ∧ 0 ≤ tu_reasoning u ≤ tu_output u
  ∧ tu_total u = tu_input u + tu_output u ∧ tu_total u ≤ int64_max.
Proof.
  intros Hu.
  assert (∃ tokens, usage_of_tokens tokens = Some u) as (tokens & Ht).
  { unfold measuredUsage in Hu. do 5 (apply bind_Some in Hu as (? & _ & Hu)). eauto. }
  unfold usage_of_tokens in Ht.
  assert (∀ k n, token_count tokens k = Some n → 0 ≤ n) as Hpos.
  { intros k n Hn. unfold token_count in Hn. destruct (obj_get k tokens) as [[]|]; try discriminate Hn.
    apply bind_Some in Hn as (z & _ & Hn). destruct (Z.ltb_spec z 0); [discriminate Hn|]. by simplify_eq. }
  apply bind_Some in Ht as (input & Hin & Ht). apply bind_Some in Ht as (output & Hout & Ht).
  apply bind_Some in Ht as (cached & Hc & Ht). apply bind_Some in Ht as (reasoning & Hre & Ht).
  apply bind_Some in Ht as (total & Hto & Ht). destruct (_ || _) eqn:E; [discriminate Ht|]. simplify_eq. cbn.
  apply Hpos in Hin, Hout, Hc, Hre, Hto. bsolve. lia.
Qed.

(** ** Validation *)

(** The sizes add up as the loop sees them, and each input passed its checks. *)
Lemma validate_inputs_sound `{UUIDs} size inputs batch :
  validate_inputs size inputs = Ok batch →
  (inputs ≠ [] → size + fold_right (λ i acc, raw_len (inp_payload i) + acc) 0 inputs ≤ max_payload)
  ∧ Forall2 (λ (i : Input) (b : CanonInput), b.1 = inp_kind i ∧ input_kind_ok b.1 = true
       ∧ canonicalJSONObject (inp_payload i) = Ok b.2 ∧ (b.1 = "cancel" → b.2 = JObj [])) inputs batch.
Proof.
  revert size batch. induction inputs as [|i inputs IH]; intros size batch Hr; cbn [validate_inputs] in Hr.
  { simplify_eq. split; [done|constructor]. }
  apply bind_Ok in Hr as (u & Hlim & Hr). apply bind_Ok in Hr as (b & Hb & Hr). apply bind_Ok in Hr as (rest & Hrest & Hr).
  simplify_eq. apply reject_if_Ok in Hlim. bsolve. apply IH in Hrest as [Hsize HF]. split.
  - intros _. cbn. destruct inputs; [cbn; lia|]. specialize (Hsize ltac:(done)). lia.
  - constructor; [|done]. unfold validate_input in Hb. apply bind_Ok in Hb as (payload & Hp & Hb).
    apply bind_Ok in Hb as (u1 & Hc & Hb). apply bind_Ok in Hb as (u2 & _ & Hb). simplify_eq. cbn.
    repeat (split; [done|]). intros Hk. apply reject_if_Ok in Hc. rewrite Hk, bool_decide_eq_true_2 in Hc by done.
    cbn [andb] in Hc. by apply negb_false_iff, bool_decide_eq_true_1 in Hc.
Qed.

(** Validated batches are bounded: 1 to 64 inputs with at most 512 KiB of
    payload, every kind known, every payload a canonical object, and every
    cancellation empty. *)
Theorem validateInputs_bounds `{UUIDs} inputs batch encoded :
  validateInputs inputs = Ok (batch, encoded) →
  1 ≤ Z.of_nat (length inputs) ≤ 64
  ∧ fold_right (λ i acc, raw_len (inp_payload i) + acc) 0 inputs ≤ max_payload
  ∧ Forall2 (λ (i : Input) (b : CanonInput), b.1 = inp_kind i ∧ input_kind_ok b.1 = true
       ∧ canonicalJSONObject (inp_payload i) = Ok b.2 ∧ (b.1 = "cancel" → b.2 = JObj [])) inputs batch.
Proof.
  unfold validateInputs. intros Hr. apply bind_Ok in Hr as (u & Hn & Hr). apply bind_Ok in Hr as (b & Hb & Hr).
  simplify_eq. apply reject_if_Ok in Hn. bsolve.
  destruct (validate_inputs_sound 0 inputs batch Hb) as [Hsize HF].
  split; [destruct inputs; [done|cbn in *; lia]|]. split; [|done].
  destruct inputs; [done|]. apply Hsize. done.
Qed.

(** ** Witnesses *)

Definition settled_item : Item := text_item turn_id "message:m1" "done" "completed" "".

Definition late_update : Update := MkUpdate (text_item turn_id "message:m1" "late" "in_progress" "") true None false.

Lemma Merge_settled_witness :
  Merge late_update settled_item = Ok settled_item ∧ settled_item = settled_item.
Proof.
  split; [vm_compute; reflexivity|].
  apply (Merge_settled late_update settled_item settled_item).
  - vm_compute; discriminate.
  - vm_compute; discriminate.
  - left; reflexivity.
  - vm_compute; reflexivity.
Defined.

Definition delta_json (text : string) : json := JObj [("item_id", JStr "m1"); ("delta", JStr text)].
Definition done_json : json := JObj [("id", JStr "m1"); ("status", JStr "completed")].

Lemma streamed_text_adds_up_witness :
  observe_all turn_id "delta" [delta_json "Hel"; delta_json "lo"] zero_item
  = Ok (text_item turn_id "message:m1" "Hello" "in_progress" "").
Proof.
  apply (streamed_text_adds_up turn_id 100%N "m1" [delta_json "Hel"; delta_json "lo"]
           [MkDelta "m1" "Hel" 0; MkDelta "m1" "lo" 0] done_json (MkOutputMessage "m1" "completed" "" None)).
  - vm_compute; reflexivity.
  - discriminate.
  - discriminate.
  - repeat constructor; vm_compute; reflexivity.
  - vm_compute; reflexivity.
  - reflexivity.
  - reflexivity.
  - reflexivity.
Defined.


Definition usage_json : json :=
  JObj [("tokens", JObj [("input_tokens", JNum "10"); ("output_tokens", JNum "5"); ("cached_input_tokens", JNum "4");
                         ("reasoning_output_tokens", JNum "2"); ("total_tokens", JNum "15")])].

Lemma measuredUsage_sound_witness :
  tu_total (MkUsage 10 5 15 4 2) = 15 ∧ 0 ≤ 4 ≤ 10.
Proof.
  destruct (measuredUsage_sound "usage" usage_json (MkUsage 10 5 15 4 2)) as (Hc & _ & Ht & _).
  - vm_compute; reflexivity.
  - split; [exact Ht|exact Hc].
Defined.

Lemma validateInputs_bounds_witness :
  1 ≤ Z.of_nat (length [text_input "hi"; cancel_input]) ≤ 64.
Proof.
  apply (validateInputs_bounds [text_input "hi"; cancel_input]
           [("message", JObj [("text", JStr "hi")]); ("cancel", JObj [])]
           (encode_batch [("message", JObj [("text", JStr "hi")]); ("cancel", JObj [])])).
  vm_compute; reflexivity.
Defined.
