(* ===== verification/Reservations.v ===== *)
(** * Reservations

    Inputs that wait for their environment: a reservation is settled once, a
    Session has at most one pending, promotion admits exactly the reserved batch
    and claims its Turn, and a reservation past its deadline admits nothing. *)
From stdpp Require Import base tactics list strings numbers relations.
From S2P Require Import Prelude GoJson Contract Items Database Queries EnvQueries SessionLog Turns Environments.
From S2P Require Import Relations Tables Scenario EnvScenario Frames Lifecycle EventLog Inputs Outcomes.

Definition res_ok (r : res_row) : Prop :=
  reservation_state_ok (r_state r) = true ∧ (is_Some (r_settled r) ↔ r_state r ≠ "pending")
  ∧ r_deadline r = r_created r + 5 * minute.

(** One pending reservation per Session, one reservation per key. *)
Definition res_slot (s : N + N * string) (r : res_row) : bool :=
  match s with
  | inl session => pending_in session r
  | inr (session, key) => (r_session r =?s session) && (r_key r =?s key)
  end.

Definition reservations_wf (d : db) : Prop := table_wf r_id res_ok res_slot (reservations d).

Record res_evolves (r r' : res_row) : Prop := MkResEvolves {
  re_id : r_id r' = r_id r;
  re_session : r_session r' = r_session r;
  re_key : r_key r' = r_key r;
  re_batch : r_batch r' = r_batch r;
  re_created : r_created r' = r_created r;
  re_deadline : r_deadline r' = r_deadline r;
  re_initial : r_initial r' = r_initial r;
  re_final : r_state r ≠ "pending" → r_state r' = r_state r ∧ r_settled r' = r_settled r;
}.

#[export] Instance res_evolves_preorder : PreOrder res_evolves.
Proof.
  split.
  - intros r. by split.
  - intros r1 r2 r3 [] []. split; try congruence. intros Hp. destruct (re_final0 Hp) as [E1 E2].
    rewrite <- E1, <- E2. apply re_final1. by rewrite E1.
Qed.

Definition reservations_advance : relation db := advances reservations r_id res_ok res_slot res_evolves.

Lemma reservations_same d d' : reservations d' = reservations d → reservations_advance d d'.
Proof. apply (advances_same _ _ _ _ _). Qed.

Section reservations.
Context `{UUIDs, Oracle, EventSizes}.

(** Settling pending reservations. *)
Lemma settle_advance d d' p now state :
  reservations d' = update_where p (settle_row now state) (reservations d) →
  (∀ r, p r = true → r_state r = "pending") → reservation_state_ok state = true → state ≠ "pending" →
  reservations_advance d d'.
Proof.
  intros E Hp Hok Hne. eapply (advances_update _ _ _ _ _ _ _ p (settle_row now state)); [exact E|done|..].
  - intros r _ (_ & _ & Hd). split; [done|]. split; [|done]. cbn. split; [done|]. by eexists.
  - intros [session|[session key]] r Hr; [|done]. cbn. unfold pending_in. cbn. intros Hs. by bsolve.
  - intros r Hr. split; try done. intros Hn. destruct Hn. by apply Hp.
Qed.

Lemma CreateReservation_advance id session key batch initial :
  moves (on_db reservations_advance) (CreateEnvironmentInputReservation id session key batch initial).
Proof.
  intros w. unfold CreateEnvironmentInputReservation. run_tx; try lia. split; [|cbn; lia].
  bsolve. rewrite !existsb_false_iff in *.
  eapply (advances_append _ _ _ _ _); [reflexivity|..]; cbn.
  - intros r Hr E. rename select (∀ r, In r _ → (r_id r =?s id) = false) into Hf.
    apply Hf in Hr. by rewrite E, bool_decide_eq_true_2 in Hr.
  - split; [done|]. split; [|done]. cbn. split; [by intros []|done].
  - intros [s|[s k]]; cbn; unfold pending_in; cbn; intros Hs; bsolve; by apply existsb_false_iff.
Qed.

#[export] Instance reservations_turn : TurnRelation (on_db reservations_advance).
Proof.
  split; [split; [apply _|..]|..]; intros; try solve [other_statement reservations_same].
  unfold CancelSessionEnvironmentInput. moves_tac. apply (moves_exec _). intros w. split; [|cbn; lia].
  eapply settle_advance; [done|..]; [|done..]. intros r Hr. cbn in Hr. by bsolve.
Qed.

#[export] Instance reservations_env : EnvRelation (on_db reservations_advance).
Proof.
  split; intros; try solve [other_statement reservations_same].
  - unfold ExpireEnvironmentInputReservation. moves_tac. apply (moves_exec _). intros w. split; [|cbn; lia].
    eapply settle_advance; [done|..]; [|done..]. unfold due. intros r Hr. cbn in Hr. by bsolve.
  - intros w. unfold SettleEnvironmentInputReservation. run_tx; try lia; [|by apply wr_same]. split; [|cbn; lia].
    bsolve. eapply settle_advance; [reflexivity|..|done]; [|done]. intros r Hr. cbn in Hr. by bsolve.
  - unfold FailSessionEnvironmentInput. moves_tac. apply (moves_exec _). intros w. split; [|cbn; lia].
    eapply settle_advance; [done|..]; [|done..]. unfold pending_in. intros r Hr. cbn in Hr. by bsolve.
Qed.

#[export] Instance reservations_create : CreateStatements (on_db reservations_advance).
Proof. split; intros; other_statement reservations_same. Qed.

#[export] Instance reservations_store : StoreRelation (on_db reservations_advance).
Proof.
  apply (statement_relation _); intros; try apply CreateReservation_advance; other_statement reservations_same.
Qed.

Lemma steps_reservations w w' : steps w w' → reservations_advance (w_db w) (w_db w').
Proof. intros Hs. apply (steps_moves (on_db reservations_advance) _ _ Hs). Qed.

(** ** Settling one reservation *)

Lemma reservation_head_update p f session id d r :
  (∀ x, p x = true → r_session (f x) = r_session x ∧ r_id (f x) = r_id x) →
  head (List.filter (reservation_is session id) (reservations d)) = Some r →
  head (List.filter (reservation_is session id) (update_where p f (reservations d)))
  = Some (if p r then f r else r).
Proof.
  intros Hf Hr. rewrite update_where_filter.
  - destruct (List.filter (reservation_is session id) (reservations d)) as [|x l]; [done|]. by injection Hr as ->.
  - intros x Hx. destruct (Hf x Hx) as [E1 E2]. unfold reservation_is. by rewrite E1, E2.
Qed.

Lemma reservation_select d row :
  reservations_wf d → In row (reservations d) →
  head (List.filter (reservation_is (r_session row) (r_id row)) (reservations d)) = Some row.
Proof.
  intros [Hk _ _] Hin. destruct (head _) as [r|] eqn:E.
  - apply head_filter_Some in E as [Hr Hid]. unfold reservation_is in Hid. bsolve. f_equal.
    by apply (nodup_key r_id (reservations d)).
  - rewrite head_filter_None in E. specialize (E row Hin). unfold reservation_is in E.
    by rewrite !bool_decide_eq_true_2 in E.
Qed.

(** Settling a pending reservation first looks at its deadline. *)
Lemma settle_pending_run tenantID row state w res w' :
  head (List.filter (reservation_is (r_session row) (r_id row)) (reservations (w_db w))) = Some row →
  r_state row = "pending" → settle_environment_input tenantID row state w = (Ok res, w') →
  ∃ w1, turns (w_db w1) = turns (w_db w) ∧ turn_inputs (w_db w1) = turn_inputs (w_db w) ∧ w_seq w1 = w_seq w
    ∧ environments (w_db w1) = environments (w_db w) ∧ file_writes (w_db w1) = file_writes (w_db w)
    ∧ length (reservations (w_db w1)) = length (reservations (w_db w))
    ∧ if r_deadline row <=? clock (w_tick w) then
        let lapsed := settle_row (clock (S (w_tick w))) "expired" row in
        head (List.filter (reservation_is (r_session row) (r_id row)) (reservations (w_db w1))) = Some lapsed
        ∧ environmentInputFromRow lapsed = Ok res ∧ w' = w1
      else
        head (List.filter (reservation_is (r_session row) (r_id row)) (reservations (w_db w1))) = Some row
        ∧ (if state =?s "expired" then environmentInputFromRow row = Ok res ∧ w' = w1 else
           ∃ base receipts settled w2 w3,
             environmentInputFromRow row = Ok base
             ∧ (if state =?s "admitted" then promote tenantID row (eir_inputs base) else mret []) w1 = (Ok receipts, w2)
             ∧ SettleEnvironmentInputReservation (r_session row) (r_id row) state w2 = (Ok (Some settled), w3)
             ∧ (if state =?s "admitted" then claim_turn tenantID (eir_session base) receipts else mret tt) w3 = (Ok tt, w')
             ∧ eir_state res = r_state settled ∧ eir_receipts res = receipts ∧ eir_id res = eir_id base).
Proof.
  intros Hrow Hp Hr. unfold settle_environment_input in Hr. rewrite Hp in Hr. decide_literals_in Hr.
  apply bind_run in Hr as ([] & w1 & Hx & Hr). unfold ExpireEnvironmentInputReservation in Hx.
  apply bind_run in Hx as (now1 & wa & Hc1 & Hx). unfold clock_timestamp in Hc1. injection Hc1 as <- <-.
  apply bind_run in Hx as (now2 & wb & Hc2 & Hx). unfold clock_timestamp in Hc2. injection Hc2 as <- <-.
  apply exec_run in Hx. exists w1. assert (reservations (w_db w1) = update_where (due (r_session row) (r_id row)
    (clock (w_tick w))) (settle_row (clock (S (w_tick w))) "expired") (reservations (w_db w))) as Eres by (by rewrite Hx).
  do 5 (split; [by rewrite Hx|]). clear Hx. split; [by rewrite Eres, update_where_length|].
  assert (head (List.filter (reservation_is (r_session row) (r_id row)) (reservations (w_db w1)))
    = Some (if r_deadline row <=? clock (w_tick w) then settle_row (clock (S (w_tick w))) "expired" row else row)) as Hnew.
  { rewrite Eres. erewrite reservation_head_update; [|done|exact Hrow]. unfold due, reservation_is.
    by rewrite Hp, !bool_decide_eq_true_2 by done. }
  apply bind_run in Hr as (r1 & w1' & Hg & Hr). apply one_run, query_run in Hg as [Hg ->]. rewrite Hnew in Hg.
  injection Hg as ->. destruct (r_deadline row <=? clock (w_tick w)).
  - split; [exact Hnew|]. cbn [r_state settle_row] in Hr. decide_literals_in Hr.
    unfold environmentInputOutcome in Hr. apply bind_run in Hr as (r & w2 & Hb & Hr). apply of_result_run in Hb as [Hb ->].
    cbn [r_state settle_row] in Hr. decide_literals_in Hr. by tx_inv.
  - split; [exact Hnew|]. rewrite Hp in Hr. decide_literals_in Hr. destruct (state =?s "expired").
    + unfold environmentInputOutcome in Hr. apply bind_run in Hr as (r & w2 & Hb & Hr).
      apply of_result_run in Hb as [Hb ->]. rewrite Hp in Hr. decide_literals_in Hr. by tx_inv.
    + apply bind_run in Hr as (base & w1' & Hb & Hr). apply of_result_run in Hb as [Hb ->].
      apply bind_run in Hr as (receipts & w2 & Hpr & Hr). apply bind_run in Hr as (settled & w3 & Hs & Hr).
      apply one_run in Hs. apply bind_run in Hr as ([] & w4 & Hcl & Hr). tx_inv.
      exists base, receipts, settled, w2, w3. by repeat (split; [done|]).
Qed.

Lemma environmentInputMayStart_run session w u w' :
  environmentInputMayStart session w = (Ok u, w') →
  w' = w ∧ EnvironmentFileWriteBlocksSession session w = (Ok false, w)
  ∧ ∀ t, In t (turns (w_db w)) → active_in session t = false.
Proof.
  unfold environmentInputMayStart, GetActiveTurn.
  intros Hr. apply bind_run in Hr as ([] & w1 & Hg & Hr). apply checkEnvironmentFileWriteGate_run in Hg as [-> Hg].
  apply bind_run in Hr as (o & w1 & Hq & Hr). apply query_run in Hq as [-> ->].
  destruct (head _) eqn:E; [discriminate Hr|]. tx_inv. split; [done|]. split; [done|]. by apply head_filter_None.
Qed.

Lemma settle_reservation_run session id state w settled w' :
  SettleEnvironmentInputReservation session id state w = (Ok (Some settled), w') →
  turns (w_db w') = turns (w_db w) ∧ turn_inputs (w_db w') = turn_inputs (w_db w)
  ∧ In settled (reservations (w_db w')) ∧ r_id settled = id ∧ r_session settled = session ∧ r_state settled = state.
Proof.
  unfold SettleEnvironmentInputReservation. run_tx; intros [=]. subst. cbn.
  rename select (head _ = Some _) into Hh. apply head_filter_Some in Hh as [Hin Hhit].
  repeat (split; [done|]). split; [by apply (in_update_where_hit _ (settle_row _ state))|]. unfold reservation_is in Hhit.
  by bsolve.
Qed.

Lemma admit_batch_turns_wf tenantID session key batch :
  moves (keeps turns_wf) (admit_batch tenantID session key 0 batch).
Proof.
  apply (admit_batch_moves _); intros; [apply CreateTurn_wf|]. unfold CreateTurnInput. moves_tac.
  apply (moves_exec _). intros w. split; [by apply turns_wf_same|cbn; lia].
Qed.

(** The Turn of the first admitted input is claimed. *)
Lemma claim_turn_run `{!UUIDLaws} tenantID session rows w w' :
  turns_wf (w_db w) → claim_turn tenantID (uuid_string session) (receipts false rows) w = (Ok tt, w') →
  turn_inputs (w_db w') = turn_inputs (w_db w) ∧ reservations (w_db w') = reservations (w_db w)
  ∧ ∃ first turn, head rows = Some first ∧ in_turn first = Some turn ∧ turn_at (w_db w') session turn "in_progress".
Proof.
  intros Hwf Hr. destruct rows as [|first rows]; [discriminate Hr|]. cbn in Hr.
  apply bind_run in Hr as (p & w1 & Hp & Hr). apply of_result_run in Hp as [Hp ->].
  apply bind_run in Hr as (row & w1 & Ht & Hr). apply ret_run in Hr as [_ ->].
  apply turnLookup_run in Hp as (_ & Hs & Ht'). unfold parseID in Hs, Ht'. rewrite uuid_parse_string in Hs.
  destruct (in_turn first) as [turn|] eqn:Eturn; [|by rewrite uuid_parse_empty in Ht'].
  rewrite uuid_parse_string in Ht'.
  destruct (transitionTurn_run _ _ _ _ _ _ _ Hwf Ht) as (t & t' & _ & _ & _ & Ht1 & Hst & _ & _ & Ei & Er).
  case_bool_decide; [done|]. case_bool_decide; [done|]. simplify_eq. split; [done|]. split; [done|].
  exists first, (lk_turn p). split; [done|]. split; [done|]. by exists t'.
Qed.

Lemma input_from_row row base :
  environmentInputFromRow row = Ok base →
  dec_stored_inputs (r_batch row) = Some (eir_inputs base) ∧ eir_session base = uuid_string (r_session row)
  ∧ eir_id base = uuid_string (r_id row) ∧ eir_state base = r_state row
  ∧ eir_created base = Some (r_created row) ∧ eir_deadline base = Some (r_deadline row).
Proof. unfold environmentInputFromRow. destruct (dec_stored_inputs _); [|done]. by intros [= <-]. Qed.

(** What the caller sees of a stored reservation, besides its state. *)
Record shows (row : res_row) (res : EnvironmentInputReservation) : Prop := MkShows {
  sh_id : eir_id res = uuid_string (r_id row);
  sh_created : eir_created res = Some (r_created row);
  sh_deadline : eir_deadline res = Some (r_deadline row);
  sh_inputs : dec_stored_inputs (r_batch row) = Some (eir_inputs res);
}.

Lemma from_row_shows row base : environmentInputFromRow row = Ok base → shows row base.
Proof. intros (Hi & _ & Hid & _ & Hc & Hd)%input_from_row. by split. Qed.

Lemma outcome_run row w res w' :
  environmentInputOutcome row w = (Ok res, w') → w' = w ∧ shows row res ∧ eir_state res = r_state row.
Proof.
  unfold environmentInputOutcome. intros Hr.
  apply bind_run in Hr as (base & w1 & Hb & Hr). apply of_result_run in Hb as [Hb ->].
  pose proof (from_row_shows _ _ Hb) as []. apply input_from_row in Hb as (_ & _ & _ & Hst & _).
  destruct (negb _); [tx_inv; by repeat split|].
  apply bind_run in Hr as (rs & w1 & Hrs & Hr). apply inputBatchReceipts_run in Hrs as ->.
  destruct rs; [discriminate Hr|]. tx_inv. by repeat split.
Qed.

Lemma settle_expired_run tenantID row w res w' :
  head (List.filter (reservation_is (r_session row) (r_id row)) (reservations (w_db w))) = Some row →
  settle_environment_input tenantID row "expired" w = (Ok res, w') →
  shows row res ∧ turn_inputs (w_db w') = turn_inputs (w_db w) ∧ turns (w_db w') = turns (w_db w)
  ∧ length (reservations (w_db w')) = length (reservations (w_db w))
  ∧ ∃ row', In row' (reservations (w_db w')) ∧ r_session row' = r_session row ∧ r_key row' = r_key row ∧ shows row' res.
Proof.
  intros Hrow Hr. destruct (decide (r_state row = "pending")) as [Hp|Hp].
  - destruct (settle_pending_run _ _ _ _ _ _ Hrow Hp Hr) as (w1 & Et & Ei & _ & _ & _ & El & Hcase).
    destruct (r_deadline row <=? clock (w_tick w)); decide_literals_in Hcase.
    + destruct Hcase as (Hh & Hb%from_row_shows & ->). split; [by destruct Hb|]. repeat (split; [done|]).
      apply head_filter_Some in Hh as [Hin _]. eexists. split; [exact Hin|]. done.
    + destruct Hcase as (Hh & Hb%from_row_shows & ->). split; [done|]. repeat (split; [done|]).
      apply head_filter_Some in Hh as [Hin _]. by exists row.
  - unfold settle_environment_input in Hr. rewrite bool_decide_eq_false_2 in Hr by done. cbn [negb] in Hr.
    apply outcome_run in Hr as (-> & Hs & _). repeat (split; [done|]). apply head_filter_Some in Hrow as [Hin _]. by exists row.
Qed.

(** A successful reservation: a batch admitted directly, or a stored row. *)
Lemma reserve_batch_run tenantID sessionID key tenant batch encoded session w res w' :
  reservations_wf (w_db w) → reserve_batch tenantID sessionID key tenant batch encoded session w = (Ok res, w') →
  eir_id res = "" ∨ ∃ row, In row (reservations (w_db w')) ∧ r_session row = session ∧ r_key row = key ∧ shows row res.
Proof.
  intros Hwf Hr. unfold reserve_batch in Hr. apply bind_run in Hr as (previous & w1 & Hf & Hr).
  unfold FindEnvironmentInputReservation in Hf. apply bind_run in Hf as (e & w2 & Hj & Hf). apply jsonb_run in Hj as [_ ->].
  apply query_run in Hf as [Hf ->]. destruct previous as [[row matches]|].
  - symmetry in Hf. apply fmap_Some in Hf as (row' & Hh & [= <- _]).
    apply head_filter_Some in Hh as [Hin Hk]. cbn in Hk. bsolve.
    apply bind_run in Hr as (u & w1 & Hm & Hr). apply require_run in Hm as [_ ->].
    apply settle_expired_run in Hr as (_ & _ & _ & _ & row' & Hr); [right; by exists row'|]. by apply reservation_select.
  - apply bind_run in Hr as (rs & w1 & Hrs & Hr). apply inputBatchReceipts_run in Hrs as ->.
    destruct rs; [|tx_inv; by left]. unfold reserve_new in Hr.
    apply bind_run in Hr as (u & w1 & Hg & Hr). apply checkEnvironmentFileWriteGate_run in Hg as [-> _].
    apply bind_run in Hr as (env & w1 & Hq & Hr). apply query_run in Hq as [_ ->]. destruct env as [env|]; [|discriminate Hr].
    apply bind_run in Hr as (u' & w1 & Hq & Hr). apply require_run in Hq as [_ ->].
    apply bind_run in Hr as (u'' & w1 & Hg' & Hr). apply checkEnvironmentInputGate_run in Hg' as ->.
    apply bind_run in Hr as (active & w1 & Hq & Hr). apply query_run in Hq as [_ ->].
    destruct (match active with Some t => negb (t_capture t) | None => false end).
    + apply bind_run in Hr as (rs & w1 & _ & Hr). tx_inv. by left.
    + apply bind_run in Hr as (id & w1 & Hu & Hr). apply bind_run in Hr as (row & w2 & Hc & Hr).
      apply of_result_run in Hr as [Hb%from_row_shows ->]. right. exists row.
      unfold CreateEnvironmentInputReservation in Hc. tx_inv. split; [cbn; apply in_app_iff; right; by left|]. done.
Qed.

Lemma ReserveEnvironmentInput_run tenantID sessionID key inputs w res w' :
  ReserveEnvironmentInput tenantID sessionID key inputs w = (Ok res, w') →
  ∃ session tenant be w1, parseID sessionID = Ok session
    ∧ reserve_batch tenantID sessionID key tenant be.1 be.2 session w = (Ok res, w1) ∧ log_frame (w_db w1) (w_db w').
Proof.
  unfold ReserveEnvironmentInput. intros Hr.
  apply bind_run in Hr as (u & w1 & Hq & Hr). apply of_result_run in Hq as [_ ->].
  apply bind_run in Hr as (be & w1 & Hq & Hr). apply of_result_run in Hq as [_ ->].
  apply bind_run in Hr as (tenant & w1 & Hq & Hr). apply of_result_run in Hq as [_ ->].
  apply withEnvironmentInputSession_run in Hr as (t & session & s & w1 & _ & Hs & _ & _ & Hr & Hf).
  by exists session, tenant, be, w1.
Qed.

(** ** Properties *)

(** C28. Along every run reservations are kept: identifiers and keys stay unique,
    a Session has at most one pending, each has five minutes from its creation
    and a settlement time exactly when it is settled; and what a reservation
    holds, and its outcome once settled, never change. *)
Theorem reservations_settle_once w w' :
  reservations_wf (w_db w) → steps w w' →
  reservations_wf (w_db w') ∧
  ∀ r, In r (reservations (w_db w)) → ∃ r', In r' (reservations (w_db w')) ∧ res_evolves r r'.
Proof.
  intros Hwf Hs%steps_reservations. split; [by apply Hs|]. intros r Hr.
  by apply (advances_persist _ _ _ _ _ _ _ _ Hs Hwf).
Qed.

(** A promotion that admits did so before the deadline, with no Turn active
    and no file write pending; it stored exactly the reserved inputs, in order,
    with one receipt each, the Turn of the first is now running, and the
    reservation is admitted. *)
Theorem PromoteEnvironmentInput_admits `{!UUIDLaws} leased tenantID sessionID reservationID w res w' session id row :
  turns_wf (w_db w) → reservations_wf (w_db w) → parseID sessionID = Ok session → parseID reservationID = Ok id →
  head (List.filter (reservation_is session id) (reservations (w_db w))) = Some row → r_state row = "pending" →
  PromoteEnvironmentInput leased tenantID sessionID reservationID w = (Ok res, w') → eir_state res = "admitted" →
  clock (w_tick w) < r_deadline row
  ∧ (∀ t, In t (turns (w_db w)) → active_in session t = false)
  ∧ EnvironmentFileWriteBlocksSession session w = (Ok false, w)
  ∧ (∃ inputs rows first turn, dec_stored_inputs (r_batch row) = Some inputs
      ∧ turn_inputs (w_db w') = turn_inputs (w_db w) ++ rows ∧ Forall2 (input_stored session (r_key row)) inputs rows
      ∧ eir_receipts res = receipts false rows
      ∧ head rows = Some first ∧ in_turn first = Some turn ∧ turn_at (w_db w') session turn "in_progress")
  ∧ ∃ row', In row' (reservations (w_db w')) ∧ r_id row' = id ∧ r_state row' = "admitted".
Proof.
  intros Hwf Hres Hs Hid Hrow Hp Hr Hst. unfold PromoteEnvironmentInput, settleEnvironmentInput in Hr.
  apply bind_run in Hr as ([] & wl & Hl & Hr). apply require_run in Hl as [_ ->].
  apply bind_run in Hr as (id' & w1 & Hq & Hr). rewrite Hid in Hq. apply of_result_run in Hq as [[= <-] ->].
  apply withEnvironmentInputSession_run in Hr as (tenant & session' & s & wb & _ & Hs' & _ & _ & Hr & Hf).
  rewrite Hs in Hs'. injection Hs' as <-. apply bind_run in Hr as (o & w1 & Hq & Hr).
  apply query_run in Hq as [-> ->]. rewrite Hrow in Hr.
  pose proof Hrow as [_ Hrid]%head_filter_Some. unfold reservation_is in Hrid. bsolve.
  destruct (settle_pending_run _ _ _ _ _ _ Hrow Hp Hr) as (w1 & Et & Ei & _ & Ee & Ew & _ & Hcase).
  destruct (r_deadline row <=? clock (w_tick w)) eqn:Edl.
  { destruct Hcase as (_ & Hb%input_from_row & _). destruct Hb as (_ & _ & _ & Hb & _). by rewrite Hb in Hst. }
  apply Z.leb_gt in Edl. split; [done|]. destruct Hcase as (_ & Hcase). decide_literals_in Hcase.
  destruct Hcase as (base & rcs & settled & w2 & w3 & Hb & Hpr & Hset & Hcl & Hst' & Hrc & _).
  apply bind_run in Hpr as ([] & wp & Hmay & Hadm). apply environmentInputMayStart_run in Hmay as (-> & Hblock & Hact).
  split; [by rewrite <- Et|]. split.
  { unfold EnvironmentFileWriteBlocksSession, query in Hblock |- *. rewrite Ee, Ew in Hblock.
    injection Hblock as Hblock. by rewrite Hblock. }
  apply input_from_row in Hb as (Hin & Hses & _).
  pose proof (moves_run _ _ _ _ _ (admit_batch_turns_wf _ _ _ _) Hadm) as [Hwf2 _].
  apply admit_batch_run in Hadm as (rows & Erows & Hstored & _ & _ & -> & _).
  apply settle_reservation_run in Hset as (Et3 & Ei3 & Hin3 & Hid3 & _ & Hst3).
  rewrite Hses in Hcl. apply claim_turn_run in Hcl as (Ei4 & Er4 & first & turn & Hfirst & Hturn & Hat);
    [|eapply turns_wf_same; [exact Et3|]; apply Hwf2; by eapply turns_wf_same].
  split.
  - exists (eir_inputs base), rows, first, turn. split; [done|]. split; [|split; [done|]].
    { by rewrite (lf_inputs _ _ Hf), Ei4, Ei3, Erows, Ei. }
    split; [done|]. repeat (split; [done|]). by eapply frame_turn_at.
  - exists settled. split; [by rewrite (lf_reservations _ _ Hf), Er4|]. done.
Qed.

(** A reservation that is settled, in whatever way, at or after its deadline
    expires: it admits no input and starts no Turn. *)
Theorem late_inputs_expire tenantID sessionID reservationID state w res w' session id row :
  parseID sessionID = Ok session → parseID reservationID = Ok id →
  head (List.filter (reservation_is session id) (reservations (w_db w))) = Some row → r_state row = "pending" →
  r_deadline row ≤ clock (w_tick w) →
  settleEnvironmentInput tenantID sessionID reservationID state w = (Ok res, w') →
  eir_state res = "expired" ∧ eir_receipts res = []
  ∧ turn_core <$> turns (w_db w') = turn_core <$> turns (w_db w) ∧ turn_inputs (w_db w') = turn_inputs (w_db w)
  ∧ ∃ row', In row' (reservations (w_db w')) ∧ r_id row' = id ∧ r_state row' = "expired".
Proof.
  intros Hs Hid Hrow Hp Hdl Hr. unfold settleEnvironmentInput in Hr. rewrite Hid in Hr.
  apply bind_run in Hr as (id' & w1 & Hq & Hr). apply of_result_run in Hq as [[= <-] ->].
  apply withEnvironmentInputSession_run in Hr as (tenant & session' & s & wb & _ & Hs' & _ & _ & Hr & Hf).
  rewrite Hs in Hs'. injection Hs' as <-. apply bind_run in Hr as (o & w1 & Hq & Hr).
  apply query_run in Hq as [-> ->]. rewrite Hrow in Hr.
  pose proof Hrow as [_ Hrid]%head_filter_Some. unfold reservation_is in Hrid. bsolve.
  destruct (settle_pending_run _ _ _ _ _ _ Hrow Hp Hr) as (w1 & Et & Ei & _ & _ & _ & _ & Hcase).
  rewrite (proj2 (Z.leb_le _ _) Hdl) in Hcase. destruct Hcase as (Hh & Hb & ->).
  apply head_filter_Some in Hh as [Hin _]. destruct Hf as [Hft _ Hfi _ _ _ _ _ _ Hfr _ _].
  rewrite Hft, Hfi, Hfr, Et, Ei. unfold environmentInputFromRow in Hb. destruct (dec_stored_inputs _); [|discriminate Hb].
  injection Hb as <-. do 4 (split; [done|]). by eexists.
Qed.

(** Reserving is idempotent: a retry that succeeds, however much later,
    gives the same reservation with its original deadline and inputs, and neither
    reserves nor admits anything. *)
Theorem ReserveEnvironmentInput_replay tenantID sessionID key inputs w res w1 w2 res2 w3 :
  reservations_wf (w_db w) → ReserveEnvironmentInput tenantID sessionID key inputs w = (Ok res, w1) → eir_id res ≠ "" →
  steps w1 w2 → ReserveEnvironmentInput tenantID sessionID key inputs w2 = (Ok res2, w3) →
  eir_id res2 = eir_id res ∧ eir_created res2 = eir_created res ∧ eir_deadline res2 = eir_deadline res
  ∧ eir_inputs res2 = eir_inputs res
  ∧ length (reservations (w_db w3)) = length (reservations (w_db w2)) ∧ turn_inputs (w_db w3) = turn_inputs (w_db w2).
Proof.
  intros Hwf Hr Hid Hs Hr2.
  pose proof (moves_run _ _ _ _ _ (ReserveEnvironmentInput_moves (on_db reservations_advance) _ _ _ _) Hr) as [Hadv _].
  destruct (Hadv Hwf) as [Hwf1 _]. apply ReserveEnvironmentInput_run in Hr as (session & tenant & be & wb & Hses & Hr & Hf).
  apply reserve_batch_run in Hr as [Hr|(row & Hin & Hrs & Hrk & Hsh)]; [done| |done].
  rewrite <- (lf_reservations _ _ Hf) in Hin. apply steps_reservations in Hs. destruct (Hs Hwf1) as [Hwf2 _].
  destruct (advances_persist _ _ _ _ _ _ _ _ Hs Hwf1 Hin) as (row2 & Hin2 & Hev).
  apply ReserveEnvironmentInput_run in Hr2 as (session' & tenant' & be' & wb2 & Hses' & Hr2 & Hf2).
  rewrite Hses in Hses'. injection Hses' as <-. unfold reserve_batch, FindEnvironmentInputReservation in Hr2.
  apply bind_run in Hr2 as (previous & w4 & Hq & Hr2). apply bind_run in Hq as (e & w5 & Hj & Hq).
  apply jsonb_run in Hj as [_ ->]. apply query_run in Hq as [-> ->].
  assert (head (List.filter (λ r, (r_session r =?s session) && (r_key r =?s key)) (reservations (w_db w2))) = Some row2) as Eh.
  { assert (res_slot (inr (session, key)) row2 = true) as Hslot
      by (destruct Hev; cbn; by rewrite !bool_decide_eq_true_2 by congruence).
    destruct (head _) as [r|] eqn:E; [|rewrite head_filter_None in E; specialize (E row2 Hin2); cbn in Hslot; congruence].
    apply head_filter_Some in E as [Hr Hk]. f_equal.
    by apply (slot_unique _ _ _ (reservations (w_db w2)) (inr (session, key)) r row2 Hwf2). }
  rewrite Eh in Hr2. cbn in Hr2. apply bind_run in Hr2 as (u & w4 & Hm & Hr2). apply require_run in Hm as [_ ->].
  apply settle_expired_run in Hr2 as (Hsh2 & Ei & _ & El & _); [|by apply reservation_select].
  destruct Hsh as [-> -> -> Hd], Hsh2 as [-> -> -> Hd2], Hev as [-> _ _ Eb -> -> _ _].
  rewrite Eb, Hd in Hd2. injection Hd2 as ->. rewrite (lf_reservations _ _ Hf2), (lf_inputs _ _ Hf2). done.
Qed.
End reservations.

(** ** Witnesses *)

Lemma env_world_reservations : reservations_wf (w_db env_world).
Proof. split; [apply NoDup_nil|apply Forall_nil|intros; cbn; lia]. all: done. Qed.

Lemma env_world_turns : turns_wf (w_db env_world).
Proof. by split; cbn; [apply NoDup_nil|lia|]. Qed.

Lemma reserved_world_reservations : reservations_wf (w_db reserved_world).
Proof. apply (steps_reservations _ _ reserved_steps), env_world_reservations. Qed.

Lemma reservations_settle_once_witness :
  reservations_wf (w_db promoted_world)
  ∧ r_state <$> reservations (w_db reserved_world) = ["pending"]
  ∧ r_state <$> reservations (w_db promoted_world) = ["admitted"].
Proof.
  split; [|split; vm_compute; reflexivity].
  exact (proj1 (reservations_settle_once reserved_world promoted_world reserved_world_reservations promoted_steps)).
Defined.

Definition reserved_row : res_row :=
  MkReservation 100%N 2%N "k1" (JArr [JObj [("kind", JStr "message"); ("payload", JObj [("text", JStr "hello")])]])
    "pending" 1000 (1000 + 5 * minute) None false.
Definition promoted_input : EnvironmentInputReservation :=
  MkInputReservation reservation_id session_id "admitted" false [("message", JObj [("text", JStr "hello")])]
    (Some 1000) (Some (1000 + 5 * minute)) (Some 1005) [MkReceipt 1 (uuid_string 102%N) false].

Lemma PromoteEnvironmentInput_admits_witness :
  clock (w_tick reserved_world) < r_deadline reserved_row
  ∧ r_state <$> reservations (w_db promoted_world) = ["admitted"]
  ∧ t_status <$> turns (w_db promoted_world) = ["in_progress"].
Proof.
  split; [|split; vm_compute; reflexivity].
  destruct (PromoteEnvironmentInput_admits true tenant_id session_id reservation_id reserved_world promoted_input
    promoted_world 2%N 100%N reserved_row) as [Hlate _].
  - apply (steps_turns_wf _ _ reserved_steps), env_world_turns.
  - exact reserved_world_reservations.
  - vm_compute; reflexivity.
  - vm_compute; reflexivity.
  - vm_compute; reflexivity.
  - reflexivity.
  - vm_compute; reflexivity.
  - reflexivity.
  - exact Hlate.
Defined.

(** The same reservation, left for more than five minutes. *)
Definition late_row : res_row :=
  MkReservation 100%N 2%N "k1" (r_batch reserved_row) "pending" (-5 * minute) 0 None false.
Definition late_world : world := MkWorld (with_reservations env_db [late_row]) 0 0 0.

Lemma late_inputs_expire_witness :
  let m := settleEnvironmentInput tenant_id session_id reservation_id "admitted" late_world in
  turn_inputs (w_db m.2) = [] ∧ turn_core <$> turns (w_db m.2) = [].
Proof.
  destruct (late_inputs_expire tenant_id session_id reservation_id "admitted" late_world
    (MkInputReservation reservation_id session_id "expired" false [("message", JObj [("text", JStr "hello")])]
      (Some (-5 * minute)) (Some 0) (Some 1001) [])
    (settleEnvironmentInput tenant_id session_id reservation_id "admitted" late_world).2
    2%N 100%N late_row) as (_ & _ & Ht & Hi & _).
  - vm_compute; reflexivity.
  - vm_compute; reflexivity.
  - reflexivity.
  - reflexivity.
  - vm_compute; discriminate.
  - vm_compute; reflexivity.
  - split; [exact Hi|exact Ht].
Defined.

Lemma ReserveEnvironmentInput_replay_witness :
  let m := ReserveEnvironmentInput tenant_id session_id "k1" [text_input "hello"] promoted_world in
  length (reservations (w_db m.2)) = 1%nat ∧ turn_inputs (w_db m.2) = turn_inputs (w_db promoted_world).
Proof.
  destruct (ReserveEnvironmentInput_replay tenant_id session_id "k1" [text_input "hello"] env_world
    (MkInputReservation reservation_id session_id "pending" false [("message", JObj [("text", JStr "hello")])]
      (Some 1000) (Some (1000 + 5 * minute)) None [])
    reserved_world promoted_world (with_receipts promoted_input [MkReceipt 1 (uuid_string 102%N) true])
    (ReserveEnvironmentInput tenant_id session_id "k1" [text_input "hello"] promoted_world).2) as (_ & _ & _ & _ & Hl & Hi).
  - exact env_world_reservations.
  - vm_compute; reflexivity.
  - vm_compute; discriminate.
  - exact promoted_steps.
  - vm_compute; reflexivity.
  - split; [exact Hl|exact Hi].
Defined.
