(* ===== verification/FileWrites.v ===== *)
(** * FileWrites

    Writes of files into an environment: a write is settled once, an
    environment has at most one pending, and a Session never has a pending write
    together with an active Turn or a waiting input. *)
From stdpp Require Import base tactics list strings numbers relations.
From S2P Require Import Prelude GoJson Contract Items Database Queries EnvQueries SessionLog Turns Environments Reads Configuration Setup Creation.
From S2P Require Import Relations Tables Scenario EnvScenario Frames Snapshots Lifecycle EventLog Inputs Outcomes Reservations.

(** ** The table *)

Definition write_ok (x : write_row) : Prop :=
  write_state_ok (w_state x) = true ∧ (is_Some (w_settled x) ↔ w_state x ≠ "pending").

Definition writes_wf (d : db) : Prop := table_wf w_id write_ok pending_write (file_writes d).

Record write_evolves (x x' : write_row) : Prop := MkWriteEvolves {
  we_id : w_id x' = w_id x;
  we_env : w_env x' = w_env x;
  we_device : w_device x' = w_device x;
  we_sha : w_sha x' = w_sha x;
  we_created : w_created x' = w_created x;
  we_final : w_state x ≠ "pending" → x' = x;
}.

#[export] Instance write_evolves_preorder : PreOrder write_evolves.
Proof.
  split.
  - intros x. by split.
  - intros x y z [] []. split; try congruence. intros Hp. pose proof (we_final0 Hp) as ->. auto.
Qed.

Definition writes_advance : relation db := advances file_writes w_id write_ok pending_write write_evolves.

Lemma writes_same d d' : file_writes d' = file_writes d → writes_advance d d'.
Proof. apply (advances_same _ _ _ _ _). Qed.

(** ** Exclusion *)

(** The Session's environment has a pending write. *)
Definition writing (d : db) (session : N) : bool :=
  existsb (λ e, (e_session e =?s session) && existsb (pending_write (e_id e)) (file_writes d)) (environments d).

(** The Session has an active Turn or a waiting input. *)
Definition busy (d : db) (session : N) : bool :=
  existsb (active_in session) (turns d) || existsb (pending_in session) (reservations d).

(** The Sessions an environment may belong to: hosted ones. *)
Definition config_key (s : session_row) : N * json := (s_id s, s_config s).

Record writes_exclusive (d : db) : Prop := MkWritesExclusive {
  wx_sessions : NoDup (s_id <$> sessions d);
  wx_configs s : In s (sessions d) → in_order (s_config s);
  wx_envs : NoDup (e_id <$> environments d);
  wx_owner e : In e (environments d) → e_session e ∈ s_id <$> sessions d;
  wx_hosted e s : In e (environments d) → In s (sessions d) → s_id s = e_session e → hosted (s_config s) = true;
  wx_writes x : In x (file_writes d) → w_env x ∈ e_id <$> environments d;
  wx_idle session : writing d session = true → busy d session = false;
}.

Definition env_key (e : env_row) : N * N := (e_id e, e_session e).

(** Statements that at most make the Session [who] busy. *)
Record touches (who : option N) (d d' : db) : Prop := MkTouches {
  to_sessions : List.map config_key (sessions d') = List.map config_key (sessions d);
  to_targets : List.map w_env (file_writes d') = List.map w_env (file_writes d);
  to_envs : List.map env_key (environments d') = List.map env_key (environments d);
  to_writing session : writing d' session = true → writing d session = true;
  to_busy session : who ≠ Some session → busy d' session = true → busy d session = true;
}.

#[export] Instance touches_preorder who : PreOrder (touches who).
Proof. split; [by split|]. intros d1 d2 d3 [] []. split; [congruence..|auto|auto]. Qed.

Lemma writing_keys d d' session :
  List.map env_key (environments d') = List.map env_key (environments d) →
  (∀ env, existsb (pending_write env) (file_writes d') = true → existsb (pending_write env) (file_writes d) = true) →
  writing d' session = true → writing d session = true.
Proof.
  intros Ee Hw. unfold writing. rewrite !existsb_exists. intros (e & He & Hp).
  assert (In (env_key e) (List.map env_key (environments d))) as Hin by (rewrite <- Ee; by apply in_map).
  apply in_map_iff in Hin as (e' & [= Ei Es] & He'). exists e'. split; [done|]. rewrite Ei, Es. bsolve.
  by rewrite Hw, bool_decide_eq_true_2.
Qed.

Lemma touches_ids who d d' : touches who d d' → e_id <$> environments d' = e_id <$> environments d.
Proof.
  intros [_ _ Ee _ _]. assert (∀ l : list env_row, e_id <$> l = fst <$> List.map env_key l) as Ek.
  { intros l. change (e_id <$> l = fst <$> (env_key <$> l)). by rewrite <- list_fmap_compose. }
  by rewrite !Ek, Ee.
Qed.

(** Work behind the file write gate of its Session, or that makes none busy. *)
Lemma touches_keeps who d d' :
  touches who d d' → (∀ session, who = Some session → writing d session = false) →
  writes_exclusive d → writes_exclusive d'.
Proof.
  intros Ht Hs [Hids Hc Hn Ho Hh Hx Hi]. pose proof (touches_ids _ _ _ Ht) as Eids. destruct Ht as [Es Et Ee Hw Hb].
  assert (s_id <$> sessions d' = s_id <$> sessions d) as Esid.
  { assert (∀ l : list session_row, s_id <$> l = fst <$> (config_key <$> l)) as Ek by (intros; by rewrite <- list_fmap_compose).
    rewrite !Ek. f_equal. exact Es. }
  assert (∀ s, In s (sessions d') → ∃ s0, In s0 (sessions d) ∧ s_id s0 = s_id s ∧ s_config s0 = s_config s) as Hsame.
  { intros s Hin. assert (In (config_key s) (List.map config_key (sessions d))) as Hk by (rewrite <- Es; by apply in_map).
    apply in_map_iff in Hk as (s0 & [= E1 E2] & H0). eauto. }
  assert (∀ e, In e (environments d') → ∃ e0, In e0 (environments d) ∧ e_id e0 = e_id e ∧ e_session e0 = e_session e) as Hsenv.
  { intros e Hin. assert (In (env_key e) (List.map env_key (environments d))) as Hk by (rewrite <- Ee; by apply in_map).
    apply in_map_iff in Hk as (e0 & [= E1 E2] & H0). eauto. }
  split; [by rewrite Esid| |by rewrite Eids| | | |].
  { intros s (s0 & H0 & _ & <-)%Hsame. auto. }
  { intros e (e0 & H0 & _ & <-)%Hsenv. rewrite Esid. auto. }
  { intros e s (e0 & H0 & _ & <-)%Hsenv (s0 & H1 & <- & <-)%Hsame. eauto. }
  { intros x Hin. rewrite Eids. assert (In (w_env x) (List.map w_env (file_writes d))) as Hk by (rewrite <- Et; by apply in_map).
    apply in_map_iff in Hk as (y & <- & Hy). auto. }
  intros session Hd. apply Hw in Hd. destruct (busy d' session) eqn:E; [|done].
  apply Hb in E; [apply Hi in Hd; congruence|]. intros ->. rewrite Hs in Hd; done.
Qed.

Lemma touches_other who d d' :
  List.map config_key (sessions d') = List.map config_key (sessions d) → environments d' = environments d → file_writes d' = file_writes d → turns d' = turns d →
  reservations d' = reservations d → touches who d d'.
Proof. intros Es Ee Ew Et Er. split; unfold writing, busy; rewrite ?Ee, ?Ew, ?Et, ?Er; done. Qed.

Lemma touches_rows who d p (f : session_row → session_row) :
  (∀ s, p s = true → config_key (f s) = config_key s) → touches who d (with_sessions d (update_where p f (sessions d))).
Proof. intros Hf. apply touches_other; [|done..]. by apply update_where_map_proj. Qed.

Lemma touches_turns who d d' p f :
  sessions d' = sessions d → environments d' = environments d → file_writes d' = file_writes d → reservations d' = reservations d →
  turns d' = update_where p f (turns d) →
  (∀ t session, p t = true → active_in session (f t) = true → active_in session t = true) → touches who d d'.
Proof.
  intros Es Ee Ew Er Et Hp. split; unfold writing, busy; rewrite ?Es, ?Ee, ?Ew, ?Er, ?Et; [done..|].
  intros session _. rewrite !orb_true_iff, !existsb_exists. intros [(t & Ht & Ha)|?]; [left|by right].
  apply in_update_where in Ht as (u & Hu & ->). exists u. split; [done|]. destruct (p u) eqn:E; eauto.
Qed.

Lemma touches_reservations who d d' p f :
  sessions d' = sessions d → environments d' = environments d → file_writes d' = file_writes d → turns d' = turns d →
  reservations d' = update_where p f (reservations d) →
  (∀ r, p r = true → r_state (f r) ≠ "pending") → touches who d d'.
Proof.
  intros Es Ee Ew Et Er Hp. split; unfold writing, busy; rewrite ?Es, ?Ee, ?Ew, ?Er, ?Et; [done..|].
  intros session _. rewrite !orb_true_iff, !existsb_exists. intros [?|(r & Hr & Ha)]; [by left|right].
  apply in_update_where in Hr as (u & Hu & ->). exists u. split; [done|]. destruct (p u) eqn:E; [|done].
  apply Hp in E. unfold pending_in in Ha. by bsolve.
Qed.

Section file_writes.
Context `{UUIDs, Oracle, EventSizes}.

Section touching.
Context (who : option N).
Ltac other := other_statement (touches_other who).

#[export] Instance touches_turn : TurnRelation (on_db (touches who)).
Proof.
  split; [split; [apply _|..]|..]; intros; try solve [other].
  - unfold AppendSessionEvent. moves_tac; apply (moves_exec _); intros w; (split; [|cbn; lia]);
      [by apply touches_rows|by apply touches_other].
  - apply (moves_exec _). intros w. split; [|cbn; lia]. by eapply touches_turns.
  - unfold RequestTurnCancel. moves_tac. apply (moves_exec _). intros w. split; [|cbn; lia].
    eapply touches_turns; [done..|]. intros t s Ht. unfold active_in, cancel_row. cbn.
    apply andb_true_iff in Ht as [_ Ht]. intros [Ha _]%andb_true_iff. by rewrite Ha, Ht.
  - intros w. unfold TransitionTurnQ. run_tx; try lia; [|by apply wr_same]. split; [|cbn; lia].
    eapply touches_turns; [done..|]. intros u s Ht. unfold may_transition in Ht.
    rewrite !andb_true_iff in Ht. destruct Ht as [[_ Ht] _]. unfold active_in. cbn. intros [Ha _]%andb_true_iff. by rewrite Ha, Ht.
  - unfold BeginTurnArtifactCaptureQ. moves_tac. apply (moves_exec _). intros w. split; [|cbn; lia].
    by eapply touches_turns.
  - unfold CancelSessionEnvironmentInput. moves_tac. apply (moves_exec _). intros w. split; [|cbn; lia].
    by eapply touches_reservations.
  - unfold MarkSessionDeleted. moves_tac. apply (moves_exec _). intros w. split; [|cbn; lia]. by apply touches_rows.
Qed.

#[export] Instance touches_env : EnvRelation (on_db (touches who)).
Proof.
  split; intros; try solve [other].
  - unfold ExpireEnvironmentInputReservation. moves_tac. apply (moves_exec _). intros w. split; [|cbn; lia].
    by eapply touches_reservations.
  - intros w. unfold SettleEnvironmentInputReservation. run_tx; try lia; [|by apply wr_same]. split; [|cbn; lia].
    bsolve. by eapply touches_reservations.
  - unfold FailSessionEnvironmentInput. moves_tac. apply (moves_exec _). intros w. split; [|cbn; lia].
    by eapply touches_reservations.
  - intros w. unfold SettleEnvironmentFileWriteQ. run_tx; try lia; [|by apply wr_same]. split; [|cbn; lia].
    bsolve. split; [done|by apply update_where_map_proj|done| |done]. intros session. apply writing_keys; [done|]. intros e. cbn. rewrite !existsb_exists.
    intros (x & Hx & Hp). apply in_update_where in Hx as (y & Hy & ->). exists y. split; [done|].
    destruct (_ && _) eqn:E in Hp; [|done]. unfold pending_write in Hp. cbn in Hp. by bsolve.
Qed.

Lemma touches_status env status : moves (on_db (touches who)) (SetEnvironmentConnectionStatus env status).
Proof.
  unfold SetEnvironmentConnectionStatus. moves_tac. apply (moves_exec _). intros w. split; [|cbn; lia].
  assert (List.map env_key (update_where (λ e, e_id e =?s env) (status_row status) (environments (w_db w)))
    = List.map env_key (environments (w_db w))) as Ee by (by apply update_where_map_proj).
  split; [done|done|done| |done]. intros session. by apply writing_keys.
Qed.

Lemma touches_input session turn key kind payload pos :
  moves (on_db (touches who)) (CreateTurnInput session turn key kind payload pos).
Proof. other. Qed.

Lemma touches_insert session turn ordinal kind payload :
  moves (on_db (touches who)) (insert_event session turn ordinal kind payload).
Proof. other. Qed.

Lemma touches_count session turn n bytes : moves (on_db (touches who)) (CountTurnEvent session turn n bytes).
Proof. apply (moves_exec _). intros w. split; [|cbn; lia]. by eapply touches_turns. Qed.
End touching.

Lemma touches_create_turn id session : moves (on_db (touches (Some session))) (CreateTurn id session).
Proof.
  intros w. unfold CreateTurn. run_tx; try lia. split; [|cbn; lia]. split; [done..|].
  intros s Hs. unfold busy. cbn. rewrite existsb_app. cbn. unfold active_in at 2. cbn.
  rewrite (bool_decide_eq_false_2 (session = s)) by congruence. by rewrite orb_false_r.
Qed.

Lemma touches_reserve id session key batch initial :
  moves (on_db (touches (Some session))) (CreateEnvironmentInputReservation id session key batch initial).
Proof.
  intros w. unfold CreateEnvironmentInputReservation. run_tx; try lia. split; [|cbn; lia]. split; [done..|].
  intros s Hs. unfold busy. cbn. rewrite existsb_app. cbn. unfold pending_in at 2. cbn.
  rewrite (bool_decide_eq_false_2 (session = s)) by congruence. by rewrite orb_false_r.
Qed.

Lemma touches_admit tenantID session key position batch :
  moves (on_db (touches (Some session))) (admit_batch tenantID session key position batch).
Proof. apply (admit_batch_moves _); intros; [apply touches_create_turn|apply touches_input]. Qed.

(** Only a message starts a Turn. *)
Lemma touches_no_message tenantID session key position batch :
  existsb (λ i : CanonInput, i.1 =?s "message") batch = false →
  moves (on_db (touches None)) (admit_batch tenantID session key position batch).
Proof.
  revert position. induction batch as [|input batch IH]; intros position Hb; cbn; [moves_tac|].
  cbn in Hb. apply orb_false_iff in Hb as [Hm Hb].
  apply (moves_bind _); [|intros r; apply (moves_bind _); [by apply IH|intros; moves_tac]].
  unfold admitInput, admitFunctionResult, input_turn, GetActiveTurn. rewrite Hm.
  moves_tac; auto using touches_input; [apply (must_turn_moves _)|apply tr_result|apply (requestTurnCancel_moves _)|apply (indexInput_moves _)].
Qed.

#[export] Instance touches_conn who : ConnRelation (on_db (touches who)).
Proof. apply (conn_relation _), touches_status. Qed.

(** ** The gate *)

Lemma quiet {A} (m : tx A) : moves (on_db (touches None)) m → moves (keeps writes_exclusive) m.
Proof. apply moves_weaken. intros w w' [Ht Hs]. split; [|done]. by apply (touches_keeps None). Qed.

Lemma gated {A B} session (g : tx B) (m : B → tx A) :
  reads g → (∀ w b w', g w = (Ok b, w') → writing (w_db w) session = false) →
  (∀ b, moves (on_db (touches (Some session))) (m b)) → moves (keeps writes_exclusive) (g ≫= m).
Proof.
  intros Hr Hg Hm w. specialize (Hr w). specialize (Hg w). unfold mbind, tx_bind.
  destruct (g w) as [[b|e] w1]; [|by destruct Hr]. destruct Hr as [Ed Hs]. specialize (Hm b w1).
  destruct (m b w1) as [[a|e] w2]; [|cbn in *; lia]. destruct Hm as [Ht Hs2]. cbn in *. split; [|lia]. rewrite Ed in Ht.
  apply (touches_keeps (Some session)); [done|]. intros s [= <-]. by eapply Hg.
Qed.

Lemma gate_open session w u w' :
  checkEnvironmentFileWriteGate session w = (Ok u, w') → writing (w_db w) session = false.
Proof. intros [_ Hg]%checkEnvironmentFileWriteGate_run. by injection Hg. Qed.

Lemma gate_reads session : reads (checkEnvironmentFileWriteGate session).
Proof. intros w. unfold checkEnvironmentFileWriteGate, EnvironmentFileWriteBlocksSession. run_tx; done. Qed.

(** ** What the store preserves *)

#[export] Instance writes_turn : TurnRelation (on_db writes_advance).
Proof. split; [split; [apply _|..]|..]; intros; other_statement writes_same. Qed.

#[export] Instance writes_env : EnvRelation (on_db writes_advance).
Proof.
  split; intros; try solve [other_statement writes_same].
  intros w. unfold SettleEnvironmentFileWriteQ. run_tx; try lia; [|by apply wr_same]. split; [|cbn; lia].
  bsolve. eapply (advances_update _ _ _ _ _); [reflexivity|done|..]; cbn; intros.
  - split; [done|]. cbn. split; [done|]. by eexists.
  - unfold pending_write in *. cbn in *. by bsolve.
  - bsolve. by split.
Qed.

Lemma CreateFileWrite_advance id env device sha : moves (on_db writes_advance) (CreateEnvironmentFileWrite id env device sha).
Proof.
  intros w. unfold CreateEnvironmentFileWrite. run_tx; try lia. split; [|cbn; lia].
  bsolve. rewrite !existsb_false_iff in *. eapply (advances_append _ _ _ _ _); [reflexivity|..]; cbn.
  - intros x Hx E. rename select (∀ x, In x _ → (w_id x =?s id) = false) into Hf.
    apply Hf in Hx. by rewrite E, bool_decide_eq_true_2 in Hx.
  - split; [done|]. cbn. split; [by intros []|done].
  - intros s. unfold pending_write at 1. cbn. intros Hs. bsolve. by apply existsb_false_iff.
Qed.

#[export] Instance writes_create : CreateStatements (on_db writes_advance).
Proof. split; intros; other_statement writes_same. Qed.

#[export] Instance writes_store : StoreRelation (on_db writes_advance).
Proof.
  apply (statement_relation _); intros; try apply CreateFileWrite_advance; other_statement writes_same.
Qed.

#[export] Instance exclusive_turn : TurnRelation (keeps writes_exclusive).
Proof.
  refine (turn_relation_weaken (on_db (touches None)) _ _). intros w w' [Ht Hs].
  split; [by apply (touches_keeps None)|done].
Qed.

#[export] Instance exclusive_env : EnvRelation (keeps writes_exclusive).
Proof. destruct (touches_env None). split; intros; by apply quiet. Qed.

Lemma may_start_gate session : reads (environmentInputMayStart session).
Proof.
  intros w. unfold environmentInputMayStart, checkEnvironmentFileWriteGate, EnvironmentFileWriteBlocksSession, GetActiveTurn.
  run_tx; done.
Qed.

Lemma promote_exclusive tenantID row inputs : moves (keeps writes_exclusive) (promote tenantID row inputs).
Proof.
  unfold promote. apply (gated (r_session row)); [apply may_start_gate| |intros; apply touches_admit].
  intros w b w' (_ & Hg & _)%environmentInputMayStart_run. by injection Hg.
Qed.

#[export] Instance exclusive_admit : AdmitRelation (keeps writes_exclusive).
Proof.
  assert (∀ session key batch, reads (inputBatchReceipts session key batch)) as Hreceipts.
  { intros session key batch w. unfold inputBatchReceipts, FindInputBatch. run_tx; done. }
  assert (∀ R `{!WorldRel R} session key batch, moves R (checkEnvironmentInputGate session key batch)) as Hgate.
  { intros. unfold checkEnvironmentInputGate, CheckEnvironmentInputGate. moves_tac. }
  assert (∀ tenantID row state, moves (keeps writes_exclusive) (settle_environment_input tenantID row state)) as Hsettle.
  { intros. unfold settle_environment_input, environmentInputOutcome, claim_turn, GetEnvironmentInputReservationQ.
    moves_tac; auto using vr_expire, vr_settle, promote_exclusive, moves_reads with typeclass_instances.
    apply (transitionTurn_moves _); [done|by right]. }
  split; intros.
  - unfold submit_batch. apply (moves_bind _); [by apply (moves_reads _)|intros [|]]; [|moves_tac].
    destruct (existsb _ batch) eqn:E.
    + apply (gated session); [apply gate_reads|apply gate_open|intros _].
      apply (moves_bind _); [apply Hgate, _|intros; apply touches_admit].
    + apply (moves_bind _); [moves_tac|intros _]. apply (moves_bind _); [apply Hgate, _|intros _].
      by apply quiet, touches_no_message.
  - unfold reserve_batch, FindEnvironmentInputReservation. moves_tac; [by apply (moves_reads _)|].
    unfold reserve_new. apply (gated session); [apply gate_reads|apply gate_open|intros _].
    unfold GetSessionEnvironmentQ, GetActiveTurn. moves_tac; auto using touches_admit, touches_reserve.
  - done.
Qed.

(** A new write finds its Session idle, its environment bound to it. *)
Lemma create_write_run lookup key session w res w' :
  create_write lookup key session w = (Ok res, w') →
  ∃ now e, let x := MkWrite (wl_id lookup) (wl_env lookup) (match parseID (fw_device key) with Ok id => id | Err _ => 0%N end)
                      (fw_sha key) "pending" now None in
  In e (environments (w_db w)) ∧ e_id e = wl_env lookup ∧ e_session e = session ∧ terminal_environment (e_status e) = false
  ∧ busy (w_db w) session = false ∧ writing (w_db w) session = false
  ∧ w_db w' = with_file_writes (w_db w) (file_writes (w_db w) ++ [x]) ∧ res = fileWriteFromRow x session false.
Proof.
  unfold create_write, EnvironmentFileWriteHasPendingInput. intros Hr.
  apply bind_run in Hr as (cur & w1 & Hq & Hr). apply one_run, GetSessionEnvironment_run in Hq as (-> & He & Hses & _).
  apply bind_run in Hr as ([] & w1 & Hq' & Hr). apply require_run in Hq' as [Hok ->].
  apply bind_run in Hr as (dev & w1 & Hq' & Hr). apply query_run in Hq' as [_ ->]. destruct dev as [x|]; [|discriminate Hr].
  apply bind_run in Hr as ([] & w1 & Hq' & Hr). apply require_run in Hq' as [_ ->].
  apply bind_run in Hr as ([] & w1 & Hq' & Hr). apply environmentInputMayStart_run in Hq' as (-> & Hg & Ha).
  apply bind_run in Hr as (b & w1 & Hq' & Hr). apply query_run in Hq' as [-> ->].
  apply bind_run in Hr as ([] & w1 & Hq' & Hr). apply require_run in Hq' as [Hpend%negb_true_iff ->].
  apply bind_run in Hr as (row & w1 & Hc & Hr). apply ret_run in Hr as [-> ->].
  bsolve.
  unfold CreateEnvironmentFileWrite, clock_timestamp in Hc. tx_inv. simplify_eq. eexists _, (ser_env cur). cbn. repeat (split; [done|]).
  split; [|split; [by injection Hg|split; reflexivity]]. unfold busy. apply orb_false_iff. split; [by apply existsb_false_iff|done].
Qed.

Lemma reserve_write_exclusive lookup key session :
  moves (keeps writes_exclusive) (reserve_write lookup key session).
Proof.
  refine (on_db_runs (keeps turns_wf) (λ d d', writes_exclusive d → writes_exclusive d') _ (er_write _ _ _) _). intros w a w' Hr [Hids Hc Hn Ho Hh Hx Hi].
  unfold reserve_write in Hr. apply bind_run in Hr as (p & w1 & Hq & Hr). apply query_run in Hq as [_ ->].
  destruct p as [[x s]|]; [by tx_inv|].
  apply create_write_run in Hr as (now & e & He & Hid & Hs & _ & Hb & _ & -> & _). split; try done.
  { cbn. intros x [Hin|[<-|[]]]%in_app_iff; [by apply Hx|]. cbn. rewrite <- Hid. by apply (list_elem_of_fmap_2 e_id), list_elem_of_In. }
  intros s. unfold writing. cbn. rewrite existsb_exists. intros (e' & He' & Hp). apply andb_true_iff in Hp as [Es Hp].
  rewrite existsb_app in Hp. apply orb_true_iff in Hp as [Hp|Hp].
  - apply Hi. apply existsb_exists. exists e'. by rewrite Es.
  - cbn in Hp. unfold pending_write in Hp. cbn in Hp. rewrite orb_false_r in Hp. bsolve.
    assert (e' = e) as -> by (apply (nodup_key e_id (environments (w_db w))); congruence). done.
Qed.

(** ** Creation *)

Lemma current_unique d row s : NoDup (s_id <$> sessions d) → current d row → In s (sessions d) → s_id s = s_id row → s = row.
Proof. intros Hn [Hrow _]%head_filter_Some Hs E. by apply (nodup_key s_id (sessions d)). Qed.

Lemma current_row d row : NoDup (s_id <$> sessions d) → In row (sessions d) → current d row.
Proof.
  intros Hn Hin. unfold current. destruct (head _) as [s|] eqn:E.
  - apply head_filter_Some in E as [Hs Hid]. bsolve. f_equal. by apply (nodup_key s_id (sessions d)).
  - rewrite head_filter_None in E. apply E in Hin. by rewrite bool_decide_eq_true_2 in Hin.
Qed.

Lemma exclusive_new d p metadata config now :
  writes_exclusive d → existsb (λ s, s_id s =?s sp_id p) (sessions d) = false → in_order config →
  writes_exclusive (with_sessions d (sessions d ++ [new_row p metadata config now])).
Proof.
  intros [Hids Hc Hn Ho Hh Hx Hi] Hid Hcfg. rewrite existsb_false_iff in Hid.
  assert (sp_id p ∉ s_id <$> sessions d) as Hno.
  { intros (x & E & Hin%list_elem_of_In)%list_elem_of_fmap. apply Hid in Hin. by rewrite E, bool_decide_eq_true_2 in Hin. }
  split; cbn; try done; rewrite ?fmap_app.
  - apply NoDup_app. split; [done|]. split; [|apply NoDup_singleton]. by intros x Hin ->%list_elem_of_singleton.
  - intros s [Hs|[<-|[]]]%in_app_iff; auto.
  - intros e He. apply elem_of_app. left. auto.
  - intros e s He [Hs|[<-|[]]]%in_app_iff; [eauto|]. cbn. intros E. destruct Hno. rewrite E. auto.
Qed.

(** What a Session is given, apart from its environment. *)
Lemma exclusive_stores d d' row row' :
  writes_exclusive d → current d row → stores (s_id row) d d' → current d' row' → same_snapshot row row' → writes_exclusive d'.
Proof.
  intros [Hids Hc Hn Ho Hh Hx Hi] Hrow E Hrow' (Eid & Hord & Esnap). unfold stores in E.
  assert (List.map (other_config (s_id row)) (sessions d') = List.map (other_config (s_id row)) (sessions d)) as Es
    by exact (f_equal sessions E).
  assert (environments d' = environments d) as Ee by exact (f_equal environments E).
  assert (file_writes d' = file_writes d) as Ew by exact (f_equal file_writes E).
  assert (turns d' = turns d) as Et by exact (f_equal turns E).
  assert (reservations d' = reservations d) as Er by exact (f_equal reservations E).
  assert (∀ l, s_id <$> l = s_id <$> List.map (other_config (s_id row)) l) as Ek.
  { intros l. change (List.map ?f ?l) with (f <$> l). rewrite <- list_fmap_compose. apply list_fmap_ext.
    intros i s _. cbn. unfold other_config. by destruct (_ =?s _). }
  assert (s_id <$> sessions d' = s_id <$> sessions d) as Eids by (by rewrite Ek, Es, <- Ek).
  assert (NoDup (s_id <$> sessions d')) as Hids' by (by rewrite Eids).
  assert (∀ s, In s (sessions d') → s = row' ∨ In s (sessions d)) as Hsame.
  { intros s Hs. destruct (decide (s_id s = s_id row)) as [E1|E1]; [left; apply (current_unique d'); try done; congruence|right].
    assert (In (other_config (s_id row) s) (List.map (other_config (s_id row)) (sessions d))) as Hin
      by (rewrite <- Es; by apply in_map).
    apply in_map_iff in Hin as (y & Ey & Hy). unfold other_config in Ey. rewrite (bool_decide_eq_false_2 (s_id s = _)) in Ey by done.
    case_bool_decide; [|by subst]. destruct E1. by rewrite <- Ey. }
  split; try done; rewrite ?Ee, ?Ew, ?Eids; auto.
  - intros s [->|Hs]%Hsame; auto.
  - intros e s He [->|Hs]%Hsame Hse; [|eauto]. apply hosted_snapshot in Esnap. rewrite Esnap. apply head_filter_Some in Hrow as [Hrow _].
    apply (Hh e); [done|done|congruence].
  - intros session. unfold writing, busy. rewrite Ee, Ew, Et, Er. apply Hi.
Qed.

Lemma exclusive_environment row d d' :
  writes_exclusive d → current d row → environment_saved row d d' →
  writes_exclusive d' ∧ writing d' (s_id row) = false.
Proof.
  intros Hd Hrow. pose proof Hd as [Hids Hc Hn Ho Hh Hx Hi]. pose proof Hrow as [Hin _]%head_filter_Some. unfold environment_saved.
  destruct (hosted (s_config row)) eqn:Eh.
  - intros (id & now & Hid & Hses & ->). rewrite existsb_false_iff in Hid, Hses.
    assert (id ∉ e_id <$> environments d) as Hno.
    { intros (x & E & Hx'%list_elem_of_In)%list_elem_of_fmap. apply Hid in Hx'. by rewrite E, bool_decide_eq_true_2 in Hx'. }
    assert (existsb (pending_write id) (file_writes d) = false) as Hfresh.
    { apply existsb_false_iff. intros x Hxin. apply Hx in Hxin. unfold pending_write.
      rewrite bool_decide_eq_false_2; [done|]. by intros E; rewrite E in Hxin. }
    set (d' := with_environments _ _).
    assert (∀ session, writing d' session = writing d session) as Ew.
    { intros session. unfold writing, d'. cbn. rewrite existsb_app. cbn. by rewrite Hfresh, andb_false_r, !orb_false_r. }
    split.
    + split; cbn; try done; rewrite ?fmap_app.
      * apply NoDup_app. split; [done|]. split; [|apply NoDup_singleton]. by intros x Hxin ->%list_elem_of_singleton.
      * intros e [He|[<-|[]]]%in_app_iff; [auto|]. by apply (list_elem_of_fmap_2 s_id), list_elem_of_In.
      * intros e s [He|[<-|[]]]%in_app_iff Hs E; [by eapply Hh|]. cbn in E. by rewrite (current_unique d row s).
      * intros x Hxin. apply elem_of_app. left. auto.
      * intros session. change (writing d' session = true → busy d session = false). rewrite Ew. apply Hi.
    + rewrite Ew. apply existsb_false_iff. intros e He. by rewrite Hses.
  - intros ->. split; [done|]. apply existsb_false_iff. intros e He.
    destruct (e_session e =?s s_id row) eqn:E; [|done]. bsolve. rewrite (Hh e row) in Eh by auto. done.
Qed.

(** The initial inputs of a Session touch no other. *)
Lemma touches_initial tenantID session env batch encoded :
  moves (on_db (touches (Some session))) (admit_initial tenantID session env batch encoded).
Proof.
  apply (admit_initial_moves _); intros; [apply touches_admit|apply touches_reserve].
Qed.

(** Creation does not look at the gate: nothing is written to an environment
    that is new, and a Session that has one is not created again. *)
Lemma create_exclusive (inputs : CreationInputs) tenantID p batch encoded files setup provider :
  moves (keeps writes_exclusive) (create_resources tenantID p batch encoded files setup provider).
Proof.
  refine (on_db_runs (keeps turns_wf) (λ d d', writes_exclusive d → writes_exclusive d') _ (er_create _ _ _ _ _ _ _ _) _).
  intros w [row env] w' Hr Hd. apply create_resources_run in Hr as (row0 & w1 & w2 & Hq & _ & Hr).
  assert (writes_exclusive (w_db w1) ∧ In row0 (sessions (w_db w1))) as [Hd1 Hin].
  { apply CreateSessionQ_run in Hq as (_ & Hq). destruct (head _) as [s|] eqn:E.
    - destruct Hq as [Eo ->]. destruct (same_creation p s); [|discriminate Eo]. injection Eo as ->. by apply head_filter_Some in E as [? _].
    - destruct Hq as (Hid & _ & metadata & config & now & _ & _ & _ & Hcfg & [= ->] & ->).
      split; [|cbn; apply in_app_iff; right; by left]. apply exclusive_new; [done|done|by eapply jsonb_in_order]. }
  destruct (_ =?s _); [|by destruct Hr as (_ & _ & ->)]. destruct Hr as [Hs Ha].
  pose proof (current_row _ _ (wx_sessions _ Hd1) Hin) as Hc1.
  apply save_resources_run in Hs as (d & Hst & Hc2 & Hsn & Henv); [|by apply (wx_configs _ Hd1)|done].
  apply exclusive_environment in Henv as [Hd2 Hw]; [|by eapply (exclusive_stores (w_db w1))|done].
  destruct batch as [|i batch]; [by subst|]. destruct encoded as [j|]; [|by subst].
  apply (moves_run _ _ _ _ _ (touches_initial _ _ _ _ _)) in Ha as [Ht _].
  apply (touches_keeps _ _ _ Ht); [|done]. by intros session [= <-].
Qed.

#[export] Instance exclusive_store : StoreRelation (keeps writes_exclusive).
Proof.
  split; [apply _..| | | | | |].
  - apply (conn_relation _). intros. apply quiet, touches_status.
  - intros. apply (append_events_moves _); intros; apply quiet; auto using touches_insert, touches_count.
  - intros. apply (complete_turn_moves _); [..|done]; intros; apply quiet; auto using touches_insert, touches_count.
  - apply reserve_write_exclusive.
  - apply create_exclusive.
  - intros. apply quiet. unfold UpdateSessionMetadataQ. moves_tac. apply (moves_exec _). intros w. split; [|cbn; lia].
    by apply touches_rows.
Qed.

Lemma steps_writes w w' : steps w w' → writes_advance (w_db w) (w_db w').
Proof. intros Hs. apply (steps_moves (on_db writes_advance) _ _ Hs). Qed.

(** ** Properties *)

(** C29. Files are only written while a Session is idle: along every run no
    Session has both a pending file write and an active Turn or a waiting
    input. *)
Theorem writes_exclude_work w w' :
  writes_exclusive (w_db w) → steps w w' →
  ∀ session, writing (w_db w') session = true →
    (∀ t, In t (turns (w_db w')) → active_in session t = false)
    ∧ (∀ r, In r (reservations (w_db w')) → pending_in session r = false).
Proof.
  intros Hx Hs session Hw. apply (steps_moves (keeps writes_exclusive) _ _ Hs) in Hx.
  apply (wx_idle _ Hx) in Hw. unfold busy in Hw. apply orb_false_iff in Hw as [Ht Hr].
  split; by apply existsb_false_iff.
Qed.

(** File writes are kept along every run: their identifiers stay unique, an
    environment has at most one pending, a write has a settlement time exactly
    when it is settled, its target and contents never change, and once it is
    committed or rejected nothing about it does. *)
Theorem file_writes_settle_once w w' :
  writes_wf (w_db w) → steps w w' →
  writes_wf (w_db w') ∧
  ∀ x, In x (file_writes (w_db w)) → ∃ x', In x' (file_writes (w_db w')) ∧ write_evolves x x'.
Proof.
  intros Hwf Hs%steps_writes. split; [by apply Hs|]. intros x Hx.
  by apply (advances_persist _ _ _ _ _ _ _ _ Hs Hwf).
Qed.
End file_writes.

(** ** Witnesses *)

Lemma env_world_writes : writes_wf (w_db env_world).
Proof. split; [apply NoDup_nil|apply Forall_nil|intros; cbn; lia]. all: done. Qed.

Lemma env_world_exclusive : writes_exclusive (w_db env_world).
Proof.
  split; [apply NoDup_singleton| |apply NoDup_singleton| | |by intros x []|intros session; cbn; by rewrite andb_false_r].
  - intros s [<-|[]]. vm_compute. repeat constructor.
  - intros e [<-|[]]. cbn. by apply list_elem_of_singleton.
  - intros e s [<-|[]] [<-|[]] _. reflexivity.
Qed.

Lemma writing_world_writes : writes_wf (w_db writing_world).
Proof. apply (steps_writes _ _ writing_steps), env_world_writes. Qed.

(** An input is refused while the file is written. *)
Definition refused_world : world := run [req_message "k1" "hello"; req_reserve "k2" "hello"] writing_world.

Lemma writes_exclude_work_witness :
  writing (w_db refused_world) 2%N = true ∧ turns (w_db refused_world) = []
  ∧ ∀ t, In t (turns (w_db refused_world)) → active_in 2%N t = false.
Proof.
  assert (writing (w_db refused_world) 2%N = true) as Hw by (vm_compute; reflexivity).
  split; [exact Hw|]. split; [vm_compute; reflexivity|].
  exact (proj1 (writes_exclude_work env_world refused_world env_world_exclusive
    (steps_trans _ _ _ writing_steps (run_steps _ _)) 2%N Hw)).
Defined.

Lemma file_writes_settle_once_witness :
  writes_wf (w_db written_world)
  ∧ w_state <$> file_writes (w_db writing_world) = ["pending"]
  ∧ w_state <$> file_writes (w_db written_world) = ["committed"].
Proof.
  split; [|split; vm_compute; reflexivity].
  exact (proj1 (file_writes_settle_once writing_world written_world writing_world_writes written_steps)).
Defined.
