(* ===== verification/Connections.v ===== *)
(** * Connections

    The environments of Sessions and their executor connections: a failed or
    expired environment stays so, an observation of a replaced connection or of
    an older revision is ignored, and reconciliation visits every environment. *)
From stdpp Require Import base tactics list strings numbers relations.
From S2P Require Import Prelude GoJson Contract Items Database Queries EnvQueries SessionLog Turns Environments Reads Configuration Setup Creation.
From S2P Require Import Relations Tables Scenario EnvScenario Frames Lifecycle EventLog Inputs Outcomes FileWrites.

Definition env_ok (e : env_row) : Prop := env_status_ok (e_status e) = true.

(** One environment per Session. *)
Definition env_slot (session : N) (e : env_row) : bool := e_session e =?s session.

Definition environments_wf (d : db) : Prop := table_wf e_id env_ok env_slot (environments d).

Record env_evolves (e e' : env_row) : Prop := MkEnvEvolves {
  ee_id : e_id e' = e_id e;
  ee_session : e_session e' = e_session e;
  ee_created : e_created e' = e_created e;
  ee_prepared : e_status e ≠ "pending" → e_status e' ≠ "pending";
  ee_final : terminal_environment (e_status e) = true → e' = e;
}.

#[export] Instance env_evolves_preorder : PreOrder env_evolves.
Proof.
  split.
  - intros e. by split.
  - intros a b c [] []. split; try congruence; auto. intros Ht. pose proof (ee_final0 Ht) as ->. auto.
Qed.

Definition environments_advance : relation db := advances environments e_id env_ok env_slot env_evolves.

Lemma environments_same d d' : environments d' = environments d → environments_advance d d'.
Proof. apply (advances_same _ _ _ _ _). Qed.

Lemma status_advance d d' e status :
  In e (environments d) → terminal_environment (e_status e) = false → env_status_ok status = true → status ≠ "pending" →
  environments d' = update_where (λ x, e_id x =?s e_id e) (status_row status) (environments d) →
  environments_advance d d'.
Proof.
  intros Hin Hterm Hok Hst E Hwf.
  rewrite (update_where_ext _ (λ x, (e_id x =?s e_id e) && negb (terminal_environment (e_status x)))) in E.
  - revert Hwf. eapply (advances_update _ _ _ _ _); [exact E|done|done|done|].
    intros x Hx. cbn beta in Hx. bsolve. split; try done. intros ?; congruence.
  - intros x Hx. destruct (decide (e_id x = e_id e)) as [Ei|Ei]; [|by rewrite bool_decide_eq_false_2].
    assert (x = e) as -> by (by apply (nodup_key e_id (environments d)); [apply Hwf|..]). by rewrite Hterm, andb_true_r.
Qed.

Section connections.
Context `{UUIDs, Oracle, EventSizes}.

Lemma recordEnvironmentConnection_run row status w u w' :
  recordEnvironmentConnection row status w = (Ok u, w') →
  (status = "connected" ∨ status = "disconnected" ∨ status = "failed")
  ∧ log_frame (with_environments (w_db w)
      (update_where (λ e, e_id e =?s e_id (ser_env row)) (status_row status) (environments (w_db w)))) (w_db w').
Proof.
  unfold recordEnvironmentConnection. intros Hr. destruct (config_type _) as [ty|]; [|discriminate Hr].
  apply bind_run in Hr as ([] & w1 & Hq & Hr). apply require_run in Hq as [_ ->].
  apply bind_run in Hr as ([] & w1 & Hq & Hr). apply require_run in Hq as [Hst ->].
  apply bind_run in Hr as ([] & w1 & Hq & Hr). unfold SetEnvironmentConnectionStatus in Hq.
  apply bind_run in Hq as ([] & w2 & Hq & Hx). apply check_run in Hq as [_ ->]. apply exec_run in Hx as ->.
  apply (moves_run (on_db log_frame)) in Hr as [Hf _]; [|by apply (recordSessionChange_moves _)].
  split; [|exact Hf]. rewrite !orb_true_iff in Hst. destruct Hst as [[?|?]|?]; bsolve; auto.
Qed.

Lemma record_advance row status w u w' d :
  environments (w_db w) = environments d → In (ser_env row) (environments d) →
  terminal_environment (e_status (ser_env row)) = false →
  recordEnvironmentConnection row status w = (Ok u, w') → environments_advance d (w_db w').
Proof.
  intros Ee Hin Ht Hr. apply recordEnvironmentConnection_run in Hr as (Hs & Hf). apply lf_environments in Hf. cbn in Hf.
  rewrite Ee in Hf. eapply status_advance; [done|done| |..|exact Hf]; by destruct Hs as [->|[->| ->]].
Qed.

#[export] Instance environments_turn : TurnRelation (on_db environments_advance).
Proof. split; [split; [apply _|..]|..]; intros; other_statement environments_same. Qed.

#[export] Instance environments_env : EnvRelation (on_db environments_advance).
Proof. split; intros; other_statement environments_same. Qed.

Lemma replace_connection_advance gen row w u w' :
  replace_connection gen row w = (Ok u, w') → In (ser_env row) (environments (w_db w)) →
  environments_advance (w_db w) (w_db w').
Proof.
  unfold replace_connection. intros Hr Hin. apply bind_run in Hr as ([] & w1 & Hq & Hr). apply require_run in Hq as [Ht ->].
  apply bind_run in Hr as (old & w1 & Hq & Hr). apply query_run in Hq as [_ ->].
  destruct (match old with Some _ => _ | None => _ end); [by tx_inv|].
  apply bind_run in Hr as ([] & w1 & Hq & Hr). unfold ReplaceEnvironmentConnectionQ in Hq.
  apply bind_run in Hq as ([] & w2 & Hq & Hx). apply check_run in Hq as [_ ->]. apply exec_run in Hx as ->.
  destruct (_ =?s _); [|tx_inv; by apply environments_same]. apply negb_true_iff in Ht.
  eapply record_advance; [|exact Hin|exact Ht|exact Hr]. done.
Qed.

(** An observation that counts advances the revision and sets the status. *)
Lemma observe_connection_run gen revision connected row w u w' :
  observe_connection gen revision connected row w = (Ok u, w') → In (ser_env row) (environments (w_db w)) →
  let status := if (connected : bool) then "connected" else "disconnected" in
  let env := e_id (ser_env row) in
  let current := head (List.filter (connection_of env) (environment_connections (w_db w))) in
  match current with
  | Some c =>
      if (cn_gen c =?s gen) && (cn_rev c <? revision) then
        terminal_environment (e_status (ser_env row)) = false
        ∧ environment_connections (w_db w') = update_where (connection_of env)
            (λ c, MkConnection (cn_env c) (cn_gen c) revision) (environment_connections (w_db w))
        ∧ (e_status (ser_env row) = status ∧ environments (w_db w') = environments (w_db w)
           ∨ environments (w_db w') = update_where (λ e, e_id e =?s env) (status_row status) (environments (w_db w)))
      else w' = w
  | None => w' = w
  end.
Proof.
  unfold observe_connection. intros Hr Hin. cbn zeta. apply bind_run in Hr as (cur & w1 & Hq & Hr).
  apply query_run in Hq as [-> ->]. destruct (head _) as [c|]; [|by tx_inv].
  replace ((cn_gen c =?s gen) && (cn_rev c <? revision)) with (negb (negb (cn_gen c =?s gen) || (revision <=? cn_rev c)))
    by (rewrite negb_orb, negb_involutive, Z.leb_antisym, negb_involutive; done).
  destruct (negb (cn_gen c =?s gen) || (revision <=? cn_rev c)); cbn [negb]; [by tx_inv|].
  apply bind_run in Hr as ([] & w1 & Hq & Hr). apply require_run in Hq as [Ht%negb_true_iff ->]. split; [done|].
  apply bind_run in Hr as ([] & w1 & Hq & Hr). unfold AdvanceEnvironmentConnection in Hq.
  apply bind_run in Hq as ([] & w2 & Hq & Hx). apply check_run in Hq as [_ ->]. apply exec_run in Hx as ->.
  case_bool_decide; [tx_inv; by auto|]. apply recordEnvironmentConnection_run in Hr as (_ & Hf).
  split; [by rewrite (lf_connections _ _ Hf)|right]. by rewrite (lf_environments _ _ Hf).
Qed.

Lemma observe_connection_advance gen revision connected row w u w' :
  observe_connection gen revision connected row w = (Ok u, w') → In (ser_env row) (environments (w_db w)) →
  environments_advance (w_db w) (w_db w').
Proof.
  intros Hr Hin. apply observe_connection_run in Hr; [|done]. cbn zeta in Hr.
  destruct (head _) as [c|]; [|subst; by apply environments_same].
  destruct (_ && _); [|subst; by apply environments_same].
  destruct Hr as (Ht & _ & [[_ E]|E]); [by apply environments_same|].
  eapply status_advance; [exact Hin|done| |..|exact E]; by destruct connected.
Qed.

Lemma drop_connection_advance row w u w' :
  drop_connection row w = (Ok u, w') → In (ser_env row) (environments (w_db w)) →
  environments_advance (w_db w) (w_db w').
Proof.
  unfold drop_connection. intros Hr Hin. apply bind_run in Hr as ([] & w1 & Hq & Hr). apply exec_run in Hq as ->.
  case_bool_decide as Es; [|tx_inv; by apply environments_same]. eapply record_advance; [|done| |exact Hr]; [done|].
  by rewrite Es.
Qed.

Lemma withEnvironmentConnection_advance {A} leased tenantID environmentID (apply : SessionEnvironmentRow → tx A) w a w' :
  (∀ row w1 a, apply row w = (Ok a, w1) → In (ser_env row) (environments (w_db w)) →
    environments_advance (w_db w) (w_db w1)) →
  withEnvironmentConnection leased tenantID environmentID apply w = (Ok a, w') → environments_advance (w_db w) (w_db w').
Proof.
  intros Ha Hr. apply withEnvironmentConnection_run in Hr as (tenant & e & row & w1 & _ & _ & _ & _ & _ & Hin & _ & Hr & Hf).
  transitivity (w_db w1); [by eapply Ha|]. apply environments_same, Hf.
Qed.

(** The row a connection works on is that of the environment it names. *)
Lemma connection_target `{!UUIDLaws} e row d :
  environments_wf d → In e (environments d) → In (ser_env row) (environments d) →
  parseID (uuid_string (e_session e)) = Ok (e_session (ser_env row)) → ser_env row = e.
Proof.
  intros Hwf He Hrow Hs. unfold parseID in Hs. rewrite uuid_parse_string in Hs. case_bool_decide; [discriminate Hs|]. injection Hs as Es.
  apply (slot_unique _ _ _ (environments d) (e_session e) _ _ Hwf Hrow He); unfold env_slot; by apply bool_decide_eq_true_2.
Qed.

Lemma terminate_advance current w u w' :
  terminateRuntimeEnvironment current w = (Ok u, w') → environments_advance (w_db w) (w_db w').
Proof.
  unfold terminateRuntimeEnvironment. intros Hr. apply bind_run in Hr as (row & w1 & Hq & Hr).
  apply one_run, GetSessionEnvironment_run in Hq as (-> & Hin & _). apply bind_run in Hr as ([] & w1 & Hs & Hr).
  unfold FailSessionEnvironmentInput in Hr. apply bind_run in Hr as (now & w2 & Hn & Hr).
  apply clock_run in Hn as [En _]. apply exec_run in Hr as ->. cbn. rewrite En.
  transitivity (w_db w1); [|by apply environments_same].
  destruct (terminal_environment _) eqn:Et; [apply ret_run in Hs as [_ ->]; by apply environments_same|]. cbn in Hs.
  destruct (alr_expired current); [|by eapply (record_advance row)]. unfold SetEnvironmentConnectionStatus in Hs.
  apply bind_run in Hs as ([] & w3 & Hq & Hx). apply check_run in Hq as [_ ->]. apply exec_run in Hx as ->.
  eapply status_advance; [exact Hin|exact Et|..|reflexivity]; done.
Qed.

Lemma request_cleanup_advance tenantID row w a w' :
  request_cleanup tenantID row w = (Ok a, w') → environments_advance (w_db w) (w_db w').
Proof.
  unfold request_cleanup. intros Hr. destruct (_ =?s _); [by tx_inv|].
  apply bind_run in Hr as (n & w1 & Hq & Hr).
  apply (moves_run (on_db environments_advance)) in Hq as [Hr1 _]; [|apply vr_revoke].
  apply bind_run in Hr as (current & w2 & Hq & Hr). apply one_run in Hq. unfold GetRuntimeAllocationQ in Hq.
  apply bind_run in Hq as (now & w3 & Hn & Hq). apply clock_run in Hn as [En _]. apply query_run in Hq as [_ ->].
  apply bind_run in Hr as ([] & w4 & Hw & Hr). apply one_run in Hr.
  apply (moves_run (on_db environments_advance)) in Hr as [Hr4 _]; [|apply vr_cleanup].
  transitivity (w_db w1); [done|]. rewrite <- En. transitivity (w_db w4); [|done].
  destruct (bool_decide _).
  - apply (moves_run (on_db environments_advance)) in Hw as [Hr3 _]; [done|apply (cancelSessionWork_moves _)].
  - apply withEnvironmentInputActivity_run in Hw as (w5 & Hw & Hf).
    apply bind_run in Hw as ([] & w6 & Ht & Hw). apply terminate_advance in Ht.
    apply (moves_run (on_db environments_advance)) in Hw as [Hr3 _]; [|apply (cancelSessionWork_moves _)].
    transitivity (w_db w6); [done|]. transitivity (w_db w5); [done|]. by apply environments_same, lf_environments.
Qed.

#[export] Instance environments_conn : ConnRelation (on_db environments_advance).
Proof.
  split; intros.
  - refine (on_db_runs (keeps turns_wf) _ _ (cr_replace _ _ _ _) _). intros w a w' Hr. unfold ReplaceEnvironmentConnection in Hr.
    apply bind_run in Hr as (gen & w1 & Hq & Hr). apply of_result_run in Hq as [_ ->].
    eapply withEnvironmentConnection_advance, Hr. intros row w1 u. by apply replace_connection_advance.
  - refine (on_db_runs (keeps turns_wf) _ _ (cr_observe _ _ _ _ _ _) _). intros w a w' Hr.
    unfold ObserveEnvironmentConnection in Hr. destruct (parseConnectionGeneration generation) as [gen|]; [|discriminate Hr].
    apply bind_run in Hr as (u & w1 & Hq & Hr). apply require_run in Hq as [_ ->].
    eapply withEnvironmentConnection_advance, Hr. intros row w1 u'. by apply observe_connection_advance.
  - refine (on_db_runs (keeps turns_wf) _ _ (cr_drop _ _ _) _). intros w a w' Hr.
    eapply withEnvironmentConnection_advance, Hr. intros row w1 u. by apply drop_connection_advance.
  - refine (on_db_runs (keeps turns_wf) _ _ (cr_cleanup _ _) _). intros w a w' Hr.
    apply mutateRuntimeAllocation_run in Hr as (t & c & w1 & row & w2 & s & _ & _ & _ & _ & _ & _ & <- & Hr & Hf & _).
    transitivity (w_db w2); [by eapply request_cleanup_advance|]. by apply environments_same, lf_environments.
Qed.

(** A Session gets at most one environment, which is pending. *)
Lemma CreateEnvironment_advance id session : moves (on_db environments_advance) (CreateEnvironment id session).
Proof.
  intros w. unfold CreateEnvironment. run_tx; try lia. split; [|cbn; lia]. bsolve. rewrite !existsb_false_iff in *.
  eapply (advances_append _ _ _ _ _); [reflexivity|..]; cbn.
  - intros x Hx E. rename select (∀ x, In x _ → (e_id x =?s id) = false) into Hf.
    apply Hf in Hx. by rewrite E, bool_decide_eq_true_2 in Hx.
  - done.
  - intros s Hs. unfold env_slot in *. cbn in Hs. bsolve. by apply existsb_false_iff.
Qed.

#[export] Instance environments_create : CreateStatements (on_db environments_advance).
Proof. split; intros; try apply CreateEnvironment_advance; other_statement environments_same. Qed.

#[export] Instance environments_store : StoreRelation (on_db environments_advance).
Proof.
  assert (∀ session turn ordinal kind payload,
    moves (on_db environments_advance) (insert_event session turn ordinal kind payload)) as Hinsert
    by (intros; other_statement environments_same).
  assert (∀ session turn n bytes, moves (on_db environments_advance) (CountTurnEvent session turn n bytes)) as Hcount
    by (intros; other_statement environments_same).
  split; [apply _|apply _| |apply _|..].
  - apply (admit_relation _); intros; [apply (admit_batch_moves _); intros|]; other_statement environments_same.
  - intros. by apply (append_events_moves _).
  - intros. by apply (complete_turn_moves _).
  - apply (reserve_write_moves _). intros. other_statement environments_same.
  - intros. apply (create_moves _); intros; [apply (admit_batch_moves _); intros|]; other_statement environments_same.
  - apply ks_metadata.
Qed.

Lemma steps_environments w w' : steps w w' → environments_advance (w_db w) (w_db w').
Proof. intros Hs. apply (steps_moves (on_db environments_advance) _ _ Hs). Qed.

(** ** Reconciliation *)

(** Reconciling never adds, removes or renames an environment. *)
Lemma reconcile_one_ids row w w' :
  reconcile_one row w = (Ok tt, w') → e_id <$> environments (w_db w') = e_id <$> environments (w_db w).
Proof.
  unfold reconcile_one, catch. destruct (withEnvironmentConnection _ _ _ _ w) as [[u|e] w1] eqn:Er.
  - intros [= _ <-]. apply (moves_run (on_db (touches None))) in Er as [Ht _]; [by eapply touches_ids|].
    apply cr_drop.
  - destruct (e =?s ErrNotFound); [|done]. intros [= <-].
    pose proof (atomic_withEnvironmentConnection true (uuid_string row.2) (uuid_string row.1.1) drop_connection w) as Ha.
    rewrite Er in Ha. by rewrite Ha.
Qed.

Lemma reconcile_page_ids rows w w' :
  tx_iter reconcile_one rows w = (Ok tt, w') → e_id <$> environments (w_db w') = e_id <$> environments (w_db w).
Proof.
  revert w. induction rows as [|row rows IH]; intros w Hr; cbn in Hr; [by apply ret_run in Hr as [_ ->]|].
  apply bind_run in Hr as ([] & w1 & Ho & Hr). apply reconcile_one_ids in Ho. by rewrite (IH _ Hr).
Qed.

(** The environments behind a page boundary. *)
Definition behind (after : N) (ids : list N) : list N := List.filter (λ id, (after <? id)%N) ids.

Lemma behind_shrinks after next ids :
  In next ids → (after < next)%N → (length (behind next ids) < length (behind after ids))%nat.
Proof.
  intros Hin Ha. induction ids as [|id ids IH]; [done|]. unfold behind. cbn.
  assert (length (behind next ids) ≤ length (behind after ids))%nat as Hle.
  { clear IH Hin. unfold behind. induction ids as [|x ids IH]; cbn; [done|].
    destruct (N.ltb_spec next x), (N.ltb_spec after x); cbn; lia. }
  unfold behind in *. destruct Hin as [->|Hin%IH];
    [rewrite N.ltb_irrefl, (proj2 (N.ltb_lt _ _) Ha); cbn; lia|].
  destruct (N.ltb_spec next id), (N.ltb_spec after id); cbn; lia.
Qed.

(** A page lists environments behind its start. *)
Lemma page_behind after w rows w' row :
  ListEnvironmentConnections after w = (Ok rows, w') → In row rows →
  w' = w ∧ In row.1.1 (e_id <$> environments (w_db w)) ∧ (after < row.1.1)%N.
Proof.
  unfold ListEnvironmentConnections. intros Hq Hin. apply query_run in Hq as [-> ->]. split; [done|].
  apply list_elem_of_In, elem_of_take in Hin as (i & Hi & _). apply list_elem_of_lookup_2, list_elem_of_In in Hi.
  apply in_map_iff in Hi as ([e s] & <- & Hi). apply in_sort_by, List.filter_In in Hi as [Hi Hs].
  unfold env_sessions in Hi. apply in_flat_map in Hi as (e' & He & Hi). apply in_map_iff in Hi as (s' & [= -> ->] & _).
  cbn. split; [apply list_elem_of_In, list_elem_of_fmap; exists e; split; [done|by apply list_elem_of_In]|].
  unfold stale_environment in Hs. bsolve. by apply N.ltb_lt.
Qed.

Lemma reconcile_unfold fuel after w :
  reconcile_pages (S fuel) after w =
    match ListEnvironmentConnections after w with
    | (Ok [], w1) => (Ok tt, w1)
    | (Ok (row :: rows), w1) =>
        match tx_iter reconcile_one (row :: rows) w1 with
        | (Ok _, w2) => reconcile_pages fuel (List.last rows row).1.1 w2
        | (Err e, w2) => (Err e, w2)
        end
    | (Err e, w1) => (Err e, w1)
    end.
Proof.
  cbn [reconcile_pages]. unfold mbind, tx_bind. by destruct (ListEnvironmentConnections after w) as [[[|row rows]|e] w1].
Qed.

Lemma last_in {A} (l : list A) x : In (List.last l x) (x :: l).
Proof. revert x. induction l as [|y [|z l] IH]; intros x; [by left|right; by left|]. destruct (IH x) as [E|E]; [left|right; right]; done. Qed.

Lemma reconcile_enough n : ∀ k after w,
  (length (behind after (e_id <$> environments (w_db w))) ≤ n)%nat →
  reconcile_pages (S n + k) after w = reconcile_pages (S n) after w.
Proof.
  induction n as [|n IH]; intros k after w Hn; cbn [Nat.add]; rewrite !reconcile_unfold;
    destruct (ListEnvironmentConnections after w) as [[[|row rows]|e] w1] eqn:Eq; try done;
    destruct (page_behind _ _ _ _ _ Eq (last_in rows row)) as (-> & Hin & Hlt);
    pose proof (behind_shrinks _ _ _ Hin Hlt); [lia|].
  destruct (tx_iter _ _ w) as [[[]|e] w2] eqn:Ei; [|done].
  apply (IH k). apply reconcile_page_ids in Ei. rewrite Ei. lia.
Qed.

(** ** Properties *)

(** A failed or expired environment is final: along every run environments
    keep their identifiers, one per Session, their status stays one of the known
    ones, none becomes pending again, and one that failed or expired never
    changes. *)
Theorem environments_end_once w w' :
  environments_wf (w_db w) → steps w w' →
  environments_wf (w_db w') ∧
  ∀ e, In e (environments (w_db w)) → ∃ e', In e' (environments (w_db w')) ∧ env_evolves e e'.
Proof.
  intros Hwf Hs%steps_environments. split; [by apply Hs|]. intros e He.
  by apply (advances_persist _ _ _ _ _ _ _ _ Hs Hwf).
Qed.

(** Connection observations are fenced: one that succeeds either belongs to
    the current generation and advances its revision, and then the environment
    has the observed status and no other connection changes, or it leaves every
    environment and every connection as they were. *)
Theorem ObserveEnvironmentConnection_fenced `{!UUIDLaws} leased tenantID environmentID generation revision connected w w' :
  environments_wf (w_db w) →
  ObserveEnvironmentConnection leased tenantID environmentID generation revision connected w = (Ok tt, w') →
  ∃ e gen, In e (environments (w_db w)) ∧ parseID environmentID = Ok (e_id e)
  ∧ parseConnectionGeneration generation = Ok gen ∧
  let status := if (connected : bool) then "connected" else "disconnected" in
  match head (List.filter (connection_of (e_id e)) (environment_connections (w_db w))) with
  | Some c =>
      if (cn_gen c =?s gen) && (cn_rev c <? revision) then
        terminal_environment (e_status e) = false ∧ In (status_row status e) (environments (w_db w'))
        ∧ environment_connections (w_db w') = update_where (connection_of (e_id e))
            (λ c, MkConnection (cn_env c) (cn_gen c) revision) (environment_connections (w_db w))
      else environments (w_db w') = environments (w_db w)
           ∧ environment_connections (w_db w') = environment_connections (w_db w)
  | None => environments (w_db w') = environments (w_db w)
            ∧ environment_connections (w_db w') = environment_connections (w_db w)
  end.
Proof.
  intros Hwf Hr. unfold ObserveEnvironmentConnection in Hr.
  destruct (parseConnectionGeneration generation) as [gen|] eqn:Eg; [|discriminate Hr].
  apply bind_run in Hr as ([] & w1 & Hq & Hr). apply require_run in Hq as [_ ->].
  apply withEnvironmentConnection_run in Hr as (tenant & e & row & w1 & _ & _ & He & Hid & Hs & Hin & _ & Hr & Hf).
  pose proof (connection_target _ _ _ Hwf He Hin Hs) as <-.
  exists (ser_env row), gen. do 3 (split; [done|]). cbn zeta.
  apply observe_connection_run in Hr; [|done]. cbn zeta in Hr.
  rewrite (lf_environments _ _ Hf), (lf_connections _ _ Hf).
  destruct (head _) as [c|]; [|by subst]. destruct (_ && _); [|by subst].
  destruct Hr as (Ht & -> & [[Es ->]| ->]); split; [done| |done|]; (split; [|done]).
  - rewrite <- Es. by destruct (ser_env row).
  - apply (in_update_where_hit _ (status_row _)); [done|]. by apply bool_decide_eq_true_2.
Qed.

End connections.

(** ** Witnesses *)

Definition generation : string := uuid_string 3%N.
Definition connecting_world : world := run [ReqReplaceConnection true tenant_id env_id generation] env_world.
Definition connected_world : world := run [ReqObserveConnection true tenant_id env_id generation 1 true] connecting_world.

Lemma env_world_environments : environments_wf (w_db env_world).
Proof.
  split; [cbn; apply NoDup_singleton|cbn; by apply Forall_singleton|].
  intros s. cbn. destruct (env_slot _ _); cbn; lia.
Qed.

Lemma bare_world_environments : environments_wf (w_db bare_world).
Proof. exact env_world_environments. Qed.

Lemma environments_end_once_witness :
  environments_wf (w_db freed_world)
  ∧ e_status <$> environments (w_db running_world) = ["pending"]
  ∧ e_status <$> environments (w_db freed_world) = ["failed"].
Proof.
  split; [|split; vm_compute; reflexivity].
  exact (proj1 (environments_end_once bare_world freed_world bare_world_environments
    (steps_trans _ _ _ allocated_steps (steps_trans _ _ _ running_steps (steps_trans _ _ _ cleaned_steps freed_steps))))).
Defined.

Lemma connecting_world_environments : environments_wf (w_db connecting_world).
Proof. apply (steps_environments env_world); [apply run_steps|apply env_world_environments]. Qed.

Lemma ObserveEnvironmentConnection_fenced_witness :
  ∃ e gen, In e (environments (w_db connecting_world)) ∧ parseConnectionGeneration generation = Ok gen
    ∧ e_status <$> environments (w_db connected_world) = ["connected"].
Proof.
  destruct (ObserveEnvironmentConnection_fenced true tenant_id env_id generation 1 true connecting_world connected_world)
    as (e & gen & He & _ & Hg & _).
  - exact connecting_world_environments.
  - vm_compute; reflexivity.
  - exists e, gen. split; [exact He|]. split; [exact Hg|]. vm_compute; reflexivity.
Defined.

