(* ===== verification/Runtime.v ===== *)
(** * Runtime

    Devices and runtime allocations: an allocation moves from creation to
    release and never back, a revoked device stays revoked, a Session keeps the
    device it is bound to, and cleaning a runtime up ends everything that
    depends on it. *)
From stdpp Require Import base tactics list strings numbers relations.
From S2P Require Import Prelude GoJson Contract Items Database Queries EnvQueries SessionLog Turns Environments.
From S2P Require Import Relations Tables Scenario EnvScenario Frames Lifecycle EventLog Inputs Outcomes FileWrites Connections.

(** ** Allocations *)

Definition alloc_rank (state : string) : option nat :=
  if state =?s "creating" then Some 0%nat else if state =?s "running" then Some 1%nat
  else if state =?s "cleanup_pending" then Some 2%nat else if state =?s "released" then Some 3%nat else None.

Definition init_rank (init : string) : option nat :=
  if init =?s "pending" then Some 0%nat else if init =?s "running" then Some 1%nat
  else if init =?s "complete" then Some 2%nat else None.

Definition alloc_ok (a : alloc_row) : Prop :=
  is_Some (alloc_rank (al_state a)) ∧ is_Some (init_rank (al_init a))
  ∧ (is_Some (al_released a) ↔ al_state a = "released")
  ∧ (al_state a = "running" ∨ al_state a = "released" → al_settled a = true).

(** One allocation per environment and one per device. *)
Definition alloc_slot (s : N + N) (a : alloc_row) : bool :=
  match s with inl env => al_env a =?s env | inr device => al_device a =?s device end.

Definition allocations_wf (d : db) : Prop := table_wf al_id alloc_ok alloc_slot (allocations d).

(** Both ranks are defined on well-formed rows. *)
Definition rank_le (a b : option nat) : Prop := (default 0 a ≤ default 0 b)%nat.

#[export] Instance rank_le_preorder : PreOrder rank_le.
Proof. split; unfold rank_le; repeat intro; lia. Qed.

Record alloc_evolves (a a' : alloc_row) : Prop := MkAllocEvolves {
  ae_id : al_id a' = al_id a;
  ae_env : al_env a' = al_env a;
  ae_device : al_device a' = al_device a;
  ae_provider : al_provider a' = al_provider a;
  ae_created : al_created a' = al_created a;
  ae_state : rank_le (alloc_rank (al_state a)) (alloc_rank (al_state a'));
  ae_init : rank_le (init_rank (al_init a)) (init_rank (al_init a'));
  ae_settled : al_settled a = true → al_settled a' = true;
  ae_final : al_state a = "released" → a' = a;
}.

#[export] Instance alloc_evolves_preorder : PreOrder alloc_evolves.
Proof.
  split.
  - intros a. split; done.
  - intros a b c [] []. split; try congruence; try (by etrans); auto.
    intros Hr. pose proof (ae_final0 Hr) as ->. auto.
Qed.

Definition allocations_advance : relation db := advances allocations al_id alloc_ok alloc_slot alloc_evolves.

Lemma allocations_same d d' : allocations d' = allocations d → allocations_advance d d'.
Proof. apply (advances_same _ _ _ _ _). Qed.

Section runtime.
Context `{UUIDs, Oracle, EventSizes}.

Lemma update_allocation_advance id p f :
  (∀ a, al_id (f a) = al_id a ∧ al_env (f a) = al_env a ∧ al_device (f a) = al_device a) →
  (∀ a, p a = true → alloc_ok a → alloc_ok (f a)) → (∀ a, p a = true → alloc_evolves a (f a)) →
  moves (on_db allocations_advance) (update_allocation id p f).
Proof.
  intros Hf Hok He w. unfold update_allocation. run_tx; try lia; [|by apply wr_same]. split; [|cbn; lia].
  eapply (advances_update _ _ _ _ _); [reflexivity|..].
  - intros x _. apply Hf.
  - intros x [_ Hx]%andb_true_iff. auto.
  - intros [s|s] x _; destruct (Hf x) as (E1 & E2 & E3); cbn; by rewrite ?E2, ?E3.
  - intros x [_ Hx]%andb_true_iff. auto.
Qed.

Lemma allocation_append d d' a :
  allocations d' = allocations d ++ [a] → al_state a = "creating" → al_released a = None → is_Some (init_rank (al_init a)) →
  existsb (λ x, al_id x =?s al_id a) (allocations d) = false →
  existsb (λ x, al_env x =?s al_env a) (allocations d) = false →
  existsb (λ x, al_device x =?s al_device a) (allocations d) = false → allocations_advance d d'.
Proof.
  intros E Hs Hr Hi Hid He Hd. eapply (advances_append _ _ _ _ _); [exact E|..].
  - intros x Hx Ek. rewrite existsb_false_iff in Hid. apply Hid in Hx. by rewrite Ek, bool_decide_eq_true_2 in Hx.
  - split; [rewrite Hs; by eexists|]. split; [done|]. rewrite Hs, Hr. split; [by split; [intros []|]|by intros []].
  - intros [s|s]; cbn; intros ?; bsolve; by subst.
Qed.

Lemma CreateAllocation_advance id env device provider :
  moves (on_db allocations_advance) (CreateRuntimeAllocation id env device provider).
Proof.
  intros w. unfold CreateRuntimeAllocation. run_tx; try lia; (split; [|cbn; lia]); bsolve;
    (eapply allocation_append; [reflexivity|..]; try done); by eexists.
Qed.

#[export] Instance allocations_turn : TurnRelation (on_db allocations_advance).
Proof. split; [split; [apply _|..]|..]; intros; other_statement allocations_same. Qed.

(** The rows the statements on one allocation write. *)
Lemma evolves_with state settled kept released init a :
  al_state a ≠ "released" → rank_le (alloc_rank (al_state a)) (alloc_rank state) →
  rank_le (init_rank (al_init a)) (init_rank init) → (al_settled a = true → settled = true) →
  alloc_evolves a (alloc_with state settled kept released init a).
Proof. by split. Qed.

Lemma rank_below state : state ≠ "released" → rank_le (alloc_rank state) (alloc_rank "cleanup_pending").
Proof. intros Hs. unfold rank_le, alloc_rank at 1. repeat case_bool_decide; vm_compute; done || lia. Qed.

(** An allocation in use becomes one that is still in use. *)
Lemma ok_with state settled kept init a :
  alloc_ok a → al_state a ≠ "released" → state ≠ "released" → is_Some (alloc_rank state) → is_Some (init_rank init) →
  (state = "running" → settled = true) → alloc_ok (alloc_with state settled kept (al_released a) init a).
Proof.
  intros (_ & _ & Hr & _) Ha Hs Hst Hi Hse. split; [done|]. split; [done|]. cbn. split; [|naive_solver].
  split; [|done]. intros Hx. by apply Hr in Hx.
Qed.

Ltac row_tac :=
  match goal with
  | |- alloc_ok _ → _ => let Hok := fresh in intros Hok; pose proof Hok as (? & ? & ? & ?); apply ok_with; try done
  | _ => apply evolves_with; try done
  end;
  repeat match goal with E : al_state _ = _ |- _ => rewrite E end;
  repeat match goal with E : al_init _ = _ |- _ => rewrite E end;
  try solve [done | by eexists | by apply rank_below | vm_compute; lia | naive_solver].

#[export] Instance allocations_env : EnvRelation (on_db allocations_advance).
Proof.
  split; intros; try solve [other_statement allocations_same].
  - apply CreateAllocation_advance.
  - unfold ObserveRuntimeRunningQ. moves_tac. apply update_allocation_advance; [done|..]; intros x Hp;
      apply andb_true_iff in Hp as [Hp _]; apply orb_true_iff in Hp as [Hp|Hp]; bsolve; row_tac.
  - unfold KeepRuntimeAllocationQ. moves_tac. apply update_allocation_advance; [done|..]; intros x Hp; bsolve; row_tac.
  - unfold RequestRuntimeCleanupQ. apply update_allocation_advance; [done|..]; intros x Hp; bsolve; row_tac.
  - unfold SettleRuntimeCreationQ. apply update_allocation_advance; [done|..]; intros x Hp; bsolve; row_tac.
  - unfold ReleaseRuntimeAllocationQ. moves_tac. apply update_allocation_advance; [done|..]; intros x Hp; bsolve; [|row_tac].
    intros (_ & Hi & _). split; [by eexists|]. split; [done|]. cbn. split; [|done]. split; [done|]. by eexists.
  - unfold ClaimRuntimeInitializationQ, initializing. moves_tac.
    apply update_allocation_advance; [done|..]; intros x Hp; bsolve; row_tac.
  - unfold CompleteRuntimeInitializationQ, initializing. moves_tac.
    apply update_allocation_advance; [done|..]; intros x Hp; bsolve; row_tac.
Qed.
#[export] Instance allocations_create : CreateStatements (on_db allocations_advance).
Proof. split; intros; other_statement allocations_same. Qed.

#[export] Instance allocations_store : StoreRelation (on_db allocations_advance).
Proof. apply (statement_relation _); intros; other_statement allocations_same. Qed.

Lemma steps_allocations w w' : steps w w' → allocations_advance (w_db w) (w_db w').
Proof. intros Hs. apply (steps_moves (on_db allocations_advance) _ _ Hs). Qed.

(** ** Cleanup *)

Lemma status_row_id e : status_row (e_status e) e = e.
Proof. by destruct e. Qed.

(** Terminating a runtime's environment leaves it failed or expired. *)
Lemma terminate_run current w u w' :
  terminateRuntimeEnvironment current w = (Ok u, w') →
  devices (w_db w') = devices (w_db w) ∧ allocations (w_db w') = allocations (w_db w)
  ∧ ∃ e status, In e (environments (w_db w)) ∧ e_session e = alr_session current ∧ terminal_environment status = true
      ∧ In (status_row status e) (environments (w_db w')).
Proof.
  unfold terminateRuntimeEnvironment. intros Hr. apply bind_run in Hr as (row & w1 & Hq & Hr).
  apply one_run, GetSessionEnvironment_run in Hq as (-> & Hin & Hes & _). apply bind_run in Hr as ([] & w1 & Hs & Hr).
  unfold FailSessionEnvironmentInput in Hr. apply bind_run in Hr as (now & w2 & Hn & Hr).
  apply clock_run in Hn as [En _]. apply exec_run in Hr as ->. cbn. rewrite En.
  assert (∀ status, In (status_row status (ser_env row)) (update_where (λ e, e_id e =?s e_id (ser_env row))
    (status_row status) (environments (w_db w)))) as Hhit.
  { intros status. apply (in_update_where_hit _ (status_row status)); [done|]. by apply bool_decide_eq_true_2. }
  destruct (terminal_environment (e_status (ser_env row))) eqn:Et; cbn [negb] in Hs.
  - apply ret_run in Hs as [_ ->]. split; [done|]. split; [done|]. exists (ser_env row), (e_status (ser_env row)).
    by rewrite status_row_id.
  - destruct (alr_expired current).
    + unfold SetEnvironmentConnectionStatus in Hs. apply bind_run in Hs as ([] & w3 & Hq & Hx).
      apply check_run in Hq as [_ ->]. apply exec_run in Hx as ->. split; [done|]. split; [done|].
      exists (ser_env row), "expired". repeat (split; [done|]). apply Hhit.
    + apply recordEnvironmentConnection_run in Hs as (_ & Hf). split; [apply Hf|]. split; [apply Hf|].
      exists (ser_env row), "failed". repeat (split; [done|]). rewrite (lf_environments _ _ Hf). apply Hhit.
Qed.

Lemma terminate_turns current : moves (keeps turns_wf) (terminateRuntimeEnvironment current).
Proof.
  assert (∀ env status, moves (keeps turns_wf) (SetEnvironmentConnectionStatus env status)) as Hset.
  { intros. unfold SetEnvironmentConnectionStatus. other_statement turns_wf_same. }
  unfold terminateRuntimeEnvironment, GetSessionEnvironmentQ, recordEnvironmentConnection.
  moves_tac; first [apply vr_fail | by apply (recordSessionChange_moves _)].
Qed.

Lemma frame_back d d' t' :
  log_frame d d' → In t' (turns d') → ∃ t, In t (turns d) ∧ turn_core t' = turn_core t.
Proof.
  intros Hf Ht. destruct (core_row turn_core turn_core (turns d) (turns d') t') as (t & ? & E & _); [done|apply Hf|done|].
  by exists t.
Qed.

(** Ending the work of a Session whose runtime goes away. *)
Lemma end_work_run current session w u w' :
  turns_wf (w_db w) → session = alr_session current →
  (if bool_decide (is_Some (alr_deleted current)) then cancelSessionWork session
   else withEnvironmentInputActivity session (_ ← terminateRuntimeEnvironment current; cancelSessionWork session)) w
  = (Ok u, w') →
  devices (w_db w') = devices (w_db w) ∧ allocations (w_db w') = allocations (w_db w)
  ∧ (∀ t, In t (turns (w_db w')) → active_in session t = true → is_Some (t_cancel t) ∧ t_status t ≠ "queued")
  ∧ (∀ r, In r (reservations (w_db w')) → r_session r = session → r_state r ≠ "pending")
  ∧ if bool_decide (is_Some (alr_deleted current)) then environments (w_db w') = environments (w_db w)
    else ∃ e status, In e (environments (w_db w)) ∧ e_session e = session ∧ terminal_environment status = true
      ∧ In (status_row status e) (environments (w_db w')).
Proof.
  intros Hwf -> Hr. destruct (bool_decide _).
  - apply cancelSessionWork_run in Hr as (Ha & Hp & Ee & Ed & El); done.
  - apply withEnvironmentInputActivity_run in Hr as (w1 & Hr & Hf). apply bind_run in Hr as ([] & w2 & Ht & Hr).
    assert (turns_wf (w_db w2)) as Hwf2.
    { apply (moves_run (keeps turns_wf)) in Ht as [Hk _]; [auto|]. apply terminate_turns. }
    apply terminate_run in Ht as (Ed2 & El2 & e & status & He & Hs & Ht & Hin).
    apply cancelSessionWork_run in Hr as (Ha & Hp & Ee & Ed & El); [|done].
    rewrite (lf_devices _ _ Hf), (lf_allocations _ _ Hf), (lf_reservations _ _ Hf), (lf_environments _ _ Hf), Ed, El, Ee.
    split; [done|]. split; [done|]. split; [|split; [done|by exists e, status]].
    intros t Hin' Hact. destruct (frame_back _ _ _ Hf Hin') as (t1 & Ht1 & E%core_status).
    destruct E as (_ & Es & Est & _ & Ec & _). rewrite Ec, Est. apply Ha; [done|].
    unfold active_in in *. by rewrite <- Es, <- Est.
Qed.

Lemma revoke_run tenant id w n w' :
  RevokeDeviceQ tenant id w = (Ok n, w') →
  w_db w' = with_devices (w_db w) (devices (w_db w'))
  ∧ ∀ x, In x (devices (w_db w')) → d_tenant x = tenant → d_id x = id → is_Some (d_revoked x).
Proof.
  unfold RevokeDeviceQ. intros Hr. apply bind_run in Hr as (now & w1 & Hn & Hr). apply clock_run in Hn as [En _].
  apply bind_run in Hr as (m & w2 & Hq & Hr). apply query_run in Hq as [_ ->].
  apply bind_run in Hr as ([] & w2 & Hq & Hr). apply exec_run in Hq as ->. apply ret_run in Hr as [_ ->]. cbn.
  rewrite En. split; [done|]. intros x Hin Ht Hid. apply in_update_where in Hin as (y & Hy & ->).
  unfold device_is in *. destruct (_ && _) eqn:E; [by eexists|]. rewrite Ht, Hid, !bool_decide_eq_true_2 in E by done. done.
Qed.
(** ** Devices *)

Definition any_device (_ : device_row) : Prop := True.

(** One dedicated device per environment. *)
Definition device_slot (env : N) (x : device_row) : bool := d_environment x =?s Some env.

Record device_evolves (x x' : device_row) : Prop := MkDeviceEvolves {
  de_id : d_id x' = d_id x;
  de_tenant : d_tenant x' = d_tenant x;
  de_name : d_name x' = d_name x;
  de_hash : d_hash x' = d_hash x;
  de_created : d_created x' = d_created x;
  de_environment : d_environment x' = d_environment x;
  de_revoked : is_Some (d_revoked x) → d_revoked x' = d_revoked x;
}.

#[export] Instance device_evolves_preorder : PreOrder device_evolves.
Proof.
  split.
  - intros x. by split.
  - intros x y z [] []. split; try congruence. intros Hr. rewrite de_revoked1 by (by rewrite de_revoked0). auto.
Qed.

Definition devices_wf (d : db) : Prop := table_wf d_id any_device device_slot (devices d).
Definition devices_advance : relation db := advances devices d_id any_device device_slot device_evolves.

Lemma devices_same d d' : devices d' = devices d → devices_advance d d'.
Proof. apply (advances_same _ _ _ _ _). Qed.

Lemma devices_update d d' p f :
  devices d' = update_where p f (devices d) → (∀ x, p x = true → device_evolves x (f x)) → devices_advance d d'.
Proof.
  intros E Hf. eapply (advances_update _ _ _ _ _); [exact E|..]; [|done| |done].
  - intros x Hx. by destruct (Hf x Hx).
  - intros s x Hx. destruct (Hf x Hx). unfold device_slot. by rewrite de_environment0.
Qed.

Lemma devices_append d d' x :
  devices d' = devices d ++ [x] → existsb (λ y, d_id y =?s d_id x) (devices d) = false →
  (∀ env, d_environment x = Some env → existsb (λ y, d_environment y =?s Some env) (devices d) = false) →
  devices_advance d d'.
Proof.
  intros E Hid Henv. eapply (advances_append _ _ _ _ _); [exact E|..]; [|done|].
  - intros y Hy Ek. rewrite existsb_false_iff in Hid. apply Hid in Hy. by rewrite Ek, bool_decide_eq_true_2 in Hy.
  - intros s. unfold device_slot. intros Hs. bsolve. by apply Henv.
Qed.

#[export] Instance devices_turn : TurnRelation (on_db devices_advance).
Proof. split; [split; [apply _|..]|..]; intros; other_statement devices_same. Qed.

#[export] Instance devices_env : EnvRelation (on_db devices_advance).
Proof.
  split; intros; try solve [other_statement devices_same].
  - intros w. unfold CreateDeviceQ. run_tx; try lia. split; [|cbn; lia]. bsolve. by eapply devices_append.
  - unfold RevokeDeviceQ. moves_tac. apply (moves_exec _). intros w. split; [|cbn; lia].
    eapply devices_update; [done|]. intros x _. split; try done. by intros [y Hy]; cbn; rewrite Hy.
  - unfold TouchDevice. moves_tac. apply (moves_exec _). intros w. split; [|cbn; lia].
    by eapply devices_update.
  - intros w. unfold CreateEnvironmentDeviceQ. run_tx; try lia; try by apply wr_same. split; [|cbn; lia]. bsolve.
    eapply devices_append; [done|done|]. cbn. by intros ? [= <-].
Qed.

#[export] Instance devices_create : CreateStatements (on_db devices_advance).
Proof. split; intros; other_statement devices_same. Qed.

#[export] Instance devices_store : StoreRelation (on_db devices_advance).
Proof. apply (statement_relation _); intros; other_statement devices_same. Qed.

(** ** Bindings *)

Definition any_binding (_ : binding_row) : Prop := True.
Definition no_slot (_ : unit) (_ : binding_row) : bool := false.

Definition binding_evolves (b b' : binding_row) : Prop := b_session b' = b_session b ∧ b_device b' = b_device b.

#[export] Instance binding_evolves_preorder : PreOrder binding_evolves.
Proof. split; [done|]. intros a b c [] []. split; congruence. Qed.

Definition bindings_wf (d : db) : Prop := table_wf b_session any_binding no_slot (session_devices d).
Definition bindings_advance : relation db := advances session_devices b_session any_binding no_slot binding_evolves.

Lemma bindings_same d d' : session_devices d' = session_devices d → bindings_advance d d'.
Proof. apply (advances_same _ _ _ _ _). Qed.

#[export] Instance bindings_turn : TurnRelation (on_db bindings_advance).
Proof.
  split; [split; [apply _|..]|..]; intros; try solve [other_statement bindings_same].
  unfold RememberNativeSession. moves_tac. apply (moves_exec _). intros w. split; [|cbn; lia].
  by eapply (advances_update _ _ _ _ _).
Qed.

#[export] Instance bindings_env : EnvRelation (on_db bindings_advance).
Proof.
  split; intros; try solve [other_statement bindings_same].
  intros w. unfold BindSessionDeviceQ. run_tx; try lia; try by apply wr_same. split; [|cbn; lia].
  eapply (advances_append _ _ _ _ _); [reflexivity|..]; [|done|done].
  rename select (head _ = None) into Hn. rewrite head_filter_None in Hn. intros b Hb%Hn E. by rewrite E, bool_decide_eq_true_2 in Hb.
Qed.

#[export] Instance bindings_create : CreateStatements (on_db bindings_advance).
Proof. split; intros; other_statement bindings_same. Qed.

#[export] Instance bindings_store : StoreRelation (on_db bindings_advance).
Proof. apply (statement_relation _); intros; other_statement bindings_same. Qed.
(** The allocation a cleanup updates. *)
Lemma cleanup_run id w row w' :
  RequestRuntimeCleanupQ id w = (Ok (Some row), w') →
  ∃ a, In a (allocations (w_db w)) ∧ al_id a = id ∧ row = cleanup_row a
    ∧ In (cleanup_row a) (allocations (w_db w')) ∧ w_db w' = with_allocations (w_db w) (allocations (w_db w')).
Proof.
  unfold RequestRuntimeCleanupQ, update_allocation. intros Hr. apply bind_run in Hr as (old & w1 & Hq & Hr).
  apply query_run in Hq as [-> ->]. destruct (head _) as [a|] eqn:Eh; [|discriminate Hr].
  apply bind_run in Hr as ([] & w1 & Hq & Hr). apply exec_run in Hq as ->. apply ret_run in Hr as [[= ->] ->].
  apply head_filter_Some in Eh as [Hin Hhit]. exists a. split; [done|].
  split; [apply andb_true_iff in Hhit as [Hhit _]; by bsolve|]. split; [done|].
  split; [|done]. by apply (in_update_where_hit _ cleanup_row).
Qed.

(** What a cleanup leaves of an allocation and the Session it serves. *)
Record cleaned (tenant : N) (old : alloc_row) (d d' : db) : Prop := MkCleaned {
  cl_alloc : In (cleanup_row old) (allocations d');
  cl_device x : In x (devices d') → d_tenant x = tenant → d_id x = al_device old → is_Some (d_revoked x);
  cl_env : ∃ e, In e (environments d') ∧ e_id e = al_env old
    ∧ (terminal_environment (e_status e) = true ∨ ∃ s, In s (sessions d) ∧ s_id s = e_session e ∧ is_Some (s_deleted s))
    ∧ (∀ t, In t (turns d') → active_in (e_session e) t = true → is_Some (t_cancel t) ∧ t_status t ≠ "queued")
    ∧ (∀ r, In r (reservations d') → r_session r = e_session e → r_state r ≠ "pending");
}.

Lemma cleaned_frame tenant old d d1 d2 : cleaned tenant old d d1 → log_frame d1 d2 → cleaned tenant old d d2.
Proof.
  intros [Ha Hd (e & He & Hid & Ht & Hact & Hres)] Hf. split.
  - by rewrite (lf_allocations _ _ Hf).
  - by rewrite (lf_devices _ _ Hf).
  - exists e. rewrite (lf_environments _ _ Hf), (lf_reservations _ _ Hf). repeat (split; [done|]). split; [|done].
    intros t Hin Ha'. destruct (frame_back _ _ _ Hf Hin) as (t1 & Ht1 & E%core_status).
    destruct E as (_ & Es & Est & _ & Ec & _). rewrite Ec, Est. apply Hact; [done|].
    unfold active_in in *. by rewrite <- Es, <- Est.
Qed.

(** The Session's environment after its work has ended. *)
Lemma ended_environment current session e d d' :
  environments_wf d → In e (environments d) → e_session e = session →
  (if bool_decide (is_Some (alr_deleted current)) then environments d' = environments d
   else ∃ e status, In e (environments d) ∧ e_session e = session ∧ terminal_environment status = true
      ∧ In (status_row status e) (environments d')) →
  ∃ e', In e' (environments d') ∧ e_id e' = e_id e ∧ e_session e' = session
    ∧ (terminal_environment (e_status e') = true ∨ is_Some (alr_deleted current)).
Proof.
  intros Hwf He Hs Hcase. case_bool_decide.
  - exists e. rewrite Hcase. auto.
  - destruct Hcase as (e1 & status & He1 & Hs1 & Ht & Hin).
    assert (e1 = e) as -> by (apply (slot_unique _ _ _ (environments d) session _ _ Hwf He1 He);
      unfold env_slot; by apply bool_decide_eq_true_2).
    exists (status_row status e). repeat (split; [done|]). by left.
Qed.

Lemma request_cleanup_run tenantID tenant old w a w' :
  turns_wf (w_db w) → environments_wf (w_db w) → allocations_wf (w_db w) → parseID tenantID = Ok tenant →
  In old (allocations (w_db w)) → al_state old ≠ "released" →
  request_cleanup tenantID old w = (Ok a, w') → cleaned tenant old (w_db w) (w_db w').
Proof.
  intros Hwf Henv Hal Ht Hold Hst Hr. unfold request_cleanup in Hr. rewrite Ht, bool_decide_eq_false_2 in Hr by done.
  apply bind_run in Hr as (n & w3 & Hrev & Hr). apply revoke_run in Hrev as [E3 Hrev].
  apply bind_run in Hr as (cur & w4 & Hq & Hr). apply one_run in Hq. unfold GetRuntimeAllocationQ in Hq.
  apply bind_run in Hq as (now4 & w5 & Hn & Hq). apply clock_run in Hn as [E5 _]. apply query_run in Hq as [Hq ->].
  rewrite E5 in Hq. symmetry in Hq. apply head_filter_Some in Hq as [Hcur Hk].
  apply andb_true_iff in Hk as [_ Hk%bool_decide_eq_true_1].
  apply allocation_rows_in in Hcur as [_ (e & ss & He & Hss & Hei & Hes & Hsid & _ & Hdel)].
  rewrite E3 in He, Hss. cbn in He, Hss.
  apply bind_run in Hr as ([] & w6 & Hw & Hr). apply one_run, cleanup_run in Hr as (a' & Ha & Haid & _ & Hin & E2).
  assert (turns_wf (w_db w5)) as Hwf5 by (eapply turns_wf_same, Hwf; by rewrite E5, E3).
  apply (end_work_run cur _ _ _ _ Hwf5 eq_refl) in Hw as (Ed & El & Hact & Hres & Hcase).
  rewrite El, E5, E3 in Ha. cbn in Ha.
  assert (a' = old) as -> by (by apply (nodup_key al_id (allocations (w_db w))); [apply Hal|..]).
  rewrite E5, E3 in Hcase. cbn in Hcase.
  destruct (ended_environment cur _ e (w_db w) (w_db w6) Henv He Hes Hcase) as (e' & He' & Hid' & Hs' & Hend).
  split; [done| |].
  - rewrite E2. cbn. rewrite Ed, E5. exact Hrev.
  - exists e'. rewrite Hs', E2. cbn. split; [done|]. split; [by rewrite Hid', Hei, Hk|]. split; [|done].
    destruct Hend as [?|?]; [by left|right]. exists ss. by rewrite Hsid, Hes, Hdel.
Qed.

(** ** Properties *)

(** C31. A runtime allocation only moves forward: creating, running, cleanup
    pending, released; its initialization likewise from pending to complete.  No
    environment or device has two, what it is for never changes, it is released
    only once its creation is settled, and a released one never changes. *)
Theorem allocations_move_forward w w' :
  allocations_wf (w_db w) → steps w w' →
  allocations_wf (w_db w') ∧
  ∀ a, In a (allocations (w_db w)) → ∃ a', In a' (allocations (w_db w')) ∧ alloc_evolves a a'.
Proof.
  intros Hwf Hs%steps_allocations. split; [by apply Hs|]. intros a Ha.
  by apply (advances_persist _ _ _ _ _ _ _ _ Hs Hwf).
Qed.

(** Requesting the cleanup of a runtime ends what depends on it: the
    allocation waits for cleanup, its device is revoked, its environment has
    failed or expired unless the Session was deleted, no Turn of the Session is
    queued, every active one carries a cancellation, and no input waits. *)
Theorem RequestRuntimeCleanup_ends leased owner w res w' :
  turns_wf (w_db w) → environments_wf (w_db w) → allocations_wf (w_db w) →
  RequestRuntimeCleanup leased owner w = (Ok res, w') → ra_state res ≠ "released" →
  ∃ a e tenant, parseID (ra_tenant owner) = Ok tenant
    ∧ In a (allocations (w_db w')) ∧ uuid_string (al_id a) = ra_id owner ∧ al_state a = "cleanup_pending"
    ∧ (∀ x, In x (devices (w_db w')) → d_tenant x = tenant → d_id x = al_device a → is_Some (d_revoked x))
    ∧ In e (environments (w_db w')) ∧ e_id e = al_env a
    ∧ (terminal_environment (e_status e) = true
       ∨ ∃ s, In s (sessions (w_db w)) ∧ s_id s = e_session e ∧ is_Some (s_deleted s))
    ∧ (∀ t, In t (turns (w_db w')) → active_in (e_session e) t = true → is_Some (t_cancel t) ∧ t_status t ≠ "queued")
    ∧ (∀ r, In r (reservations (w_db w')) → r_session r = e_session e → r_state r ≠ "pending").
Proof.
  intros Hwf Henv Hal Hr Hst.
  apply mutateRuntimeAllocation_run in Hr
    as (tenant & c & w1 & row & w2 & s & _ & Ht & Hid & _ & [now Hc] & _ & E1 & Hr & Hf & ->).
  apply allocation_rows_in in Hc as [Hc _]. destruct (decide (al_state (alr_alloc c) = "released")) as [Es|Es].
  { unfold request_cleanup in Hr. rewrite bool_decide_eq_true_2 in Hr by done. by apply ret_run in Hr as [-> _]. }
  rewrite <- E1 in Hwf, Henv, Hal, Hc. eapply request_cleanup_run in Hr; [|done..].
  destruct (cleaned_frame _ _ _ _ _ Hr Hf) as [Ha Hd (e & He & Hei & Hrest)]. rewrite E1 in Hrest.
  exists (cleanup_row (alr_alloc c)), e, tenant. repeat (split; [done|]). done.
Qed.

(** Devices and bindings are stable: along every run devices keep their
    identity and credential, an environment has at most one of its own, a
    revoked device stays revoked at its time, and a Session that is bound stays
    bound to the same device. *)
Theorem devices_and_bindings_are_stable w w' :
  devices_wf (w_db w) → bindings_wf (w_db w) → steps w w' →
  devices_wf (w_db w') ∧ bindings_wf (w_db w')
  ∧ (∀ x, In x (devices (w_db w)) → ∃ x', In x' (devices (w_db w')) ∧ device_evolves x x')
  ∧ (∀ b b', In b (session_devices (w_db w)) → In b' (session_devices (w_db w')) → b_session b' = b_session b →
      b_device b' = b_device b).
Proof.
  intros Hdev Hbind Hs. pose proof (steps_moves (on_db devices_advance) _ _ Hs) as [Hd _].
  pose proof (steps_moves (on_db bindings_advance) _ _ Hs) as [Hb _].
  split; [by apply Hd|]. split; [by apply Hb|]. split.
  - intros x Hx. by apply (advances_persist _ _ _ _ _ _ _ _ Hd Hdev).
  - intros b b' Hin Hin' E. by apply (advances_follow _ _ _ _ _ _ _ b b' (λ x y (Hxy : binding_evolves x y), proj1 Hxy) Hb).
Qed.
End runtime.

(** ** Witnesses *)

Lemma bare_world_allocations : allocations_wf (w_db bare_world).
Proof. split; [apply NoDup_nil|apply Forall_nil|intros; cbn; lia]. all: done. Qed.

Lemma to_running_steps : steps bare_world running_world.
Proof. exact (steps_trans _ _ _ allocated_steps running_steps). Qed.

Lemma allocations_move_forward_witness :
  allocations_wf (w_db freed_world)
  ∧ al_state <$> allocations (w_db running_world) = ["running"]
  ∧ al_state <$> allocations (w_db freed_world) = ["released"].
Proof.
  split; [|split; vm_compute; reflexivity].
  exact (proj1 (allocations_move_forward bare_world freed_world bare_world_allocations
    (steps_trans _ _ _ to_running_steps (steps_trans _ _ _ cleaned_steps freed_steps)))).
Defined.

Lemma bare_world_turns : turns_wf (w_db bare_world).
Proof. by split; cbn; [apply NoDup_nil|lia|]. Qed.

Definition cleaned_runtime : RuntimeAllocation :=
  match (RequestRuntimeCleanup true owner running_world).1 with Ok r => r | Err _ => owner end.

Lemma RequestRuntimeCleanup_ends_witness :
  ∃ a e, In a (allocations (w_db cleaned_world)) ∧ al_state a = "cleanup_pending"
    ∧ In e (environments (w_db cleaned_world)) ∧ e_id e = al_env a.
Proof.
  destruct (RequestRuntimeCleanup_ends true owner running_world cleaned_runtime cleaned_world)
    as (a & e & tenant & _ & Ha & _ & Hs & _ & He & Hid & _).
  - apply (steps_turns_wf _ _ to_running_steps), bare_world_turns.
  - apply (steps_environments _ _ to_running_steps), bare_world_environments.
  - apply (steps_allocations _ _ to_running_steps), bare_world_allocations.
  - vm_compute; reflexivity.
  - vm_compute; discriminate.
  - exists a, e. split; [exact Ha|]. split; [exact Hs|]. split; [exact He|exact Hid].
Defined.

Lemma bare_world_devices : devices_wf (w_db bare_world) ∧ bindings_wf (w_db bare_world).
Proof. split; (split; [apply NoDup_nil|apply Forall_nil|intros; cbn; lia]); done. Qed.

Lemma devices_and_bindings_are_stable_witness :
  devices_wf (w_db freed_world)
  ∧ b_device <$> session_devices (w_db freed_world) = b_device <$> session_devices (w_db allocated_world)
  ∧ (λ x, bool_decide (is_Some (d_revoked x))) <$> devices (w_db freed_world) = [true].
Proof.
  split; [|split; vm_compute; reflexivity].
  exact (proj1 (devices_and_bindings_are_stable bare_world freed_world (proj1 bare_world_devices) (proj2 bare_world_devices)
    (steps_trans _ _ _ to_running_steps (steps_trans _ _ _ cleaned_steps freed_steps)))).
Defined.
