(* ===== verification/Sessions.v ===== *)
(** * Sessions

    Creation of Sessions: a key names one Session of its tenant for good, the
    identity of a Session never changes, repeating a creation finds the Session it
    made, and a new Session starts with what was asked for.  With creation among
    the requests, the invariants of the development hold in every state the
    service reaches from an empty database. *)
From stdpp Require Import base tactics list strings numbers relations.
From S2P Require Import Prelude GoJson Contract Items Database Queries EnvQueries SessionLog Turns Environments Reads Configuration Setup Creation.
From S2P Require Import Relations Tables Scenario EnvScenario Frames Snapshots Lifecycle Calls EventLog TurnLog Inputs.
From S2P Require Import Outcomes Reservations FileWrites Connections Runtime.

(** ** The table *)

Definition session_ok (s : session_row) : Prop :=
  is_object (s_metadata s) = true ∧ is_object (s_config s) = true ∧ in_order (s_config s) ∧ 0 ≤ s_event_seq s.

Definition key_slot (k : N * string) : session_row → bool := keyed_session k.1 k.2.

Definition sessions_wf (d : db) : Prop := table_wf s_id session_ok key_slot (sessions d).

(** What a Session is known by does not change; its counter only grows and a
    deletion stays. *)
Record session_keeps (s s' : session_row) : Prop := MkSessionKeeps {
  sk_id : s_id s' = s_id s;
  sk_tenant : s_tenant s' = s_tenant s;
  sk_engine : s_engine s' = s_engine s;
  sk_key : s_key s' = s_key s;
  sk_hash : s_request_hash s' = s_request_hash s;
  sk_creation : s_creation_hash s' = s_creation_hash s;
  sk_creator : s_creator s' = s_creator s;
  sk_created : s_created s' = s_created s;
  sk_counter : s_event_seq s ≤ s_event_seq s';
  sk_deleted : is_Some (s_deleted s) → s_deleted s' = s_deleted s;
}.

#[export] Instance session_keeps_preorder : PreOrder session_keeps.
Proof.
  split.
  - intros s. by split.
  - intros s1 s2 s3 [] []. split; try congruence; try lia.
    intros. rewrite sk_deleted1, sk_deleted0; auto. by rewrite sk_deleted0.
Qed.

Definition sessions_advance : relation db := advances sessions s_id session_ok key_slot session_keeps.

Lemma sessions_same d d' : sessions d' = sessions d → sessions_advance d d'.
Proof. apply (advances_same _ _ _ _ _). Qed.

Lemma sessions_update d p f :
  (∀ s, p s = true → session_keeps s (f s)) → (∀ s, p s = true → session_ok s → session_ok (f s)) →
  ∀ d', sessions d' = update_where p f (sessions d) → sessions_advance d d'.
Proof.
  intros He Hok d' E. eapply (advances_update _ _ _ _ _); [exact E| | | |done].
  - intros s Hs. apply He, Hs.
  - done.
  - intros [t k] s Hs. unfold key_slot, keyed_session. destruct (He s Hs) as [_ -> _ -> _ _ _ _ _ _]. done.
Qed.

Section sessions.
Context `{UUIDs, Oracle, EventSizes}.

#[export] Instance sessions_turn : TurnRelation (on_db sessions_advance).
Proof.
  split; [split; [apply _|..]|..]; intros; try solve [other_statement sessions_same].
  - unfold AppendSessionEvent. moves_tac; apply (moves_exec _); intros w; (split; [|cbn; lia]); [|by apply sessions_same].
    eapply sessions_update; [..|reflexivity]; intros x _; [split; cbn; done || lia|]. intros (? & ? & ? & ?).
    repeat (split; [done|]). cbn. lia.
  - unfold MarkSessionDeleted. moves_tac. apply (moves_exec _). intros w. split; [|cbn; lia].
    eapply sessions_update; [..|reflexivity]; intros s Hs; [|done]. cbn beta in Hs. bsolve. split; try done.
    match goal with E : s_deleted s = None |- _ => rewrite E end. by intros [].
Qed.

#[export] Instance sessions_env : EnvRelation (on_db sessions_advance).
Proof. split; intros; other_statement sessions_same. Qed.

#[export] Instance sessions_create : CreateStatements (on_db sessions_advance).
Proof.
  assert (∀ id f, (∀ c c', in_order c → f c = Some c' → in_order c' ∧ dec_snapshot None c' = dec_snapshot None c) →
    moves (on_db sessions_advance) (set_configuration id f)) as Hconfig.
  { intros id f Hf w. unfold set_configuration. run_tx; try lia; try (by apply wr_same). split; [|cbn; lia].
    rename select (head _ = Some _) into Hh. apply head_filter_Some in Hh as [Hin _]. intros Hwf.
    pose proof (tb_rows _ _ _ _ Hwf) as Hall. rewrite Forall_forall in Hall. apply list_elem_of_In, Hall in Hin as (_ & _ & Ho & _).
    revert Hwf. eapply sessions_update; [..|reflexivity]; intros x _; [by split|]. intros (? & ? & ? & ?).
    do 2 (split; [done|]). split; [|done]. cbn. eapply Hf; [exact Ho|done]. }
  split; intros; try solve [other_statement sessions_same].
  - apply CreateSessionQ_moves; [apply _|]. intros d metadata config now Hid Hkey _ Hm Hc Hj. rewrite existsb_false_iff in Hid.
    eapply (advances_append _ _ _ _ _); [reflexivity|..]; cbn.
    + intros x Hx E. apply Hid in Hx. by rewrite E, bool_decide_eq_true_2 in Hx.
    + do 2 (split; [done|]). split; [by eapply jsonb_in_order|done].
    + intros [t k]. unfold key_slot, keyed_session. cbn. intros Hs. bsolve. exact Hkey.
  - unfold SetSessionInitialFileMetadata. moves_tac. apply Hconfig. intros ? ?. apply set_files_ok.
  - unfold SetSessionSetupMetadata. moves_tac. apply Hconfig. intros ? ?. apply set_packages_ok.
  - intros w. unfold UpdateSessionMetadataQ. run_tx; try lia; try (by apply wr_same). split; [|cbn; lia].
    eapply sessions_update; [..|reflexivity]; intros x _; [by split|]. intros (? & ? & ? & ?). by repeat split.
Qed.

#[export] Instance sessions_store : StoreRelation (on_db sessions_advance).
Proof. apply (statement_relation _); intros; other_statement sessions_same. Qed.

Lemma steps_sessions w w' : steps w w' → sessions_advance (w_db w) (w_db w').
Proof. intros Hs. apply (steps_moves (on_db sessions_advance) _ _ Hs). Qed.
(** ** The statement that creates *)

(** What the schema checks of a new row, whether or not the key is taken. *)
Definition row_checks (p : CreateSessionParams) : Prop :=
  ∃ metadata config, jsonb_in (sp_metadata p) = Some metadata ∧ jsonb_in (sp_config p) = Some config
    ∧ is_object metadata = true ∧ is_object config = true
    ∧ match sp_creation_hash p with Some h => hex_digest h | None => true end = true
    ∧ creator_ok (sp_creator p) = true.

Lemma CreateSessionQ_checks p w o w' : CreateSessionQ p w = (Ok o, w') → row_checks p.
Proof.
  unfold CreateSessionQ, clock_timestamp. intros Hr. tx_inv. simplify_eq/=. clear Hr. by do 2 eexists.
Qed.

Definition ticked (w : world) : world := MkWorld (w_db w) (w_seq w) (S (w_tick w)) (w_draw w).
Definition drawn (w : world) : world := MkWorld (w_db w) (w_seq w) (w_tick w) (S (w_draw w)).

Lemma CreateSessionQ_found p w s :
  row_checks p → head (List.filter (keyed_session (sp_tenant p) (sp_key p)) (sessions (w_db w))) = Some s →
  CreateSessionQ p w = (Ok (if same_creation p s then Some s else None), ticked w).
Proof.
  intros (m & c & Hm & Hc & Om & Oc & Hh & Hcr) Hs. unfold CreateSessionQ, jsonb, clock_timestamp, constraint_check, query.
  unfold mbind, tx_bind. rewrite Hm, Hc, Om, Oc, Hh, Hcr. cbn [w_db]. by rewrite Hs.
Qed.

(** ** Preparation *)

Lemma prepare_params `{CreationInputs} tenantID input params batch encoded :
  prepare_creation tenantID input = Ok (params, batch, encoded) →
  ∃ tenant metadata config hash creation,
    parseID tenantID = Ok tenant
    ∧ ∀ id, params id = MkSessionParams id tenant (TrimSpace (cs_engine input)) metadata (cs_key input) hash config creation
                          (su_kind (cs_creator input), su_id (cs_creator input)).
Proof.
  unfold prepare_creation. intros Hr. repeat (apply bind_Ok in Hr as (? & ? & Hr)). simplify_eq/=. by do 5 eexists.
Qed.

(** [commit_session] draws an identifier and creates under it. *)
Lemma commit_session_run `{CreationInputs} tenantID input w row env created w' :
  commit_session tenantID input w = (Ok (row, env, created), w') →
  ∃ params batch encoded, prepare_creation tenantID input = Ok (params, batch, encoded)
    ∧ create_resources tenantID (params (rand (w_draw w))) batch encoded (cs_files input) (cs_setup input) (cs_provider input)
        (drawn w) = (Ok (row, env), w')
    ∧ created = (s_id row =?s rand (w_draw w)).
Proof.
  unfold commit_session, createSessionResources, uuid_new. intros Hr. apply bind_run in Hr as ([[params batch] encoded] & w1 & Hq & Hr).
  apply of_result_run in Hq as [Hp ->]. apply bind_run in Hr as (id & w1 & [= <- <-] & Hr).
  apply bind_run in Hr as ([row' env'] & w2 & Hc & Hr). apply ret_run in Hr as [[= -> -> ->] ->].
  exists params, batch, encoded. split; [done|]. split; [|done]. unfold catch in Hc.
  destruct (begin_func _ _) as [[a|e] w3] eqn:E; [|destruct (e =?s ErrNoRows); discriminate Hc]. injection Hc as -> ->. by apply begin_run in E.
Qed.

(** Up to its configuration the row that is returned is the one of the key. *)
Lemma stores_row d d' row row' :
  NoDup (s_id <$> sessions d) → In row (sessions d) → stores (s_id row) d d' → current d' row' → s_id row' = s_id row →
  row' = config_row (s_config row') row.
Proof.
  intros Hn Hin E [Hin' _]%head_filter_Some Eid.
  assert (List.map (other_config (s_id row)) (sessions d') = List.map (other_config (s_id row)) (sessions d)) as Es
    by exact (f_equal sessions E).
  assert (In (other_config (s_id row) row') (List.map (other_config (s_id row)) (sessions d))) as Hm
    by (rewrite <- Es; by apply in_map).
  apply in_map_iff in Hm as (y & Ey & Hy). unfold other_config in Ey. rewrite (bool_decide_eq_true_2 _ Eid) in Ey.
  case_bool_decide as Ey'; [|subst; done].
  assert (y = row) as -> by (by apply (nodup_key s_id (sessions d))).
  clear -Ey. destruct row, row'. unfold config_row in *. cbn in *. by injection Ey as -> -> -> -> -> -> -> -> -> -> ->.
Qed.

(** A successful creation returns the Session of the key, which is the one that
    was asked for, live, and in the table. *)
Lemma create_session_row `{CreationInputs} tenantID p batch encoded files setup provider w row env w' :
  sessions_wf (w_db w) →
  create_resources tenantID p batch encoded files setup provider w = (Ok (row, env), w') →
  row_checks p ∧ same_creation p row = true ∧ keyed_session (sp_tenant p) (sp_key p) row = true
  ∧ sessions_wf (w_db w') ∧ ∃ s, In s (sessions (w_db w')) ∧ session_keeps row s.
Proof.
  intros Hwf Hr. pose proof (moves_run _ _ _ _ _ (er_create (R := on_db sessions_advance) _ _ _ _ _ _ _ _) Hr) as [Hadv _].
  apply create_resources_run in Hr as (row0 & w1 & w2 & Hq & _ & Hr). pose proof (CreateSessionQ_checks _ _ _ _ Hq) as Hchk.
  split; [done|]. pose proof (moves_run _ _ _ _ _ (ks_session (R := on_db sessions_advance) p) Hq) as [Hq1 _].
  specialize (Hq1 Hwf) as [Hwf1 _]. fold (sessions_wf (w_db w1)) in Hwf1.
  assert (In row0 (sessions (w_db w1)) ∧ same_creation p row0 = true ∧ keyed_session (sp_tenant p) (sp_key p) row0 = true
    ∧ in_order (s_config row0)) as (Hin & Hsame & Hkey & Ho).
  { apply CreateSessionQ_run in Hq as (_ & Hq). destruct (head _) as [s|] eqn:E.
    - destruct Hq as [Eo ->]. destruct (same_creation p s) eqn:Es; [|discriminate Eo]. injection Eo as ->.
      apply head_filter_Some in E as [Hin ?]. repeat (split; [done|]).
      pose proof (tb_rows _ _ _ _ Hwf) as Hall. rewrite Forall_forall in Hall.
      apply list_elem_of_In, Hall in Hin as (_ & _ & Ho & _). done.
    - destruct Hq as (_ & _ & m & c & now & _ & _ & _ & Hc & [= ->] & ->).
      split; [cbn; apply in_app_iff; right; by left|]. unfold same_creation, keyed_session. cbn.
      rewrite !bool_decide_eq_true_2 by done. split; [|split; [done|by eapply jsonb_in_order]]. cbn.
      destruct (sp_creation_hash p); by rewrite ?bool_decide_eq_true_2. }
  destruct (_ =?s _); cycle 1.
  { destruct Hr as (-> & -> & ->). repeat (split; [done|]). exists row0. by split. }
  destruct Hr as [Hs Ha]. pose proof (moves_run _ _ _ _ _ (save_resources_moves (on_db sessions_advance) _ _ _ _ _) Hs) as [Hs2 _].
  specialize (Hs2 Hwf1) as [Hwf2 _]. fold (sessions_wf (w_db w2)) in Hwf2.
  apply save_resources_run in Hs as (d & Hst & Hcur & (Eid & _ & _) & Henv); [|done|by apply current_row; [apply Hwf1|]].
  pose proof (stores_row _ _ _ _ (tb_keys _ _ _ _ Hwf1) Hin Hst Hcur Eid) as Erow.
  assert (same_creation p row = same_creation p row0 ∧ keyed_session (sp_tenant p) (sp_key p) row = keyed_session (sp_tenant p) (sp_key p) row0)
    as [-> ->] by (rewrite Erow; by split).
  do 2 (split; [done|]). split; [by apply Hadv|].
  assert (In row (sessions (w_db w2))) as Hin2.
  { apply head_filter_Some in Hcur as [Hcur _]. unfold environment_saved in Henv.
    destruct (hosted _); [destruct Henv as (? & ? & _ & _ & ->)|subst]; done. }
  destruct batch as [|i batch]; [subst; exists row; by split|]. destruct encoded as [j|]; [|subst; exists row; by split].
  apply (moves_run (on_db sessions_advance)) in Ha as [Ha _].
  - by apply (advances_persist _ _ _ _ _ _ _ _ Ha Hwf2).
  - apply (admit_initial_moves _); intros; [apply (admit_batch_moves _); intros|]; other_statement sessions_same.
Qed.
(** What a creation leaves is found by later ones. *)
Lemma commit_session_row `{CreationInputs} tenantID input w row env created w' :
  sessions_wf (w_db w) → commit_session tenantID input w = (Ok (row, env, created), w') →
  ∃ params batch encoded, prepare_creation tenantID input = Ok (params, batch, encoded)
    ∧ (∀ id, row_checks (params id) ∧ same_creation (params id) row = true
         ∧ keyed_session (sp_tenant (params id)) (sp_key (params id)) row = true)
    ∧ sessions_advance (w_db w) (w_db w') ∧ sessions_wf (w_db w')
    ∧ ∃ s, In s (sessions (w_db w')) ∧ session_keeps row s.
Proof.
  intros Hwf Hr. apply commit_session_run in Hr as (params & batch & encoded & Hp & Hr & _).
  pose proof (moves_run _ _ _ _ _ (er_create (R := on_db sessions_advance) _ _ _ _ _ _ _ _) Hr) as [Hadv _].
  apply create_session_row in Hr as (Hc & Hsame & Hkey & Hwf' & Hs); [|done].
  exists params, batch, encoded. split; [done|]. split; [|done].
  destruct (prepare_params _ _ _ _ _ Hp) as (t & m & c & h & k & _ & Epar). intros id. rewrite Epar in Hc, Hsame, Hkey |- *. done.
Qed.

Lemma same_creation_live p s : same_creation p s = true → s_deleted s = None ∧ s_creator s = Some (sp_creator p).
Proof. unfold same_creation. intros [[Hd Hc]%andb_true_iff _]%andb_true_iff. by split; eapply bool_decide_eq_true_1. Qed.

Lemma same_creation_later p row s :
  session_keeps row s → s_deleted s = None → same_creation p row = true → same_creation p s = true.
Proof.
  intros [] Hd. unfold same_creation. rewrite sk_creator0, sk_creation0, sk_hash0, Hd.
  rewrite !andb_true_iff. intros [[_ ?] ?]. by split; [split|].
Qed.

(** ** The state of a new Session *)

Definition same_environments (d d' : db) : Prop := environments d' = environments d.

#[export] Instance same_environments_preorder : PreOrder same_environments.
Proof. split; [done|]. unfold same_environments. intros d1 d2 d3. congruence. Qed.

Ltac environments_other := other_statement (λ d d' : db, λ E : same_environments d d', E).

#[export] Instance same_environments_turn : TurnRelation (on_db same_environments).
Proof. split; [split; [apply _|..]|..]; intros; environments_other. Qed.

#[export] Instance same_environments_env : EnvRelation (on_db same_environments).
Proof. split; intros; environments_other. Qed.

(** Initial inputs wait with the environment of the Session. *)
Lemma admit_initial_hosted tenantID session v batch encoded w u w' :
  admit_initial tenantID session (Some v) batch encoded w = (Ok u, w') →
  ∃ r, log_frame (with_reservations (w_db w) (reservations (w_db w) ++ [r])) (w_db w')
    ∧ pending_in session r = true ∧ r_initial r = true ∧ jsonb_in encoded = Some (r_batch r).
Proof.
  unfold admit_initial, uuid_new. intros Hr. apply bind_run in Hr as (id & w1 & [= <- <-] & Hr).
  apply bind_run in Hr as ([] & w2 & Ha & Hr). cbn in Ha. apply withEnvironmentInputActivity_run in Ha as (w3 & Ha & Hf).
  unfold PruneSessionEvents in Hr. apply exec_run in Hr as ->.
  apply bind_run in Ha as (rid & w4 & [= <- <-] & Ha). apply bind_run in Ha as (row & w5 & Hc & Ha). apply ret_run in Ha as [_ ->].
  unfold CreateEnvironmentInputReservation, clock_timestamp in Hc. tx_inv. simplify_eq/=.
  eexists. split; [etrans; [exact Hf|apply (pruned_frame session)]|].
  split_and!; [unfold pending_in; cbn; by rewrite !bool_decide_eq_true_2|done|done].
Qed.

(** Without an environment they start a Turn. *)
Lemma admit_initial_direct tenantID session batch encoded w u w' :
  admit_initial tenantID session None batch encoded w = (Ok u, w') →
  ∃ key rows, turn_inputs (w_db w') = turn_inputs (w_db w) ++ rows ∧ Forall2 (input_stored session key) batch rows.
Proof.
  unfold admit_initial, uuid_new. intros Hr. apply bind_run in Hr as (id & w1 & [= <- <-] & Hr).
  apply bind_run in Hr as ([] & w2 & Ha & Hr). cbn in Ha. unfold PruneSessionEvents in Hr. apply exec_run in Hr as ->.
  apply bind_run in Ha as (rs & w3 & Ha & Hm). apply ret_run in Hm as [_ ->].
  apply admit_batch_run in Ha as (rows & E & Hst & _). by do 2 eexists.
Qed.

(** The environment a new Session is shown. *)
Lemma snapshot_saved row d w env w' :
  writes_exclusive d → current d row → s_deleted row = None → (∀ e, In e (environments d) → e_session e ≠ s_id row) →
  environment_saved row d (w_db w) → sessionEnvironmentSnapshot row w = (Ok env, w') →
  if hosted (s_config row)
  then ∃ e v, environments (w_db w) = environments d ++ [e] ∧ e_session e = s_id row ∧ e_status e = "pending"
         ∧ env = Some v ∧ en_id v = uuid_string (e_id e) ∧ en_status v = "pending"
  else environments (w_db w) = environments d ∧ env = None.
Proof.
  intros Hx Hcur Hlive Hno Hsaved Hr. pose proof Hcur as [Hin _]%head_filter_Some.
  assert (∀ p es, In es (List.filter p (env_sessions d)) → s_id es.2 = s_id row → False) as Hnone.
  { intros p [e s] [He _]%List.filter_In Es. unfold env_sessions in He. apply in_flat_map in He as (e' & He' & Hm).
    apply in_map_iff in Hm as (s' & [= -> ->] & [_ Hs%bool_decide_eq_true_1]%List.filter_In).
    apply (Hno e He'). cbn in Es. congruence. }
  unfold sessionEnvironmentSnapshot, GetSessionEnvironmentQ in Hr. apply bind_run in Hr as (o & w1 & Hq & Hr).
  apply query_run in Hq as [Eo ->]. unfold environment_saved in Hsaved. destruct (hosted (s_config row)).
  - destruct Hsaved as (id & now & _ & _ & Ed). rewrite Ed in Eo |- *.
    set (e := MkEnvironment id (s_id row) "pending" now) in *.
    assert (head (List.filter (λ es : env_row * session_row, (s_tenant es.2 =?s s_tenant row) && (s_id es.2 =?s s_id row) && live es.2)
      (env_sessions (with_environments d (environments d ++ [e])))) = Some (e, row)) as Eh.
    { unfold env_sessions. cbn. rewrite List.flat_map_app, List.filter_app. change (List.flat_map _ (environments d)) with (env_sessions d).
      destruct (List.filter _ (env_sessions d)) as [|es l] eqn:El.
      - cbn. rewrite app_nil_r. rewrite (filter_key s_id (λ s, s_id s =?s s_id row) (sessions d) row); [| |done|..].
        + cbn. unfold live. by rewrite !bool_decide_eq_true_2.
        + apply Hx.
        + by apply bool_decide_eq_true_2.
        + intros y _ Hy. by bsolve.
      - exfalso. assert (In es (es :: l)) as Hes by (by left). rewrite <- El in Hes. eapply Hnone; [exact Hes|].
        apply List.filter_In in Hes as [_ Hes]. by bsolve. }
    rewrite Eh in Eo. subst o. cbn [fmap option_fmap option_map] in Hr.
    apply bind_run in Hr as (v & w1 & Hv & Hr). apply of_result_run in Hv as [Hv ->]. apply ret_run in Hr as [-> ->].
    unfold environmentFromRow in Hv. apply bind_Ok in Hv as (c & _ & [= <-]).
    exists e. eexists. repeat (split; [done|]). done.
  - subst d. split; [done|].
    destruct (head _) as [es|] eqn:E in Eo; [|subst o; by apply ret_run in Hr as [-> _]].
    apply head_filter_Some in E as [Hes Hp]. exfalso. eapply (Hnone (λ _, true)); [by apply List.filter_In|]. by bsolve.
Qed.

(** ** Properties *)

(** Sessions are kept along every run: their identifiers are unique, a key
    names at most one Session of a tenant, configuration and metadata stay
    objects, and a Session keeps its tenant, engine, key, creator, request hashes
    and creation time, while its event counter only grows and a deletion stays. *)
Theorem session_identity_kept w w' :
  sessions_wf (w_db w) → steps w w' →
  sessions_wf (w_db w') ∧
  ∀ s, In s (sessions (w_db w)) → ∃ s', In s' (sessions (w_db w')) ∧ session_keeps s s'.
Proof.
  intros Hwf Hs%steps_sessions. split; [by apply Hs|]. intros s Hin.
  by apply (advances_persist _ _ _ _ _ _ _ _ Hs Hwf).
Qed.


(** The batch and its encoding are what was prepared from the inputs. *)
Lemma prepare_inputs `{CreationInputs} tenantID input params batch encoded :
  prepare_creation tenantID input = Ok (params, batch, encoded) →
  match cs_inputs input with
  | [] => batch = [] ∧ encoded = None
  | inputs => ∃ i b j, batch = i :: b ∧ encoded = Some j ∧ validateInitialInputs inputs = Ok (batch, j)
  end.
Proof.
  unfold prepare_creation. intros Hr. do 6 (apply bind_Ok in Hr as (? & ? & Hr)).
  apply bind_Ok in Hr as (? & Hb & Hr). repeat (apply bind_Ok in Hr as (? & ? & Hr)). injection Hr as <- <- <-.
  destruct (cs_inputs input) as [|i l]; [by injection Hb as <-|].
  apply bind_Ok in Hb as ([b j] & Hb & [= <-]). pose proof Hb as Hv. unfold validateInitialInputs, validateInputs in Hv.
  do 2 (apply bind_Ok in Hv as (? & _ & Hv)). apply bind_Ok in Hv as (b' & Hv & [= -> <-]). cbn [validate_inputs] in Hv.
  repeat (apply bind_Ok in Hv as (? & _ & Hv)). injection Hv as <-. by do 3 eexists.
Qed.

(** A creation under a fresh identifier, up to the admission of its inputs. *)
Lemma commit_session_new `{CreationInputs} tenantID input w row env w' :
  sessions_wf (w_db w) → writes_exclusive (w_db w) →
  commit_session tenantID input w = (Ok (row, env, true), w') →
  existsb (λ s, s_id s =?s s_id row) (sessions (w_db w)) = false →
  ∃ params batch encoded p m c now d w2, prepare_creation tenantID input = Ok (params, batch, encoded) ∧ p = params (s_id row)
    ∧ row = config_row (s_config row) (new_row p m c now)
    ∧ stores (s_id row) (with_sessions (w_db w) (sessions (w_db w) ++ [new_row p m c now])) d
    ∧ writes_exclusive d ∧ current d row ∧ environment_saved row d (w_db w2)
    ∧ sessionEnvironmentSnapshot row w2 = (Ok env, w2)
    ∧ match batch, encoded with
      | _ :: _, Some encoded => admit_initial tenantID (s_id row) env batch encoded w2 = (Ok tt, w')
      | _, _ => w' = w2
      end.
Proof.
  intros Hwf Hx Hr Hfresh. apply commit_session_run in Hr as (params & batch & encoded & Hp & Hr & Hid). symmetry in Hid. bsolve.
  apply create_resources_run in Hr as (row0 & w1 & w2 & Hq & Hsnap & Hr). rewrite <- Hid in *.
  assert (sp_id (params (s_id row)) = s_id row) as Esp by (destruct (prepare_params _ _ _ _ _ Hp) as (?&?&?&?&?&_&->); done).
  assert (s_id row0 = s_id row) as E0.
  { destruct (bool_decide_reflect (s_id row0 = sp_id (params (s_id row)))); [congruence|]. by destruct Hr as [-> _]. }
  apply CreateSessionQ_run in Hq as (_ & Hq). cbn [drawn w_db] in Hq. destruct (head _) as [s|] eqn:E in Hq.
  { exfalso. destruct Hq as [Eo _]. destruct (same_creation _ s); [|discriminate Eo]. injection Eo as ->.
    apply head_filter_Some in E as [Hin _]. rewrite existsb_false_iff in Hfresh. apply Hfresh in Hin.
    by rewrite bool_decide_eq_true_2 in Hin. }
  destruct Hq as (_ & _ & m & c & now & _ & _ & _ & Hc & [= ->] & Ew1). rewrite (bool_decide_eq_true_2 _ (eq_trans E0 (eq_sym Esp))) in Hr.
  destruct Hr as [Hs Ha]. set (p := params (s_id row)) in *. set (d1 := with_sessions _ _) in Ew1.
  assert (writes_exclusive d1) as Hx1 by (apply exclusive_new; [done|by rewrite Esp|by eapply jsonb_in_order]).
  assert (In (new_row p m c now) (sessions d1)) as Hin1 by (apply in_app_iff; right; by left).
  pose proof (current_row _ _ (wx_sessions _ Hx1) Hin1) as Hc1.
  apply save_resources_run in Hs as (d & Hst & Hcur & Hsn & Henv); [|by eapply jsonb_in_order|by rewrite Ew1].
  rewrite Ew1, E0 in Hst. exists params, batch, encoded, p, m, c, now, d, w2. do 2 (split; [done|]).
  split; [apply (stores_row d1 d); [apply Hx1|done|by rewrite E0|done|done]|]. split; [done|].
  split; [eapply (exclusive_stores d1 d); [done|done|by rewrite E0|done|done]|]. done.
Qed.

(** C25. A new Session is what was asked for: its row is stored with the key, the
    engine and the creator given and an event counter of zero, so that a stream
    started from the result misses none of the first events.  It gets one
    environment, pending and returned with it, exactly when its configuration is
    hosted.  Its initial inputs then wait for the environment in one pending
    reservation; without an environment they are stored in order under one key;
    and without inputs no work exists. *)
Theorem CreateSession_spec `{CreationInputs} tenantID input w row env w' :
  sessions_wf (w_db w) → writes_exclusive (w_db w) →
  commit_session tenantID input w = (Ok (row, env, true), w') →
  existsb (λ s, s_id s =?s s_id row) (sessions (w_db w)) = false →
  (∃ s, In s (sessions (w_db w')) ∧ session_keeps row s)
  ∧ s_key row = cs_key input ∧ s_engine row = TrimSpace (cs_engine input)
  ∧ s_creator row = Some (su_kind (cs_creator input), su_id (cs_creator input)) ∧ s_event_seq row = 0
  ∧ (if hosted (s_config row)
     then ∃ e v, environments (w_db w') = environments (w_db w) ++ [e] ∧ e_session e = s_id row ∧ e_status e = "pending"
            ∧ env = Some v ∧ en_id v = uuid_string (e_id e) ∧ en_status v = "pending"
     else environments (w_db w') = environments (w_db w) ∧ env = None)
  ∧ match cs_inputs input with
    | [] => reservations (w_db w') = reservations (w_db w) ∧ turn_inputs (w_db w') = turn_inputs (w_db w) ∧ turns (w_db w') = turns (w_db w)
    | inputs => ∃ batch j, validateInitialInputs inputs = Ok (batch, j) ∧
        if hosted (s_config row)
        then turn_inputs (w_db w') = turn_inputs (w_db w)
          ∧ ∃ r, reservations (w_db w') = reservations (w_db w) ++ [r] ∧ pending_in (s_id row) r = true ∧ r_initial r = true
              ∧ jsonb_in j = Some (r_batch r)
        else ∃ key rows, turn_inputs (w_db w') = turn_inputs (w_db w) ++ rows ∧ Forall2 (input_stored (s_id row) key) batch rows
    end.
Proof.
  intros Hwf Hx Hr Hfresh. pose proof (commit_session_row _ _ _ _ _ _ _ Hwf Hr) as (_ & _ & _ & _ & _ & _ & _ & Hstored).
  split; [done|]. clear Hstored.
  apply commit_session_new in Hr as (params & batch & encoded & p & m & c & now & d & w2 & Hp & -> & Erow & Hst & Hxd & Hcur & Hsaved & Hsnap & Ha); [|done..].
  destruct (prepare_params _ _ _ _ _ Hp) as (t & m' & c' & h & k & _ & Epar). rewrite Epar in Erow.
  assert (s_deleted row = None) as Hlive by (by rewrite Erow).
  do 4 (split; [by rewrite Erow|]).
  assert (environments d = environments (w_db w)) as Ee by exact (f_equal environments Hst).
  assert (reservations d = reservations (w_db w)) as Er by exact (f_equal reservations Hst).
  assert (turn_inputs d = turn_inputs (w_db w)) as Ei by exact (f_equal turn_inputs Hst).
  assert (turns d = turns (w_db w)) as Et by exact (f_equal turns Hst).
  assert (∀ e, In e (environments d) → e_session e ≠ s_id row) as Hno.
  { rewrite Ee. intros e He Es. apply (wx_owner _ Hx) in He as (s & Eq & Hin%list_elem_of_In)%list_elem_of_fmap.
    rewrite existsb_false_iff in Hfresh. apply Hfresh in Hin. by rewrite <- Eq, Es, bool_decide_eq_true_2 in Hin. }
  pose proof (snapshot_saved row d w2 env w2 Hxd Hcur Hlive Hno Hsaved Hsnap) as Henv. rewrite Ee in Henv.
  assert (reservations (w_db w2) = reservations d ∧ turn_inputs (w_db w2) = turn_inputs d ∧ turns (w_db w2) = turns d) as (Er2 & Ei2 & Et2).
  { unfold environment_saved in Hsaved. destruct (hosted _); [destruct Hsaved as (? & ? & _ & _ & ->)|subst]; done. }
  apply prepare_inputs in Hp. destruct (cs_inputs input) as [|i0 l0].
  { destruct Hp as [-> ->]. subst w'. split; [done|]. rewrite Er2, Ei2, Et2. done. }
  destruct Hp as (i & b & j & -> & -> & Hv).
  assert (environments (w_db w') = environments (w_db w2)) as Ew'.
  { apply (moves_run (on_db same_environments)) in Ha as [Ha _]; [exact Ha|].
    apply (admit_initial_moves _); intros; [apply (admit_batch_moves _); intros|]; environments_other. }
  rewrite Ew'. split; [done|]. exists (i :: b), j. split; [done|]. destruct (hosted (s_config row)).
  - destruct Henv as (e & v & _ & _ & _ & -> & _). apply admit_initial_hosted in Ha as (r & Hf & Hpend & Hini & Hj).
    split; [rewrite (lf_inputs _ _ Hf); cbn; congruence|]. exists r. rewrite (lf_reservations _ _ Hf). cbn.
    split; [congruence|done].
  - destruct Henv as [_ ->]. apply admit_initial_direct in Ha as (key & rows & E & Hrows). exists key, rows.
    split; [congruence|done].
Qed.
(** ** Every reachable state *)

Record service_ok (w : world) : Prop := MkServiceOk {
  so_sessions : sessions_wf (w_db w);
  so_turns : turns_wf (w_db w);
  so_inputs : inputs_wf w;
  so_events : events_wf (w_db w);
  so_calls : calls_wf (w_db w);
  so_log : log_wf (w_db w);
  so_environments : environments_wf (w_db w);
  so_reservations : reservations_wf (w_db w);
  so_writes : writes_wf (w_db w);
  so_exclusive : writes_exclusive (w_db w);
  so_allocations : allocations_wf (w_db w);
  so_devices : devices_wf (w_db w);
  so_bindings : bindings_wf (w_db w);
}.

Lemma steps_ok w w' : steps w w' → service_ok w → service_ok w'.
Proof.
  intros Hs []. split.
  - by apply (steps_sessions _ _ Hs).
  - by apply (steps_turns_wf _ _ Hs).
  - by apply (steps_inputs _ _ Hs).
  - by apply (steps_events _ _ Hs).
  - by apply (steps_calls _ _ Hs).
  - by apply (steps_log _ _ Hs).
  - by apply (steps_environments _ _ Hs).
  - by apply (steps_reservations _ _ Hs).
  - by apply (steps_writes _ _ Hs).
  - by apply (steps_moves (keeps writes_exclusive) _ _ Hs).
  - by apply (steps_allocations _ _ Hs).
  - by apply (steps_moves (on_db devices_advance) _ _ Hs).
  - by apply (steps_moves (on_db bindings_advance) _ _ Hs).
Qed.

Lemma empty_table {A K S} (key : A → K) (ok : A → Prop) (slot : S → A → bool) : table_wf key ok slot [].
Proof. split; [apply NoDup_nil; done|by apply Forall_nil|intros; cbn; lia]. Qed.

Lemma empty_ok ticks draws : service_ok (MkWorld empty_db 0 ticks draws).
Proof.
  split; try apply empty_table.
  all: split; cbn; try done; try apply NoDup_nil; try (by intros ? []); try apply Forall_nil; try lia.
  split; cbn; [constructor..|done].
Qed.

(** C1. The service keeps its data consistent from the first request on: in every
    state that any interleaving of requests reaches from an empty database,
    Sessions, Turns, inputs, execution events, function calls, the change log,
    environments, reservations, file writes, allocations, devices and bindings
    satisfy the invariants of their components. *)
Theorem reachable_states_ok ticks draws w :
  steps (MkWorld empty_db 0 ticks draws) w → service_ok w.
Proof. intros Hs. by apply (steps_ok _ _ Hs), empty_ok. Qed.
End sessions.

(** ** Witnesses *)

Definition demo_inputs : CreationInputs := {|
  sha256_hex _ := digest;
  float_text lit := lit;
  source_file _ _ := Err ErrNotFound;
  cipher := true;
  creation_skills := λ _ _, None;
  creation_urls := λ _, None;
|}.

Definition no_setup : EnvironmentSetup := MkSetup [] [] (MkPackages None None None) [].

(** A hosted Session with one initial message. *)
Definition demo_creation : CreateSessionInput :=
  MkCreateSession None no_setup [] (MkSubject "user" "u1") (raw_of (JObj [])) "codex" [] "create-1"
    (raw_of hosted_config) [text_input "hello"].

Definition start_world : world := MkWorld empty_db 0 0 0.
Definition req_create : request := ReqCreateSession demo_inputs tenant_id demo_creation.
Definition created_world : world := run [req_create] start_world.
Definition first_row : session_row := match (@commit_session _ _ _ demo_inputs tenant_id demo_creation start_world).1 with Ok r => r.1.1 | Err _ => demo_session end.
Definition first_env : option Environment := match (@commit_session _ _ _ demo_inputs tenant_id demo_creation start_world).1 with Ok r => r.1.2 | Err _ => None end.

Lemma created_run : @commit_session _ _ _ demo_inputs tenant_id demo_creation start_world = (Ok (first_row, first_env, true), created_world).
Proof. vm_compute. reflexivity. Qed.

(** Later a second Session is created under another key, then the first again. *)
Definition other_creation : CreateSessionInput :=
  MkCreateSession None no_setup [] (MkSubject "user" "u1") (raw_of (JObj [])) "codex" [] "create-2" (raw_of (JObj [])) [].
Definition later_world : world := run [ReqCreateSession demo_inputs tenant_id other_creation] created_world.
Definition later_row : session_row := hd demo_session (sessions (w_db later_world)).
Definition later_env : option Environment := match (sessionEnvironmentSnapshot later_row later_world).1 with Ok e => e | Err _ => None end.

Definition replayed_world : world := run [req_create] later_world.

Lemma later_run :
  @commit_session _ _ _ demo_inputs tenant_id demo_creation later_world = (Ok (later_row, later_env, false), replayed_world).
Proof. vm_compute. reflexivity. Qed.

Lemma created_steps : steps start_world created_world.
Proof. unfold created_world. apply run_steps. Qed.
Lemma later_steps : steps created_world later_world.
Proof. unfold later_world. apply run_steps. Qed.

#[global] Opaque created_world later_world replayed_world.

Lemma start_ok : service_ok start_world.
Proof. apply empty_ok. Qed.

Lemma session_identity_kept_witness :
  sessions_wf (w_db later_world) ∧ length (sessions (w_db later_world)) = 2%nat.
Proof.
  split; [|vm_compute; reflexivity].
  apply (session_identity_kept start_world later_world).
  - apply empty_table.
  - exact (steps_trans _ _ _ created_steps later_steps).
Defined.



Lemma CreateSession_spec_witness :
  hosted (s_config first_row) = true ∧ s_event_seq first_row = 0
  ∧ length (session_events (w_db created_world)) = 0%nat ∧ length (reservations (w_db created_world)) = 1%nat.
Proof.
  destruct (CreateSession_spec (H2 := demo_inputs) tenant_id demo_creation start_world first_row first_env created_world)
    as (_ & _ & _ & _ & Hz & _).
  - apply empty_table.
  - exact (so_exclusive _ start_ok).
  - exact created_run.
  - reflexivity.
  - split; [vm_compute; reflexivity|]. split; [exact Hz|]. split; vm_compute; reflexivity.
Defined.

Lemma reachable_states_ok_witness : service_ok later_world ∧ length (environments (w_db later_world)) = 1%nat.
Proof.
  split; [|vm_compute; reflexivity]. apply (reachable_states_ok 0 0).
  exact (steps_trans _ _ _ created_steps later_steps).
Defined.
