(* ===== verification/Work.v ===== *)
(** * Work

    The listings the execution worker schedules from: a page of work holds
    exactly the workable Turns that come first after its cursor, so a worker
    that continues from the last Turn it saw misses none. *)
From stdpp Require Import base tactics list strings numbers relations sorting.
From S2P Require Import Prelude GoJson Contract Items Database Queries EnvQueries SessionLog Turns Environments Reads.
From S2P Require Import Relations Scenario Frames Lifecycle.

Lemma by_turn_id_total a b : by_turn_id a b = true ∨ by_turn_id b a = true.
Proof. unfold by_turn_id. rewrite !N.leb_le. lia. Qed.

Lemma by_turn_id_trans a b c : by_turn_id a b = true → by_turn_id b c = true → by_turn_id a c = true.
Proof. unfold by_turn_id. rewrite !N.leb_le. lia. Qed.

(** What a sorted list holds behind its first rows is no smaller than they are. *)
Lemma sorted_take_drop {A} (R : A → A → Prop) n l x y :
  StronglySorted R l → In x (take n l) → In y (drop n l) → R x y.
Proof.
  intros Hs. revert n. induction Hs as [|z l Hl IH Hz]; intros [|n] Hx Hy; cbn in *; try done.
  destruct Hx as [->|Hx]; [|by eapply IH]. eapply Forall_forall; [exact Hz|].
  apply list_elem_of_In. rewrite <- (take_drop n l). apply in_app_iff. by right.
Qed.

Lemma sorted_take {A} (R : A → A → Prop) n l : StronglySorted R l → StronglySorted R (take n l).
Proof.
  intros Hs. revert n. induction Hs as [|z l Hl IH Hz]; intros [|n]; cbn; try constructor; [done|].
  by apply Forall_take.
Qed.

Section work.
Context `{UUIDs, Oracle, EventSizes}.

(** The rows of a page. *)
Definition work_rows (d : db) (from : N) (statuses : list string) (only : bool) (devices : list N) : list (turn_row * session_row) :=
  take 100 (sort_by by_turn_id (List.filter (workable d from statuses only devices) (turn_sessions d))).

Lemma ListExecutionWork_run after statuses connected w work w' :
  ListExecutionWork after statuses connected w = (Ok work, w') →
  ∃ from devices, executionWorkCursor after (default [] connected) = Ok (from, devices) ∧ w' = w
    ∧ work = List.map execution_work (work_rows (w_db w) from statuses (bool_decide (is_Some connected)) devices).
Proof.
  unfold ListExecutionWork. intros Hr. apply bind_run in Hr as ([from devices] & w1 & Hc & Hr).
  apply of_result_run in Hc as [Hc ->]. apply bind_run in Hr as (rows & w1 & Hq & Hr).
  apply query_run in Hq as [-> ->]. apply ret_run in Hr as [-> ->]. by exists from, devices.
Qed.

Lemma work_rows_spec d from statuses only devices :
  let rows := work_rows d from statuses only devices in
  let eligible ts := In ts (turn_sessions d) ∧ workable d from statuses only devices ts = true in
  (length rows ≤ 100)%nat ∧ StronglySorted (λ a b, t_id a.1 ≤ t_id b.1)%N rows
  ∧ (∀ ts, In ts rows → eligible ts)
  ∧ (∀ ts, eligible ts → In ts rows ∨ length rows = 100%nat ∧ ∀ r, In r rows → (t_id r.1 ≤ t_id ts.1)%N).
Proof.
  cbn zeta. unfold work_rows. set (l := sort_by by_turn_id _).
  assert (StronglySorted (λ a b, t_id a.1 ≤ t_id b.1)%N l) as Hsorted.
  { eapply sorted_impl; [|apply (sort_by_sorted _ by_turn_id_total by_turn_id_trans)]. intros a b. by apply N.leb_le. }
  assert (∀ ts, In ts l ↔ In ts (turn_sessions d) ∧ workable d from statuses only devices ts = true) as Hl.
  { intros ts. unfold l. rewrite in_sort_by, List.filter_In. reflexivity. }
  split; [rewrite length_take; lia|]. split; [by apply sorted_take|]. split.
  - intros ts Hts. apply Hl. rewrite <- (take_drop 100 l). apply in_app_iff. by left.
  - intros ts Hts%Hl. rewrite <- (take_drop 100 l) in Hts. apply in_app_iff in Hts as [Hts|Hts]; [by left|right].
    split; [|intros r Hr; exact (sorted_take_drop (λ a b, (t_id a.1 ≤ t_id b.1)%N) 100 l r ts Hsorted Hr Hts)].
    rewrite length_take. assert (length (drop 100 l) ≠ 0%nat) as Hd by (by destruct (drop 100 l)).
    rewrite length_drop in Hd. lia.
Qed.

(** A page of work is exact: at most 100 Turns in the order of their
    identifiers, each in a requested status, after the cursor, not a queued one
    of a deleted Session and, when asked, of a tenant with a connected device;
    a workable Turn is only left out when the page is full and every Turn on it
    comes before. *)
Theorem ListExecutionWork_page after statuses connected w work w' :
  ListExecutionWork after statuses connected w = (Ok work, w') →
  ∃ from devices rows, executionWorkCursor after (default [] connected) = Ok (from, devices)
    ∧ w' = w ∧ work = List.map execution_work rows ∧ (length rows ≤ 100)%nat
    ∧ StronglySorted (λ a b, t_id a.1 ≤ t_id b.1)%N rows
    ∧ let eligible ts := In ts (turn_sessions (w_db w))
        ∧ workable (w_db w) from statuses (bool_decide (is_Some connected)) devices ts = true in
      (∀ ts, In ts rows → eligible ts)
      ∧ (∀ ts, eligible ts → In ts rows ∨ length rows = 100%nat ∧ ∀ r, In r rows → (t_id r.1 ≤ t_id ts.1)%N).
Proof.
  intros (from & devices & Hc & -> & ->)%ListExecutionWork_run. exists from, devices, (work_rows (w_db w) from statuses (bool_decide (is_Some connected)) devices).
  do 3 (split; [done|]). apply work_rows_spec.
Qed.
End work.

(** ** Witness *)

Lemma ListExecutionWork_page_witness :
  ∃ rows, List.map (λ r : turn_row * session_row, t_status r.1) rows = ["queued"]
    ∧ List.map execution_work rows = [MkExecutionWork tenant_id session_id turn_id "queued"].
Proof.
  destruct (ListExecutionWork_page "" ["queued"] None queued_world
    [MkExecutionWork tenant_id session_id turn_id "queued"] queued_world) as (from & devices & rows & _ & _ & E & _).
  - vm_compute; reflexivity.
  - exists rows. split; [|symmetry; exact E].
    destruct rows as [|[t s] [|]]; try discriminate E. injection E as _ _ _ Es. cbn. by rewrite <- Es.
Defined.
