(* ===== verification/Journal.v ===== *)
(** * Journal

    The event journal of a delivery ([services/agents-api/internal/execution/
    journal.go]): it collects the frames of a running Turn and writes them
    through an [eventWriter] in batches.  The writer may fail, and it may fail
    after its transaction committed, so the journal keeps the identity of the
    batch it tried last.

    The journal is verified against the interface [EventWriter]/[WriterLaws];
    [StoreWriter] shows that [AppendTurnEvents] of the store provides it. *)
From stdpp Require Import base tactics list strings numbers relations.
From S2P Require Import Prelude GoJson Contract Items Database Queries SessionLog Turns Relations Scenario Frames Lifecycle Calls EventLog TurnLog.

(** ** Frames *)

(** [proto.Envelope], without the trace header. *)
Record Envelope := MkEnvelope { env_type : string; env_id : string; env_payload : raw_message }.

(** The frame types the journal records. *)
Definition journaled (kind : string) : bool :=
  existsb (λ k, kind =?s k)
    ["delta"; "output_message"; "thinking"; "tool_call"; "command_output"; "usage";
     "error"; "done"; "prompt_steer_ack"; "subagent_identity"; "cancel_receipt"].

(** ** The interface of the writer *)

(** [eventWriter], with the tenant, the Session and the Turn of one journal. *)
Class EventWriter (W : Type) :=
  append_turn_events : Z → list ExecutionEvent → W → result unit * W.

(** What a journal relies on.  [wlog] is the log of its Turn: a call leaves it
    alone or adds the whole batch at the position it names, whatever it
    returns; after a call that returned without an error the batch is there. *)
Class WriterLaws (W L : Type) `{EventWriter W} (good : W → Prop) (wlog : W → list L)
    (stored : ExecutionEvent → L → Prop) : Prop := {
  wl_good first events w r w' : good w → append_turn_events first events w = (r, w') → good w';
  wl_bound w : good w → Z.of_nat (length (wlog w)) ≤ 65537;
  wl_append first events w r w' : good w → append_turn_events first events w = (r, w') →
    wlog w' = wlog w
    ∨ (first = Z.of_nat (length (wlog w)) + 1 ∧ ∃ rows, wlog w' = wlog w ++ rows ∧ Forall2 stored events rows);
  wl_ok first events w w' : good w → 1 ≤ first → append_turn_events first events w = (Ok tt, w') →
    Forall2 stored events (take (length events) (drop (Z.to_nat (first - 1)) (wlog w')));
}.

(** ** The journal *)

Record journal := MkJournal {
  j_next : Z;                      (** int32 *)
  j_batch : list ExecutionEvent;
  j_bytes : Z;
  j_pending : nat;
  j_observe_subagents : bool;
}.

Definition new_journal (observeSubagents : bool) : journal := MkJournal 1 [] 0 0 observeSubagents.

Definition event_len (e : ExecutionEvent) : Z := raw_len (xe_payload e).

Definition batch_limit : Z := 768 * 1024.

Definition enqueue (env : Envelope) (j : journal) : result unit * journal :=
  if (env_type env =?s "subagent_identity") && negb (j_observe_subagents j) then (Err ErrInvalidInput, j)
  else if negb (journaled (env_type env)) then (Ok tt, j)
  else if 512 * 1024 <? raw_len (env_payload env) then (Err ErrEventLimit, j)
  else (Ok tt, MkJournal (j_next j) (j_batch j ++ [MkExecEvent (env_type env) (env_payload env)])
                 (j_bytes j + raw_len (env_payload env)) (j_pending j) (j_observe_subagents j)).

(** The inner loop of [flush]: (count, size) of the next batch. *)
Fixpoint batch_scan (limit count : nat) (size : Z) (events : list ExecutionEvent) : nat * Z :=
  match limit, events with
  | S limit', e :: events' =>
      if (0 <? count)%nat && (batch_limit <? size + event_len e) then (count, size)
      else batch_scan limit' (S count) (size + event_len e) events'
  | _, _ => (count, size)
  end.

Definition next_batch (j : journal) : nat * Z :=
  batch_scan (if (0 <? j_pending j)%nat then j_pending j else 64) 0 0 (j_batch j).

Section flush.
Context {W : Type} `{EventWriter W}.

(** The loop of [flush], one append per unit of fuel. *)
Fixpoint flush_loop (fuel : nat) (j : journal) (w : W) : result unit * journal * W :=
  match j_batch j, fuel with
  | [], _ => (Ok tt, j, w)
  | _, O => (Err (ErrOther "fuel"), j, w)
  | _, S fuel' =>
      let '(count, size) := next_batch j in
      let j := MkJournal (j_next j) (j_batch j) (j_bytes j) count (j_observe_subagents j) in
      match append_turn_events (j_next j) (take count (j_batch j)) w with
      | (Err e, w) => (Err e, j, w)
      | (Ok _, w) =>
          flush_loop fuel' (MkJournal (wrap32 (j_next j + Z.of_nat count)) (drop count (j_batch j))
                              (j_bytes j - size) 0 (j_observe_subagents j)) w
      end
  end.

Definition flush (j : journal) (w : W) : result unit * journal * W := flush_loop (length (j_batch j)) j w.

Definition observe (env : Envelope) (j : journal) (w : W) : result unit * journal * W :=
  match enqueue env j with
  | (Err e, j) => (Err e, j, w)
  | (Ok _, j) =>
      if (batch_limit <? j_bytes j) || (64 <=? Z.of_nat (length (j_batch j))) then flush j w
      else (Ok tt, j, w)
  end.

End flush.

(** ** What is to be logged *)

(** The specification: the frames that have to end up in the log of the Turn,
    in the order they were observed. *)
Definition accepted (observeSubagents : bool) (env : Envelope) : bool :=
  journaled (env_type env) && (raw_len (env_payload env) <=? 512 * 1024)
  && (observeSubagents || negb (env_type env =?s "subagent_identity")).

Definition to_log (observeSubagents : bool) (seen : list Envelope) : list ExecutionEvent :=
  List.map (λ env, MkExecEvent (env_type env) (env_payload env)) (List.filter (accepted observeSubagents) seen).

Lemma to_log_snoc sub seen env :
  to_log sub (seen ++ [env]) = to_log sub seen ++ to_log sub [env].
Proof. unfold to_log. by rewrite List.filter_app, List.map_app. Qed.

Definition events_size (events : list ExecutionEvent) : Z := fold_right (λ e acc, event_len e + acc) 0 events.

Lemma events_size_app l k : events_size (l ++ k) = events_size l + events_size k.
Proof. unfold events_size. rewrite foldr_app. induction l as [|e l IH]; cbn in *; lia. Qed.

Lemma enqueue_spec env j r j' :
  enqueue env j = (r, j') →
  j_next j' = j_next j ∧ j_pending j' = j_pending j ∧ j_observe_subagents j' = j_observe_subagents j
  ∧ j_batch j' = j_batch j ++ to_log (j_observe_subagents j) [env]
  ∧ j_bytes j' = j_bytes j + events_size (to_log (j_observe_subagents j) [env]).
Proof.
  unfold enqueue, to_log, accepted, events_size, event_len. cbn [List.filter].
  rewrite (Z.leb_antisym (512 * 1024)). intros He.
  destruct (env_type env =?s "subagent_identity") eqn:Es, (j_observe_subagents j) eqn:Eo,
    (journaled (env_type env)) eqn:Ej, (512 * 1024 <? raw_len (env_payload env)) eqn:El;
    cbn in He; injection He as <- <-; cbn; rewrite ?app_nil_r, ?Eo; repeat split; (lia || done).
Qed.

(** ** The batches *)

(** One scan: [k] events from the front, at least one, more than one only within
    the size limit; scanning again with [k] as the limit selects the same events
    however many have been added behind. *)
Lemma batch_scan_spec limit count size events :
  ∃ k, batch_scan limit count size events = ((count + k)%nat, size + events_size (take k events))
    ∧ (k ≤ limit)%nat ∧ (k ≤ length events)%nat
    ∧ (limit ≠ O → events ≠ [] → count = O → k ≠ O)
    ∧ (k = O ∨ (count + k ≤ 1)%nat ∨ size + events_size (take k events) ≤ batch_limit)
    ∧ (∀ more, batch_scan k count size (events ++ more) = ((count + k)%nat, size + events_size (take k events))).
Proof.
  revert count size events. induction limit as [|limit IH]; intros count size events.
  { exists O. rewrite Nat.add_0_r, take_0, Z.add_0_r. repeat split; auto with lia. }
  destruct events as [|e events]; cbn [batch_scan].
  { exists O. rewrite Nat.add_0_r, take_0, Z.add_0_r. repeat split; auto with lia. }
  destruct ((0 <? count)%nat && (batch_limit <? size + event_len e)) eqn:E.
  { exists O. rewrite Nat.add_0_r, take_0, Z.add_0_r. repeat split; auto with lia.
    apply andb_true_iff in E as [E _]. apply Nat.ltb_lt in E. lia. }
  destruct (IH (S count) (size + event_len e) events) as (k & Ek & Hk & Hl & _ & Hsz & Hm).
  exists (S k). cbn [take events_size fold_right length]. fold (events_size (take k events)).
  split; [rewrite Ek; f_equal; lia|]. split; [lia|]. split; [lia|]. split; [done|]. split.
  - destruct Hsz as [->|[Hsz|Hsz]]; [|lia|right; right; lia]. right. rewrite take_0.
    apply andb_false_iff in E as [E|E]; [apply Nat.ltb_ge in E; left; lia|].
    apply Z.ltb_ge in E. right. change (events_size []) with 0. lia.
  - intros more. cbn [batch_scan app]. rewrite E, Hm. f_equal; lia.
Qed.

Lemma batch_scan_retry limit events k size :
  batch_scan limit 0 0 events = (k, size) → ∀ more, batch_scan k 0 0 (events ++ more) = (k, size).
Proof.
  intros E more. destruct (batch_scan_spec limit 0 0 events) as (k' & E' & _ & _ & _ & _ & Hm).
  rewrite E' in E. injection E as <- <-. apply Hm.
Qed.

(** ** The queue *)

(** The queue of a journal: every event fits, and the batch that was tried last
    is what the next scan selects, whatever has been queued since. *)
Record journal_ok (j : journal) : Prop := {
  jo_bytes : j_bytes j = events_size (j_batch j);
  jo_sizes : Forall (λ e, event_len e ≤ 512 * 1024) (j_batch j);
  jo_pending : j_pending j ≠ O →
    (j_pending j ≤ 64)%nat ∧ (j_pending j ≤ length (j_batch j))%nat
    ∧ ∀ more, batch_scan (j_pending j) 0 0 (j_batch j ++ more) = (j_pending j, events_size (take (j_pending j) (j_batch j)));
}.

(** The batches a journal may send. *)
Record legal_batch (events : list ExecutionEvent) : Prop := {
  lb_count : (1 ≤ length events ≤ 64)%nat;
  lb_size : length events = 1%nat ∨ events_size events ≤ batch_limit;
  lb_each : Forall (λ e, event_len e ≤ 512 * 1024) events;
}.

Lemma enqueue_ok env j r j' : journal_ok j → enqueue env j = (r, j') → journal_ok j'.
Proof.
  intros [Hb Hs Hp] He. destruct (enqueue_spec _ _ _ _ He) as (En & Ep & Eo & Eb & Ey).
  split; rewrite ?Ep, ?Eb, ?Ey.
  - by rewrite events_size_app, Hb.
  - apply Forall_app. split; [done|]. unfold to_log. cbn. destruct (accepted _ env) eqn:Ea; [|constructor].
    apply Forall_singleton. unfold accepted in Ea. apply andb_true_iff in Ea as [Ea _].
    apply andb_true_iff in Ea as [_ Ea%Z.leb_le]. done.
  - intros Hne. destruct (Hp Hne) as (H64 & Hl & Hm). split; [done|]. split; [rewrite length_app; lia|].
    intros more. rewrite <- app_assoc, Hm. by rewrite take_app_le by lia.
Qed.

(** What the next append sends. *)
Lemma next_batch_spec j count size :
  journal_ok j → j_batch j ≠ [] → next_batch j = (count, size) →
  legal_batch (take count (j_batch j)) ∧ (count ≤ length (j_batch j))%nat ∧ size = events_size (take count (j_batch j))
  ∧ (∀ more, batch_scan count 0 0 (j_batch j ++ more) = (count, size))
  ∧ (j_pending j ≠ O → count = j_pending j).
Proof.
  intros [_ Hs Hp] Hne Hb. unfold next_batch in Hb.
  set (limit := if (0 <? j_pending j)%nat then j_pending j else 64%nat) in *.
  assert (limit ≠ O ∧ (limit ≤ 64)%nat) as [H0 H64].
  { unfold limit. destruct (j_pending j); [cbn; lia|]. destruct (Hp ltac:(done)). cbn. lia. }
  pose proof (batch_scan_retry _ _ _ _ Hb) as Hm.
  destruct (batch_scan_spec limit 0 0 (j_batch j)) as (k & E & Hk & Hl & Hpos & Hsz & _).
  rewrite E in Hb. injection Hb as <- <-. rewrite Z.add_0_l in *. cbn [Nat.add] in *.
  specialize (Hpos H0 Hne eq_refl). split; [|split; [done|split; [done|split; [done|]]]].
  - split; [rewrite length_take; lia| |by apply Forall_take].
    destruct Hsz as [?|[?|?]]; [done|left; rewrite length_take; lia|by right].
  - intros Hn. destruct (Hp Hn) as (_ & _ & Hscan). specialize (Hscan []). rewrite app_nil_r in Hscan.
    unfold limit in E. destruct (j_pending j); [done|]. cbn [Nat.ltb Nat.leb] in E. congruence.
Qed.

Definition attempted (count : nat) (j : journal) : journal :=
  MkJournal (j_next j) (j_batch j) (j_bytes j) count (j_observe_subagents j).
Definition acknowledged (count : nat) (size : Z) (j : journal) : journal :=
  MkJournal (wrap32 (j_next j + Z.of_nat count)) (drop count (j_batch j)) (j_bytes j - size) 0 (j_observe_subagents j).

Lemma append_ok j count size :
  journal_ok j → j_batch j ≠ [] → next_batch j = (count, size) →
  journal_ok (attempted count j) ∧ journal_ok (acknowledged count size j).
Proof.
  intros Hok Hne Hb. destruct (next_batch_spec _ _ _ Hok Hne Hb) as ([Hc _ _] & Hl & -> & Hm & _).
  rewrite length_take in Hc. destruct Hok as [Hy Hs _].
  split; split; cbn [attempted acknowledged j_next j_batch j_bytes j_pending]; try done.
  - intros _. split; [lia|]. by split.
  - pose proof (events_size_app (take count (j_batch j)) (drop count (j_batch j))) as Hsz.
    rewrite take_drop in Hsz. lia.
  - by apply Forall_drop.
Qed.

(** ** The journal against its writer *)

(** A run of a journal: frames are observed, or only queued; the journal is
    flushed; other clients use the writer without touching this log. *)
Section run.
Context {W L : Type} `{!EventWriter W} {good : W → Prop} {wlog : W → list L} {stored : ExecutionEvent → L → Prop}.

Inductive jstep : relation (journal * W * list Envelope) :=
  | j_observe env j w seen r j' w' :
      observe env j w = (r, j', w') → jstep (j, w, seen) (j', w', seen ++ [env])
  | j_enqueue env j w seen r j' :
      enqueue env j = (r, j') → jstep (j, w, seen) (j', w, seen ++ [env])
  | j_flush j w seen r j' w' :
      flush j w = (r, j', w') → jstep (j, w, seen) (j', w', seen)
  | j_other j w seen w' :
      good w' → wlog w' = wlog w → jstep (j, w, seen) (j, w', seen).

(** A property that queueing and every append of a flush keep is kept by a run. *)
Section induction.
Context (P : journal → W → list Envelope → Prop).
Hypothesis Hok : ∀ j w seen, P j w seen → journal_ok j.
Hypothesis Henqueue : ∀ env j w seen r j', P j w seen → enqueue env j = (r, j') → P j' w (seen ++ [env]).
Hypothesis Happend : ∀ j w seen count size r w', P j w seen → j_batch j ≠ [] → next_batch j = (count, size) →
  append_turn_events (j_next j) (take count (j_batch j)) w = (r, w') →
  P (match r with Ok _ => acknowledged count size j | Err _ => attempted count j end) w' seen.
Hypothesis Hother : ∀ j w seen w', P j w seen → good w' → wlog w' = wlog w → P j w' seen.

Lemma flush_loop_keeps fuel j w seen r j' w' :
  (length (j_batch j) ≤ fuel)%nat → P j w seen → flush_loop fuel j w = (r, j', w') →
  P j' w' seen ∧ (r = Ok tt → j_batch j' = []).
Proof using Hok Happend.
  revert j w. induction fuel as [|fuel IH]; intros j w Hf HP Hr; cbn [flush_loop] in Hr.
  - destruct (j_batch j) eqn:E; [|cbn in Hf; lia]. by injection Hr as <- <- <-.
  - destruct (j_batch j) as [|e l] eqn:E; [by injection Hr as <- <- <-|].
    rewrite <- E in *. assert (j_batch j ≠ []) as Hne by (by rewrite E).
    destruct (next_batch j) as [count size] eqn:Eb.
    pose proof (next_batch_spec _ _ _ (Hok _ _ _ HP) Hne Eb) as ([Hc _ _] & Hl & _).
    cbn [j_next j_batch j_bytes j_observe_subagents] in Hr.
    destruct (append_turn_events _ _ w) as [r1 w1] eqn:Ea.
    pose proof (Happend _ _ _ _ _ _ _ HP Hne Eb Ea) as Hnext.
    destruct r1 as [[]|e1]; [|by injection Hr as <- <- <-].
    eapply IH; [|exact Hnext|exact Hr]. cbn. rewrite length_take in Hc. rewrite length_drop. lia.
Qed.

Lemma flush_keeps j w seen r j' w' :
  P j w seen → flush j w = (r, j', w') → P j' w' seen ∧ (r = Ok tt → j_batch j' = []).
Proof using Hok Happend. by apply flush_loop_keeps. Qed.

Lemma jstep_keeps st st' : P st.1.1 st.1.2 st.2 → jstep st st' → P st'.1.1 st'.1.2 st'.2.
Proof using Hok Henqueue Happend Hother.
  intros HP Hs. inversion Hs; subst; cbn in *.
  - rename select (observe _ _ _ = _) into Ho. unfold observe in Ho.
    destruct (enqueue env j) as [r1 j1] eqn:He. pose proof (Henqueue _ _ _ _ _ _ HP He) as HP1.
    destruct r1 as [[]|e]; [|by injection Ho as <- <- <-].
    destruct (_ || _); [|by injection Ho as <- <- <-]. by eapply flush_keeps.
  - by eapply Henqueue.
  - by eapply flush_keeps.
  - by eapply Hother.
Qed.

Lemma run_keeps st st' : P st.1.1 st.1.2 st.2 → rtc jstep st st' → P st'.1.1 st'.1.2 st'.2.
Proof using Hok Henqueue Happend Hother. intros HP Hs. induction Hs; eauto using jstep_keeps. Qed.
End induction.

(** The frames to log are the acknowledged ones and the queue.  The log is the
    acknowledged ones, or is ahead of them by the batch that was tried last. *)
Record journal_inv (sub : bool) (j : journal) (w : W) (seen : list Envelope) (acked : list ExecutionEvent) : Prop := {
  ji_ok : journal_ok j;
  ji_good : good w;
  ji_sub : j_observe_subagents j = sub;
  ji_seen : to_log sub seen = acked ++ j_batch j;
  ji_next : j_next j = Z.of_nat (length acked) + 1;
  ji_log : Forall2 stored acked (wlog w)
    ∨ (j_pending j ≠ O ∧ Forall2 stored (acked ++ take (j_pending j) (j_batch j)) (wlog w));
}.

Lemma new_journal_ok sub : journal_ok (new_journal sub).
Proof. by split. Qed.

Lemma journal_new sub w : good w → wlog w = [] → journal_inv sub (new_journal sub) w [] [].
Proof. intros Hg Hl. split; [apply new_journal_ok|done..|]. left. rewrite Hl. constructor. Qed.

Lemma journal_enqueue sub env j w seen acked r j' :
  journal_inv sub j w seen acked → enqueue env j = (r, j') → journal_inv sub j' w (seen ++ [env]) acked.
Proof.
  intros [] He. pose proof (enqueue_ok _ _ _ _ ji_ok0 He) as Hok'.
  destruct (enqueue_spec _ _ _ _ He) as (En & Ep & Eo & Eb & Ey). rewrite ji_sub0 in *.
  split; rewrite ?En, ?Ep, ?Eo; try done.
  - rewrite to_log_snoc, ji_seen0, Eb. by rewrite app_assoc.
  - destruct ji_log0 as [Hlog|[Hp Hlog]]; [by left|right]. split; [done|].
    rewrite Eb, take_app_le; [done|]. by apply (jo_pending _ ji_ok0).
Qed.

Context `{!WriterLaws W L good wlog stored}.

(** One append of the loop. *)
Lemma journal_append sub j w seen acked count size r w' :
  journal_inv sub j w seen acked → j_batch j ≠ [] → next_batch j = (count, size) →
  append_turn_events (j_next j) (take count (j_batch j)) w = (r, w') →
  ∃ acked', journal_inv sub (match r with Ok _ => acknowledged count size j | Err _ => attempted count j end) w' seen acked'.
Proof using Type*.
  intros [Hok Hg Hsub Hseen Hnext Hjl] Hne Hb Ha.
  destruct (next_batch_spec _ _ _ Hok Hne Hb) as ([Hc _ _] & Hl & -> & _ & Hp).
  destruct (append_ok _ _ _ Hok Hne Hb) as [Hok1 Hok2]. pose proof (wl_good _ _ _ _ _ Hg Ha) as Hgood'.
  assert (Hlen : length (take count (j_batch j)) = count) by (rewrite length_take; lia).
  assert (Forall2 stored acked (wlog w') ∨ Forall2 stored (acked ++ take count (j_batch j)) (wlog w')) as Hlog.
  { destruct (wl_append _ _ _ _ _ Hg Ha) as [E|(Ef & rows & E & Hrows)]; rewrite E.
    - destruct Hjl as [?|[Hp0 ?]]; [by left|right]. by rewrite (Hp Hp0).
    - destruct Hjl as [?|[Hp0 Hf]]; [right; by apply Forall2_app|].
      exfalso. apply Forall2_length in Hf. rewrite length_app, <- (Hp Hp0), Hlen in Hf. lia. }
  destruct r as [[]|e]; [exists (acked ++ take count (j_batch j))|exists acked].
  - assert (Forall2 stored (acked ++ take count (j_batch j)) (wlog w')) as Hdone.
    { destruct Hlog as [Hlog|]; [exfalso|done].
      assert (1 ≤ j_next j) as H1 by lia. pose proof (wl_ok _ _ _ _ Hg H1 Ha) as Hf.
      apply Forall2_length in Hf, Hlog. rewrite Hlen, length_take, length_drop in Hf. lia. }
    pose proof (wl_bound _ Hgood') as Hbound. rewrite <- (Forall2_length _ _ _ Hdone), length_app, Hlen in Hbound.
    split; cbn [acknowledged j_next j_batch j_bytes j_pending j_observe_subagents]; try done.
    + by rewrite <- app_assoc, take_drop.
    + rewrite Hnext, length_app, Hlen, wrap32_id by (unfold int32_min, int32_max; lia). lia.
    + by left.
  - split; cbn; try done. destruct Hlog; [by left|right]. split; [lia|done].
Qed.

(** Along every run the journal and the log agree, and a flush that succeeds
    leaves nothing behind. *)
Lemma journal_steps sub st st' acked :
  journal_inv sub st.1.1 st.1.2 st.2 acked → rtc jstep st st' → ∃ acked', journal_inv sub st'.1.1 st'.1.2 st'.2 acked'.
Proof using Type*.
  intros Hinv Hs. apply (run_keeps (λ j w seen, ∃ acked, journal_inv sub j w seen acked)) in Hs; [done|..|eauto].
  - intros j1 w1 seen1 [acked1 []]. done.
  - intros env j1 w1 seen1 r j2 [acked1 Hinv1] He. eauto using journal_enqueue.
  - intros j1 w1 seen1 count size r w2 [acked1 Hinv1] Hne Hb Ha. by eapply journal_append.
  - intros j1 w1 seen1 w2 [acked1 []] Hg2 E. exists acked1. split; auto. by rewrite E.
Qed.

Lemma journal_run sub w j' w' seen' :
  good w → wlog w = [] → rtc jstep (new_journal sub, w, []) (j', w', seen') →
  ∃ acked, journal_inv sub j' w' seen' acked.
Proof using Type*. intros Hg Hl. apply (journal_steps sub (new_journal sub, w, []) (j', w', seen') []). by apply journal_new. Qed.

Lemma journal_flushed sub j w seen acked j' w' :
  journal_inv sub j w seen acked → flush j w = (Ok tt, j', w') → Forall2 stored (to_log sub seen) (wlog w').
Proof using Type*.
  intros Hinv Hf.
  eapply (flush_keeps (λ j w seen, ∃ acked, journal_inv sub j w seen acked)) in Hf as [(acked' & []) Hb]; eauto.
  - specialize (Hb eq_refl). rewrite ji_seen0, Hb, app_nil_r.
    destruct ji_log0 as [|[Hp _]]; [done|]. destruct (jo_pending _ ji_ok0 Hp) as (_ & Hl & _). rewrite Hb in Hl. cbn in Hl. lia.
  - intros j1 w1 seen1 [acked1 []]. done.
  - intros j1 w1 seen1 count size r w2 [acked1 Hinv1] Hne Hb Ha. by eapply journal_append.
Qed.
End run.

(** ** Fuel *)

(** One append per queued event is enough: a flush terminates, and more fuel
    gives the same result. *)
Lemma flush_loop_fuel {W} `{!EventWriter W} fuel j (w : W) :
  journal_ok j → (length (j_batch j) ≤ fuel)%nat → flush_loop fuel j w = flush j w.
Proof.
  unfold flush. remember (length (j_batch j)) as n eqn:En. assert (length (j_batch j) ≤ n)%nat as Hn by lia. clear En.
  revert fuel j w Hn. induction n as [|n IH]; intros fuel j w Hn Hok Hf.
  { destruct (j_batch j) eqn:E; [|cbn in Hn; lia]. destruct fuel; cbn [flush_loop]; by rewrite E. }
  destruct fuel as [|fuel]; [lia|]. cbn [flush_loop]. destruct (j_batch j) as [|e l] eqn:E; [done|].
  rewrite <- E in *. assert (j_batch j ≠ []) as Hne by (by rewrite E).
  destruct (next_batch j) as [count size] eqn:Eb.
  destruct (next_batch_spec _ _ _ Hok Hne Eb) as ([Hc _ _] & Hl & _). rewrite length_take in Hc.
  destruct (append_ok _ _ _ Hok Hne Eb) as [_ Hok2].
  cbn [j_next j_batch j_bytes j_observe_subagents]. destruct (append_turn_events _ _ w) as [[[]|e1] w1]; [|done].
  assert (length (drop count (j_batch j)) ≤ n)%nat by (rewrite length_drop; lia).
  apply IH; [done|exact Hok2|lia].
Qed.

(** The first append of a flush that has something to send. *)
Lemma flush_unfold {W} `{!EventWriter W} j (w : W) count size :
  journal_ok j → j_batch j ≠ [] → next_batch j = (count, size) →
  flush j w = match append_turn_events (j_next j) (take count (j_batch j)) w with
              | (Err e, w) => (Err e, attempted count j, w)
              | (Ok _, w) => flush (acknowledged count size j) w
              end.
Proof.
  intros Hok Hne Eb. destruct (append_ok _ _ _ Hok Hne Eb) as [_ Hok2].
  destruct (next_batch_spec _ _ _ Hok Hne Eb) as ([Hc _ _] & Hl & _). rewrite length_take in Hc.
  rewrite <- (flush_loop_fuel (S (length (j_batch j))) j w Hok) by lia. cbn [flush_loop].
  destruct (j_batch j) as [|e l] eqn:E; [done|]. rewrite <- E, Eb.
  cbn [j_next j_batch j_bytes j_observe_subagents].
  destruct (append_turn_events _ _ w) as [[[]|e1] w1]; [|done].
  apply flush_loop_fuel; [done|]. cbn. rewrite length_drop. lia.
Qed.

(** ** The calls of a journal *)

(** A writer that records its calls: position, batch, success. *)
Record traced (W : Type) := MkTraced { tr_writer : W; tr_calls : list (Z * list ExecutionEvent * bool) }.
Arguments MkTraced {W} tr_writer tr_calls.
Arguments tr_writer {W} t.
Arguments tr_calls {W} t.

#[export] Instance TracedWriter {W} `{!EventWriter W} : EventWriter (traced W) := λ first events t,
  let '(r, w) := append_turn_events first events (tr_writer t) in
  (r, MkTraced w (tr_calls t ++ [(first, events, is_ok r)])).

(** The protocol of a journal: [protocol calls next retry] when the calls made
    so far leave it at position [next] with the failed batch [retry] to repeat. *)
Inductive protocol : list (Z * list ExecutionEvent * bool) → Z → option (list ExecutionEvent) → Prop :=
  | proto_new : protocol [] 1 None
  | proto_ok calls next retry events :
      protocol calls next retry → legal_batch events → (∀ batch, retry = Some batch → events = batch) →
      protocol (calls ++ [(next, events, true)]) (wrap32 (next + Z.of_nat (length events))) None
  | proto_failed calls next retry events :
      protocol calls next retry → legal_batch events → (∀ batch, retry = Some batch → events = batch) →
      protocol (calls ++ [(next, events, false)]) next (Some events).

Section calls.
Context {W : Type} `{!EventWriter W}.

Definition to_retry (j : journal) : option (list ExecutionEvent) :=
  if (0 <? j_pending j)%nat then Some (take (j_pending j) (j_batch j)) else None.

Definition protocol_inv (j : journal) (t : traced W) (seen : list Envelope) : Prop :=
  journal_ok j ∧ protocol (tr_calls t) (j_next j) (to_retry j).

Lemma protocol_enqueue env j t seen r j' :
  protocol_inv j t seen → enqueue env j = (r, j') → protocol_inv j' t (seen ++ [env]).
Proof.
  intros [Hok Hp] He. split; [by eapply enqueue_ok|].
  destruct (enqueue_spec _ _ _ _ He) as (En & Ep & _ & Eb & _). unfold to_retry in *. rewrite En, Ep, Eb.
  destruct (j_pending j) eqn:E; [done|]. rewrite take_app_le; [done|]. rewrite <- E. by apply (jo_pending _ Hok); rewrite E.
Qed.

Lemma protocol_append j t seen count size r t' :
  protocol_inv j t seen → j_batch j ≠ [] → next_batch j = (count, size) →
  append_turn_events (j_next j) (take count (j_batch j)) t = (r, t') →
  protocol_inv (match r with Ok _ => acknowledged count size j | Err _ => attempted count j end) t' seen.
Proof.
  intros [Hok Hp] Hne Eb Ha. destruct (append_ok _ _ _ Hok Hne Eb) as [Hok1 Hok2].
  destruct (next_batch_spec _ _ _ Hok Hne Eb) as (Hlegal & Hl & _ & _ & Hsame).
  assert (∀ batch, to_retry j = Some batch → take count (j_batch j) = batch) as Hretry.
  { unfold to_retry. intros batch. destruct (j_pending j) eqn:E; [done|]. intros [= <-]. by rewrite Hsame. }
  unfold append_turn_events, TracedWriter in Ha. destruct (append_turn_events _ _ (tr_writer t)) as [r1 w1].
  injection Ha as <- <-. destruct r1 as [[]|e]; (split; [done|]); cbn.
  - rewrite <- (length_take_le (j_batch j) count Hl) at 2. by eapply proto_ok.
  - unfold to_retry. cbn. pose proof (lb_count _ Hlegal) as Hc. rewrite length_take in Hc. destruct count; [lia|].
    by eapply proto_failed.
Qed.
End calls.

(** ** The store as a writer *)

Section store_writer.
Context `{UUIDs, Oracle, EventSizes}.
Context (leased : bool) (tenantID sessionID turnID : string) (session turn : N).

#[export] Instance StoreWriter : EventWriter remote := λ first events,
  over (AppendTurnEvents leased tenantID sessionID turnID first events).

(** The log of the Turn. *)
Definition turn_log (rm : remote) : list tevent_row :=
  List.filter (event_of session turn) (turn_events (w_db (rm_world rm))).

(** A row holds an event: its kind, and its payload as [jsonb] compares it. *)
Definition holds_event (e : ExecutionEvent) (row : tevent_row) : Prop :=
  te_kind row = xe_kind e ∧
  ∃ payload stored, canonicalJSONObject (xe_payload e) = Ok payload ∧ jsonb_in payload = Some stored
    ∧ jsonb_eq (te_payload row) stored = true.

Lemma held_rows events rows batch :
  jsonb_in (JArr (List.map (λ e : string * json, event_json e.1 e.2) events)) = Some batch →
  jsonb_eq (JArr (List.map (λ e, event_json (te_kind e) (te_payload e)) rows)) batch = true →
  Forall2 (λ e row, te_kind row = e.1 ∧ ∃ stored, jsonb_in e.2 = Some stored ∧ jsonb_eq (te_payload row) stored = true)
    events rows.
Proof.
  intros Hb Heq. cbn in Hb. apply fmap_Some in Hb as (l' & Hb & ->). unfold jsonb_eq in Heq.
  apply bool_decide_eq_true_1 in Heq. cbn in Heq. injection Heq as Heq.
  revert l' rows Hb Heq. induction events as [|[kind payload] events IH]; intros l' rows Hb Heq; cbn in Hb.
  - injection Hb as <-. destruct rows; [constructor|discriminate].
  - apply bind_Some in Hb as (x & Hx & Hb). apply bind_Some in Hb as (l2 & Hl2 & Hb). injection Hb as <-.
    destruct rows as [|row rows]; [discriminate|]. cbn in Heq. injection Heq as Hrow Hrest.
    constructor; [|by eapply IH]. cbn. apply fmap_Some in Hx as (m & Hx & ->).
    apply bind_Some in Hx as (m1 & Hm1 & Hx). apply bind_Some in Hx as (v & Hv & Hx).
    change (text_ok "kind") with true in Hm1. change (text_ok "payload") with true in Hx.
    destruct (text_ok kind); [|discriminate]. cbn in Hm1. injection Hm1 as <-. cbn in Hx. injection Hx as <-.
    cbn in Hrow. injection Hrow as Hk Hp.
    split; [done|]. eexists. split; [done|]. by apply bool_decide_eq_true_2.
Qed.

Lemma normalize_holds events normalized :
  normalize_events leased events = Ok normalized →
  Forall2 (λ e b, b.1 = xe_kind e ∧ canonicalJSONObject (xe_payload e) = Ok b.2) events normalized.
Proof.
  revert normalized. induction events as [|e events IH]; intros normalized Hn; cbn in Hn; [by simplify_eq|].
  apply bind_Ok in Hn as (_ & _ & Hn). apply bind_Ok in Hn as (_ & _ & Hn).
  apply bind_Ok in Hn as (payload & Hp & Hn). apply bind_Ok in Hn as (es & Hes & Hn).
  simplify_eq. constructor; auto.
Qed.

(** A window of a numbered log is a segment of it. *)
Lemma window_segment a c first n l :
  te_ordinal <$> l = seqZ a c → a ≤ first →
  List.filter (λ e, in_window first (Z.of_nat n) (te_ordinal e)) l = take n (drop (Z.to_nat (first - a)) l).
Proof.
  revert a c first n. induction l as [|e l IH]; intros a c first n El Hf; cbn.
  { by rewrite drop_nil, take_nil. }
  destruct (decide (c ≤ 0)) as [|Hc]; [by rewrite seqZ_nil in El|].
  rewrite seqZ_cons in El by lia. cbn in El. injection El as Eo El.
  unfold in_window at 1. rewrite Eo. destruct (Z.leb_spec first a) as [Hle|Hgt]; cbn [andb].
  - assert (first = a) as -> by lia. rewrite Z.sub_diag. cbn [drop Z.to_nat].
    destruct n as [|n]; cbn [take].
    + rewrite (proj2 (Z.ltb_ge _ _)) by lia.
      rewrite (proj2 (List.filter_ext_in_iff _ (λ _, false) l)); [apply filter_none|].
      intros e' He'. unfold in_window. apply andb_false_iff. rewrite Z.leb_gt, Z.ltb_ge. lia.
    + rewrite (proj2 (Z.ltb_lt _ _)) by lia.
      pose proof (IH (Z.succ a) _ (Z.succ a) n El ltac:(lia)) as IH'.
      rewrite Z.sub_diag in IH'. change (drop (Z.to_nat 0) l) with l in IH'.
      change (drop (Z.to_nat 0) (e :: l)) with (e :: l). cbn [take].
      rewrite <- IH'. f_equal.
      apply List.filter_ext_in. intros e' He'.
      assert (te_ordinal e' ∈ seqZ (Z.succ a) (Z.pred c)) as Hz by (rewrite <- El; by apply list_elem_of_fmap_2, list_elem_of_In).
      apply elem_of_seqZ in Hz. unfold in_window. f_equal; [rewrite !(proj2 (Z.leb_le _ _)) by lia; done|].
      f_equal. lia.
  - replace (Z.to_nat (first - a)) with (S (Z.to_nat (first - Z.succ a))) by lia. cbn [drop].
    by apply (IH (Z.succ a) (Z.pred c)); [|lia].
Qed.

Hypothesis Hsession : parseID sessionID = Ok session.
Hypothesis Hturn : parseID turnID = Ok turn.

Definition good_remote (rm : remote) : Prop := events_wf (w_db (rm_world rm)).

(** The rows of a Turn that is there, and of one that is not. *)
Lemma turn_log_row rm t :
  head (List.filter (turn_is session turn) (turns (w_db (rm_world rm)))) = Some t →
  In t (turns (w_db (rm_world rm))) ∧ turn_log rm = events_at (w_db (rm_world rm)) t.
Proof.
  intros Ht. apply lookup_turn_row in Ht as (Hin & Es & Ei). split; [done|].
  unfold turn_log, events_at. by rewrite Es, Ei.
Qed.

Lemma turn_log_count rm t :
  good_remote rm → head (List.filter (turn_is session turn) (turns (w_db (rm_world rm)))) = Some t →
  te_ordinal <$> turn_log rm = seqZ 1 (t_event_count t) ∧ Z.of_nat (length (turn_log rm)) = t_event_count t
  ∧ t_event_count t ≤ 65537.
Proof.
  intros Hg Ht. destruct (turn_log_row _ _ Ht) as [Hin ->]. pose proof (ew_ordinals _ Hg t Hin) as Eo.
  pose proof (ew_count _ Hg t Hin) as Hc. split; [done|].
  split; [rewrite <- (length_fmap te_ordinal), Eo, length_seqZ; lia|].
  unfold event_limit, max_events in Hc. destruct (done_status _); lia.
Qed.

Lemma turn_log_none rm :
  good_remote rm → head (List.filter (turn_is session turn) (turns (w_db (rm_world rm)))) = None → turn_log rm = [].
Proof.
  intros Hg Ht. destruct (turn_log rm) as [|e l] eqn:El; [done|exfalso]. unfold turn_log in El.
  assert (In e (e :: l)) as He by (by left). rewrite <- El in He. apply List.filter_In in He as [He Hof].
  apply (ew_turn _ Hg) in He. apply existsb_exists in He as (t & Hin & Hti).
  rewrite head_filter_None in Ht. apply Ht in Hin. unfold event_of in Hof.
  apply andb_true_iff in Hof as [Es%bool_decide_eq_true_1 Ei%bool_decide_eq_true_1].
  rewrite Es, Ei in Hti. congruence.
Qed.

(** A normalised event and its row. *)
Definition holds_normal (b : string * json) (row : tevent_row) : Prop :=
  te_kind row = b.1 ∧ ∃ stored, jsonb_in b.2 = Some stored ∧ jsonb_eq (te_payload row) stored = true.

Lemma holds_events events normalized rows :
  normalize_events leased events = Ok normalized → Forall2 holds_normal normalized rows → Forall2 holds_event events rows.
Proof.
  intros Hn%normalize_holds. eapply Forall2_trans; [|exact Hn].
  intros e b row [Ek Ep] (Ek' & stored & Hj & He). split; [congruence|]. eauto.
Qed.

Lemma held_segment rm first normalized t :
  good_remote rm → head (List.filter (turn_is session turn) (turns (w_db (rm_world rm)))) = Some t → 1 ≤ first →
  batch_held (w_db (rm_world rm)) session turn first normalized →
  Forall2 holds_normal normalized (take (length normalized) (drop (Z.to_nat (first - 1)) (turn_log rm))).
Proof.
  intros Hg Ht Hf (_ & batch & Hj & Heq). destruct (turn_log_row _ _ Ht) as [Hin El].
  destruct (turn_log_count _ _ Hg Ht) as [Eo _]. apply lookup_turn_row in Ht as (_ & Es & Ei).
  rewrite <- (window_segment 1 _ first _ _ Eo Hf), El, <- events_between_window, Es, Ei by (by rewrite <- El).
  by eapply held_rows.
Qed.

(** What one call does to the log. *)
Lemma call_spec first events w r w' :
  events_wf (w_db w) → AppendTurnEvents leased tenantID sessionID turnID first events w = (r, w') →
  let log w := turn_log (MkRemote w []) in
  events_wf (w_db w')
  ∧ (log w' = log w
     ∨ (first = Z.of_nat (length (log w)) + 1 ∧ ∃ rows, log w' = log w ++ rows ∧ Forall2 holds_event events rows))
  ∧ (r = Ok tt → Forall2 holds_event events (take (length events) (drop (Z.to_nat (first - 1)) (log w')))).
Proof using Hsession Hturn.
  intros Hwf Hr. cbn zeta. destruct r as [[]|e].
  2: { pose proof (serve_atomic (ReqAppendTurnEvents leased tenantID sessionID turnID first events) w) as Ha.
       cbn [serve] in Ha. rewrite Hr in Ha. unfold turn_log. cbn [rm_world]. rewrite Ha.
       split; [done|split; [by left|discriminate]]. }
  apply AppendTurnEvents_ready in Hr as (p & normalized & s & t & w1 & [_ Hps Hpt Hfirst _ H64 Hnorm _ _ Hrow] & Hr & ->).
  rewrite Hsession in Hps. rewrite Hturn in Hpt. injection Hps as Es. injection Hpt as Et.
  pose proof (normalize_length _ _ _ Hnorm) as Hlen.
  pose proof (append_events_relation p first normalized ltac:(by rewrite Hlen)) as Hrel.
  pose proof (moves_run (on_db events_relation) _ _ _ _ Hrel Hr) as [[_ Hwf1] _]. specialize (Hwf1 Hwf).
  pose proof (append_held _ _ _ _ _ _ Hwf ltac:(by rewrite Hlen) Hfirst (normalize_text _ _ _ Hnorm) Hr) as Hheld.
  pose proof (moves_run (on_db turns_evolve) _ _ _ _ (er_append (R := on_db turns_evolve) p first normalized ltac:(by rewrite Hlen)) Hr) as [He1 _].
  destruct (turn_persists _ _ _ _ _ He1 Hrow) as (t1 & Ht1 & _).
  rewrite <- ?Es, <- ?Et in *.
  destruct (turn_log_count (MkRemote w []) t Hwf Hrow) as (_ & Hcount & Hmax).
  split; [|split].
  - destruct Hwf1. by split.
  - apply append_events_run in Hr as (t' & Ht' & Hr). rewrite <- Es, <- Et in *. rewrite Hrow in Ht'. injection Ht' as <-.
    unfold turn_log. cbn [rm_world w_db set_db pruned with_session_events turn_events].
    destruct Hr as [[_ ->]|(Hgt & Ef & _ & _ & _ & rows & d2 & Eo & Hst & Hf & ->)]; [by left|right].
    pose proof (ew_count _ Hwf t (proj1 (turn_log_row (MkRemote w []) t Hrow))) as Hc.
    rewrite wrap32_id in Ef by (unfold int32_min, int32_max; lia).
    split; [unfold turn_log in Hcount; cbn in Hcount; lia|].
    exists rows. cbn. rewrite (lf_events _ _ Hf). cbn. rewrite List.filter_app. split.
    + f_equal. rewrite (proj2 (List.filter_ext_in_iff _ (λ _, true) rows)); [apply filter_all|].
      intros e He. pose proof (stored_rows _ _ _ _ Hst) as Hrows. rewrite Forall_forall in Hrows.
      destruct (Hrows e) as [E1 E2]; [by apply list_elem_of_In|]. unfold event_of. by rewrite E1, E2, !bool_decide_eq_true_2.
    + eapply holds_events; [done|]. eapply Forall2_impl; [exact Hst|]. intros b row (_ & _ & Hk & Hj).
      split; [done|]. eexists. split; [done|apply jsonb_eq_refl].
  - intros _. rewrite <- Hlen. eapply holds_events; [done|].
    by apply (held_segment (MkRemote w1 []) first normalized t1).
Qed.

Lemma remote_call first events rm r rm' :
  append_turn_events first events rm = (r, rm') →
  (rm_world rm' = rm_world rm ∧ r ≠ Ok tt)
  ∨ ∃ r1, AppendTurnEvents leased tenantID sessionID turnID first events (rm_world rm) = (r1, rm_world rm')
      ∧ (r = Ok tt → r1 = Ok tt).
Proof.
  intros [[E [e ->]]|(r1 & E & Hr)]%over_run; [by left|right].
  exists r1. split; [done|]. by destruct Hr as [->|[e ->]].
Qed.

#[export] Instance store_writer_laws : WriterLaws remote tevent_row good_remote turn_log holds_event.
Proof using Hsession Hturn.
  split.
  - intros first events rm r rm' Hg [[E _]|(r1 & E & _)]%remote_call; unfold good_remote; [by rewrite E|].
    by destruct (call_spec _ _ _ _ _ Hg E).
  - intros rm Hg. destruct (head (List.filter (turn_is session turn) (turns (w_db (rm_world rm))))) as [t|] eqn:Et.
    + destruct (turn_log_count _ _ Hg Et) as (_ & -> & ?). lia.
    + by rewrite (turn_log_none _ Hg Et).
  - intros first events rm r rm' Hg [[E _]|(r1 & E & _)]%remote_call; [left; unfold turn_log; by rewrite E|].
    by destruct (call_spec _ _ _ _ _ Hg E) as (_ & ? & _).
  - intros first events rm rm' Hg _ [[E ?]|(r1 & E & Hok)]%remote_call; [done|].
    destruct (call_spec _ _ _ _ _ Hg E) as (_ & _ & Hf). auto.
Qed.

Lemma enqueues_spec frames j :
  journal_ok j →
  let j' := foldl (λ j env, (enqueue env j).2) j frames in
  journal_ok j' ∧ j_next j' = j_next j ∧ j_pending j' = j_pending j ∧ ∃ more, j_batch j' = j_batch j ++ more.
Proof.
  revert j. induction frames as [|env frames IH]; intros j Hok; cbn.
  { split_and!; try done. exists []. by rewrite app_nil_r. }
  destruct (enqueue env j) as [r j1] eqn:He. cbn [snd].
  destruct (enqueue_spec _ _ _ _ He) as (En & Ep & _ & Eb & _).
  destruct (IH j1 (enqueue_ok _ _ _ _ Hok He)) as (Hok' & En' & Ep' & more & Eb').
  split; [done|]. split; [by rewrite En'|]. split; [by rewrite Ep'|]. eexists. by rewrite Eb', Eb, <- app_assoc.
Qed.

(** ** Properties *)

(** C12. The journal logs every frame exactly once: along every run with the
    store, whatever replies are lost and whatever calls fail, the log of the Turn
    holds a prefix of the frames to log, in order and without repetition; and
    when a flush succeeds it holds all of them. *)
Theorem journal_exactly_once sub rm j rm' seen :
  good_remote rm → turn_log rm = [] →
  rtc (jstep (good := good_remote) (wlog := turn_log)) (new_journal sub, rm, []) (j, rm', seen) →
  (∃ n, Forall2 holds_event (take n (to_log sub seen)) (turn_log rm'))
  ∧ (∀ j2 rm2, flush j rm' = (Ok tt, j2, rm2) → Forall2 holds_event (to_log sub seen) (turn_log rm2)).
Proof using Hsession Hturn.
  intros Hg Hl Hs. destruct (journal_run sub rm j rm' seen Hg Hl Hs) as (acked & Hinv). split.
  - destruct Hinv. rewrite ji_seen0. destruct ji_log0 as [Hlog|[Hp Hlog]].
    + exists (length acked). by rewrite take_app_length.
    + exists (length acked + j_pending j)%nat. by rewrite take_app_add.
  - intros j2 rm2 Hf. by eapply journal_flushed.
Qed.

(** C13. An uncertain commit is recovered: when the store committed a batch but
    the reply was lost, then after whatever other requests and however many
    further frames the next flush repeats that very batch, the store recognises
    it and writes nothing, and the journal goes on behind it. *)
Theorem uncertain_commit_recovers j w w1 w2 frames count size :
  events_wf (w_db w) → log_wf (w_db w) → journal_ok j → j_batch j ≠ [] → next_batch j = (count, size) →
  AppendTurnEvents leased tenantID sessionID turnID (j_next j) (take count (j_batch j)) w = (Ok tt, w1) →
  steps w1 w2 →
  flush j (MkRemote w [ReplyLost]) = (Err transport_error, attempted count j, MkRemote w1 [])
  ∧ let j2 := foldl (λ j env, (enqueue env j).2) (attempted count j) frames in
    flush j2 (MkRemote w2 []) = flush (acknowledged count size j2) (MkRemote (set_db w2 (pruned session (w_db w2))) []).
Proof using Hsession.
  intros Hwf Hlog Hok Hne Hb Ha Hs. destruct (append_ok _ _ _ Hok Hne Hb) as [Hok1 _]. split.
  { rewrite (flush_unfold _ _ _ _ Hok Hne Hb). unfold append_turn_events, StoreWriter, over. cbn. by rewrite Ha. }
  cbn zeta. destruct (enqueues_spec frames _ Hok1) as (Hok2 & En & Ep & more & Eb).
  set (j2 := foldl _ _ _) in *. cbn in En, Ep, Eb.
  destruct (next_batch_spec _ _ _ Hok Hne Hb) as (Hlegal & Hl & -> & Hm & _).
  pose proof (lb_count _ Hlegal) as Hc. rewrite length_take in Hc.
  assert (next_batch j2 = (count, events_size (take count (j_batch j)))) as Hb2.
  { unfold next_batch. rewrite Ep, Eb, (proj2 (Nat.ltb_lt 0 count)) by lia. apply Hm. }
  assert (j_batch j2 ≠ []) as Hne2 by (rewrite Eb; intros [? _]%app_eq_nil; done).
  rewrite (flush_unfold _ _ _ _ Hok2 Hne2 Hb2). unfold append_turn_events, StoreWriter, over. cbn [rm_fates rm_world].
  rewrite En, Eb, take_app_le by lia.
  destruct (append_replay _ _ _ _ _ _ _ _ _ Hwf Hlog Ha Hs) as (session' & E & ->).
  rewrite Hsession in E. by injection E as <-.
Qed.
End store_writer.

(** Whatever the writer does, the calls of a journal follow its protocol:
    each batch has one to 64 events, more than one only within 768 KiB, and none
    over 512 KiB; a batch that failed is repeated as it was, at the same position,
    and the batch after one that succeeded continues right behind it. *)
Theorem journal_follows_protocol {W} `{!EventWriter W} sub (w : W) j t seen :
  rtc (jstep (good := λ _, True) (wlog := tr_calls)) (new_journal sub, MkTraced w [], []) (j, t, seen) →
  protocol (tr_calls t) (j_next j) (to_retry j).
Proof.
  intros Hs. apply (run_keeps protocol_inv) in Hs; [by destruct Hs|..].
  - by intros j1 t1 seen1 [].
  - intros. by eapply protocol_enqueue.
  - intros. by eapply protocol_append.
  - intros j1 t1 seen1 t2 [Hok Hp] _ E. split; [done|]. by rewrite E.
  - split; [apply new_journal_ok|constructor].
Qed.

(** ** Witnesses *)

Definition demo_frame (text : string) : Envelope :=
  MkEnvelope "delta" turn_id (xe_payload (demo_event text)).

(** Three deltas are flushed with the reply lost, a fourth arrives, a flush does
    not reach the store, and the next one succeeds. *)
Definition demo_remote : remote := MkRemote started_world [ReplyLost; NotSent].

Abbreviation demo_writer := (StoreWriter false tenant_id session_id turn_id).

Definition demo_flush (st : journal * remote) : journal * remote :=
  let '(_, j, rm) := @flush remote demo_writer st.1 st.2 in (j, rm).
Definition demo_queue (texts : list string) (st : journal * remote) : journal * remote :=
  (foldl (λ j env, (enqueue env j).2) st.1 (List.map demo_frame texts), st.2).

Definition demo_lost : journal * remote := demo_flush (demo_queue ["a"; "b"; "c"] (new_journal false, demo_remote)).
Definition demo_unsent : journal * remote := demo_flush (demo_queue ["d"] demo_lost).

Lemma demo_journal_steps good wlog texts st seen :
  rtc (@jstep remote tevent_row demo_writer good wlog) (st.1, st.2, seen)
    ((demo_flush (demo_queue texts st)).1, (demo_flush (demo_queue texts st)).2, seen ++ List.map demo_frame texts).
Proof.
  assert (∀ frames j rm seen, rtc (@jstep remote tevent_row demo_writer good wlog) (j, rm, seen)
            (foldl (λ j env, (enqueue env j).2) j frames, rm, seen ++ frames)) as Hq.
  { induction frames as [|env frames IH]; intros j rm l; cbn; [by rewrite app_nil_r|].
    eapply rtc_l; [eapply j_enqueue, surjective_pairing|].
    replace (l ++ env :: frames) with ((l ++ [env]) ++ frames) by (by rewrite <- app_assoc). apply IH. }
  etrans; [apply Hq|]. apply rtc_once. unfold demo_flush, demo_queue. cbn.
  destruct (flush _ st.2) as [[r j] rm] eqn:E. by eapply j_flush.
Qed.

Lemma journal_exactly_once_witness :
  te_ordinal <$> turn_log 2 100 (demo_flush demo_unsent).2 = [1; 2; 3; 4]
  ∧ Forall2 holds_event (to_log false (List.map demo_frame ["a"; "b"; "c"; "d"])) (turn_log 2 100 (demo_flush demo_unsent).2).
Proof.
  split; [vm_compute; reflexivity|].
  refine (proj2 (journal_exactly_once false tenant_id session_id turn_id 2 100 eq_refl eq_refl false demo_remote
           demo_unsent.1 demo_unsent.2 (List.map demo_frame ["a"; "b"; "c"; "d"]) _ _ _) (demo_flush demo_unsent).1 _ _).
  - exact (proj2 (steps_events _ _ started_world_steps) world0_events_wf).
  - vm_compute; reflexivity.
  - etrans; [exact (demo_journal_steps _ _ ["a"; "b"; "c"] (new_journal false, demo_remote) [])|].
    exact (demo_journal_steps _ _ ["d"] demo_lost _).
  - vm_compute; reflexivity.
Defined.

Lemma journal_follows_protocol_witness :
  ∃ t, t = snd (@flush (traced remote) (@TracedWriter remote demo_writer)
                 (demo_queue ["a"; "b"; "c"] (new_journal false, demo_remote)).1 (MkTraced demo_remote []))
    ∧ protocol (tr_calls t) 1 (Some (List.map demo_event ["a"; "b"; "c"])).
Proof.
  eexists. split; [reflexivity|].
  refine (@journal_follows_protocol remote demo_writer false demo_remote
    (MkJournal 1 (List.map demo_event ["a"; "b"; "c"]) 84 3 false) _ (List.map demo_frame ["a"; "b"; "c"]) _).
  eapply rtc_l; [eapply (j_enqueue (demo_frame "a")); reflexivity|].
  eapply rtc_l; [eapply (j_enqueue (demo_frame "b")); reflexivity|].
  eapply rtc_l; [eapply (j_enqueue (demo_frame "c")); reflexivity|].
  apply rtc_once. eapply j_flush. vm_compute; reflexivity.
Defined.

(** The Turn completes before the journal retries. *)
Lemma uncertain_commit_recovers_witness :
  let j := (demo_queue ["a"; "b"; "c"] (new_journal false, demo_remote)).1 in
  @flush remote demo_writer j (MkRemote started_world [ReplyLost])
    = (Err transport_error, attempted 3 j, MkRemote streamed_world [])
  ∧ (@flush remote demo_writer (attempted 3 j) (MkRemote completed_world [])).1.1 = Ok tt.
Proof.
  cbn zeta.
  destruct (@uncertain_commit_recovers binary_uuids demo_oracle demo_sizes false tenant_id session_id turn_id 2%N eq_refl
    (demo_queue ["a"; "b"; "c"] (new_journal false, demo_remote)).1 started_world streamed_world completed_world [] 3 84) as [E1 E2].
  - exact (proj2 (steps_events _ _ started_world_steps) world0_events_wf).
  - exact (la_wf _ _ (steps_log _ _ started_world_steps world0_log_wf)).
  - split; [reflexivity|repeat constructor; vm_compute; discriminate|done].
  - discriminate.
  - vm_compute; reflexivity.
  - vm_compute; reflexivity.
  - exact (steps_trans _ _ _ called_steps (steps_trans _ _ _ resumed_steps completed_steps)).
  - split; [exact E1|]. cbn [foldl] in E2. rewrite E2. vm_compute; reflexivity.
Defined.
