(* ===== verification/Schedule.v ===== *)
(** * Schedule

    What the worker's main loop keeps: at most four Sessions are worked on at a
    time, and no two jobs own the same Session. *)
From stdpp Require Import base tactics list strings numbers relations sorting.
From S2P Require Import Prelude GoJson Contract Items Database Queries EnvQueries SessionLog Turns Environments Reads Configuration Worker.
From S2P Require Import Relations Scenario EnvScenario Frames.

Section schedule.
Context `{UUIDs, Oracle, EventSizes}.
Context (has_connections : bool) (ready : string → string → Snapshot → bool).

(** ** Selection *)

(** The sessions in use, and that there is room. *)
Definition bounded (active : list string) : Prop := NoDup active ∧ (length active ≤ max_active)%nat.

Lemma next_item_spec s turns environments item s' turns' environments' :
  next_item s turns environments = Some (item, s', turns', environments') →
  (∃ t, item = MkScheduled t "" ∧ turns = t :: turns' ∧ environments' = environments)
  ∨ (∃ e, item = environment_item e ∧ environments = e :: environments' ∧ turns' = turns).
Proof.
  unfold next_item. destruct environments as [|e es], turns as [|t ts]; try done.
  - intros [= <- <- <- <-]. eauto.
  - intros [= <- <- <- <-]. eauto.
  - destruct (wsc_environment_first s); intros [= <- <- <- <-]; eauto.
Qed.

(** The items there are to choose from. *)
Definition candidates (turns : list ExecutionWork) (environments : list EnvironmentInputWork) (item : scheduledWork) : Prop :=
  (∃ t, In t turns ∧ item = MkScheduled t "") ∨ (∃ e, In e environments ∧ item = environment_item e).

Lemma select_loop_spec rounds sl turns environments w sl' w' :
  bounded (sl_active sl) →
  select_loop has_connections ready rounds sl turns environments w = (Ok sl', w') →
  ∃ chosen, sl_selected sl' = sl_selected sl ++ chosen
    ∧ sl_active sl' = sl_active sl ++ List.map sw_session chosen
    ∧ bounded (sl_active sl') ∧ Forall (candidates turns environments) chosen.
Proof.
  revert sl turns environments w. induction rounds as [|rounds IH]; intros sl turns environments w Hb Hr; cbn [select_loop] in Hr.
  { apply ret_run in Hr as [-> ->]. exists []. cbn. by rewrite !app_nil_r. }
  destruct (next_item _ turns environments) as [[[[item s1] turns1] environments1]|] eqn:En;
    [|apply ret_run in Hr as [-> ->]; exists []; cbn; by rewrite !app_nil_r].
  assert (∀ i, candidates turns1 environments1 i → candidates turns environments i) as Hmono.
  { destruct (next_item_spec _ _ _ _ _ _ _ En) as [(t & _ & -> & ->)|(e & _ & -> & ->)];
      intros i [(t' & Hin & ->)|(e' & Hin & ->)]; [left|right|left|right]; eexists; (split; [|done]); cbn; auto. }
  assert (candidates turns environments item) as Hitem.
  { destruct (next_item_spec _ _ _ _ _ _ _ En) as [(t & -> & -> & ->)|(e & -> & -> & ->)];
      [left|right]; eexists; (split; [by left|done]). }
  destruct (length (sl_active sl) <? max_active)%nat eqn:El;
    [|apply ret_run in Hr as [-> ->]; exists []; cbn; by rewrite !app_nil_r].
  apply Nat.ltb_lt in El.
  assert (∀ w1, select_loop has_connections ready rounds (MkSelection s1 (sl_active sl) (sl_selected sl)) turns1 environments1 w1 = (Ok sl', w') →
    ∃ chosen, sl_selected sl' = sl_selected sl ++ chosen ∧ sl_active sl' = sl_active sl ++ List.map sw_session chosen
      ∧ bounded (sl_active sl') ∧ Forall (candidates turns environments) chosen) as Hskip.
  { intros w1 Hr1. apply IH in Hr1 as (chosen & ? & ? & ? & HF); [|done]. exists chosen. split_and!; try done.
    eapply Forall_impl; [exact HF|done]. }
  destruct (bool_decide (sw_session item ∈ sl_active sl)) eqn:Ein; [by eapply Hskip|].
  apply bool_decide_eq_false_1 in Ein.
  apply bind_run in Hr as (is_ready & w1 & _ & Hr). destruct is_ready; [|by eapply Hskip].
  apply IH in Hr as (chosen & Es & Ea & Hb' & HF).
  - exists (item :: chosen). cbn in Es, Ea. rewrite Es, Ea, <- !app_assoc. split_and!; try done.
    + by rewrite Ea, <- !app_assoc in Hb'.
    + constructor; [done|]. eapply Forall_impl; [exact HF|done].
  - destruct Hb as [Hnd _]. split; cbn; [|rewrite length_app; cbn; lia].
    apply NoDup_app. split; [done|]. split; [|apply NoDup_singleton]. by intros x Hx ->%list_elem_of_singleton.
Qed.

Lemma selectWork_run s now later devices active w sl w' :
  bounded active → selectWork has_connections ready s now later devices active w = (Ok sl, w') →
  sl_active sl = active ++ List.map sw_session (sl_selected sl) ∧ bounded (sl_active sl).
Proof.
  intros Hb Hr. unfold selectWork in Hr. apply bind_run in Hr as (turns & w1 & _ & Hr). cbv zeta in Hr.
  apply bind_run in Hr as ([s2 environments] & w2 & _ & Hr).
  apply select_loop_spec in Hr as (chosen & Es & Ea & Hb' & _); [|done]. cbn in Es, Ea. subst chosen. done.
Qed.

(** ** The main loop *)

(** The Session a job owns. *)
Definition owns (j : job) : list string :=
  match j with
  | JWork item => [sw_session item]
  | JWrite session => [session]
  | JRead session reserved => if reserved then [session] else []
  end.

Definition is_read (j : job) : bool := match j with JRead _ _ => true | _ => false end.

Definition owned (jobs : list job) : list string := List.flat_map owns jobs.
Definition reading (jobs : list job) : nat := length (List.filter is_read jobs).

Record worker_inv (st : worker_state) : Prop := {
  wi_owned : wk_active st ≡ₚ owned (wk_jobs st);
  wi_bounded : bounded (wk_active st);
  wi_reads : wk_reads st = reading (wk_jobs st);
  wi_most : (wk_reads st ≤ 4)%nat;
}.

Lemma worker_start_inv : worker_inv worker_start.
Proof. split; [done| |done|cbn; lia]. split; [apply NoDup_nil_2|cbn; lia]. Qed.

Lemma owned_snoc jobs j : owned (jobs ++ [j]) = owned jobs ++ owns j.
Proof. unfold owned. rewrite List.flat_map_app. cbn. by rewrite app_nil_r. Qed.

Lemma owned_work jobs items : owned (jobs ++ List.map JWork items) = owned jobs ++ List.map sw_session items.
Proof. unfold owned. rewrite List.flat_map_app. f_equal. induction items as [|i l IH]; [done|]. cbn. by rewrite IH. Qed.

Lemma reading_snoc jobs j : reading (jobs ++ [j]) = (reading jobs + if is_read j then 1 else 0)%nat.
Proof. unfold reading. rewrite List.filter_app, length_app. cbn. by destruct (is_read j). Qed.

Lemma bounded_snoc active s : bounded active → (length active ≠ max_active)%nat → s ∉ active → bounded (active ++ [s]).
Proof.
  intros [Hnd Hl] Hne Hs. split; [|rewrite length_app; cbn; lia].
  apply NoDup_app. split; [done|]. split; [|apply NoDup_singleton]. by intros x Hx ->%list_elem_of_singleton.
Qed.

#[local] Instance filter_perm {A} (p : A → bool) : Proper ((≡ₚ) ==> (≡ₚ)) (List.filter p).
Proof. intros l k. induction 1; cbn; repeat destruct (p _); eauto using Permutation. Qed.

(** Removing the Session of a finished job. *)
Lemma remove_session_perm s active rest : NoDup active → active ≡ₚ s :: rest → remove_session s active ≡ₚ rest.
Proof.
  intros Hnd Hp. unfold remove_session. rewrite Hp. cbn. rewrite bool_decide_eq_true_2 by done. cbn.
  rewrite Hp in Hnd. apply NoDup_cons in Hnd as [Hs _]. clear -Hs.
  induction rest as [|x l IH]; [done|]. rewrite not_elem_of_cons in Hs. destruct Hs as [Hx Hl]. cbn.
  rewrite bool_decide_eq_false_2 by done. cbn. by rewrite IH.
Qed.

Lemma remove_session_bounded s active : bounded active → bounded (remove_session s active).
Proof.
  intros [Hnd Hl]. unfold remove_session. split.
  - apply NoDup_ListNoDup, List.NoDup_filter, NoDup_ListNoDup. done.
  - etrans; [apply List.filter_length_le|done].
Qed.

#[local] Instance owned_perm : Proper ((≡ₚ) ==> (≡ₚ)) owned.
Proof. intros l k Hlk. unfold owned. by rewrite Hlk. Qed.

Lemma owned_delete jobs i j : jobs !! i = Some j → owned jobs ≡ₚ owns j ++ owned (delete i jobs).
Proof.
  intros Hi. by rewrite (delete_Permutation _ _ _ Hi) at 1.
Qed.

#[local] Instance reading_perm : Proper ((≡ₚ) ==> (=)) reading.
Proof. intros l k Hlk. unfold reading. by rewrite Hlk. Qed.

Lemma reading_delete jobs i j :
  jobs !! i = Some j → reading jobs = ((if is_read j then 1 else 0) + reading (delete i jobs))%nat.
Proof.
  intros Hi. rewrite (delete_Permutation _ _ _ Hi) at 1. unfold reading. cbn [List.filter].
  by destruct (is_read j).
Qed.

(** Finishing a job gives its Session back. *)
Lemma finish_owner st s jobs :
  worker_inv st → owned (wk_jobs st) ≡ₚ s :: owned jobs →
  remove_session s (wk_active st) ≡ₚ owned jobs ∧ bounded (remove_session s (wk_active st)).
Proof.
  intros [Ho Hb _ _] Hp. split; [|by apply remove_session_bounded].
  apply remove_session_perm; [apply Hb|]. by rewrite Ho.
Qed.

Lemma worker_step_inv st w st' w' :
  worker_inv st → worker_step has_connections ready (st, w) (st', w') → worker_inv st'.
Proof.
  intros Hinv Hs. pose proof Hinv as [Ho Hb Hr Hm]. inversion Hs; subst; [..|done].
  - rename select (accept_write _ _ = _) into Ha. unfold accept_write in Ha.
    destruct (bool_decide _) eqn:Ein; [done|]. destruct (_ =? _)%nat eqn:Elen; [done|]. injection Ha as <-.
    apply bool_decide_eq_false_1 in Ein. apply Nat.eqb_neq in Elen. split; cbn [wk_active wk_reads wk_jobs].
    + by rewrite owned_snoc, Ho.
    + by apply bounded_snoc.
    + by rewrite reading_snoc, Nat.add_0_r.
    + done.
  - rename select (accept_read _ _ = _) into Ha. unfold accept_read in Ha.
    destruct (wk_reads st =? 4)%nat eqn:E4; [done|]. apply Nat.eqb_neq in E4.
    destruct (bool_decide (session ∈ wk_active st)) eqn:Ein; cbn [negb andb orb] in Ha.
    + injection Ha as <-. split; cbn [wk_active wk_reads wk_jobs]; [by rewrite owned_snoc, app_nil_r|done|rewrite reading_snoc; cbn; lia|lia].
    + destruct (_ =? _)%nat eqn:Elen; [done|]. injection Ha as <-.
      apply bool_decide_eq_false_1 in Ein. apply Nat.eqb_neq in Elen. split; cbn [wk_active wk_reads wk_jobs].
      * by rewrite owned_snoc, Ho.
      * by apply bounded_snoc.
      * rewrite reading_snoc. cbn. lia.
      * lia.
  - rename select (finish_job _ _ = _) into Hf. unfold finish_job in Hf.
    destruct (wk_jobs st !! i) as [j|] eqn:Ei; [|done].
    pose proof (owned_delete _ _ _ Ei) as Hd. pose proof (reading_delete _ _ _ Ei) as Hread.
    destruct j as [item|session|session reserved]; injection Hf as <-; cbn in Hd, Hread.
    + destruct (finish_owner _ _ _ Hinv Hd). split; cbn [wk_active wk_reads wk_jobs]; try done. lia.
    + destruct (finish_owner _ _ _ Hinv Hd). split; cbn [wk_active wk_reads wk_jobs]; try done. lia.
    + destruct reserved; cbn in Hd; [destruct (finish_owner _ _ _ Hinv Hd)|]; split; cbn [wk_active wk_reads wk_jobs]; try done; try lia.
      by rewrite Ho.
  - rename select (tick _ _ _ _ _ _ _ = _) into Ht. unfold tick in Ht.
    destruct (_ || _); [apply ret_run in Ht as [-> _]; done|].
    apply bind_run in Ht as (sl & w1 & Hsel & Ht). apply ret_run in Ht as [-> _].
    destruct (selectWork_run _ _ _ _ _ _ _ _ Hb Hsel) as [Ea Hb']. split; cbn [wk_active wk_reads wk_jobs].
    + by rewrite owned_work, Ea, Ho.
    + done.
    + unfold reading. rewrite List.filter_app, length_app, Hr. unfold reading.
      assert (List.filter is_read (List.map JWork (sl_selected sl)) = []) as ->; [|cbn; lia].
      clear. by induction (sl_selected sl).
    + done.
Qed.
End schedule.

Section properties.
Context `{UUIDs, Oracle, EventSizes}.
Context (has_connections : bool) (ready : string → string → Snapshot → bool).


(** C18. A selection is sound: it only adds Sessions that were not active, one item
    each, up to four in all, and every item is a queued Turn or a waiting input
    that was listed for a connected device. *)
Theorem selectWork_sound s now later devices active w sl w' :
  NoDup active → (length active ≤ 4)%nat →
  selectWork has_connections ready s now later devices active w = (Ok sl, w') →
  NoDup (active ++ List.map sw_session (sl_selected sl))
  ∧ (length active + length (sl_selected sl) ≤ 4)%nat
  ∧ ∃ turns environments cursor w1,
      ListExecutionWork (wsc_turn s) ["queued"] (Some devices) w = (Ok turns, w)
      ∧ (environments = [] ∨ ListEnvironmentInputWork cursor devices w = (Ok environments, w1))
      ∧ Forall (candidates turns environments) (sl_selected sl).
Proof.
  intros Hnd Hl Hr. assert (bounded active) as Hb by done.
  destruct (selectWork_run _ _ _ _ _ _ _ _ _ _ Hb Hr) as [Ea [Hnd' Hl']]. rewrite Ea in Hnd', Hl'.
  split; [done|]. split; [by rewrite length_app, List.length_map in Hl'|].
  unfold selectWork in Hr. apply bind_run in Hr as (turns & w1 & Ht & Hr). cbv zeta in Hr.
  assert (w1 = w) as ->.
  { unfold ListExecutionWork, ListExecutionWorkQ in Ht. by tx_inv. }
  apply bind_run in Hr as ([s2 environments] & w2 & He & Hr).
  apply select_loop_spec in Hr as (chosen & Es & _ & _ & HF); [|done]. cbn in Es. subst chosen.
  set (s1 := if bool_decide (turns = []) then _ else s) in *.
  exists turns, environments, (wsc_environment s1), w2. split; [done|]. split; [|done].
  destruct (negb _); [|apply ret_run in He as [[= _ ->] _]; by left].
  apply bind_run in He as (l & w3 & Hle & He). apply ret_run in He as [[= _ ->] ->]. by right.
Qed.
End properties.

(** ** Witnesses *)

(** The bound device of the demo tenant is connected. *)
Definition staffed_world : world :=
  set_db queued_world (with_devices (w_db queued_world) [MkDevice 7%N 1%N "laptop" "" 900 None None None]).

Definition demo_item : scheduledWork := MkScheduled (MkExecutionWork tenant_id session_id turn_id "queued") "".

(** The Turn is selected, a directory of its Session is read meanwhile, and a
    write for another Session is accepted. *)
Definition busy_worker : worker_state :=
  MkWorker [session_id; uuid_string 3] 1 (MkSchedule turn_id "" 5000020 true)
    [JWork demo_item; JRead session_id false; JWrite (uuid_string 3)].


Lemma selectWork_sound_witness :
  ∃ sl w', selectWork true (λ _ _ _, true) (MkSchedule "" "" 0 false) 10 20 [uuid_string 7] [uuid_string 3] staffed_world = (Ok sl, w')
    ∧ sl_selected sl = [demo_item] ∧ NoDup ([uuid_string 3] ++ List.map sw_session (sl_selected sl)).
Proof.
  eexists _, _. split; [vm_compute; reflexivity|]. split; [reflexivity|].
  eapply (selectWork_sound true (λ _ _ _, true) (MkSchedule "" "" 0 false) 10 20 [uuid_string 7] [uuid_string 3] staffed_world).
  - apply NoDup_singleton.
  - cbn. lia.
  - vm_compute. reflexivity.
Defined.
