(* ===== verification/Recovery.v ===== *)
(** * Recovery

    What the worker does to Turns nobody runs any more: at startup every running
    Turn is failed and queued ones are kept; a claim whose dispatch failed is not
    left behind. *)
From stdpp Require Import base tactics list strings numbers relations sorting.
From S2P Require Import Prelude GoJson Contract Items Database Queries EnvQueries SessionLog Turns Environments Reads Configuration Worker.
From S2P Require Import Relations Scenario Frames Lifecycle Calls Outcomes Work.

(** ** Errors a transaction never raises *)

Definition avoids {A} (e : error) (m : tx A) : Prop := ∀ w, (m w).1 ≠ Err e.

Section avoiding.
Context {A B : Type} (e : error).
Implicit Types (m : tx A) (k : A → tx B).

Lemma avoids_ret (a : A) : avoids e (mret a).
Proof. done. Qed.
Lemma avoids_query (f : db → A) : avoids e (query f).
Proof. done. Qed.
Lemma avoids_throw e' : e' ≠ e → avoids e (throw e' : tx A).
Proof. intros He w [= ->]. done. Qed.
Lemma avoids_of_result (r : result A) : r ≠ Err e → avoids e (of_result r).
Proof. intros Hr w. done. Qed.
Lemma avoids_bind m k : avoids e m → (∀ a, avoids e (k a)) → avoids e (m ≫= k).
Proof.
  intros Hm Hk w. unfold mbind, tx_bind. specialize (Hm w). destruct (m w) as [[a|e1] w1]; [apply Hk|].
  intros [= ->]. by apply Hm.
Qed.
Lemma avoids_iter (f : A → tx unit) l : (∀ a, avoids e (f a)) → avoids e (tx_iter f l).
Proof.
  intros Hf. induction l as [|a l IH]; [done|]. cbn. intros w. unfold mbind, tx_bind. specialize (Hf a w).
  destruct (f a w) as [[[]|e1] w1]; [apply IH|]. intros [= ->]. by apply Hf.
Qed.
End avoiding.

(** The same at one world. *)
Lemma avoids_at {A B} e (m : tx A) (k : A → tx B) w :
  avoids e m → (∀ a w', m w = (Ok a, w') → (k a w').1 ≠ Err e) → ((m ≫= k) w).1 ≠ Err e.
Proof.
  intros Hm Hk. unfold mbind, tx_bind. specialize (Hm w). destruct (m w) as [[a|e1] w1]; [by apply Hk|].
  intros [= ->]. by apply Hm.
Qed.
Lemma avoids_begin_at {A} e (m : tx A) w : (m w).1 ≠ Err e → (begin_func m w).1 ≠ Err e.
Proof. unfold begin_func. by destruct (m w) as [[a|e1] w1]. Qed.
Lemma avoids_one {A} e (m : tx (option A)) : ErrNoRows ≠ e → avoids e m → avoids e (one m).
Proof. intros He Hm. apply avoids_bind; [done|]. intros [a|]; [apply avoids_ret|by apply avoids_throw]. Qed.
Lemma avoids_require e c e' : e' ≠ e → avoids e (require c e').
Proof. intros He w. unfold require. destruct c; [done|]. intros [= ->]. done. Qed.
Lemma avoids_exec e f : avoids e (exec f).
Proof. done. Qed.
Lemma avoids_check e name c : ErrConstraint name ≠ e → avoids e (constraint_check name c).
Proof. intros He w. unfold constraint_check. destruct (c _); [done|]. intros [= E]. done. Qed.
Lemma avoids_jsonb e j : ErrConstraint "jsonb" ≠ e → avoids e (jsonb j).
Proof. intros He w. unfold jsonb. destruct (jsonb_in j); [done|]. intros [= E]. done. Qed.
Lemma avoids_clock e `{Oracle} : avoids e clock_timestamp.
Proof. done. Qed.
Lemma avoids_uuid e `{Oracle} : avoids e uuid_new.
Proof. done. Qed.

Create HintDb avoid.
#[export] Hint Resolve avoids_ret avoids_query avoids_exec avoids_clock avoids_uuid : avoid.
#[export] Hint Extern 1 (avoids _ (throw _)) => apply avoids_throw; discriminate : avoid.
#[export] Hint Extern 1 (avoids _ (require _ _)) => apply avoids_require; discriminate : avoid.
#[export] Hint Extern 1 (avoids _ (constraint_check _ _)) => apply avoids_check; discriminate : avoid.
#[export] Hint Extern 1 (avoids _ (jsonb _)) => apply avoids_jsonb; discriminate : avoid.

(** Walk through a transaction, as [moves_tac] does. *)
Ltac avoids_step :=
  match goal with
  | |- avoids _ (let _ := _ in _) => cbv zeta
  | |- avoids _ (_ ≫= _) => apply avoids_bind; [|intros ?]
  | |- avoids _ (tx_iter _ _) => apply avoids_iter; intros ?
  | |- avoids _ (one _) => apply avoids_one; [discriminate|]
  | |- avoids _ (if ?c then _ else _) => destruct c eqn:?
  | |- avoids _ (match ?x with _ => _ end) => destruct x eqn:?
  end.
Ltac avoids_tac := repeat (first [solve [eauto 3 with avoid] | avoids_step]).

(** The pure parts fail with errors of their own. *)
Lemma bind_avoids {A B} e (r : result A) (f : A → result B) :
  r ≠ Err e → (∀ a, f a ≠ Err e) → r ≫= f ≠ Err e.
Proof. intros Hr Hf. destruct r; [apply Hf|]. cbn. congruence. Qed.

Lemma reject_avoids e c e' : e' ≠ e → reject_if c e' ≠ Err e.
Proof. unfold reject_if. destruct c; congruence. Qed.

Lemma decode_avoids {A} (o : option A) : decode_or o ≠ Err ErrTurnConflict.
Proof. by destruct o. Qed.

Ltac result_avoids :=
  repeat match goal with
  | |- Ok _ ≠ _ => discriminate
  | |- Err _ ≠ _ => discriminate
  | |- decode_or _ ≠ _ => apply decode_avoids
  | |- reject_if _ _ ≠ _ => apply reject_avoids; discriminate
  | |- _ ≫= _ ≠ _ => apply bind_avoids; [|intros ?]
  | |- (let _ := _ in _) ≠ _ => cbv zeta
  | |- (if ?c then _ else _) ≠ _ => destruct c
  | |- (match ?x with _ => _ end) ≠ _ => destruct x
  end.

Section recovery.
Context `{UUIDs, Oracle, EventSizes}.

Lemma Project_avoids turn kind sequence raw : Project turn kind sequence raw ≠ Err ErrTurnConflict.
Proof. unfold Project, projectFinal, projectTool, projectCommandOutput. result_avoids. Qed.

Lemma Merge_avoids update previous : Merge update previous ≠ Err ErrTurnConflict.
Proof. unfold Merge, mergeCommandOutput, append_text. result_avoids. Qed.

#[local] Hint Extern 1 (avoids _ (of_result _)) => apply avoids_of_result; first [apply Project_avoids | apply Merge_avoids | apply decode_avoids] : avoid.

Lemma recordSessionChange_avoids session change : avoids ErrTurnConflict (recordSessionChange session change).
Proof. unfold recordSessionChange, AppendSessionEvent. avoids_tac. Qed.
#[local] Hint Resolve recordSessionChange_avoids : avoid.

Lemma recordItemChange_avoids session index previous item delta :
  avoids ErrTurnConflict (recordItemChange session index previous item delta).
Proof. unfold recordItemChange, record_added, record_text, emit. avoids_tac. Qed.
#[local] Hint Resolve recordItemChange_avoids : avoid.

Lemma projectSource_avoids session turn kind sequence raw created :
  avoids ErrTurnConflict (projectSource session turn kind sequence raw created).
Proof.
  unfold projectSource, projectSubagentIdentity, projectItemSource, project_update, PutSubagentIdentity, PutTurnUsage,
    HasNativeMessageItem, GetSessionItem, restoreFunctionItemResult, FunctionItemResult, PutSessionItem.
  avoids_tac.
Qed.

Lemma recordTurnChange_avoids row created : avoids ErrTurnConflict (recordTurnChange row created).
Proof.
  unfold recordTurnChange, settleTurnArtifacts, PublishTurnArtifacts, DeleteUnpublishedTurnArtifacts, FinishSessionItems,
    finish_item, recordSessionActivity, SessionTokenUsage. avoids_tac.
Qed.

(** ** Failing one Turn *)

(** The table after a successful transition. *)
Lemma TransitionTurn_table tenantID sessionID turnID expected status outcome w turn w' p :
  turnLookup tenantID sessionID turnID = Ok p →
  TransitionTurn tenantID sessionID turnID expected status outcome w = (Ok turn, w') →
  ∃ now raw o, canonicalJSONObject outcome = Ok raw ∧ jsonb_in raw = Some o
    ∧ log_frame (with_turns (w_db w) (update_where (may_transition (lk_turn p) (lk_session p) expected status)
                   (transition_row now status o) (turns (w_db w)))) (w_db w').
Proof.
  intros Hp Hr. unfold TransitionTurn in Hr. rewrite Hp in Hr.
  apply bind_run in Hr as (p' & w1 & Hq & Hr). apply of_result_run in Hq as [[= <-] ->].
  apply bind_run in Hr as ([] & w1 & Hv & Hr). apply require_run in Hv as [_ ->].
  apply bind_run in Hr as (raw & w1 & Ho & Hr). apply of_result_run in Ho as [Ho ->].
  apply bind_run in Hr as ([] & w1 & Ht & Hr). apply require_run in Ht as [_ ->].
  apply bind_run in Hr as (row & w1 & Hr & Hret). apply ret_run in Hret as [_ ->].
  apply withSessionState_run in Hr as (tenant & session & s & w2 & _ & _ & _ & _ & Hr & ->).
  unfold transitionTurn in Hr. apply bind_run in Hr as (t0 & w3 & Hmust & Hr). apply must_turn_run in Hmust as (-> & _).
  apply bind_run in Hr as ([t1|] & w3 & Hmove & Hr); [|discriminate Hr].
  apply TransitionTurnQ_run in Hmove as (t & now & o & _ & _ & Hj & _ & Ed).
  exists now, raw, o. split; [done|]. split; [done|]. rewrite <- Ed.
  apply bind_run in Hr as (row' & w4 & Hproj & Hr). apply bind_run in Hr as (u & w5 & Hlog & Hr). apply ret_run in Hr as [_ ->].
  etrans; [|apply pruned_frame]. apply recordTurnChange_frame in Hlog. etrans; [|exact Hlog].
  destruct (terminalStatus (t_status t1)); [|apply ret_run in Hproj as [_ ->]; done].
  apply bind_run in Hproj as (u1 & w6 & Hsrc & Hproj). apply projectSource_frame in Hsrc.
  apply bind_run in Hproj as (again & w7 & Hget & Hproj). apply get_turn_run in Hget as [-> _].
  destruct again as [r|]; [|discriminate Hproj]. apply ret_run in Hproj as [_ ->]. done.
Qed.

(** A Turn that is where the caller expects it is not a conflict. *)
Lemma transitionTurn_no_conflict p expected status outcome t w :
  In t (turns (w_db w)) → may_transition (lk_turn p) (lk_session p) expected status t = true →
  (transitionTurn p expected status outcome w).1 ≠ Err ErrTurnConflict.
Proof.
  intros Hin Hm. unfold transitionTurn.
  apply avoids_at; [unfold must_turn, get_turn, GetTurnQ; avoids_tac|]. intros t0 w1 Hmust.
  apply must_turn_run in Hmust as (-> & _). apply avoids_at; [unfold TransitionTurnQ; avoids_tac|].
  intros [row|] w1 Hq; [|exfalso].
  - match goal with |- (?m w1).1 ≠ _ => assert (avoids ErrTurnConflict m) as Hm' end; [|apply Hm'].
    unfold get_turn, GetTurnQ. avoids_tac; [apply projectSource_avoids|apply recordTurnChange_avoids].
  - unfold TransitionTurnQ in Hq. apply bind_run in Hq as (now & w2 & Hc & Hq).
    apply clock_run in Hc as [Hd _]. apply bind_run in Hq as (j & w3 & Hj & Hq). apply jsonb_run in Hj as [_ ->].
    apply bind_run in Hq as (hit & w3 & Hh & Hq). apply query_run in Hh as [-> ->].
    destruct (head _) as [t1|] eqn:Eh.
    + apply bind_run in Hq as (? & ? & _ & Hq). apply bind_run in Hq as (? & ? & _ & Hq).
      apply bind_run in Hq as (? & ? & _ & Hq). apply ret_run in Hq as [? _]. done.
    + rewrite head_filter_None in Eh. rewrite Hd in Eh. specialize (Eh t Hin). congruence.
Qed.

Lemma TransitionTurn_no_conflict tenantID sessionID turnID expected status outcome w p t :
  turnLookup tenantID sessionID turnID = Ok p →
  In t (turns (w_db w)) → may_transition (lk_turn p) (lk_session p) expected status t = true →
  (TransitionTurn tenantID sessionID turnID expected status outcome w).1 ≠ Err ErrTurnConflict.
Proof.
  intros Hp Hin Hm. unfold TransitionTurn. rewrite Hp.
  apply avoids_at; [by apply avoids_of_result|]. intros p' w1 [[= <-] ->]%of_result_run.
  apply avoids_at; [avoids_tac|]. intros [] w1 [_ ->]%require_run.
  apply avoids_at; [apply avoids_of_result; unfold canonicalJSONObject; result_avoids|]. intros raw w1 [_ ->]%of_result_run.
  apply avoids_at; [avoids_tac|]. intros [] w1 [_ ->]%require_run.
  unfold mbind, tx_bind. pose proof (transitionTurn_no_conflict p expected status raw t w Hin Hm) as Hn.
  assert ((withSession tenantID sessionID (λ _, transitionTurn p expected status raw) w).1 ≠ Err ErrTurnConflict) as Hw.
  { unfold withSession, withSessionState.
    apply avoids_at; [apply avoids_of_result; unfold parseID; result_avoids|]. intros tenant w1 [_ ->]%of_result_run.
    apply avoids_at; [apply avoids_of_result; unfold parseID; result_avoids|]. intros id w1 [_ ->]%of_result_run.
    apply avoids_begin_at. unfold LockSession. apply avoids_at; [avoids_tac|]. intros [s|] w1 [Hs ->]%query_run; [|done].
    unfold mbind, tx_bind. cbn [andb]. destruct (transitionTurn _ _ _ _ w) as [[row|e] w2]; [done|exact Hn]. }
  destruct (withSession _ _ _ w) as [[row|e] w1]; [done|]. cbn in *. congruence.
Qed.

(** One row is failed, the others are as they were (but for token usage). *)
Definition settles (id : N) (o : json) (a b : turn_row) : Prop :=
  if decide (t_id a = id)
  then t_id b = t_id a ∧ t_session b = t_session a ∧ t_status b = "failed" ∧ t_outcome b = o
  else turn_core b = turn_core a.

Lemma frame_settles d d' id session status now o t :
  turns_wf d → In t (turns d) → t_id t = id → may_transition id session status "failed" t = true →
  log_frame (with_turns d (update_where (may_transition id session status "failed") (transition_row now "failed" o) (turns d))) d' →
  Forall2 (settles id o) (turns d) (turns d').
Proof.
  intros Hwf Hin Hid Hm Hf. pose proof (lf_turns _ _ Hf) as E. cbn [turns with_turns] in E. unfold update_where in E.
  assert (∀ a, In a (turns d) → t_id a = id → a = t) as Huniq.
  { intros a Ha Ea. apply (nodup_key t_id (turns d)); [apply Hwf|done..|congruence]. }
  clear Hf Hwf Hin. revert Huniq E. generalize (turns d') as l'. generalize (turns d) as l.
  induction l as [|a l IH]; intros [|b l'] Huniq E; try done.
  rewrite fmap_cons in E. cbn [List.map] in E. rewrite fmap_cons in E.
  assert (turn_core b = turn_core (if may_transition id session status "failed" a then transition_row now "failed" o a else a)) as Eb
    by congruence.
  constructor; [|apply IH; [intros; apply Huniq; [by right|done]|congruence]]. clear E.
  unfold settles. destruct (decide (t_id a = id)) as [Ea|Ea].
  - rewrite (Huniq a (or_introl eq_refl) Ea), Hm in Eb. apply core_status in Eb. cbn in Eb.
    rewrite (Huniq a (or_introl eq_refl) Ea). naive_solver.
  - destruct (may_transition id session status "failed" a) eqn:Ema; [|done]. exfalso. apply Ea.
    unfold may_transition, turn_is in Ema. by bsolve.
Qed.

Lemma fail_turn_run tenantID sessionID turnID status code w w' p t :
  turns_wf (w_db w) → turnLookup tenantID sessionID turnID = Ok p →
  In t (turns (w_db w)) → t_id t = lk_turn p → t_session t = lk_session p →
  t_status t = status → active_status status = true →
  fail_turn tenantID sessionID turnID status code w = (Ok tt, w') →
  ∃ raw o, canonicalJSONObject (error_outcome code) = Ok raw ∧ jsonb_in raw = Some o
    ∧ Forall2 (settles (lk_turn p) o) (turns (w_db w)) (turns (w_db w'))
    ∧ session_core <$> sessions (w_db w') = session_core <$> sessions (w_db w).
Proof.
  intros Hwf Hp Hin Hid Hs Hst Hact Hr.
  assert (may_transition (lk_turn p) (lk_session p) status "failed" t = true) as Hm.
  { unfold may_transition, turn_is. rewrite Hid, Hs, Hst, Hact, !bool_decide_eq_true_2 by done. done. }
  unfold fail_turn, catch, mbind, tx_bind in Hr.
  pose proof (TransitionTurn_no_conflict _ _ _ _ _ (error_outcome code) _ _ _ Hp Hin Hm) as Hn.
  destruct (TransitionTurn _ _ _ _ _ _ w) as [[turn|e] w1] eqn:Et.
  - injection Hr as <-. destruct (TransitionTurn_table _ _ _ _ _ _ _ _ _ _ Hp Et) as (now & raw & o & Hc & Hj & Hf).
    exists raw, o. split; [done|]. split; [done|]. split; [by eapply frame_settles|]. exact (lf_sessions _ _ Hf).
  - destruct (bool_decide (e = ErrTurnConflict)) eqn:Ee; [|discriminate]. apply bool_decide_eq_true_1 in Ee. cbn in Hn. congruence.
Qed.

(** ** Recovery of a page *)

Definition running_status (s : string) : bool := (s =?s "in_progress") || (s =?s "waiting").

Lemma running_active s : running_status s = true → active_status s = true.
Proof. unfold running_status, active_status. rewrite orb_true_iff, !orb_true_iff. naive_solver. Qed.

(** [d'] is [d] with some of its running Turns failed. *)
Definition fails_some (o : json) (d d' : db) : Prop :=
  Forall2 (λ a b, t_id b = t_id a ∧ t_session b = t_session a
    ∧ (turn_core b = turn_core a ∨ (running_status (t_status a) = true ∧ t_status b = "failed" ∧ t_outcome b = o)))
    (turns d) (turns d')
  ∧ session_core <$> sessions d' = session_core <$> sessions d.

Lemma fails_some_refl o d : fails_some o d d.
Proof. split; [|done]. apply Forall2_same_length_lookup. split; [done|]. naive_solver. Qed.

Lemma fails_some_trans o d1 d2 d3 : fails_some o d1 d2 → fails_some o d2 d3 → fails_some o d1 d3.
Proof.
  intros [F1 S1] [F2 S2]. split; [|congruence]. eapply Forall2_trans; [|exact F1|exact F2].
  intros a b c (Ei & Es & Hab) (Ei' & Es' & Hbc). split; [congruence|]. split; [congruence|].
  destruct Hab as [Eab|(Hr & Hf & Ho)], Hbc as [Ebc|(Hr' & Hf' & Ho')].
  - left. congruence.
  - right. apply core_status in Eab as (_ & _ & Est & _). rewrite Est in Hr'. done.
  - right. apply core_status in Ebc as (_ & _ & Est & Eo & _). rewrite Est, Eo. done.
  - rewrite Hf in Hr'. done.
Qed.

Definition interrupted : json := JObj [("error_code", JStr "execution_interrupted")].

Lemma parseID_string `{!UUIDLaws} u v : parseID (uuid_string u) = Ok v → v = u.
Proof. unfold parseID. rewrite uuid_parse_string. destruct (u =?s 0%N); congruence. Qed.

(** A Turn that could be failed had identifiers that parse. *)
Lemma fail_turn_lookup tenantID sessionID turnID status code w u w' :
  fail_turn tenantID sessionID turnID status code w = (Ok u, w') → ∃ p, turnLookup tenantID sessionID turnID = Ok p.
Proof.
  unfold fail_turn, catch, TransitionTurn, mbind, tx_bind, of_result, throw. intros Hr.
  destruct (turnLookup tenantID sessionID turnID) as [p|e] eqn:E; [eauto|].
  assert (e = ErrInvalidInput) as ->.
  { unfold turnLookup in E. repeat match type of E with (parseID ?x ≫= _) = _ =>
      let Ex := fresh in destruct (parseID x) eqn:Ex; cbn in E;
      [|unfold parseID in Ex; repeat case_match; simplify_eq; done] end. done. }
  discriminate Hr.
Qed.

Lemma fail_turn_wf tenantID sessionID turnID status code w u w' :
  fail_turn tenantID sessionID turnID status code w = (Ok u, w') →
  (turns_wf (w_db w) → turns_wf (w_db w')) ∧ t_id <$> turns (w_db w') = t_id <$> turns (w_db w).
Proof.
  intros Hr. destruct (fail_turn_lookup _ _ _ _ _ _ _ _ Hr) as [p Hp].
  unfold fail_turn, catch, mbind, tx_bind in Hr. destruct (TransitionTurn _ _ _ _ _ _ w) as [[turn|e] w1] eqn:Et.
  - injection Hr as <- <-.
    destruct (moves_run (keeps turns_wf) _ _ _ _ (TransitionTurn_moves (keeps turns_wf) _ _ _ _ _ _) Et) as [Hwf _]. split; [done|].
    destruct (TransitionTurn_table _ _ _ _ _ _ _ _ _ _ Hp Et) as (now & raw & o & _ & _ & Hf).
    pose proof (f_equal (fmap t_id) (lf_turns _ _ Hf)) as E. rewrite <- !list_fmap_compose in E. cbn in E.
    etrans; [exact E|]. by apply (update_where_map_proj t_id).
  - destruct (bool_decide (e = ErrTurnConflict)); [|discriminate]. injection Hr as <- <-.
    pose proof (serve_atomic (ReqTransitionTurn tenantID sessionID turnID status "failed" (error_outcome code)) w) as Ha.
    cbn [serve] in Ha. unfold ignore, mbind, tx_bind in Ha. rewrite Et in Ha. by rewrite Ha.
Qed.

(** Interrupting the Turns of a page. *)
Lemma interrupts_run `{!UUIDLaws} rows w w' :
  turns_wf (w_db w) → NoDup (List.map (λ r : turn_row * session_row, t_id r.1) rows) →
  (∀ r, In r rows → running_status (t_status r.1) = true ∧ ∃ t, In t (turns (w_db w)) ∧ turn_core t = turn_core r.1) →
  tx_iter interrupt (List.map execution_work rows) w = (Ok tt, w') →
  turns_wf (w_db w') ∧ fails_some interrupted (w_db w) (w_db w')
  ∧ ∀ r t, In r rows → In t (turns (w_db w')) → t_id t = t_id r.1 → running_status (t_status t) = false.
Proof.
  revert w. induction rows as [|[t s] rows IH]; intros w Hwf Hnd Hrows Hr; cbn [tx_iter List.map] in Hr.
  { apply ret_run in Hr as [_ ->]. split; [done|]. split; [apply fails_some_refl|done]. }
  apply bind_run in Hr as ([] & w1 & Hone & Hr). cbn in Hnd. apply NoDup_cons in Hnd as [Hnew Hnd].
  destruct (Hrows (t, s) (or_introl eq_refl)) as [Hrun (t0 & Hin0 & Ecore)]. cbn [fst] in *.
  pose proof Ecore as (Eid & Esess & Est & _)%core_status.
  unfold interrupt, execution_work in Hone. cbn in Hone. pose proof (fail_turn_wf _ _ _ _ _ _ _ _ Hone) as [Hwf1 _].
  destruct (fail_turn_lookup _ _ _ _ _ _ _ _ Hone) as [p Hp]. destruct (turnLookup_run _ _ _ _ Hp) as (_ & Hps%parseID_string & Hpt%parseID_string).
  destruct (fail_turn_run _ _ _ _ _ _ _ p t0 Hwf Hp Hin0 ltac:(congruence) ltac:(congruence) Est
              (running_active _ Hrun) Hone) as (raw & o & Hc & Hj & HF & HS).
  vm_compute in Hc. injection Hc as <-. vm_compute in Hj. injection Hj as <-. rewrite Hpt in HF.
  assert (fails_some interrupted (w_db w) (w_db w1)) as Hfs.
  { split; [|done]. rewrite Forall2_lookup in *. intros i. specialize (HF i). 
    destruct (turns (w_db w) !! i) as [a|] eqn:Ea; inversion HF as [? b Hab|]; subst; constructor.
    unfold settles in Hab. destruct (decide _) as [E|E]; [|by destruct (core_status _ _ Hab) as (? & ? & _); auto].
    destruct Hab as (? & ? & ? & ?). split; [done|]. split; [done|]. right. split; [|done].
    assert (a = t0) as ->; [|congruence]. apply (nodup_key t_id (turns (w_db w))); [apply Hwf|..|done|congruence].
    apply list_elem_of_In. by eapply list_elem_of_lookup_2. }
  destruct (IH w1 (Hwf1 Hwf) Hnd) as (Hwf' & Hfs' & Hdone); [|done|].
  - intros r Hin. destruct (Hrows r (or_intror Hin)) as [Hr1 (t1 & Hin1 & E1)]. split; [done|].
    apply list_elem_of_In, list_elem_of_lookup in Hin1 as [i Hi].
    destruct (Forall2_lookup_l _ _ _ _ _ HF Hi) as (b & Hb & Hab). exists b.
    split; [apply list_elem_of_In; by eapply list_elem_of_lookup_2|].
    unfold settles in Hab. destruct (decide (t_id t1 = t_id t)) as [E|E]; [exfalso|congruence].
    apply Hnew. destruct (core_status _ _ E1) as (Ei & _). rewrite <- E, Ei.
    apply list_elem_of_In, in_map_iff. by exists r.
  - split; [done|]. split; [by eapply fails_some_trans|]. intros r t' [<-|Hin] Ht' Eid'; [|by eapply Hdone].
    cbn in Eid'. destruct Hfs' as [HF' _]. apply list_elem_of_In, list_elem_of_lookup in Ht' as [i Hi].
    destruct (Forall2_lookup_r _ _ _ _ _ HF' Hi) as (b & Hb & Ebid & _ & Hbt).
    destruct (Forall2_lookup_r _ _ _ _ _ HF Hb) as (a & Ha & Hab). unfold settles in Hab.
    assert (t_status b = "failed") as Hbf.
    { destruct (decide (t_id a = t_id t)) as [E|E]; [naive_solver|]. exfalso. apply E.
      apply core_status in Hab as (Ei & _). congruence. }
    destruct Hbt as [Ec|(_ & -> & _)]; [|done]. apply core_status in Ec as (_ & _ & -> & _). by rewrite Hbf.
Qed.

(** ** The pages *)

Lemma in_turn_sessions d t s :
  In (t, s) (turn_sessions d) ↔ In t (turns d) ∧ In s (sessions d) ∧ s_id s = t_session t.
Proof.
  unfold turn_sessions. rewrite in_flat_map. setoid_rewrite in_map_iff. setoid_rewrite List.filter_In. split.
  - intros (t' & Ht & s' & [= -> ->] & Hs & E). bsolve. done.
  - intros (Ht & Hs & E). exists t. split; [done|]. exists s. split; [done|]. split; [done|]. by rewrite bool_decide_eq_true_2.
Qed.

(** A Turn appears once in the join, since Sessions have one row each. *)
Lemma turn_sessions_nodup d :
  NoDup (t_id <$> turns d) → NoDup (s_id <$> sessions d) → NoDup (List.map (λ r : turn_row * session_row, t_id r.1) (turn_sessions d)).
Proof.
  intros Ht Hs. unfold turn_sessions. revert Ht. generalize (turns d) as l. induction l as [|t l IH]; intros Ht; [constructor|].
  cbn in Ht. apply NoDup_cons in Ht as [Hnew Ht]. cbn. rewrite List.map_app. apply NoDup_app. split; [|split; [|auto]].
  - rewrite List.map_map. cbn. destruct (List.filter _ (sessions d)) as [|s1 [|s2 k]] eqn:E; [constructor|apply NoDup_singleton|exfalso].
    assert (∀ s, In s (s1 :: s2 :: k) → In s (sessions d) ∧ s_id s = t_session t) as Hin.
    { intros s. rewrite <- E, List.filter_In. intros [? ?]. bsolve. done. }
    assert (NoDup (s_id <$> (s1 :: s2 :: k))) as Hnd.
    { rewrite <- E. clear -Hs. induction (sessions d) as [|x l IH]; [constructor|]. cbn in Hs. apply NoDup_cons in Hs as [Hx Hl].
      cbn. destruct (s_id x =?s t_session t); [|auto]. cbn. apply NoDup_cons. split; [|auto].
      intros Hx'. apply Hx. apply list_elem_of_fmap in Hx' as (y & -> & Hy%list_elem_of_In%List.filter_In).
      apply list_elem_of_fmap_2, list_elem_of_In, Hy. }
    cbn in Hnd. apply NoDup_cons in Hnd as [Hn _]. apply Hn.
    destruct (Hin s1) as [_ E1]; [by left|]. destruct (Hin s2) as [_ E2]; [by right; left|].
    rewrite E1, E2. apply list_elem_of_here.
  - intros x Hx%list_elem_of_In Hx'%list_elem_of_In. rewrite List.map_map in Hx. cbn in Hx.
    apply in_map_iff in Hx as (s & <- & _). apply Hnew. apply in_map_iff in Hx' as ([t' s'] & Eid & Hin).
    apply in_flat_map in Hin as (t2 & Ht2 & Hin). apply in_map_iff in Hin as (s2 & [= -> ->] & _).
    cbn in Eid. rewrite <- Eid. by apply list_elem_of_fmap_2, list_elem_of_In.
Qed.

(** One page: its rows are running, behind the cursor, each Turn once. *)
Lemma page_run cursor w work w' :
  turns_wf (w_db w) → NoDup (s_id <$> sessions (w_db w)) →
  ListExecutionWork cursor ["in_progress"; "waiting"] None w = (Ok work, w') →
  ∃ from rows, executionWorkCursor cursor [] = Ok (from, []) ∧ w' = w ∧ work = List.map execution_work rows
    ∧ NoDup (List.map (λ r : turn_row * session_row, t_id r.1) rows)
    ∧ (∀ r, In r rows → running_status (t_status r.1) = true ∧ In r.1 (turns (w_db w)) ∧ (from < t_id r.1)%N)
    ∧ (∀ t s, In t (turns (w_db w)) → In s (sessions (w_db w)) → s_id s = t_session t →
         running_status (t_status t) = true → (from < t_id t)%N →
         In (t, s) rows ∨ rows ≠ [] ∧ ∀ r, In r rows → (t_id r.1 ≤ t_id t)%N).
Proof.
  intros Hwf Hs (from & devices & Hc & -> & ->)%ListExecutionWork_run. cbn [default] in Hc.
  assert (devices = []) as ->.
  { unfold executionWorkCursor in Hc. apply bind_Ok in Hc as (id & _ & Hc). cbn in Hc. by simplify_eq. }
  rewrite (bool_decide_eq_false_2 (is_Some None)) by (intros [? ?]; done).
  exists from, (work_rows (w_db w) from ["in_progress"; "waiting"] false []). do 3 (split; [done|]).
  destruct (work_rows_spec (w_db w) from ["in_progress"; "waiting"] false []) as (_ & _ & Hin & Hall).
  assert (∀ r, workable (w_db w) from ["in_progress"; "waiting"] false [] r = true ↔
            running_status (t_status r.1) = true ∧ (from < t_id r.1)%N) as Hwork.
  { intros r. unfold workable, listed, running_status. cbn [existsb]. rewrite orb_false_r.
    rewrite (bool_decide_ext ("in_progress" = t_status r.1) (t_status r.1 = "in_progress")) by naive_solver.
    rewrite (bool_decide_ext ("waiting" = t_status r.1) (t_status r.1 = "waiting")) by naive_solver.
    rewrite !andb_true_iff, N.ltb_lt. split.
    - intros [[[Hr Hf] _] _]. done.
    - intros [Hr Hf]. split; [|done]. split; [done|]. apply orb_true_iff. right.
      apply negb_true_iff, bool_decide_eq_false_2. intros E. rewrite E in Hr. done. }
  split; [|split].
  - unfold work_rows. assert (∀ n l, NoDup (List.map (λ r : turn_row * session_row, t_id r.1) l) →
      NoDup (List.map (λ r : turn_row * session_row, t_id r.1) (take n l))) as Htake.
    { intros n l Hnd. rewrite <- (take_drop n l), List.map_app in Hnd. by apply NoDup_app in Hnd as [? _]. }
    apply Htake. rewrite sort_by_perm. pose proof (turn_sessions_nodup _ (tw_ids _ Hwf) Hs) as Hnd. clear -Hnd.
    induction (turn_sessions (w_db w)) as [|x l IH]; [constructor|]. cbn in Hnd. apply NoDup_cons in Hnd as [Hx Hl].
    cbn. destruct (workable _ _ _ _ _ x); [|auto]. cbn. apply NoDup_cons. split; [|auto].
    intros Hx'%list_elem_of_In. apply Hx, list_elem_of_In. apply in_map_iff in Hx' as (y & E & Hy%List.filter_In).
    apply in_map_iff. exists y. split; [done|apply Hy].
  - intros [t s] Hr. destruct (Hin _ Hr) as [Hts [Hrun Hf]%Hwork]. apply in_turn_sessions in Hts as (Ht & _). done.
  - intros t s Ht Hse E Hrun Hf. destruct (Hall (t, s)) as [?|[Hfull Hle]].
    + split; [by apply in_turn_sessions|by apply Hwork].
    + by left.
    + right. split; [|done]. intros E0. rewrite E0 in Hfull. done.
Qed.

(** ** The whole recovery *)

Lemma cursor_string `{!UUIDLaws} u : u ≠ 0%N → executionWorkCursor (uuid_string u) [] = Ok (u, []).
Proof.
  intros Hu. unfold executionWorkCursor. rewrite bool_decide_eq_false_2 by apply uuid_string_nonempty.
  unfold parseID. rewrite uuid_parse_string, bool_decide_eq_false_2 by done. done.
Qed.

Lemma last_map {A B} (f : A → B) l a : List.last (List.map f l) (f a) = f (List.last l a).
Proof. revert a. induction l as [|x l IH]; intros a; [done|]. cbn. destruct l; [done|]. apply (IH a). Qed.

Lemma in_last {A} (l : list A) a : In (List.last l a) (a :: l).
Proof.
  induction l as [|x l IH]; [by left|]. destruct l as [|y l]; [by right; left|].
  change (List.last (x :: y :: l) a) with (List.last (y :: l) a). destruct IH as [E|IH]; [by left|by right; right].
Qed.

(** The Sessions of a Turn are there before and after. *)
Lemma core_session d d' s :
  session_core <$> sessions d' = session_core <$> sessions d → In s (sessions d') → ∃ s0, In s0 (sessions d) ∧ s_id s0 = s_id s.
Proof.
  intros E Hin. destruct (core_row session_core s_id _ _ s ltac:(intros a b Eab; by injection Eab) E Hin) as (y & Hy & _ & Ei). eauto.
Qed.

Lemma core_session_ids d d' : session_core <$> sessions d' = session_core <$> sessions d → s_id <$> sessions d' = s_id <$> sessions d.
Proof.
  intros E. apply (f_equal (fmap s_id)) in E. rewrite <- !list_fmap_compose in E. exact E.
Qed.

Lemma recover_pages_run `{!UUIDLaws} fuel cursor from w w' :
  turns_wf (w_db w) → NoDup (s_id <$> sessions (w_db w)) → executionWorkCursor cursor [] = Ok (from, []) →
  (∀ t s, In t (turns (w_db w)) → In s (sessions (w_db w)) → s_id s = t_session t →
     running_status (t_status t) = true → (from < t_id t)%N) →
  recover_pages fuel cursor w = (Ok tt, w') →
  fails_some interrupted (w_db w) (w_db w')
  ∧ ∀ t s, In t (turns (w_db w')) → In s (sessions (w_db w')) → s_id s = t_session t → running_status (t_status t) = false.
Proof.
  revert cursor from w. induction fuel as [|fuel IH]; intros cursor from w Hwf Hs Hc Hahead Hr; cbn [recover_pages] in Hr;
    apply bind_run in Hr as (work & w1 & Hl & Hr);
    destruct (page_run _ _ _ _ Hwf Hs Hl) as (from' & rows & Hc' & -> & -> & Hnd & Hrows & Hall);
    rewrite Hc in Hc'; injection Hc' as <-.
  all: destruct rows as [|row rows]; cbn [List.map] in Hr.
  1, 3: apply ret_run in Hr as [_ ->]; split; [apply fails_some_refl|]; intros t s Ht Hse E;
    destruct (running_status (t_status t)) eqn:Hrun; [|done];
    destruct (Hall t s Ht Hse E Hrun (Hahead t s Ht Hse E Hrun)) as [[]|[? _]]; done.
  1: discriminate Hr.
  apply bind_run in Hr as ([] & w2 & Hiter & Hr).
  change (tx_iter interrupt (List.map execution_work (row :: rows)) w = (Ok tt, w2)) in Hiter.
  assert (∀ r, In r (row :: rows) → running_status (t_status r.1) = true
            ∧ ∃ t, In t (turns (w_db w)) ∧ turn_core t = turn_core r.1) as Hpage.
  { intros r Hin. destruct (Hrows r Hin) as (Hrun & Hin' & _). split; [done|]. by exists r.1. }
  destruct (interrupts_run _ _ _ Hwf Hnd Hpage Hiter) as (Hwf2 & Hfs & Hdone).
  rewrite last_map in Hr. cbn [execution_work ew_turn] in Hr.
  set (final := List.last rows row) in *. destruct (Hrows final (in_last _ _)) as (_ & _ & Hfinal).
  destruct (IH (uuid_string (t_id final.1)) (t_id final.1) w2) as [Hfs' Hend]; [done|..|done|].
  - by rewrite (core_session_ids _ _ (proj2 Hfs)).
  - apply cursor_string. lia.
  - intros t s Ht Hse E Hrun. destruct (core_session _ _ _ (proj2 Hfs) Hse) as (s0 & Hs0 & Es0).
    pose proof Ht as Hi. apply list_elem_of_In, list_elem_of_lookup in Hi as [i Hi].
    destruct (Forall2_lookup_r _ _ _ _ _ (proj1 Hfs) Hi) as (a & Ha & Eid & Esess & Hab).
    assert (turn_core t = turn_core a) as Ecore.
    { destruct Hab as [|(_ & Hf & _)]; [done|]. rewrite Hf in Hrun. done. }
    assert (In a (turns (w_db w))) as Hina by (apply list_elem_of_In; by eapply list_elem_of_lookup_2).
    apply core_status in Ecore as (_ & _ & Est & _). rewrite Est in Hrun.
    destruct (Hall a s0 Hina Hs0 ltac:(congruence) Hrun) as [Hin|[_ Hle]].
    { apply (Hahead a s0); congruence. }
    + rewrite <- Est in Hrun. rewrite (Hdone _ t Hin Ht Eid) in Hrun. done.
    + specialize (Hle final (in_last _ _)). rewrite Eid.
      destruct (decide (t_id final.1 = t_id a)) as [E0|E0]; [exfalso|lia].
      rewrite <- Est in Hrun. rewrite (Hdone final t (in_last _ _) Ht ltac:(congruence)) in Hrun. done.
  - split; [by eapply fails_some_trans|done].
Qed.

(** *** Fuel *)

Lemma interrupts_ids work w u w' :
  tx_iter interrupt work w = (Ok u, w') → t_id <$> turns (w_db w') = t_id <$> turns (w_db w).
Proof.
  revert w. induction work as [|item work IH]; intros w Hr; cbn [tx_iter] in Hr; [by apply ret_run in Hr as [_ ->]|].
  apply bind_run in Hr as ([] & w1 & Hone & Hr). apply IH in Hr. rewrite Hr. by apply fail_turn_wf in Hone as [_ ?].
Qed.

(** Turns behind a cursor. *)
Definition ahead (from : N) (d : db) : nat := length (List.filter (λ id, (from <? id)%N) (t_id <$> turns d)).

Lemma ahead_less from id d :
  In id (t_id <$> turns d) → (from < id)%N → (ahead id d < ahead from d)%nat.
Proof.
  unfold ahead. generalize (t_id <$> turns d) as l. induction l as [|x l IH]; intros Hin Hlt; [done|].
  assert (length (List.filter (λ y, (id <? y)%N) l) ≤ length (List.filter (λ y, (from <? y)%N) l))%nat as Hle.
  { clear -Hlt. induction l as [|y l IH]; [done|]. cbn. destruct (N.ltb_spec id y), (N.ltb_spec from y); cbn; lia. }
  cbn. destruct Hin as [->|Hin].
  - destruct (N.ltb_spec id id), (N.ltb_spec from id); cbn; lia.
  - specialize (IH Hin Hlt). destruct (N.ltb_spec id x), (N.ltb_spec from x); cbn; lia.
Qed.

Lemma recover_unfold fuel cursor w :
  recover_pages fuel cursor w =
    match ListExecutionWork cursor ["in_progress"; "waiting"] None w with
    | (Err e, w1) => (Err e, w1)
    | (Ok [], w1) => (Ok tt, w1)
    | (Ok (item :: work), w1) =>
        match fuel with
        | O => (Err (ErrOther "fuel"), w1)
        | S fuel' =>
            match tx_iter interrupt (item :: work) w1 with
            | (Err e, w2) => (Err e, w2)
            | (Ok _, w2) => recover_pages fuel' (ew_turn (List.last work item)) w2
            end
        end
    end.
Proof.
  destruct fuel; cbn [recover_pages]; unfold mbind, tx_bind;
    by destruct (ListExecutionWork cursor _ None w) as [[[|item work]|e] w1].
Qed.

(** A page moves the cursor to a Turn behind it. *)
Lemma page_cursor cursor from w item work w1 :
  executionWorkCursor cursor [] = Ok (from, []) →
  ListExecutionWork cursor ["in_progress"; "waiting"] None w = (Ok (item :: work), w1) →
  w1 = w ∧ ∃ id, ew_turn (List.last work item) = uuid_string id ∧ In id (t_id <$> turns (w_db w)) ∧ (from < id)%N.
Proof.
  intros Hc (from' & devices & Hc' & -> & E)%ListExecutionWork_run. cbn [default] in Hc'. rewrite Hc in Hc'. injection Hc' as <- <-.
  split; [done|]. set (rows := work_rows _ _ _ _ _) in *.
  destruct (work_rows_spec (w_db w) from ["in_progress"; "waiting"] (bool_decide (is_Some (None : option (list string)))) []) as (_ & _ & Hin & _).
  fold rows in Hin. destruct rows as [|row rows]; [done|]. cbn in E. injection E as -> ->.
  rewrite last_map. exists (t_id (List.last rows row).1). split; [done|].
  destruct (List.last rows row) as [t s] eqn:El. pose proof (in_last rows row) as Hl. rewrite El in Hl.
  apply Hin in Hl as [Hts Hw]. apply in_turn_sessions in Hts as (Ht & _). split; [by apply list_elem_of_In, list_elem_of_fmap_2, list_elem_of_In|].
  unfold workable in Hw. cbn in Hw. rewrite !andb_true_iff, N.ltb_lt in Hw. apply Hw.
Qed.

Lemma recover_enough `{!UUIDLaws} n : ∀ k cursor from w,
  executionWorkCursor cursor [] = Ok (from, []) → (ahead from (w_db w) ≤ n)%nat →
  recover_pages (n + k) cursor w = recover_pages n cursor w.
Proof.
  induction n as [|n IH]; intros k cursor from w Hc Hn; rewrite (recover_unfold (_ + k)), (recover_unfold (_ : nat) cursor).
  all: destruct (ListExecutionWork cursor ["in_progress"; "waiting"] None w) as [[[|item work]|e] w1] eqn:El; try done.
  all: destruct (page_cursor _ _ _ _ _ _ Hc El) as (-> & id & Eid & Hin & Hlt); pose proof (ahead_less _ _ _ Hin Hlt) as Hless.
  { lia. }
  cbn [Nat.add]. destruct (tx_iter interrupt (item :: work) w) as [[u|e] w2] eqn:Ei; [|done].
  rewrite Eid. apply (IH k _ id); [apply cursor_string; lia|].
  unfold ahead in *. rewrite (interrupts_ids _ _ _ _ Ei). lia.
Qed.

(** ** Properties *)

(** C19. Recovery is complete: when the worker has reconciled at startup, every
    Turn that was running or waiting has failed as interrupted, and every other
    Turn, queued ones above all, is as it was. *)
Theorem recovery_is_complete `{!UUIDLaws} w w' :
  turns_wf (w_db w) → NoDup (s_id <$> sessions (w_db w)) →
  (∀ t, In t (turns (w_db w)) → t_id t ≠ 0%N ∧ ∃ s, In s (sessions (w_db w)) ∧ s_id s = t_session t) →
  recover w = (Ok tt, w') →
  Forall2 (λ a b, t_id b = t_id a ∧ t_session b = t_session a ∧
             if running_status (t_status a) then t_status b = "failed" ∧ t_outcome b = interrupted
             else turn_core b = turn_core a)
    (turns (w_db w)) (turns (w_db w')).
Proof.
  intros Hwf Hs Hfk Hr. unfold recover in Hr. apply bind_run in Hr as (n & w1 & Hq & Hr). apply query_run in Hq as [_ ->].
  destruct (recover_pages_run n "" 0%N w w' Hwf Hs) as [[HF HS] Hend]; [done| |done|].
  { intros t s Ht _ _ _. destruct (Hfk t Ht) as [Hne _]. lia. }
  rewrite Forall2_lookup in *. intros i. specialize (HF i).
  destruct (turns (w_db w) !! i) as [a|] eqn:Ea; inversion HF as [? b (Eid & Es & Hab) Eb Ebi|]; subst; constructor.
  split; [done|]. split; [done|]. assert (In a (turns (w_db w))) as Hin by (apply list_elem_of_In; by eapply list_elem_of_lookup_2).
  destruct (Hfk a Hin) as (_ & s & Hse & E).
  destruct Hab as [Ec|(-> & Hf & Ho)]; [|done]. destruct (running_status (t_status a)) eqn:Hrun; [exfalso|done].
  assert (In b (turns (w_db w'))) as Hinb by (apply list_elem_of_In; by eapply list_elem_of_lookup_2).
  apply core_status in Ec as (_ & _ & Est & _).
  destruct (core_session (w_db w') (w_db w) s) as (s' & Hs' & Es'); [done..|].
  assert (running_status (t_status b) = false) as Hb by (apply (Hend b s'); congruence). congruence.
Qed.

(** Recovery terminates: one page per Turn is enough, so any larger number
    of pages gives the same result. *)
Theorem recovery_terminates `{!UUIDLaws} fuel w :
  (length (turns (w_db w)) ≤ fuel)%nat → recover_pages fuel "" w = recover w.
Proof.
  intros Hf. unfold recover, mbind, tx_bind, query. replace fuel with (length (turns (w_db w)) + (fuel - length (turns (w_db w))))%nat by lia.
  apply (recover_enough _ _ "" 0%N); [done|]. unfold ahead. etrans; [apply List.filter_length_le|]. by rewrite length_fmap.
Qed.

(** A claim is never left behind: when the dispatch of a Turn fails with
    anything but a conflict, and the worker goes on, the Turn has settled. *)
Theorem runClaim_settles `{!UUIDLaws} run item w e w1 w' p :
  turnLookup (ew_tenant item) (ew_session item) (ew_turn item) = Ok p →
  run (ew_tenant item) (ew_session item) (ew_turn item) w = (Err e, w1) → e ≠ ErrTurnConflict →
  turns_wf (w_db w1) → runClaim run item w = (Ok tt, w') →
  ∃ t, In t (turns (w_db w')) ∧ t_id t = lk_turn p ∧ t_session t = lk_session p ∧ terminalStatus (t_status t) = true.
Proof.
  intros Hp Hrun He Hwf Hr. unfold runClaim, catch in Hr. unfold mbind at 1, tx_bind at 1 in Hr. rewrite Hrun in Hr.
  rewrite bool_decide_eq_false_2 in Hr by done. apply bind_run in Hr as (turn & w2 & Hg & Hr).
  unfold GetTurn in Hg. rewrite Hp in Hg. apply bind_run in Hg as (p' & w3 & Hq & Hg). apply of_result_run in Hq as [[= <-] ->].
  apply bind_run in Hg as (t & w3 & Hmust & Hg). apply must_turn_run in Hmust as (-> & _ & Ht).
  apply ret_run in Hg as [-> ->]. cbn [turnFromRow tn_status] in Hr. apply lookup_turn_row in Ht as (Hin & Es & Ei).
  destruct (terminalStatus (t_status t)) eqn:Eterm; [apply ret_run in Hr as [_ ->]; by exists t|].
  assert (active_status (t_status t) = true) as Hact.
  { pose proof (tw_rows _ Hwf) as Hok. rewrite Forall_forall in Hok. destruct (Hok t) as [Hst _]; [by apply list_elem_of_In|].
    unfold turn_status_ok in Hst. change (done_status (t_status t)) with (terminalStatus (t_status t)) in Hst.
    by rewrite Eterm, orb_false_r in Hst. }
  destruct (fail_turn_run _ _ _ _ _ _ _ p t Hwf Hp Hin Ei Es eq_refl Hact Hr) as (raw & o & _ & _ & HF & _).
  apply list_elem_of_In, list_elem_of_lookup in Hin as [i Hi]. destruct (Forall2_lookup_l _ _ _ _ _ HF Hi) as (b & Hb & Hab).
  exists b. split; [apply list_elem_of_In; by eapply list_elem_of_lookup_2|].
  unfold settles in Hab. rewrite decide_True in Hab by done. destruct Hab as (-> & -> & -> & _). done.
Qed.

End recovery.

(** ** Witnesses *)

(** A Turn was running when the service stopped. *)
Lemma recovery_is_complete_witness :
  ∃ w', recover streamed_world = (Ok tt, w')
    ∧ List.map (λ t, (t_status t, t_outcome t)) (turns (w_db w')) = [("failed", interrupted)].
Proof.
  destruct (recover streamed_world) as [[[]|e] w'] eqn:Er; [|vm_compute in Er; discriminate Er].
  exists w'. split; [done|].
  assert (Forall2 (λ a b, t_id b = t_id a ∧ t_session b = t_session a ∧
             if running_status (t_status a) then t_status b = "failed" ∧ t_outcome b = interrupted
             else turn_core b = turn_core a) (turns (w_db streamed_world)) (turns (w_db w'))) as HF.
  { apply (recovery_is_complete streamed_world w'); [| | |done].
    - exact (steps_turns_wf _ _ (steps_trans _ _ _ queued_steps (steps_trans _ _ _ started_steps streamed_steps)) world0_turns_wf).
    - vm_compute. apply NoDup_singleton.
    - vm_compute. intros t [<-|[]]. split; [done|]. eexists. split; [by left|done]. }
  assert (turns (w_db streamed_world) = [turn_of streamed_world]) as Et by (vm_compute; reflexivity).
  assert (running_status (t_status (turn_of streamed_world)) = true) as Hrun by (vm_compute; reflexivity).
  rewrite Et in HF. apply Forall2_cons_inv_l in HF as (b & l' & (_ & _ & Hb) & Hl & ->). rewrite Hrun in Hb.
  destruct Hb as [Hst Ho]. apply Forall2_nil_inv_l in Hl as ->. cbn [List.map]. by rewrite Hst, Ho.
Defined.

Lemma recovery_terminates_witness : recover_pages 7 "" streamed_world = recover streamed_world ∧ is_ok (recover streamed_world).1 = true.
Proof.
  split; [|vm_compute; reflexivity]. apply (recovery_terminates 7 streamed_world).
  apply Nat.leb_le. vm_compute. reflexivity.
Defined.

(** The device of a running Turn is gone. *)
Lemma runClaim_settles_witness :
  ∃ w' t, runClaim (λ _ _ _, throw (ErrOther "device is not connected")) (MkExecutionWork tenant_id session_id turn_id "queued") streamed_world
            = (Ok tt, w') ∧ In t (turns (w_db w')) ∧ terminalStatus (t_status t) = true.
Proof.
  destruct (runClaim (λ _ _ _, throw (ErrOther "device is not connected")) (MkExecutionWork tenant_id session_id turn_id "queued") streamed_world)
    as [[[]|e] w'] eqn:Er; [|vm_compute in Er; discriminate Er].
  destruct (runClaim_settles (λ _ _ _, throw (ErrOther "device is not connected")) (MkExecutionWork tenant_id session_id turn_id "queued")
    streamed_world (ErrOther "device is not connected") streamed_world w' (MkLookup 1%N 2%N 100%N)) as (t & Hin & _ & _ & Ht).
  - vm_compute; reflexivity.
  - reflexivity.
  - discriminate.
  - exact (steps_turns_wf _ _ (steps_trans _ _ _ queued_steps (steps_trans _ _ _ started_steps streamed_steps)) world0_turns_wf).
  - exact Er.
  - exists w', t. split; [reflexivity|]. split; [exact Hin|exact Ht].
Defined.
