(* ===== verification/Delivery.v ===== *)
(** * Delivery

    The delivery of one claimed Turn to a device: [delivery.go], [finish.go],
    [functions.go], [preparation.go], the cancellation receipt and [drain] of
    [journal.go], and [finishRun] of [dispatcher.go] ([services/agents-api/
    internal/execution]).

    The [select] loop of [deliver] is a transition relation: one handler per
    case, over the state of the loop, the store as the journal reaches it, and
    the frames received so far.  Whether a frame could be sent, what a daemon
    replies and when timers fire are inputs of the handlers.

    [float_text] is [encoding/json]'s rendering of a decoded number literal,
    [usage_left] what its decoder leaves of a usage it rejects half-way, and
    [args_len] the length in bytes of the arguments of a function call frame. *)
From stdpp Require Import base tactics list strings numbers relations pretty.
From S2P Require Import Prelude GoJson Contract Items Database Queries EnvQueries SessionLog Turns Environments Reads Configuration.
From S2P Require Import Relations Scenario Frames Lifecycle Calls EventLog TurnLog Journal.

(** ** Results *)

(** [proto.Usage]; the cost is the literal it was decoded from, empty for zero. *)
Record Usage := MkEngineUsage {
  us_tokens : option TokenUsage; us_provider : string; us_model : string; us_input : Z; us_output : Z;
  us_cost : string; us_raw : option (list (string * json)) }.

Section delivery.
Context `{UUIDs, Oracle, EventSizes}.
Context (float_text : string → string) (usage_left : Usage → json → Usage) (args_len : Envelope → Z).

Definition zero_usage : Usage := MkEngineUsage None "" "" 0 0 "" None.

(** A number re-encoded after decoding into [any]. *)
Fixpoint any_value (j : json) : json :=
  match j with
  | JNum lit => JNum (float_text lit)
  | JArr l => JArr (List.map any_value l)
  | JObj kvs => JObj (List.fold_left (λ m kv, obj_put kv.1 (any_value kv.2) m) kvs [])
  | _ => j
  end.

(** [map[string]any]; a map that is there keeps its other members. *)
Definition dec_map_any : decoder (option (list (string * json))) := λ cur j,
  match j with
  | JNull => Some None
  | JObj kvs =>
      if any_ok j then Some (Some (List.fold_left (λ m kv, obj_put kv.1 (any_value kv.2) m) kvs (default [] cur))) else None
  | _ => None
  end.

Definition dec_tokens : decoder TokenUsage := λ cur j,
  _ ← dec_token_usage tt j;
  dec_struct (λ t k v,
    let '(MkUsage input output total cached reasoning) := t in
    if key_is "input_tokens" k then n ← dec_int64 input v; Some (MkUsage n output total cached reasoning)
    else if key_is "cached_input_tokens" k then n ← dec_int64 cached v; Some (MkUsage input output total n reasoning)
    else if key_is "output_tokens" k then n ← dec_int64 output v; Some (MkUsage input n total cached reasoning)
    else if key_is "reasoning_output_tokens" k then n ← dec_int64 reasoning v; Some (MkUsage input output total cached n)
    else if key_is "total_tokens" k then n ← dec_int64 total v; Some (MkUsage input output n cached reasoning)
    else Some t) cur j.

Definition dec_cost : decoder string := λ cur j,
  match j with JNull => Some cur | JNum lit => if float64_ok lit then Some lit else None | _ => None end.

Definition dec_engine_usage : decoder Usage := dec_struct (λ u k v,
  let '(MkEngineUsage tokens provider model input output cost raw) := u in
  if key_is "tokens" k then t ← dec_ptr (MkUsage 0 0 0 0 0) dec_tokens tokens v; Some (MkEngineUsage t provider model input output cost raw)
  else if key_is "provider" k then s ← dec_string provider v; Some (MkEngineUsage tokens s model input output cost raw)
  else if key_is "model" k then s ← dec_string model v; Some (MkEngineUsage tokens provider s input output cost raw)
  else if key_is "input_tokens" k then n ← dec_int32 input v; Some (MkEngineUsage tokens provider model n output cost raw)
  else if key_is "output_tokens" k then n ← dec_int32 output v; Some (MkEngineUsage tokens provider model input n cost raw)
  else if key_is "cost_usd" k then c ← dec_cost cost v; Some (MkEngineUsage tokens provider model input output c raw)
  else if key_is "raw" k then m ← dec_map_any raw v; Some (MkEngineUsage tokens provider model input output cost m)
  else Some u).

(** [proto.DonePayload]. *)
Record EngineDone := MkEngineDone {
  dn_content : string; dn_transcript : string; dn_usage : Usage; dn_metadata : option (list (string * json)) }.

Definition zero_done : EngineDone := MkEngineDone "" "" zero_usage None.

Definition dec_engine_done : decoder EngineDone := dec_struct (λ d k v,
  let '(MkEngineDone content transcript usage metadata) := d in
  if key_is "content" k then s ← dec_string content v; Some (MkEngineDone s transcript usage metadata)
  else if key_is "transcript" k then s ← dec_string transcript v; Some (MkEngineDone content s usage metadata)
  else if key_is "usage" k then u ← dec_engine_usage usage v; Some (MkEngineDone content transcript u metadata)
  else if key_is "metadata" k then m ← dec_map_any metadata v; Some (MkEngineDone content transcript usage m)
  else Some d).

Record Result := MkResult { rs_done : EngineDone; rs_code : string; rs_error : string; rs_applied : Z }.

Definition with_done (r : Result) (d : EngineDone) : Result := MkResult d (rs_code r) (rs_error r) (rs_applied r).
Definition with_code (r : Result) (code : string) : Result := MkResult (rs_done r) code (rs_error r) (rs_applied r).
Definition with_applied (r : Result) (n : Z) : Result := MkResult (rs_done r) (rs_code r) (rs_error r) n.

Definition set_usage (d : EngineDone) (u : Usage) : EngineDone := MkEngineDone (dn_content d) (dn_transcript d) u (dn_metadata d).
Definition set_model (u : Usage) (model : string) : Usage :=
  MkEngineUsage (us_tokens u) (us_provider u) model (us_input u) (us_output u) (us_cost u) (us_raw u).

(** A later [done] replaces an earlier one, less what it leaves out. *)
Definition mergeDone (raw : raw_message) (r : Result) : option Result :=
  j ← raw_value raw;
  done ← dec_engine_done zero_done j;
  fields ← as_map (Some j);
  let old := rs_done r in
  let done := match obj_get "usage" fields with Some _ => done | None => set_usage done (dn_usage old) end in
  let done := if us_model (dn_usage done) =?s "" then set_usage done (set_model (dn_usage done) (us_model (dn_usage old))) else done in
  Some (with_done r (MkEngineDone
    (if dn_content done =?s "" then dn_content old else dn_content done) (dn_transcript done) (dn_usage done)
    (match dn_metadata done with None => dn_metadata old | m => m end))).

(** [env.DecodePayload]: an empty payload leaves the value as it is. *)
Definition decode_payload {A} (d : decoder A) (a : A) (env : Envelope) : option A :=
  if raw_len (env_payload env) =? 0 then Some a else raw_value (env_payload env) ≫= d a.

(** Whether the observation was valid, and the result after it. *)
Definition mergeObservation (env : Envelope) (r : Result) : bool * Result :=
  if env_type env =?s "usage" then
    if raw_len (env_payload env) =? 0 then (true, r) else
    match raw_value (env_payload env) with
    | None => (false, r)
    | Some j =>
        match dec_engine_usage (dn_usage (rs_done r)) j with
        | Some u => (true, with_done r (set_usage (rs_done r) u))
        | None => (false, with_done r (set_usage (rs_done r) (usage_left (dn_usage (rs_done r)) j)))
        end
    end
  else if env_type env =?s "done" then
    match mergeDone (env_payload env) r with Some r => (true, r) | None => (false, r) end
  else (true, r).

(** *** Encoding *)

Definition opt_member (k : string) (zero : bool) (v : json) : list (string * json) := if zero then [] else [(k, v)].
Definition num (z : Z) : json := JNum (pretty z).
Definition empty_map (m : option (list (string * json))) : bool := match default [] m with [] => true | _ => false end.

Definition enc_tokens (t : TokenUsage) : json := JObj
  [("input_tokens", num (tu_input t)); ("cached_input_tokens", num (tu_cached t)); ("output_tokens", num (tu_output t));
   ("reasoning_output_tokens", num (tu_reasoning t)); ("total_tokens", num (tu_total t))].

Definition enc_usage (u : Usage) : json := JObj (
  (match us_tokens u with Some t => [("tokens", enc_tokens t)] | None => [] end)
  ++ opt_member "provider" (us_provider u =?s "") (JStr (us_provider u))
  ++ opt_member "model" (us_model u =?s "") (JStr (us_model u))
  ++ opt_member "input_tokens" (us_input u =? 0) (num (us_input u))
  ++ opt_member "output_tokens" (us_output u =? 0) (num (us_output u))
  ++ opt_member "cost_usd" ((us_cost u =?s "") || (float_text (us_cost u) =?s "0")) (JNum (float_text (us_cost u)))
  ++ opt_member "raw" (empty_map (us_raw u)) (JObj (default [] (us_raw u)))).

Definition enc_done (d : EngineDone) : json := JObj (
  [("content", JStr (dn_content d))]
  ++ opt_member "transcript" (dn_transcript d =?s "") (JStr (dn_transcript d))
  ++ opt_member "usage" (bool_decide (enc_usage (dn_usage d) = JObj []) && bool_decide (us_raw (dn_usage d) = None)) (enc_usage (dn_usage d))
  ++ opt_member "metadata" (empty_map (dn_metadata d)) (JObj (default [] (dn_metadata d)))).

Definition enc_result (r : Result) : json := JObj (
  [("done", enc_done (rs_done r))]
  ++ opt_member "error_code" (rs_code r =?s "") (JStr (rs_code r))
  ++ opt_member "error" (rs_error r =?s "") (JStr (rs_error r))
  ++ [("applied_through", num (rs_applied r))]).

(** [proto.InteractionDecisionAckPayload]. *)
Record InteractionAck := MkAck {
  ak_delivery : string; ak_applied : bool; ak_code : string; ak_error : string; ak_outcome : option EngineDone }.

Definition enc_ack (a : InteractionAck) : json := JObj (
  [("delivery_id", JStr (ak_delivery a)); ("applied", JBool (ak_applied a))]
  ++ opt_member "error_code" (ak_code a =?s "") (JStr (ak_code a))
  ++ opt_member "error" (ak_error a =?s "") (JStr (ak_error a))
  ++ match ak_outcome a with Some d => [("outcome", enc_done d)] | None => [] end).

(** A reply of the device: an acknowledgement, or the error of waiting for it. *)
Definition reply := result InteractionAck.

(** ** The state of a delivery *)

Record pendingInput := MkPending {
  pi_sequence : Z; pi_text : string; pi_started : Z; pi_waiting : bool; pi_written : bool }.

(** [preparedStart], without its subscription. *)
Record preparedStart := MkPrepared { pp_request : string; pp_handle : string }.

(** The variables of [deliver].  A waiting cancellation is the time it was sent,
    a waiting function result its call; [dl_prepared] is there while the
    preparation is observed. *)
Record delivery := MkDelivery {
  dl_journal : journal; dl_result : Result; dl_pending : option pendingInput; dl_cancel : option Z;
  dl_function : option string; dl_done : bool; dl_prepared : option preparedStart }.

Definition set_journal (d : delivery) (j : journal) : delivery :=
  MkDelivery j (dl_result d) (dl_pending d) (dl_cancel d) (dl_function d) (dl_done d) (dl_prepared d).
Definition set_result (d : delivery) (r : Result) : delivery :=
  MkDelivery (dl_journal d) r (dl_pending d) (dl_cancel d) (dl_function d) (dl_done d) (dl_prepared d).
Definition set_pending (d : delivery) (p : option pendingInput) : delivery :=
  MkDelivery (dl_journal d) (dl_result d) p (dl_cancel d) (dl_function d) (dl_done d) (dl_prepared d).
Definition set_cancel (d : delivery) (at_ : Z) : delivery :=
  MkDelivery (dl_journal d) (dl_result d) (dl_pending d) (Some at_) (dl_function d) (dl_done d) (dl_prepared d).
Definition set_function (d : delivery) (call : option string) : delivery :=
  MkDelivery (dl_journal d) (dl_result d) (dl_pending d) (dl_cancel d) call (dl_done d) (dl_prepared d).
Definition set_ended (d : delivery) : delivery :=
  MkDelivery (dl_journal d) (dl_result d) (dl_pending d) (dl_cancel d) (dl_function d) true (dl_prepared d).
Definition set_prepared (d : delivery) (p : option preparedStart) : delivery :=
  MkDelivery (dl_journal d) (dl_result d) (dl_pending d) (dl_cancel d) (dl_function d) (dl_done d) p.
Definition set_code (d : delivery) (code : string) : delivery := set_result d (with_code (dl_result d) code).

(** A frame sent to the device. *)
Inductive sent :=
  | SPrompt
  | SStart (handle : string)
  | SSteer (input text : string)
  | SFunctionResult (delivery call : string) (success : bool) (content : list FunctionResultContent)
  | SCancel
  | SAbort.

(** The loop goes on ([None]) or returns a status. *)
Definition verdict : Type := delivery * option string.

Definition on (d : delivery) : verdict := (d, None).
Definition failing (d : delivery) (code : string) : verdict := (set_code d code, Some "failed").

(** One delivery: the Turn, and the names of the functions it may call. *)
Context (leased : bool) (tenantID sessionID turnID : string) (tools : list string).
Abbreviation writer := (StoreWriter leased tenantID sessionID turnID).

(** ** Preparation *)

(** [proto.PreparationStatusPayload]: handle, revision, state, Run, error code. *)
Record PreparationStatus := MkPreparation { ps_handle : string; ps_revision : Z; ps_state : string; ps_run : string; ps_code : string }.

Definition dec_preparation : decoder PreparationStatus := dec_struct (λ p k v,
  let '(MkPreparation handle revision state run code) := p in
  if key_is "handle" k then s ← dec_string handle v; Some (MkPreparation s revision state run code)
  else if key_is "revision" k then n ← dec_uint64 revision v; Some (MkPreparation handle n state run code)
  else if key_is "state" k then s ← dec_string state v; Some (MkPreparation handle revision s run code)
  else if key_is "expires_at" k then _ ← dec_int64 0 v; Some p
  else if key_is "run_id" k then s ← dec_string run v; Some (MkPreparation handle revision state s code)
  else if key_is "error_code" k then s ← dec_string code v; Some (MkPreparation handle revision state run s)
  else if key_is "operation" k then _ ← dec_string "" v; Some p
  else Some p).

(** The status, and the handle learned from it. *)
Definition controlStatus (p : preparedStart) (env : Envelope) : option (PreparationStatus * preparedStart) :=
  if negb (env_type env =?s "preparation_status") || negb (env_id env =?s pp_request p) then None else
  status ← decode_payload dec_preparation (MkPreparation "" 0 "" "" "") env;
  if ps_state status =?s "rejected" then Some (status, p)
  else if (ps_handle status =?s "") || (ps_revision status =? 0)
          || (negb (pp_handle p =?s "") && negb (pp_handle p =?s ps_handle status)) then None
  else Some (status, MkPrepared (pp_request p) (ps_handle status)).

Definition observation (p : preparedStart) (env : Envelope) : option (PreparationStatus * preparedStart) :=
  s ← controlStatus p env;
  if existsb (λ state, ps_state s.1 =?s state) ["preparing"; "ready"; "starting"; "started"] then Some s else None.

(** Whether native execution has started. *)
Definition started (p : preparedStart) (env : Envelope) : option (bool * preparedStart) :=
  s ← observation p env;
  if negb (ps_run s.1 =?s turnID) || (negb (ps_state s.1 =?s "starting") && negb (ps_state s.1 =?s "started")) then None
  else Some (ps_state s.1 =?s "started", s.2).

(** ** Functions *)

(** [proto.FunctionCallPayload]. *)
Record FunctionCallPayload := MkCallPayload { cp_call : string; cp_name : string; cp_args : option json }.

Definition dec_call_payload : decoder FunctionCallPayload := dec_struct (λ c k v,
  if key_is "call_id" k then s ← dec_string (cp_call c) v; Some (MkCallPayload s (cp_name c) (cp_args c))
  else if key_is "name" k then s ← dec_string (cp_name c) v; Some (MkCallPayload (cp_call c) s (cp_args c))
  else if key_is "arguments" k then a ← dec_raw (cp_args c) v; Some (MkCallPayload (cp_call c) (cp_name c) a)
  else Some c).

Definition raw_member (len : Z) (j : option json) : raw_message :=
  match j with Some j => RawMessage len [j] AtEOF | None => RawMessage 0 [] AtEOF end.

(** A conflict is no error once the Turn is being cancelled. *)
Definition unlessCancelling (r : result unit) (rm : remote) : result unit * remote :=
  match r with
  | Ok _ => (r, rm)
  | Err e =>
      if negb (bool_decide (e = ErrTurnConflict)) then (r, rm) else
      match over (GetTurn tenantID sessionID turnID) rm with
      | (Ok turn, rm) => (if bool_decide (is_Some (tn_cancel turn)) then Ok tt else r, rm)
      | (Err _, rm) => (r, rm)
      end
  end.

Definition record (env : Envelope) (rm : remote) : result unit * remote :=
  if negb (env_id env =?s turnID) then (Err (ErrOther "invalid function callback"), rm) else
  match decode_payload dec_call_payload (MkCallPayload "" "" None) env with
  | None => (Err (ErrOther "invalid function callback"), rm)
  | Some call =>
      if negb (existsb (λ tool, tool =?s cp_name call) tools) then (Err (ErrOther "undeclared function callback"), rm) else
      let '(r, rm) := over (RecordFunctionCall tenantID sessionID turnID
        (MkFunctionCall (Identity turnID ("tool:" +:+ cp_call call)) (cp_call call) (cp_name call)
           (raw_member (args_len env) (cp_args call)) None false)) rm in
      unlessCancelling r rm
  end.

(** The members of a submitted result: success, output, error. *)
Record ResultBody := MkResultBody { rb_success : option bool; rb_output : option json; rb_error : option string }.

Definition dec_result_body : decoder ResultBody := dec_struct (λ b k v,
  if key_is "success" k then s ← dec_ptr false dec_bool (rb_success b) v; Some (MkResultBody s (rb_output b) (rb_error b))
  else if key_is "output" k then o ← dec_raw (rb_output b) v; Some (MkResultBody (rb_success b) o (rb_error b))
  else if key_is "error" k then s ← dec_ptr "" dec_string (rb_error b) v; Some (MkResultBody (rb_success b) (rb_output b) s)
  else Some b).

Definition text_part (text : string) : FunctionResultContent := MkResultContent "input_text" (Some text) None.

Definition functionResult (call : FunctionCall) : option sent :=
  j ← call_result call;
  value ← dec_result_body (MkResultBody None None None) j;
  success ← rb_success value;
  content ← match rb_output value with
            | None | Some JNull => Some []
            | Some (JStr text) => Some [text_part text]
            | Some output => c ← dec_slice (MkResultContent "" None None) dec_result_content (Some []) output; Some (default [] c)
            end;
  let content := match rb_error value with Some text => content ++ [text_part text] | None => content end in
  if ValidateContent (Some content)
  then Some (SFunctionResult ("function:" +:+ call_id call) (call_executor call) success content) else None.

(** [functionExchange.start]: the first call that has a result. *)
Definition function_start (d : delivery) (rm : remote) : option (delivery * list sent) * remote :=
  if bool_decide (is_Some (dl_function d)) || bool_decide (tools = []) then (Some (d, []), rm) else
  match over (PendingFunctionCalls tenantID sessionID turnID) rm with
  | (Err _, rm) => (None, rm)
  | (Ok calls, rm) =>
      match head (List.filter (λ call, bool_decide (is_Some (call_result call))) calls) with
      | None => (Some (d, []), rm)
      | Some call =>
          match functionResult call with
          | None => (None, rm)
          | Some frame => (Some (set_function d (Some (call_id call)), [frame]), rm)
          end
      end
  end.

(** [functionExchange.confirm] for the call that waits. *)
Definition confirm (call : string) (r : reply) (rm : remote) : result unit * remote :=
  match r with
  | Err e => (Err e, rm)
  | Ok ack =>
      if negb (ak_applied ack) then (Err (ErrOther "function result not applied"), rm) else
      let '(r, rm) := over (ConfirmFunctionResult tenantID sessionID turnID call) rm in
      unlessCancelling r rm
  end.

(** [functionExchange.complete]. *)
Definition functions_complete (rm : remote) : bool * remote :=
  if bool_decide (tools = []) then (true, rm) else
  match over (PendingFunctionCalls tenantID sessionID turnID) rm with
  | (Ok [], rm) =>
      match over (GetTurn tenantID sessionID turnID) rm with
      | (Ok turn, rm) => (negb (tn_status turn =?s "waiting"), rm)
      | (Err _, rm) => (false, rm)
      end
  | (_, rm) => (false, rm)
  end.

(** ** Cancellation *)

Definition receipt_frame (ack : InteractionAck) : Envelope := MkEnvelope "cancel_receipt" turnID (raw_of (enc_ack ack)).

(** Whether the receipt was recorded, and the frames given to the journal. *)
Definition recordCancellation (r : reply) (d : delivery) (rm : remote) : bool * delivery * remote * list Envelope :=
  match r with
  | Err _ => (true, d, rm, [])
  | Ok ack =>
      let merged := match ak_outcome ack with
                    | Some outcome => if ak_applied ack then mergeDone (raw_of (enc_done outcome)) (dl_result d) else Some (dl_result d)
                    | None => Some (dl_result d)
                    end in
      match merged with
      | None => (false, d, rm, [])
      | Some result =>
          let '(wr, j, rm) := observe (H := writer) (receipt_frame ack) (dl_journal d) rm in
          (is_ok wr, set_result (set_journal d j) result, rm, [receipt_frame ack])
      end
  end.

(** [journal.drain]: the frames still queued, 256 of them at most. *)
Fixpoint drain (frames : list Envelope) (d : delivery) : bool * delivery :=
  match frames with
  | [] => (true, d)
  | env :: frames' =>
      let '(queued, j) := enqueue env (dl_journal d) in
      let '(valid, r) := mergeObservation env (dl_result d) in
      let '(rest, d) := drain frames' (set_result (set_journal d j) r) in
      (is_ok queued && valid && rest, d)
  end.

(** ** Frames of the device *)

(** [proto.PromptSteerAckPayload]. *)
Record SteerAck := MkSteerAck { sa_input : string; sa_accepted : bool; sa_written : bool; sa_code : string; sa_error : string }.

Definition dec_steer_ack : decoder SteerAck := dec_struct (λ a k v,
  let '(MkSteerAck input accepted written code err) := a in
  if key_is "input_id" k then s ← dec_string input v; Some (MkSteerAck s accepted written code err)
  else if key_is "accepted" k then b ← dec_bool accepted v; Some (MkSteerAck input b written code err)
  else if key_is "written" k then b ← dec_bool written v; Some (MkSteerAck input accepted b code err)
  else if key_is "error_code" k then s ← dec_string code v; Some (MkSteerAck input accepted written s err)
  else if key_is "error" k then s ← dec_string err v; Some (MkSteerAck input accepted written code s)
  else Some a).

Definition steer_ack (env : Envelope) : option SteerAck := decode_payload dec_steer_ack (MkSteerAck "" false false "" "") env.

Definition refused (ack : SteerAck) : bool := (sa_code ack =?s "not_ready") || (sa_code ack =?s "busy").

Definition on_steer_ack (env : Envelope) (d : delivery) : verdict :=
  match steer_ack env with
  | None => failing d "invalid_executor_result"
  | Some ack =>
      match dl_pending d with
      | None => on d
      | Some p =>
          if negb (sa_input ack =?s pretty (pi_sequence p)) then on d
          else if sa_accepted ack then on (set_pending (set_result d (with_applied (dl_result d) (pi_sequence p))) None)
          else if sa_written ack && (sa_code ack =?s "")
          then on (set_pending d (Some (MkPending (pi_sequence p) (pi_text p) (pi_started p) true true)))
          else if refused ack && negb (pi_written p)
          then on (set_pending d (Some (MkPending (pi_sequence p) (pi_text p) (pi_started p) false (pi_written p))))
          else if sa_code ack =?s "in_flight" then on d
          else if bool_decide (is_Some (dl_cancel d)) then on d
          else (set_result d (MkResult (rs_done (dl_result d)) ("input_" +:+ sa_code ack) (sa_error ack) (rs_applied (dl_result d))),
                Some "failed")
      end
  end.

(** The switch on the type of a frame that was recorded. *)
Definition on_frame (env : Envelope) (d : delivery) (rm : remote) : verdict * remote :=
  let kind := env_type env in
  if kind =?s "error" then
    match decode_payload (dec_one "error") "" env with
    | None => (failing d "invalid_executor_result", rm)
    | Some message =>
        (on (set_result d (MkResult (rs_done (dl_result d)) "engine_failed" message (rs_applied (dl_result d)))), rm)
    end
  else if kind =?s "done" then (on (set_ended d), rm)
  else if kind =?s "function_call" then
    let '(flushed, j, rm) := flush (H := writer) (dl_journal d) rm in
    let d := set_journal d j in
    if negb (is_ok flushed) then (failing d "event_persistence_failed", rm) else
    let '(r, rm) := record env rm in
    (if is_ok r then on d else failing d "function_call_invalid", rm)
  else if kind =?s "prompt_steer_ack" then (on_steer_ack env d, rm)
  else if (kind =?s "permission_request") || (kind =?s "prompt_for_user_choice") || (kind =?s "authoring_request")
  then (failing d "interaction_not_supported", rm)
  else (on d, rm).

Definition on_upstream (env : Envelope) (d : delivery) (rm : remote) : verdict * remote :=
  let '(written, j, rm) := observe (H := writer) env (dl_journal d) rm in
  let '(valid, r) := mergeObservation env (dl_result d) in
  let d := set_result (set_journal d j) r in
  if negb valid then (failing d "invalid_executor_result", rm)
  else if negb (is_ok written) then (failing d "event_persistence_failed", rm)
  else on_frame env d rm.

(** ** The ticker *)

(** The next input to steer, when none is pending ([now] is read once). *)
Definition next_pending (now : Z) (d : delivery) (rm : remote) : verdict * remote :=
  match over (ListTurnInputs tenantID sessionID turnID (rs_applied (dl_result d)) 1) rm with
  | (Err _, rm) => (failing d "execution_state_unavailable", rm)
  | (Ok [], rm) => (on d, rm)
  | (Ok (input :: _), rm) =>
      if ti_kind input =?s "tool_result" then (on (set_result d (with_applied (dl_result d) (ti_sequence input))), rm)
      else if ti_kind input =?s "cancel" then (on d, rm)
      else match messageText (ti_payload input) with
           | Ok text =>
               if ti_kind input =?s "message"
               then (on (set_pending d (Some (MkPending (ti_sequence input) text now false false))), rm)
               else (failing d "invalid_input", rm)
           | Err _ => (failing d "invalid_input", rm)
           end
  end.

(** Sending the pending input, unless it was sent and not refused. *)
Definition steer (now : Z) (sendable : bool) (d : delivery) : verdict * list sent :=
  match dl_pending d with
  | None => (on d, [])
  | Some p =>
      if negb (pi_written p) && (30000000 <? now - pi_started p) then (failing d "input_outcome_unknown", [])
      else if pi_waiting p || pi_written p then (on d, [])
      else if negb sendable then (failing d "input_outcome_unknown", [SSteer (pretty (pi_sequence p)) (pi_text p)])
      else (on (set_pending d (Some (MkPending (pi_sequence p) (pi_text p) (pi_started p) true (pi_written p)))),
            [SSteer (pretty (pi_sequence p)) (pi_text p)])
  end.

(** The clock is read at [now] and again at [later]; a send may fail. *)
Definition on_tick (now later : Z) (sendable : bool) (d : delivery) (rm : remote) : verdict * remote * list sent :=
  match dl_cancel d with
  | Some at_ => (if 15000000 <? now - at_ then failing d "cancel_unconfirmed" else on d, rm, [])
  | None =>
      match over (GetTurn tenantID sessionID turnID) rm with
      | (Err _, rm) => (failing d "execution_state_unavailable", rm, [])
      | (Ok turn, rm) =>
          if negb (tn_status turn =?s "in_progress") && negb (tn_status turn =?s "waiting")
          then (failing d "execution_state_changed", rm, [])
          else if bool_decide (is_Some (tn_cancel turn)) then (on (set_cancel d now), rm, [SCancel])
          else match function_start d rm with
               | (None, rm) => (failing d "function_result_invalid", rm, [])
               | (Some (d, out), rm) =>
                   if dl_done d then (on d, rm, out) else
                   let '(v, rm) := if bool_decide (is_Some (dl_pending d)) then (on d, rm) else next_pending now d rm in
                   match v with
                   | (d, Some status) => ((d, Some status), rm, out)
                   | (d, None) => let '(v, out') := steer later sendable d in (v, rm, out ++ out')
                   end
               end
      end
  end.

(** ** The loop *)

(** What a [select] of the loop receives: a frame of the preparation or of the
    device ([None] when the channel is closed), a reply, a tick.  With the reply
    to a cancellation come the frames that are still queued. *)
Inductive arrival :=
  | APreparation (frame : option Envelope)
  | AFunctionReply (r : reply)
  | AFlush
  | ACancelReply (r : reply) (queued : list Envelope)
  | AInterrupted
  | AUpstream (frame : option Envelope)
  | ATick (now later : Z) (sendable : bool).

(** A channel that is nil never delivers; [done] sets [upstream] to nil. *)
Definition enabled (a : arrival) (d : delivery) : bool :=
  match a with
  | APreparation _ => bool_decide (is_Some (dl_prepared d))
  | AFunctionReply _ => bool_decide (is_Some (dl_function d))
  | ACancelReply _ queued =>
      bool_decide (is_Some (dl_cancel d)) && (length queued <=? 256)%nat && (negb (dl_done d) || bool_decide (queued = []))
  | AUpstream _ => negb (dl_done d)
  | AFlush | AInterrupted | ATick _ _ _ => true
  end.

Definition on_preparation (frame : option Envelope) (d : delivery) : verdict :=
  let cancelling := bool_decide (is_Some (dl_cancel d)) in
  match frame with
  | None => if cancelling then on (set_prepared d None) else failing d "preparation_interrupted"
  | Some env =>
      match (dl_prepared d ≫= (λ p, started p env) : option (bool * preparedStart)) with
      | None => if cancelling then on (set_prepared d None) else failing d "preparation_start_failed"
      | Some (is_started, p) => on (set_prepared d (if is_started then None else Some p))
      end
  end.

Definition on_function_reply (r : reply) (d : delivery) (rm : remote) : verdict * remote :=
  let '(confirmed, rm) := confirm (default "" (dl_function d)) r rm in
  let d := set_function d None in
  (if negb (is_ok confirmed) && negb (bool_decide (is_Some (dl_cancel d)))
   then failing d "function_result_unconfirmed" else on d, rm).

Definition on_cancel_reply (r : reply) (queued : list Envelope) (d : delivery) (rm : remote)
  : verdict * remote * list Envelope :=
  let '(drained, d) := drain queued d in
  let '(recorded, d, rm, frames) := recordCancellation r d rm in
  (if negb drained || negb recorded then failing d "event_persistence_failed"
   else match r with
        | Ok ack =>
            if negb (ak_applied ack) then failing d "cancel_unconfirmed"
            else if bool_decide (ak_outcome ack = None) then failing d "cancel_outcome_unavailable"
            else (d, Some "cancelled")
        | Err _ => failing d "cancel_unconfirmed"
        end, rm, queued ++ frames).

(** One case of the [select]: the verdict, the store, the frames given to the
    journal and the frames sent. *)
Definition handle (a : arrival) (d : delivery) (rm : remote) : verdict * remote * list Envelope * list sent :=
  match a with
  | APreparation frame => (on_preparation frame d, rm, [], [])
  | AFunctionReply r => let '(v, rm) := on_function_reply r d rm in (v, rm, [], [])
  | AFlush =>
      let '(flushed, j, rm) := flush (H := writer) (dl_journal d) rm in
      (if is_ok flushed then on (set_journal d j) else failing (set_journal d j) "event_persistence_failed", rm, [], [])
  | ACancelReply r queued => let '(v, rm, frames) := on_cancel_reply r queued d rm in (v, rm, frames, [])
  | AInterrupted => (failing d "execution_interrupted", rm, [], [])
  | AUpstream None => (failing d "device_disconnected", rm, [], [])
  | AUpstream (Some env) => let '(v, rm) := on_upstream env d rm in (v, rm, [env], [])
  | ATick now later sendable => let '(v, rm, out) := on_tick now later sendable d rm in (v, rm, [], out)
  end.

(** The test at the head of the loop. *)
Definition ended (d : delivery) : bool :=
  dl_done d && bool_decide (dl_function d = None) && bool_decide (dl_prepared d = None).

(** The end of [finishDelivery], once no cancellation is left to wait for. *)
Definition conclude (d : delivery) (rm : remote) (frames : list Envelope) : delivery * string * remote * list Envelope :=
  if negb (rs_code (dl_result d) =?s "") then (d, "failed", rm, frames)
  else if bool_decide (is_Some (dl_pending d)) then (set_code d "input_outcome_unknown", "failed", rm, frames)
  else let '(complete, rm) := functions_complete rm in
       if complete then (d, "completed", rm, frames) else (set_code d "function_result_unconfirmed", "failed", rm, frames).

(** [finish.go]; a cancellation that waits gets its reply, or the context ends. *)
Definition finishDelivery (r : option reply) (d : delivery) (rm : remote) : delivery * string * remote * list Envelope :=
  if bool_decide (dl_cancel d = None) then conclude d rm [] else
  match r with
  | None => (set_code d "cancel_unconfirmed", "failed", rm, [])
  | Some r =>
      let '(recorded, d, rm, frames) := recordCancellation r d rm in
      if negb recorded then (set_code d "event_persistence_failed", "failed", rm, frames) else
      match r with
      | Err _ => (set_code d "cancel_unconfirmed", "failed", rm, frames)
      | Ok ack =>
          if ak_applied ack then (d, "cancelled", rm, frames)
          else if negb (ak_code ack =?s "run_inactive") then (set_code d "cancel_unconfirmed", "failed", rm, frames)
          else conclude d rm frames
      end
  end.

(** The deferred function: queued frames are drained, the journal is flushed, and
    a stream that lost frames fails the delivery. *)
Definition close_journal (queued : list Envelope) (incomplete : bool) (d : delivery) (status : string) (rm : remote)
  : delivery * string * remote :=
  let '(drained, d) := drain queued d in
  let '(d, status) := if drained then (d, status) else (set_code d "event_persistence_failed", "failed") in
  let '(flushed, j, rm) := flush (H := writer) (dl_journal d) rm in
  let d := set_journal d j in
  let '(d, status) := if is_ok flushed then (d, status) else (set_code d "event_persistence_failed", "failed") in
  let '(d, status) := if incomplete then (set_code d "event_stream_incomplete", "failed") else (d, status) in
  (d, status, rm).

(** [deliver] is in its loop, has left it, or has returned. *)
Inductive phase := Looping | Returning (status : string) | Returned (status : string).

Record dstate := MkDState {
  ds_delivery : delivery; ds_remote : remote; ds_seen : list Envelope; ds_sent : list sent; ds_phase : phase }.

(** The start of [deliver]: the subscription, and the first frame. *)
Definition deliver_start (subscribed sendable : bool) (prepared : option preparedStart) (first : Z) (sub : bool)
    (rm : remote) : dstate :=
  let d := MkDelivery (new_journal sub) (MkResult zero_done "" "" first) None None None false prepared in
  if negb subscribed then MkDState (set_code d "device_disconnected") rm [] [] (Returned "failed") else
  let out := [match prepared with Some p => SStart (pp_handle p) | None => SPrompt end] in
  if negb sendable then MkDState (set_code d "delivery_unknown") rm [] out (Returning "failed")
  else MkDState d rm [] out Looping.

Definition phase_of (v : option string) : phase := match v with None => Looping | Some status => Returning status end.

(** The log of the Turn belongs to the delivery: other clients use the store, but
    they do not append to it (they do not hold the execution lease). *)
Context (session turn : N).

Inductive dstep : relation dstate :=
  | d_select a d rm seen out d' v rm' frames out' :
      ended d = false → enabled a d = true → handle a d rm = ((d', v), rm', frames, out') →
      dstep (MkDState d rm seen out Looping) (MkDState d' rm' (seen ++ frames) (out ++ out') (phase_of v))
  | d_finish r d rm seen out d' status rm' frames :
      ended d = true → finishDelivery r d rm = (d', status, rm', frames) →
      dstep (MkDState d rm seen out Looping) (MkDState d' rm' (seen ++ frames) out (Returning status))
  | d_close queued incomplete d rm seen out status d' status' rm' :
      (length queued ≤ 256)%nat → (dl_done d = true → queued = []) →
      close_journal queued incomplete d status rm = (d', status', rm') →
      dstep (MkDState d rm seen out (Returning status))
        (MkDState d' rm' (seen ++ queued) (if status' =?s "failed" then out ++ [SAbort] else out) (Returned status'))
  | d_other d rm seen out ph rm' :
      steps (rm_world rm) (rm_world rm') → turn_log session turn rm' = turn_log session turn rm →
      dstep (MkDState d rm seen out ph) (MkDState d rm' seen out ph).

(** ** The end of a Run *)

Definition native_session (d : EngineDone) : string :=
  match obj_get "agent_session_id" (default [] (dn_metadata d)) with Some (JStr s) => s | _ => "" end.

Definition finishRun (model : string) (res : Result) (status : string) (rm : remote) : result Turn * remote :=
  let done := rs_done res in
  let res := if us_model (dn_usage done) =?s "" then with_done res (set_usage done (set_model (dn_usage done) model)) else res in
  let nativeID := native_session (rs_done res) in
  let invalid := (512 * 1024 <? json_len (enc_result res)) || (512 <? str_len nativeID) in
  let '(res, status, nativeID) :=
    if invalid then (MkResult zero_done "invalid_executor_result" "" (rs_applied res), "failed", "")
    else (res, status, nativeID) in
  match over (CompleteExecution tenantID sessionID turnID status (raw_of (enc_result res)) nativeID (rs_applied res)) rm with
  | (Err e, rm) =>
      if bool_decide (e = ErrUnappliedInputs) then
        over (CompleteExecution tenantID sessionID turnID "failed"
                (raw_of (enc_result (with_code res "input_not_applied"))) nativeID (rs_applied res)) rm
      else (Err e, rm)
  | r => r
  end.

End delivery.
