(* ===== verification/DeliveryFacts.v ===== *)
(** * DeliveryFacts

    What a delivery guarantees: every handler of its loop is a run of the journal
    and of the store ([moved]), so everything it received is logged; and the
    status it returns says what happened ([outcome]). *)
From stdpp Require Import base tactics list strings numbers relations pretty.
From S2P Require Import Prelude GoJson Contract Items Database Queries EnvQueries SessionLog Turns Environments Reads Configuration.
From S2P Require Import Relations Scenario Frames Lifecycle Calls EventLog TurnLog Inputs Outcomes Journal Delivery.

(** ** The store under a delivery *)

Definition same_events (d d' : db) : Prop := turn_events d' = turn_events d.

#[export] Instance same_events_preorder : PreOrder same_events.
Proof. split; [done|]. intros d1 d2 d3 E1 E2. unfold same_events in *. congruence. Qed.

Section store.
Context `{UUIDs, Oracle, EventSizes}.

Ltac events_untouched := moves_tac; apply (moves_exec _); intros w; (split; [done|cbn; lia]).

#[export] Instance same_events_turn : TurnRelation (on_db same_events).
Proof.
  split; [split; [apply _|..]|..]; intros;
    unfold AppendSessionEvent, PutSessionItem, FinishSessionItems, PutTurnUsage, PutSubagentIdentity, PublishTurnArtifacts,
      DeleteUnpublishedTurnArtifacts, PruneSessionEvents, RequestTurnCancel, TransitionTurnQ, CreateFunctionCall,
      storeFunctionResult, MatchFunctionResult, SubmitFunctionResultQ, ApplyFunctionResult, BeginTurnArtifactCaptureQ,
      RememberNativeSession, CancelSessionEnvironmentInput, MarkSessionDeleted, DeleteSessionArtifacts; events_untouched.
Qed.

(** A call that serves a request and leaves the events alone, or only reads. *)
Definition quiet {A} (call : tx A) : Prop :=
  ∀ w, steps w (call w).2 ∧ turn_events (w_db (call w).2) = turn_events (w_db w).

Lemma quiet_served {A} (call : tx A) r :
  ignore call = serve r → moves (on_db same_events) (serve r) → quiet call.
Proof.
  intros E Hm w. assert ((call w).2 = (serve r w).2) as ->.
  { rewrite <- E. unfold ignore, mbind, tx_bind. by destruct (call w) as [[]]. }
  split; [by apply rtc_once, step_serve|]. apply (atomic_moves (on_db same_events) (serve r) w (serve_atomic r) Hm).
Qed.

Lemma quiet_still {A} (call : tx A) : (∀ w, (call w).2 = w) → quiet call.
Proof. intros E w. rewrite E. by split. Qed.

Lemma ignore_unit (call : tx unit) w : (ignore call w).2 = (call w).2.
Proof. unfold ignore, mbind, tx_bind. by destruct (call w) as [[]]. Qed.

Lemma quiet_request (call : tx unit) r : call = serve r → moves (on_db same_events) call → quiet call.
Proof.
  intros -> Hm w. split; [by apply rtc_once, step_serve|].
  apply (atomic_moves (on_db same_events) (serve r) w (serve_atomic r) Hm).
Qed.

Lemma GetTurn_still tenantID sessionID turnID w : (GetTurn tenantID sessionID turnID w).2 = w.
Proof.
  unfold GetTurn, must_turn, get_turn, GetTurnQ, mbind, tx_bind, of_result, query. cbn.
  destruct (turnLookup _ _ _); [|done]. cbn. destruct (tenant_session _ _ _); [|done]. by destruct (head _).
Qed.

Lemma ListTurnInputs_still tenantID sessionID turnID after limit w :
  (ListTurnInputs tenantID sessionID turnID after limit w).2 = w.
Proof.
  pose proof (GetTurn_still tenantID sessionID turnID w) as E. unfold ListTurnInputs, ListTurnInputsQ.
  unfold mbind, tx_bind, of_result, require, query in *.
  destruct (turnLookup _ _ _); [|done]. destruct (_ && _ && _); [|done].
  destruct (GetTurn _ _ _ w) as [[t|e] w1]; cbn in *; by subst.
Qed.

Lemma quiet_GetTurn tenantID sessionID turnID : quiet (GetTurn tenantID sessionID turnID).
Proof. apply quiet_still, GetTurn_still. Qed.
Lemma quiet_ListTurnInputs tenantID sessionID turnID after limit : quiet (ListTurnInputs tenantID sessionID turnID after limit).
Proof. apply quiet_still, ListTurnInputs_still. Qed.
Lemma quiet_PendingFunctionCalls tenantID sessionID turnID : quiet (PendingFunctionCalls tenantID sessionID turnID).
Proof.
  apply (quiet_served _ (ReqPendingFunctionCalls tenantID sessionID turnID)); [done|].
  apply (ignore_moves _). by apply (PendingFunctionCalls_moves _).
Qed.
Lemma quiet_RecordFunctionCall tenantID sessionID turnID call : quiet (RecordFunctionCall tenantID sessionID turnID call).
Proof.
  apply (quiet_request _ (ReqRecordFunctionCall tenantID sessionID turnID call)); [done|].
  by apply (RecordFunctionCall_moves _).
Qed.
Lemma quiet_ConfirmFunctionResult tenantID sessionID turnID call : quiet (ConfirmFunctionResult tenantID sessionID turnID call).
Proof.
  apply (quiet_request _ (ReqConfirmFunctionResult tenantID sessionID turnID call)); [done|].
  by apply (ConfirmFunctionResult_moves _).
Qed.
End store.

(** ** Runs of the journal and the store *)

Section delivery.
Context `{UUIDs, Oracle, EventSizes}.
Context (float_text : string → string) (usage_left : Usage → json → Usage) (args_len : Envelope → Z).
Context (leased : bool) (tenantID sessionID turnID : string) (tools : list string) (session turn : N).
Hypothesis Hsession : parseID sessionID = Ok session.
Hypothesis Hturn : parseID turnID = Ok turn.

Abbreviation writer := (StoreWriter leased tenantID sessionID turnID).
Abbreviation log := (turn_log session turn).
Abbreviation handle := (handle float_text usage_left args_len leased tenantID sessionID turnID tools).
Abbreviation finishDelivery := (finishDelivery float_text leased tenantID sessionID turnID tools).
Abbreviation close_journal := (close_journal float_text usage_left leased tenantID sessionID turnID).
Abbreviation dstep := (dstep float_text usage_left args_len leased tenantID sessionID turnID tools session turn).

Lemma over_steps {A} (call : tx A) rm r rm' :
  (∀ w, steps w (call w).2) → over call rm = (r, rm') → steps (rm_world rm) (rm_world rm').
Proof.
  intros Hc [[-> _]|(r1 & E & _)]%over_run; [done|]. specialize (Hc (rm_world rm)). by rewrite E in Hc.
Qed.

Lemma append_steps first events rm r rm' :
  @append_turn_events _ writer first events rm = (r, rm') → steps (rm_world rm) (rm_world rm').
Proof.
  apply over_steps. intros w.
  apply rtc_once, (step_serve w (ReqAppendTurnEvents leased tenantID sessionID turnID first events)).
Qed.

Lemma flush_steps j rm r j' rm' :
  flush (H := writer) j rm = (r, j', rm') → steps (rm_world rm) (rm_world rm').
Proof.
  unfold flush. generalize (length (j_batch j)) as fuel. intros fuel. revert j rm.
  induction fuel as [|fuel IH]; intros j rm Hf; cbn [flush_loop] in Hf.
  { destruct (j_batch j); by simplify_eq. }
  destruct (j_batch j) as [|e0 l0] eqn:E; [by simplify_eq|]. rewrite <- E in Hf. clear E. destruct (next_batch j) as [count size].
  cbn [j_next j_batch j_bytes j_observe_subagents] in Hf.
  destruct (append_turn_events _ _ rm) as [[[]|e] rm1] eqn:Ha.
  - etrans; [by eapply append_steps|by eapply IH].
  - simplify_eq. by eapply append_steps.
Qed.

Lemma good_steps rm rm' : steps (rm_world rm) (rm_world rm') → good_remote rm → good_remote rm'.
Proof. intros Hs. apply (steps_events _ _ Hs). Qed.

Definition jmove : relation (journal * remote * list Envelope) := λ x y,
  jstep (EventWriter0 := writer) (good := good_remote) (wlog := log) x y ∧ steps (rm_world x.1.2) (rm_world y.1.2).

Definition moved (x y : journal * remote * list Envelope) : Prop := good_remote x.1.2 → rtc jmove x y.

Lemma jmoves_steps x y : rtc jmove x y → steps (rm_world x.1.2) (rm_world y.1.2).
Proof. induction 1 as [|x y z [_ Hs] _ IH]; [done|by etrans]. Qed.

#[local] Instance moved_preorder : PreOrder moved.
Proof.
  split; [by intros x _|]. intros x y z Hxy Hyz Hg. etrans; [by apply Hxy|]. apply Hyz.
  eapply good_steps; [apply jmoves_steps; by apply Hxy|done].
Qed.

Lemma moved_enqueue env j rm seen r j' :
  enqueue env j = (r, j') → moved (j, rm, seen) (j', rm, seen ++ [env]).
Proof. intros He _. apply rtc_once. split; [by eapply j_enqueue|done]. Qed.

Lemma moved_flush j rm seen r j' rm' :
  flush (H := writer) j rm = (r, j', rm') → moved (j, rm, seen) (j', rm', seen).
Proof. intros Hf _. apply rtc_once. split; [by eapply j_flush|by eapply flush_steps]. Qed.

Lemma moved_observe env j rm seen r j' rm' :
  observe (H := writer) env j rm = (r, j', rm') → moved (j, rm, seen) (j', rm', seen ++ [env]).
Proof.
  intros Ho. unfold observe in Ho. destruct (enqueue env j) as [[[]|e] j1] eqn:He.
  - etrans; [by eapply moved_enqueue|]. destruct (_ || _); [by eapply moved_flush|by simplify_eq].
  - simplify_eq. by eapply moved_enqueue.
Qed.

Lemma moved_over {A} (call : tx A) j rm seen r rm' :
  quiet call → over call rm = (r, rm') → moved (j, rm, seen) (j, rm', seen).
Proof.
  intros Hq Ho Hg. apply rtc_once.
  assert (steps (rm_world rm) (rm_world rm')) as Hs by (eapply over_steps; [|done]; intros w; apply Hq).
  split; [|done]. apply j_other; [by eapply good_steps|]. unfold turn_log. f_equal.
  apply over_run in Ho as [[-> _]|(r1 & E & _)]; [done|].
  pose proof (proj2 (Hq (rm_world rm))) as Hl. by rewrite E in Hl.
Qed.

#[local] Hint Resolve quiet_GetTurn quiet_ListTurnInputs quiet_PendingFunctionCalls quiet_RecordFunctionCall
  quiet_ConfirmFunctionResult : core.

(** [moved_tac]: the steps of a handler, one call at a time. *)
Ltac moved_step :=
  match goal with
  | Ho : over _ ?rm = (_, _) |- moved (_, ?rm, _) _ => etrans; [eapply moved_over; [|exact Ho]; auto|]; clear Ho
  | Hf : flush _ ?rm = (_, _, _) |- moved (_, ?rm, _) _ => etrans; [eapply moved_flush; exact Hf|]; clear Hf
  end.

Lemma unlessCancelling_moved r rm r' rm' j seen :
  unlessCancelling tenantID sessionID turnID r rm = (r', rm') → moved (j, rm, seen) (j, rm', seen).
Proof.
  unfold unlessCancelling. intros Hr. destruct r as [|e]; [by simplify_eq|].
  destruct (bool_decide (e = _)); cbn in Hr; [|by simplify_eq].
  destruct (over _ rm) as [[t|e1] rm1] eqn:E; simplify_eq; by moved_step.
Qed.

Lemma record_moved env rm r rm' j seen :
  record args_len tenantID sessionID turnID tools env rm = (r, rm') → moved (j, rm, seen) (j, rm', seen).
Proof.
  unfold record. intros Hr. destruct (negb _); [by simplify_eq|]. destruct (decode_payload _ _ env); [|by simplify_eq].
  destruct (negb _); [by simplify_eq|]. destruct (over _ rm) as [r1 rm1] eqn:E. moved_step.
  by eapply unlessCancelling_moved.
Qed.

Lemma confirm_moved call r rm r' rm' j seen :
  confirm tenantID sessionID turnID call r rm = (r', rm') → moved (j, rm, seen) (j, rm', seen).
Proof.
  unfold confirm. intros Hr. destruct r as [ack|e]; [|by simplify_eq]. destruct (negb _); [by simplify_eq|].
  destruct (over _ rm) as [r1 rm1] eqn:E. moved_step. by eapply unlessCancelling_moved.
Qed.

Lemma functions_complete_moved rm b rm' j seen :
  functions_complete tenantID sessionID turnID tools rm = (b, rm') → moved (j, rm, seen) (j, rm', seen).
Proof.
  unfold functions_complete. intros Hr. destruct (bool_decide _); [by simplify_eq|].
  destruct (over _ rm) as [[[|call calls]|e] rm1] eqn:E; [|simplify_eq; by moved_step..].
  moved_step. destruct (over _ rm1) as [[t|e] rm2] eqn:E; simplify_eq; by moved_step.
Qed.

Lemma function_start_moved d rm o rm' j seen :
  function_start tenantID sessionID turnID tools d rm = (o, rm') → moved (j, rm, seen) (j, rm', seen).
Proof.
  unfold function_start. intros Hr. destruct (_ || _); [by simplify_eq|].
  destruct (over _ rm) as [[calls|e] rm1] eqn:E; [|simplify_eq; by moved_step].
  moved_step. repeat case_match; by simplify_eq.
Qed.

Lemma next_pending_moved now d rm v rm' j seen :
  next_pending tenantID sessionID turnID now d rm = (v, rm') → moved (j, rm, seen) (j, rm', seen).
Proof.
  unfold next_pending. intros Hr. destruct (over _ rm) as [[inputs|e] rm1] eqn:E; moved_step;
    repeat case_match; by simplify_eq.
Qed.

Lemma on_tick_moved now later sendable d rm v rm' out j seen :
  on_tick tenantID sessionID turnID tools now later sendable d rm = (v, rm', out) → moved (j, rm, seen) (j, rm', seen).
Proof.
  unfold on_tick. intros Hr. destruct (dl_cancel d); [by simplify_eq|].
  destruct (over _ rm) as [[t|e] rm1] eqn:E; moved_step; [|by simplify_eq].
  destruct (_ && _); [by simplify_eq|]. destruct (bool_decide _); [by simplify_eq|].
  destruct (function_start _ _ _ _ d rm1) as [o rm2] eqn:Ef. etrans; [by eapply function_start_moved|].
  destruct o as [[d1 out1]|]; [|by simplify_eq]. destruct (dl_done d1); [by simplify_eq|].
  destruct (bool_decide (is_Some (dl_pending d1))).
  - cbn in Hr. destruct (steer _ _ _). by simplify_eq.
  - destruct (next_pending _ _ _ _ _ rm2) as [[d2 s2] rm3] eqn:En. etrans; [by eapply next_pending_moved|].
    destruct s2; [by simplify_eq|]. destruct (steer _ _ _). by simplify_eq.
Qed.

Lemma functionResult_frame call frame :
  functionResult call = Some frame → ∃ delivery call ok content, frame = SFunctionResult delivery call ok content.
Proof.
  unfold functionResult. intros (j & _ & Hr)%bind_Some. apply bind_Some in Hr as (value & _ & Hr).
  apply bind_Some in Hr as (ok & _ & Hr). apply bind_Some in Hr as (content & _ & Hr).
  destruct (ValidateContent _); simplify_eq. eauto.
Qed.

(** What starting a function result changes. *)
Lemma function_start_spec d rm d' out rm' :
  function_start tenantID sessionID turnID tools d rm = (Some (d', out), rm') →
  (d' = d ∧ out = [])
  ∨ (∃ call, d' = set_function d (Some call)) ∧ ∃ delivery call ok content, out = [SFunctionResult delivery call ok content].
Proof.
  unfold function_start. intros Hr. destruct (_ || _); [simplify_eq; auto|].
  destruct (over _ rm) as [[calls|e] rm1]; [|done]. destruct (head _) as [call|]; [|simplify_eq; auto].
  destruct (functionResult call) as [frame|] eqn:Ef; simplify_eq. right. split; [eauto|].
  destruct (functionResult_frame _ _ Ef) as (? & ? & ? & ? & ->). eauto.
Qed.

Lemma next_pending_journal now d rm v rm' :
  next_pending tenantID sessionID turnID now d rm = (v, rm') → dl_journal v.1 = dl_journal d.
Proof. unfold next_pending. intros Hr. repeat case_match; by simplify_eq. Qed.

Lemma steer_journal now sendable d v out : steer now sendable d = (v, out) → dl_journal v.1 = dl_journal d.
Proof. unfold steer. intros Hr. repeat case_match; by simplify_eq. Qed.

(** What the ticker does, one stage after the other. *)
Lemma on_tick_run now later sendable d rm v rm' out :
  on_tick tenantID sessionID turnID tools now later sendable d rm = (v, rm', out) →
  (∃ code, v = failing d code ∧ code ≠ "" ∧ out = []) ∨ (v = on d ∧ out = []) ∨ (v = on (set_cancel d now) ∧ out = [SCancel])
  ∨ ∃ d1 out1 rm1 rm2, function_start tenantID sessionID turnID tools d rm1 = (Some (d1, out1), rm2) ∧ dl_cancel d = None
    ∧ ((v = on d1 ∧ out = out1) ∨ (∃ v2, dl_pending d1 = None ∧ next_pending tenantID sessionID turnID now d1 rm2 = (v2, rm')
         ∧ ((v2 = v ∧ out = out1 ∧ is_Some v.2) ∨ ∃ d2 out2, v2 = on d2 ∧ steer later sendable d2 = (v, out2) ∧ out = out1 ++ out2))
       ∨ (is_Some (dl_pending d1) ∧ ∃ out2, steer later sendable d1 = (v, out2) ∧ out = out1 ++ out2)).
Proof.
  unfold on_tick. intros Hr. destruct (dl_cancel d) eqn:Ec.
  { destruct (_ <? _); simplify_eq; [left; eauto|auto]. }
  destruct (over _ rm) as [[t|e] rm1]; [|simplify_eq; left; eauto].
  destruct (_ && _); [simplify_eq; left; eauto|]. destruct (bool_decide _); [simplify_eq; auto|].
  destruct (function_start _ _ _ _ d rm1) as [[[d1 out1]|] rm2] eqn:Ef; [|simplify_eq; left; eauto].
  do 3 right. exists d1, out1, rm1, rm2. split; [done|]. split; [done|].
  destruct (dl_done d1); [simplify_eq; auto|]. destruct (dl_pending d1) as [p|] eqn:Ep; cbn in Hr.
  - destruct (steer _ _ d1) as [v2 out2]. simplify_eq. right. right. eauto.
  - destruct (next_pending _ _ _ _ d1 rm2) as [[d2 [s2|]] rm3]; [simplify_eq; right; left; eauto 8|].
    destruct (steer _ _ d2) as [v2 out2] eqn:Es. simplify_eq. right. left. eexists. split; [done|]. split; [done|]. right. eauto.
Qed.

Lemma on_tick_journal now later sendable d rm v rm' out :
  on_tick tenantID sessionID turnID tools now later sendable d rm = (v, rm', out) → dl_journal v.1 = dl_journal d.
Proof.
  intros [(code & -> & _)|[[-> _]|[[-> _]|(d1 & out1 & rm1 & rm2 & Hf & _ & Hv)]]]%on_tick_run; [done..|].
  assert (dl_journal d1 = dl_journal d) as <- by (by apply function_start_spec in Hf as [[-> _]|[[call ->] _]]).
  destruct Hv as [[-> _]|[(v2 & _ & Hn & Hv)|(_ & out2 & Hs & _)]]; [done| |by eapply steer_journal].
  apply next_pending_journal in Hn as <-. destruct Hv as [[-> _]|(d2 & out2 & -> & Hs & _)]; [done|by apply steer_journal in Hs].
Qed.

(** The handlers that change the journal; [failing] and the other setters keep it. *)
Lemma on_frame_moved env d rm v rm' seen :
  on_frame args_len leased tenantID sessionID turnID tools env d rm = (v, rm') →
  moved (dl_journal d, rm, seen) (dl_journal v.1, rm', seen).
Proof.
  unfold on_frame, on_steer_ack. intros Hr. destruct (env_type env =?s "error"); [case_match; by simplify_eq|].
  destruct (env_type env =?s "done"); [by simplify_eq|]. destruct (env_type env =?s "function_call").
  - destruct (flush _ rm) as [[f j] rm1] eqn:Ef. moved_step. destruct (is_ok f); cbn in Hr; [|by simplify_eq].
    destruct (record _ _ _ _ _ env rm1) as [r rm2] eqn:Er. etrans; [by eapply record_moved|].
    simplify_eq. by destruct (is_ok r).
  - repeat case_match; by simplify_eq.
Qed.

Lemma on_upstream_moved env d rm v rm' seen :
  on_upstream float_text usage_left args_len leased tenantID sessionID turnID tools env d rm = (v, rm') →
  moved (dl_journal d, rm, seen) (dl_journal v.1, rm', seen ++ [env]).
Proof.
  unfold on_upstream. intros Hr. destruct (observe _ _ rm) as [[wr j] rm1] eqn:Eo.
  etrans; [by eapply moved_observe|]. destruct (mergeObservation _ _ _ _) as [valid r].
  destruct valid; cbn in Hr; [|by simplify_eq]. destruct (is_ok wr); cbn in Hr; [|by simplify_eq].
  by apply (on_frame_moved _ _ _ _ _ (seen ++ [env])) in Hr.
Qed.

Lemma drain_moved frames d b d' rm seen :
  drain float_text usage_left frames d = (b, d') → moved (dl_journal d, rm, seen) (dl_journal d', rm, seen ++ frames).
Proof.
  revert d seen b. induction frames as [|env frames IH]; intros d seen b Hd; cbn in Hd.
  { simplify_eq. by rewrite app_nil_r. }
  destruct (enqueue env _) as [q j] eqn:Eq. destruct (mergeObservation _ _ _ _) as [valid r].
  destruct (drain _ _ frames _) as [b1 d1] eqn:E1. simplify_eq. etrans; [by eapply moved_enqueue|].
  change (env :: frames) with ([env] ++ frames). rewrite app_assoc. by apply (IH _ (seen ++ [env])) in E1.
Qed.

Lemma recordCancellation_moved r d rm b d' rm' frames seen :
  recordCancellation float_text leased tenantID sessionID turnID r d rm = (b, d', rm', frames) →
  moved (dl_journal d, rm, seen) (dl_journal d', rm', seen ++ frames).
Proof.
  unfold recordCancellation. intros Hr. destruct r as [ack|e]; [|simplify_eq; by rewrite app_nil_r].
  case_match; [|simplify_eq; by rewrite app_nil_r].
  destruct (observe _ _ rm) as [[wr j] rm1] eqn:Eo. simplify_eq. by eapply moved_observe.
Qed.

Lemma on_cancel_reply_moved r queued d rm v rm' frames seen :
  on_cancel_reply float_text usage_left leased tenantID sessionID turnID r queued d rm = (v, rm', frames) →
  moved (dl_journal d, rm, seen) (dl_journal v.1, rm', seen ++ frames).
Proof.
  unfold on_cancel_reply. intros Hr. destruct (drain _ _ queued d) as [b d1] eqn:Ed.
  destruct (recordCancellation _ _ _ _ _ r d1 rm) as [[[b2 d2] rm2] frames2] eqn:Ec.
  etrans; [by eapply drain_moved|]. etrans; [by eapply recordCancellation_moved|].
  injection Hr as <- <- <-. rewrite app_assoc. by repeat case_match.
Qed.

Lemma handle_moved a d rm v rm' frames out seen :
  handle a d rm = (v, rm', frames, out) → moved (dl_journal d, rm, seen) (dl_journal v.1, rm', seen ++ frames).
Proof.
  destruct a as [frame|r| |r queued| |[env|]|now later sendable]; cbn [Delivery.handle]; intros Hr.
  - simplify_eq. rewrite app_nil_r. unfold on_preparation. by repeat case_match.
  - unfold on_function_reply in Hr. destruct (confirm _ _ _ _ r rm) as [c rm1] eqn:Ec. simplify_eq. rewrite app_nil_r.
    etrans; [by eapply confirm_moved|]. by case_match.
  - destruct (flush _ rm) as [[f j] rm1] eqn:Ef. simplify_eq. rewrite app_nil_r. moved_step. by case_match.
  - destruct (on_cancel_reply _ _ _ _ _ _ r queued d rm) as [[v1 rm1] fr1] eqn:Ec. simplify_eq. by eapply on_cancel_reply_moved.
  - simplify_eq. by rewrite app_nil_r.
  - destruct (on_upstream _ _ _ _ _ _ _ _ env d rm) as [v1 rm1] eqn:Eu. simplify_eq. by eapply on_upstream_moved.
  - simplify_eq. by rewrite app_nil_r.
  - destruct (on_tick _ _ _ _ _ _ _ d rm) as [[v1 rm1] out1] eqn:Et. simplify_eq. rewrite app_nil_r.
    rewrite (on_tick_journal _ _ _ _ _ _ _ _ Et). by eapply on_tick_moved.
Qed.

Lemma conclude_moved d rm frames d' status rm' frames' seen :
  conclude tenantID sessionID turnID tools d rm frames = (d', status, rm', frames') →
  moved (dl_journal d, rm, seen) (dl_journal d', rm', seen) ∧ frames' = frames.
Proof.
  unfold conclude. intros Hc. destruct (negb _); [by simplify_eq|]. destruct (bool_decide _); [by simplify_eq|].
  destruct (functions_complete _ _ _ _ rm) as [b rm1] eqn:Ef.
  pose proof (functions_complete_moved _ _ _ (dl_journal d) seen Ef). by destruct b; simplify_eq.
Qed.

Lemma finishDelivery_moved r d rm d' status rm' frames seen :
  finishDelivery r d rm = (d', status, rm', frames) → moved (dl_journal d, rm, seen) (dl_journal d', rm', seen ++ frames).
Proof.
  unfold Delivery.finishDelivery. intros Hr.
  destruct (bool_decide (dl_cancel d = None)).
  { apply (conclude_moved _ _ _ _ _ _ _ seen) in Hr as [Hm ->]. by rewrite app_nil_r. }
  destruct r as [r|]; [|simplify_eq; by rewrite app_nil_r].
  destruct (recordCancellation _ _ _ _ _ r d rm) as [[[b d1] rm1] fr1] eqn:Er.
  pose proof (recordCancellation_moved _ _ _ _ _ _ _ seen Er) as Hm.
  destruct b; cbn in Hr; [|by simplify_eq]. destruct r as [ack|e]; [|by simplify_eq].
  destruct (ak_applied ack); [by simplify_eq|]. destruct (ak_code ack =?s "run_inactive"); cbn in Hr; [|by simplify_eq].
  apply (conclude_moved _ _ _ _ _ _ _ (seen ++ fr1)) in Hr as [Hm' ->]. by etrans.
Qed.

Lemma close_moved queued incomplete d status rm d' status' rm' seen :
  close_journal queued incomplete d status rm = (d', status', rm') →
  moved (dl_journal d, rm, seen) (dl_journal d', rm', seen ++ queued).
Proof.
  unfold Delivery.close_journal. intros Hr. destruct (drain _ _ queued d) as [b d1] eqn:Ed.
  etrans; [by eapply drain_moved|].
  destruct b; destruct (flush _ rm) as [[f j] rm1] eqn:Ef; moved_step; repeat (case_match; simplify_eq/=); done.
Qed.

(** A step of a delivery is a run of its journal. *)
Lemma dstep_moved s s' :
  dstep s s' → good_remote (ds_remote s) →
  rtc jmove (dl_journal (ds_delivery s), ds_remote s, ds_seen s) (dl_journal (ds_delivery s'), ds_remote s', ds_seen s').
Proof.
  intros Hs Hg. inversion Hs; subst; cbn in *.
  - by eapply (handle_moved _ _ _ (_, _)).
  - by eapply finishDelivery_moved.
  - by eapply close_moved.
  - apply rtc_once. split; [|done]. apply j_other; [by eapply good_steps|done].
Qed.

(** ** Verdicts *)

(** The frames that never leave a delivery on its way to completion. *)
Definition plain (env : Envelope) : Prop :=
  existsb (λ kind, env_type env =?s kind) ["error"; "permission_request"; "prompt_for_user_choice"; "authoring_request"] = false.

Abbreviation receipt := (receipt_frame float_text turnID).

(** What a verdict says about the delivery. *)
Definition verdict_ok (d : delivery) (frames : list Envelope) (out : list sent) (v : verdict) : Prop :=
  match v.2 with
  | None =>
      (dl_done v.1 = true → dl_done d = true ∨ ∃ env, env ∈ frames ∧ env_type env = "done")
      ∧ (rs_code (dl_result v.1) = "" → rs_code (dl_result d) = "" ∧ Forall plain frames)
      ∧ (is_Some (dl_cancel v.1) → is_Some (dl_cancel d) ∨ SCancel ∈ out)
  | Some status =>
      (status = "failed" ∧ rs_code (dl_result v.1) ≠ "")
      ∨ (status = "cancelled" ∧ is_Some (dl_cancel d) ∧ ∃ ack, ak_applied ack = true ∧ receipt ack ∈ frames)
  end.

Lemma failing_ok d d' frames out code : code ≠ "" → verdict_ok d frames out (failing d' code).
Proof. by left. Qed.

(** A verdict that goes on without frames and keeps what matters. *)
Lemma on_ok d d' out :
  dl_done d' = dl_done d → rs_code (dl_result d') = rs_code (dl_result d) →
  (is_Some (dl_cancel d') → is_Some (dl_cancel d) ∨ SCancel ∈ out) → verdict_ok d [] out (on d').
Proof. intros E1 E2 Hc. unfold verdict_ok. cbn. rewrite E1, E2. auto. Qed.

Lemma mergeDone_keeps raw r r' : mergeDone float_text raw r = Some r' → rs_code r' = rs_code r ∧ rs_applied r' = rs_applied r.
Proof.
  unfold mergeDone. intros (j & _ & Hr)%bind_Some. apply bind_Some in Hr as (dn & _ & Hr).
  apply bind_Some in Hr as (fields & _ & Hr). by simplify_eq.
Qed.

Lemma mergeObservation_keeps env r b r' :
  mergeObservation float_text usage_left env r = (b, r') → rs_code r' = rs_code r ∧ rs_applied r' = rs_applied r.
Proof.
  unfold mergeObservation. intros Hr. destruct (env_type env =?s "usage").
  { repeat case_match; by simplify_eq. }
  destruct (env_type env =?s "done"); [|by simplify_eq].
  destruct (mergeDone _ _ _) eqn:E; simplify_eq; [by eapply mergeDone_keeps|done].
Qed.

Lemma recordCancellation_keeps r d rm b d' rm' frames :
  recordCancellation float_text leased tenantID sessionID turnID r d rm = (b, d', rm', frames) →
  rs_code (dl_result d') = rs_code (dl_result d) ∧ rs_applied (dl_result d') = rs_applied (dl_result d)
  ∧ dl_pending d' = dl_pending d ∧ dl_done d' = dl_done d ∧ dl_cancel d' = dl_cancel d
  ∧ (b = true → ∀ ack, r = Ok ack → frames = [receipt ack]) ∧ Forall plain frames.
Proof.
  unfold recordCancellation. intros Hr. destruct r as [ack|e]; [|by simplify_eq].
  destruct (match ak_outcome ack with Some _ => _ | None => _ end) as [res|] eqn:Em; [|by simplify_eq].
  assert (rs_code res = rs_code (dl_result d) ∧ rs_applied res = rs_applied (dl_result d)) as [E1 E2].
  { repeat case_match; simplify_eq; try done. by eapply mergeDone_keeps. }
  destruct (observe _ _ rm) as [[wr j] rm1]. simplify_eq. split_and!; try done.
  - by intros _ ack' [= <-].
  - by apply Forall_singleton.
Qed.

Lemma drain_keeps frames d b d' :
  drain float_text usage_left frames d = (b, d') →
  rs_code (dl_result d') = rs_code (dl_result d) ∧ rs_applied (dl_result d') = rs_applied (dl_result d)
  ∧ dl_pending d' = dl_pending d ∧ dl_done d' = dl_done d ∧ dl_cancel d' = dl_cancel d.
Proof.
  revert d b. induction frames as [|env frames IH]; intros d b Hd; cbn in Hd; [by simplify_eq|].
  destruct (enqueue env _) as [q j]. destruct (mergeObservation _ _ _ _) as [valid r] eqn:Em.
  destruct (drain _ _ frames _) as [b1 d1] eqn:E1. simplify_eq.
  apply mergeObservation_keeps in Em as [<- <-]. by apply IH in E1.
Qed.

(** A frame of a type that is not one of the switch, or one of it that is plain. *)
Lemma plain_kind env :
  (env_type env =?s "error") = false → (env_type env =?s "permission_request") = false →
  (env_type env =?s "prompt_for_user_choice") = false → (env_type env =?s "authoring_request") = false → plain env.
Proof. unfold plain. cbn. by intros -> -> -> ->. Qed.

Lemma on_plain d d' env out :
  dl_done d' = dl_done d → rs_code (dl_result d') = rs_code (dl_result d) → dl_cancel d' = dl_cancel d → plain env →
  verdict_ok d [env] out (on d').
Proof. intros E1 E2 E3 Hp. unfold verdict_ok. cbn. rewrite E1, E2, E3. repeat split; auto. Qed.

Lemma plain_of env kind :
  (env_type env =?s kind) = true → plain (MkEnvelope kind "" (env_payload env)) → plain env.
Proof. intros E%bool_decide_eq_true_1. unfold plain. by rewrite E. Qed.

Ltac plain_tac := by eapply plain_of; [eassumption|vm_compute].

Lemma on_steer_ack_verdict env d out : plain env → verdict_ok d [env] out (on_steer_ack env d).
Proof.
  intros Hp. unfold on_steer_ack. repeat case_match; try (by apply failing_ok); try (by apply on_plain).
  left. split; [done|]. cbn. by destruct (sa_code _).
Qed.

Lemma on_frame_verdict env d rm v rm' :
  on_frame args_len leased tenantID sessionID turnID tools env d rm = (v, rm') → verdict_ok d [env] [] v.
Proof.
  unfold on_frame. intros Hr. destruct (env_type env =?s "error") eqn:Ee.
  { case_match; simplify_eq; [|by apply failing_ok]. split; cbn; [auto|]. split; [done|auto]. }
  destruct (env_type env =?s "done") eqn:Ed.
  { simplify_eq. split; cbn; [intros _; right; exists env; split; [by left|by apply bool_decide_eq_true_1 in Ed]|].
    split; [|auto]. intros Hc. split; [done|]. apply Forall_singleton. plain_tac. }
  destruct (env_type env =?s "function_call") eqn:Ef.
  { destruct (flush _ rm) as [[f j] rm1]. destruct (is_ok f); cbn in Hr; [|simplify_eq; by apply failing_ok].
    destruct (record _ _ _ _ _ env rm1) as [r rm2]. simplify_eq.
    destruct (is_ok r); [|by apply failing_ok]. apply on_plain; [done..|plain_tac]. }
  destruct (env_type env =?s "prompt_steer_ack") eqn:Es; [simplify_eq; apply on_steer_ack_verdict; plain_tac|].
  destruct (env_type env =?s "permission_request") eqn:E1; [simplify_eq/=; by apply failing_ok|].
  destruct (env_type env =?s "prompt_for_user_choice") eqn:E2; [simplify_eq/=; by apply failing_ok|].
  destruct (env_type env =?s "authoring_request") eqn:E3; [simplify_eq/=; by apply failing_ok|].
  cbn in Hr. simplify_eq. apply on_plain; [done..|by apply plain_kind].
Qed.

Lemma on_upstream_verdict env d rm v rm' :
  on_upstream float_text usage_left args_len leased tenantID sessionID turnID tools env d rm = (v, rm') →
  verdict_ok d [env] [] v.
Proof.
  unfold on_upstream. intros Hr. destruct (observe _ _ rm) as [[wr j] rm1].
  destruct (mergeObservation _ _ _ _) as [valid r] eqn:Em. apply mergeObservation_keeps in Em as [Ec _].
  destruct valid; cbn in Hr; [|simplify_eq; by apply failing_ok].
  destruct (is_ok wr); cbn in Hr; [|simplify_eq; by apply failing_ok].
  apply on_frame_verdict in Hr. unfold verdict_ok in *. cbn in Hr. by rewrite Ec in Hr.
Qed.

Lemma next_pending_verdict now d rm v rm' :
  next_pending tenantID sessionID turnID now d rm = (v, rm') → verdict_ok d [] [] v.
Proof.
  unfold next_pending. intros Hr.
  repeat case_match; simplify_eq; try (by apply failing_ok); apply on_ok; auto.
Qed.

Lemma steer_verdict now sendable d v out : steer now sendable d = (v, out) → verdict_ok d [] [] v.
Proof.
  unfold steer. intros Hr. repeat case_match; simplify_eq; try (by apply failing_ok); apply on_ok; auto.
Qed.

(** Stages of a handler, one after the other. *)
Lemma verdict_trans d d1 out out1 v :
  verdict_ok d [] out1 (on d1) → verdict_ok d1 [] out v → verdict_ok d [] (out1 ++ out) v.
Proof.
  unfold verdict_ok. cbn. intros (F1 & F2 & F3) Hv. destruct v as [d2 [status|]]; cbn in *.
  - destruct Hv as [?|(? & _ & ack & _ & Hin)]; [by left|]. by apply not_elem_of_nil in Hin.
  - destruct Hv as (G1 & G2 & G3). split; [|split].
    + intros Hd. destruct (G1 Hd) as [Hd1|(env & Hin & _)]; [by apply F1|by apply not_elem_of_nil in Hin].
    + intros Hc. apply F2, G2, Hc.
    + intros Hc. rewrite elem_of_app. destruct (G3 Hc) as [Hc1|?]; [|auto]. destruct (F3 Hc1); auto.
Qed.

Lemma verdict_weaken d out1 out v : verdict_ok d [] [] v → out = out1 → verdict_ok d [] out1 v.
Proof.
  intros Hv _. unfold verdict_ok in *. destruct (v.2); [done|]. destruct Hv as (G1 & G2 & G3). split_and!; [done..|].
  intros Hc. destruct (G3 Hc) as [?|Hin]; [auto|by apply not_elem_of_nil in Hin].
Qed.

Lemma on_tick_verdict now later sendable d rm v rm' out :
  on_tick tenantID sessionID turnID tools now later sendable d rm = (v, rm', out) → verdict_ok d [] out v.
Proof.
  intros [(code & -> & Hc & ->)|[[-> ->]|[[-> ->]|(d1 & out1 & rm1 & rm2 & Hf & _ & Hv)]]]%on_tick_run.
  - by apply failing_ok.
  - apply on_ok; auto.
  - apply on_ok; [done..|]. intros _. right. by left.
  - assert (verdict_ok d [] out1 (on d1)) as Hd1.
    { apply function_start_spec in Hf as [[-> _]|[[call ->] _]]; apply on_ok; auto. }
    destruct Hv as [[-> ->]|[(v2 & _ & Hn & Hv)|(_ & out2 & Hs & ->)]]; [done| |].
    + apply next_pending_verdict in Hn. destruct Hv as [(-> & -> & _)|(d2 & out2 & -> & Hs & ->)].
      * rewrite <- (app_nil_r out1). by eapply verdict_trans.
      * eapply verdict_trans; [done|]. apply steer_verdict in Hs. change out2 with ([] ++ out2).
        eapply verdict_trans; [done|]. by eapply verdict_weaken.
    + eapply verdict_trans; [done|]. apply steer_verdict in Hs. by eapply verdict_weaken.
Qed.

Lemma on_cancel_reply_verdict r queued d rm v rm' frames :
  is_Some (dl_cancel d) →
  on_cancel_reply float_text usage_left leased tenantID sessionID turnID r queued d rm = (v, rm', frames) →
  verdict_ok d frames [] v ∧ is_Some v.2.
Proof.
  unfold on_cancel_reply. intros Hd Hr. destruct (drain _ _ queued d) as [b d1].
  destruct (recordCancellation _ _ _ _ _ r d1 rm) as [[[b2 d2] rm2] fr2] eqn:Ec.
  apply recordCancellation_keeps in Ec as (_ & _ & _ & _ & _ & Hfr & _). injection Hr as <- <- <-.
  destruct (negb b || negb b2) eqn:Eb; [split; [by left|cbn; eauto]|].
  apply orb_false_iff in Eb as [_ Eb%negb_false_iff].
  destruct r as [ack|e]; [|split; [by left|cbn; eauto]].
  destruct (ak_applied ack) eqn:Ea; cbn; [|split; [by left|cbn; eauto]].
  destruct (bool_decide _); [split; [by left|cbn; eauto]|]. split; [|cbn; eauto].
  right. split; [done|]. split; [done|]. exists ack. split; [done|]. rewrite (Hfr Eb ack eq_refl).
  apply elem_of_app. right. by left.
Qed.

Lemma handle_verdict a d rm v rm' frames out :
  enabled a d = true → handle a d rm = (v, rm', frames, out) → verdict_ok d frames out v.
Proof.
  intros Hen Hr. destruct a as [frame|r| |r queued| |[env|]|now later sendable]; cbn [Delivery.handle] in Hr.
  - simplify_eq. unfold on_preparation. repeat case_match; try (by apply failing_ok); apply on_ok; auto.
  - unfold on_function_reply in Hr. destruct (confirm _ _ _ _ r rm) as [c rm1]. simplify_eq.
    case_match; [by apply failing_ok|apply on_ok; auto].
  - destruct (flush _ rm) as [[f j] rm1]. simplify_eq. case_match; [apply on_ok; auto|by apply failing_ok].
  - destruct (on_cancel_reply _ _ _ _ _ _ r queued d rm) as [[v1 rm1] fr1] eqn:Ec. simplify_eq.
    cbn in Hen. apply andb_true_iff in Hen as [Hen _]. apply andb_true_iff in Hen as [Hen%bool_decide_eq_true_1 _].
    by apply on_cancel_reply_verdict in Ec as [? _].
  - simplify_eq. by apply failing_ok.
  - destruct (on_upstream _ _ _ _ _ _ _ _ env d rm) as [v1 rm1] eqn:Eu. simplify_eq. by eapply on_upstream_verdict.
  - simplify_eq. by apply failing_ok.
  - destruct (on_tick _ _ _ _ _ _ _ d rm) as [[v1 rm1] out1] eqn:Et. simplify_eq. by eapply on_tick_verdict.
Qed.

(** ** Outcomes *)

Definition saw_done (seen : list Envelope) : Prop := ∃ env, env ∈ seen ∧ env_type env = "done".

(** What a status means once the loop is left. *)
Definition outcome (d : delivery) (seen : list Envelope) (out : list sent) (status : string) : Prop :=
  (status = "completed" ∧ rs_code (dl_result d) = "" ∧ dl_pending d = None ∧ dl_done d = true ∧ saw_done seen ∧ Forall plain seen)
  ∨ (status = "cancelled" ∧ SCancel ∈ out ∧ ∃ ack, ak_applied ack = true ∧ receipt ack ∈ seen)
  ∨ (status = "failed" ∧ rs_code (dl_result d) ≠ "").

Definition looping (d : delivery) (seen : list Envelope) (out : list sent) : Prop :=
  (dl_done d = true → saw_done seen) ∧ (rs_code (dl_result d) = "" → Forall plain seen)
  ∧ (is_Some (dl_cancel d) → SCancel ∈ out).

Lemma handle_looping a d rm d' v rm' frames out seen out0 :
  looping d seen out0 → enabled a d = true → handle a d rm = ((d', v), rm', frames, out) →
  match v with
  | None => looping d' (seen ++ frames) (out0 ++ out)
  | Some status => outcome d' (seen ++ frames) (out0 ++ out) status
  end.
Proof.
  intros (L1 & L2 & L3) Hen Hr. apply (handle_verdict _ _ _ _ _ _ _ Hen) in Hr. unfold verdict_ok in Hr. cbn in Hr.
  destruct v as [status|].
  - right. destruct Hr as [?|(-> & Hc & ack & Ha & Hin)]; [by right|left]. split; [done|].
    split; [apply elem_of_app; left; auto|]. exists ack. split; [done|]. apply elem_of_app. by right.
  - destruct Hr as (H2 & H3 & H4). split; [|split].
    + intros Hd. destruct (H2 Hd) as [Hd'|(env & Hin & He)].
      * destruct (L1 Hd') as (env & Hin & He). exists env. rewrite elem_of_app. auto.
      * exists env. rewrite elem_of_app. auto.
    + intros Hc. destruct (H3 Hc). apply Forall_app. auto.
    + intros Hc. apply elem_of_app. destruct (H4 Hc); auto.
Qed.

Lemma conclude_outcome d rm frames d' status rm' frames' seen out :
  dl_done d = true → saw_done seen → (rs_code (dl_result d) = "" → Forall plain seen) →
  conclude tenantID sessionID turnID tools d rm frames = (d', status, rm', frames') → outcome d' seen out status.
Proof.
  intros Hd Hs Hp. unfold conclude. intros Hc. destruct (rs_code (dl_result d) =?s "") eqn:Ec; cbn in Hc.
  2: { simplify_eq. right. right. split; [done|]. by apply bool_decide_eq_false_1 in Ec. }
  apply bool_decide_eq_true_1 in Ec. destruct (dl_pending d) as [p|] eqn:Ep; cbn in Hc.
  { simplify_eq. right. by right. }
  destruct (functions_complete _ _ _ _ rm) as [b rm1]. destruct b; simplify_eq; [left; by split_and!; auto|right; by right].
Qed.

Lemma finishDelivery_outcome r d rm d' status rm' frames seen out :
  looping d seen out → ended d = true → finishDelivery r d rm = (d', status, rm', frames) →
  outcome d' (seen ++ frames) out status.
Proof.
  intros (L1 & L2 & L3) He. unfold ended in He. apply andb_true_iff in He as [He _]. apply andb_true_iff in He as [He _].
  specialize (L1 He). unfold Delivery.finishDelivery. intros Hr. destruct (dl_cancel d) as [at_|] eqn:Ec; cbn in Hr.
  2: { pose proof (conclude_moved _ _ _ _ _ _ _ [] Hr) as [_ ->]. rewrite app_nil_r. by eapply conclude_outcome. }
  destruct r as [r|]; [|simplify_eq; right; by right].
  destruct (recordCancellation _ _ _ _ _ r d rm) as [[[b d1] rm1] fr1] eqn:Er.
  apply recordCancellation_keeps in Er as (K1 & _ & K3 & K4 & K5 & Hfr & Hpl).
  destruct b; cbn in Hr; [|simplify_eq; right; by right]. destruct r as [ack|e]; [|simplify_eq; right; by right].
  destruct (ak_applied ack) eqn:Ea.
  { simplify_eq. right. left. split; [done|]. split; [by apply L3|]. exists ack. split; [done|].
    rewrite (Hfr eq_refl ack eq_refl). apply elem_of_app. right. by left. }
  destruct (ak_code ack =?s "run_inactive"); cbn in Hr; [|simplify_eq; right; by right].
  pose proof (conclude_moved _ _ _ _ _ _ _ [] Hr) as [_ ->]. eapply conclude_outcome; [| | |exact Hr].
  - by rewrite K4.
  - destruct L1 as (env & Hin & Ht). exists env. rewrite elem_of_app. auto.
  - rewrite K1. intros Hc. apply Forall_app. auto.
Qed.

(** Closing fails the delivery, or keeps its status with everything logged. *)
Lemma close_run queued incomplete d status rm d' status' rm' :
  close_journal queued incomplete d status rm = (d', status', rm') →
  (status' = "failed" ∧ rs_code (dl_result d') ≠ "")
  ∨ (status' = status ∧ ∃ d1 j, drain float_text usage_left queued d = (true, d1)
      ∧ flush (H := writer) (dl_journal d1) rm = (Ok tt, j, rm') ∧ d' = set_journal d1 j).
Proof.
  unfold Delivery.close_journal. intros Hr. destruct (drain _ _ queued d) as [b d1] eqn:Ed.
  destruct b.
  - destruct (flush _ rm) as [[[[]|e] j] rm1] eqn:Ef; cbn in Hr; destruct incomplete; simplify_eq; try (by left).
    right. eauto 6.
  - left. destruct (flush _ rm) as [[[[]|e] j] rm1] eqn:Ef; cbn in Hr; destruct incomplete; by simplify_eq.
Qed.

Definition logged (sub : bool) (seen : list Envelope) (rm : remote) : Prop := Forall2 holds_event (to_log sub seen) (log rm).

Record delivery_inv (sub : bool) (s : dstate) : Prop := {
  dv_journal : ∃ acked, journal_inv (good := good_remote) (wlog := log) (stored := holds_event) sub
    (dl_journal (ds_delivery s)) (ds_remote s) (ds_seen s) acked;
  dv_phase :
    match ds_phase s with
    | Looping => looping (ds_delivery s) (ds_seen s) (ds_sent s)
    | Returning status => outcome (ds_delivery s) (ds_seen s) (ds_sent s) status
    | Returned status => outcome (ds_delivery s) (ds_seen s) (ds_sent s) status
        ∧ (status ≠ "failed" → logged sub (ds_seen s) (ds_remote s))
    end;
}.

Lemma jmoves_jsteps x y :
  rtc jmove x y → rtc (jstep (EventWriter0 := writer) (good := good_remote) (wlog := log)) x y.
Proof. induction 1 as [|x y z [Hs _] _ IH]; [done|by eapply rtc_l]. Qed.

Abbreviation journal_agrees := (journal_inv (good := good_remote) (wlog := log) (stored := holds_event)).

Lemma journal_follows sub j rm seen acked j' rm' seen' :
  journal_agrees sub j rm seen acked → rtc jmove (j, rm, seen) (j', rm', seen') →
  ∃ acked', journal_agrees sub j' rm' seen' acked'.
Proof using Hsession Hturn.
  intros Hj Hm%jmoves_jsteps.
  apply (journal_steps (WriterLaws0 := store_writer_laws leased tenantID sessionID turnID session turn Hsession Hturn)
    sub (j, rm, seen) (j', rm', seen') acked Hj Hm).
Qed.

Lemma close_inv sub queued incomplete d status rm d' status' rm' seen out out' acked :
  journal_agrees sub (dl_journal d) rm seen acked →
  outcome d seen out status → (∀ x, x ∈ out → x ∈ out') → (dl_done d = true → queued = []) →
  close_journal queued incomplete d status rm = (d', status', rm') →
  outcome d' (seen ++ queued) out' status' ∧ (status' ≠ "failed" → logged sub (seen ++ queued) rm').
Proof using Hsession Hturn.
  intros Hj Ho Hout Hq Hr. apply close_run in Hr as [[-> Hc]|(-> & d1 & j & Ed & Ef & ->)].
  { split; [right; by right|done]. }
  pose proof (drain_keeps _ _ _ _ Ed) as (K1 & _ & K3 & K4 & _). split.
  - unfold outcome in *. cbn. rewrite K1, K3, K4.
    destruct Ho as [(-> & ? & ? & Hdone & Hs & Hp)|[(-> & Hin & ack & Ha & Hack)|?]].
    + left. rewrite (Hq Hdone), app_nil_r. auto 6.
    + right. left. split; [done|]. split; [auto|]. exists ack. rewrite elem_of_app. auto.
    + auto.
  - intros _. pose proof (drain_moved _ _ _ _ rm seen Ed (ji_good _ _ _ _ _ Hj)) as Hm.
    destruct (journal_follows _ _ _ _ _ _ _ _ Hj Hm) as (acked' & Hj').
    by apply (journal_flushed (WriterLaws0 := store_writer_laws leased tenantID sessionID turnID session turn Hsession Hturn)
      sub _ _ _ _ _ _ Hj' Ef).
Qed.

Lemma dstep_inv sub s s' : delivery_inv sub s → dstep s s' → delivery_inv sub s'.
Proof using Hsession Hturn.
  intros [(acked & Hj) Hph] Hs.
  assert (∃ acked', journal_agrees sub (dl_journal (ds_delivery s')) (ds_remote s') (ds_seen s') acked') as Hj'.
  { eapply journal_follows; [exact Hj|]. apply dstep_moved; [done|apply Hj]. }
  split; [done|]. clear Hj'. inversion Hs; subst; cbn in *.
  - eapply (handle_looping _ _ _ d') in Hph; [|done..]. by destruct v.
  - by eapply finishDelivery_outcome.
  - eapply close_inv; [done..| |done|done]. intros x Hx. destruct (status' =?s "failed"); [|done]. apply elem_of_app. auto.
  - destruct ph; try done. destruct Hph as [Ho Hl]. split; [done|]. unfold logged.
    rename select (log rm' = log rm) into El. by rewrite El.
Qed.

Lemma delivery_start subscribed sendable prepared first sub rm :
  good_remote rm → log rm = [] → delivery_inv sub (deliver_start subscribed sendable prepared first sub rm).
Proof.
  intros Hg Hl. unfold deliver_start. pose proof (journal_new sub rm Hg Hl (stored := holds_event)) as Hj.
  destruct subscribed; [destruct sendable|]; (split; [exists []; exact Hj|]); cbn.
  - split; [done|]. split; [by constructor|]. by intros [].
  - right. by right.
  - split; [right; by right|done].
Qed.

Lemma run_inv sub s s' : delivery_inv sub s → rtc dstep s s' → delivery_inv sub s'.
Proof using Hsession Hturn. intros Hi Hs. induction Hs; eauto using dstep_inv. Qed.

(** The store only moves along requests. *)
Lemma moved_steps j rm seen j' rm' seen' :
  moved (j, rm, seen) (j', rm', seen') → good_remote rm → steps (rm_world rm) (rm_world rm').
Proof. intros Hm Hg. apply (jmoves_steps _ _ (Hm Hg)). Qed.

Lemma handle_steps a d rm v rm' frames out :
  good_remote rm → handle a d rm = (v, rm', frames, out) → steps (rm_world rm) (rm_world rm').
Proof. intros Hg Hr. eapply moved_steps; [by eapply (handle_moved _ _ _ _ _ _ _ [])|done]. Qed.

Lemma dstep_steps s s' : dstep s s' → good_remote (ds_remote s) → steps (rm_world (ds_remote s)) (rm_world (ds_remote s')).
Proof. intros Hs Hg. apply (jmoves_steps _ _ (dstep_moved _ _ Hs Hg)). Qed.

(** ** Running a delivery *)

Inductive devent :=
  | ESelect (a : arrival)
  | EFinish (r : option reply)
  | EClose (queued : list Envelope) (incomplete : bool).

Definition dexec1 (s : dstate) (e : devent) : dstate :=
  let '(MkDState d rm seen out ph) := s in
  match e, ph with
  | ESelect a, Looping =>
      if negb (ended d) && enabled a d then
        let '((d', v), rm', frames, out') := handle a d rm in MkDState d' rm' (seen ++ frames) (out ++ out') (phase_of v)
      else s
  | EFinish r, Looping =>
      if ended d then
        let '(d', status, rm', frames) := finishDelivery r d rm in MkDState d' rm' (seen ++ frames) out (Returning status)
      else s
  | EClose queued incomplete, Returning status =>
      if (length queued <=? 256)%nat && (negb (dl_done d) || bool_decide (queued = [])) then
        let '(d', status', rm') := close_journal queued incomplete d status rm in
        MkDState d' rm' (seen ++ queued) (if status' =?s "failed" then out ++ [SAbort] else out) (Returned status')
      else s
  | _, _ => s
  end.

Definition dexec (s : dstate) (events : list devent) : dstate := List.fold_left dexec1 events s.

Lemma dexec1_steps s e : rtc dstep s (dexec1 s e).
Proof.
  destruct s as [d rm seen out ph], e as [a|r|queued incomplete], ph; cbn; try done.
  - destruct (ended d) eqn:Ee; cbn; [done|]. destruct (enabled a d) eqn:Een; [|done].
    destruct (handle a d rm) as [[[[d' v] rm'] frames] out'] eqn:Eh. apply rtc_once. by eapply d_select.
  - destruct (ended d) eqn:Ee; [|done].
    destruct (finishDelivery r d rm) as [[[d' status] rm'] frames] eqn:Eh. apply rtc_once. by eapply d_finish.
  - destruct ((length queued <=? 256)%nat && _) eqn:Eq; [|done]. apply andb_true_iff in Eq as [El%Nat.leb_le Eq].
    destruct (close_journal _ _ _ _ _) as [[d' status'] rm'] eqn:Ec. apply rtc_once. eapply d_close; [done| |done].
    intros Ed. rewrite Ed in Eq. by apply bool_decide_eq_true_1 in Eq.
Qed.

Lemma dexec_steps s events : rtc dstep s (dexec s events).
Proof. revert s. induction events as [|e events IH]; intros s; [done|]. etrans; [apply dexec1_steps|apply IH]. Qed.

(** ** Properties *)

End delivery.

(** ** Witnesses *)

Definition no_float (lit : string) : string := lit.
Definition no_usage (u : Usage) (_ : json) : Usage := u.
Definition no_args (_ : Envelope) : Z := 0.

Abbreviation demo_dexec := (dexec no_float no_usage no_args false tenant_id session_id turn_id []).

Definition done_frame (content : string) : Envelope :=
  MkEnvelope "done" turn_id (raw_of (JObj [("content", JStr content)])).

Definition demo_delivery : dstate := deliver_start true true None 1 false (MkRemote started_world []).

(** Two deltas, a flush and a [done]. *)
Definition completed_delivery : dstate :=
  demo_dexec demo_delivery
    [ESelect (AUpstream (Some (demo_frame "Hel"))); ESelect (AUpstream (Some (demo_frame "lo"))); ESelect AFlush;
     ESelect (AUpstream (Some (done_frame "Hello"))); EFinish None; EClose [] false].

