(* ===== verification/Steering.v ===== *)
(** * Steering

    The inputs of a running Turn.  A delivery applies the messages of its Turn one
    at a time and in order: it sends one, waits for the device's receipt and only
    then looks for the next.  [flow] is that protocol without the rest of the
    delivery; every step of a delivery refines it, and the guarantees about inputs
    are proved on it: a message counts as applied only when the device
    acknowledged it, and is sent again only when the device refused it. *)
From stdpp Require Import base tactics list strings numbers relations pretty sorting.
From S2P Require Import Prelude GoJson Contract Items Database Queries EnvQueries SessionLog Turns Environments Reads Configuration.
From S2P Require Import Relations Scenario Frames Lifecycle Calls EventLog TurnLog Inputs Outcomes Journal Delivery DeliveryFacts.

(** ** The protocol *)

Record fstate := MkFlow {
  fl_applied : Z; fl_pending : option pendingInput; fl_seen : list Envelope; fl_sent : list sent; fl_world : world }.

Definition is_steer (f : sent) : bool := match f with SSteer _ _ => true | _ => false end.

(** The acknowledgement a frame carries for an input. *)
Definition ack_for (n : Z) (env : Envelope) : option SteerAck :=
  if env_type env =?s "prompt_steer_ack" then
    ack ← steer_ack env; if sa_input ack =?s pretty n then Some ack else None
  else None.

Definition acknowledged_as (n : Z) (test : SteerAck → bool) (env : Envelope) : bool :=
  match ack_for n env with Some ack => test ack | None => false end.

Section steering.
Context `{UUIDs, Oracle, EventSizes}.
Context (session turn : N).

Definition of_turn (i : input_row) : Prop := in_session i = session ∧ in_turn i = Some turn.

(** The first input of the Turn behind [applied]. *)
Definition next_input (w : world) (applied : Z) (i : input_row) : Prop :=
  In i (turn_inputs (w_db w)) ∧ of_turn i ∧ applied < in_seq i
  ∧ ∀ j, In j (turn_inputs (w_db w)) → of_turn j → applied < in_seq j → in_seq i ≤ in_seq j.

Inductive flow : relation fstate :=
  | flow_store a p seen out w w' : steps w w' → flow (MkFlow a p seen out w) (MkFlow a p seen out w')
  | flow_receive a p seen out w env : flow (MkFlow a p seen out w) (MkFlow a p (seen ++ [env]) out w)
  | flow_send a p seen out w f : is_steer f = false → flow (MkFlow a p seen out w) (MkFlow a p seen (out ++ [f]) w)
  | flow_accept a p seen out w env :
      acknowledged_as (pi_sequence p) sa_accepted env = true →
      flow (MkFlow a (Some p) seen out w) (MkFlow (pi_sequence p) None (seen ++ [env]) out w)
  | flow_written a p seen out w env :
      flow (MkFlow a (Some p) seen out w)
        (MkFlow a (Some (MkPending (pi_sequence p) (pi_text p) (pi_started p) true true)) (seen ++ [env]) out w)
  | flow_refused a p seen out w env :
      acknowledged_as (pi_sequence p) refused env = true → pi_written p = false →
      flow (MkFlow a (Some p) seen out w)
        (MkFlow a (Some (MkPending (pi_sequence p) (pi_text p) (pi_started p) false false)) (seen ++ [env]) out w)
  | flow_skip a seen out w i :
      next_input w a i → in_kind i ≠ "message" → flow (MkFlow a None seen out w) (MkFlow (in_seq i) None seen out w)
  | flow_next a seen out w i text now :
      next_input w a i → flow (MkFlow a None seen out w) (MkFlow a (Some (MkPending (in_seq i) text now false false)) seen out w)
  | flow_steer a p seen out w :
      pi_waiting p = false → pi_written p = false →
      flow (MkFlow a (Some p) seen out w)
        (MkFlow a (Some (MkPending (pi_sequence p) (pi_text p) (pi_started p) true false)) seen
           (out ++ [SSteer (pretty (pi_sequence p)) (pi_text p)]) w).

(** ** Acknowledged inputs *)

Definition accepted_in (seen : list Envelope) (n : Z) : Prop := ∃ env, env ∈ seen ∧ acknowledged_as n sa_accepted env = true.

(** A number that some input has reached. *)
Definition reached (w : world) (n : Z) : Prop := ∃ j, In j (turn_inputs (w_db w)) ∧ n ≤ in_seq j.

(** The messages of the Turn up to [applied] were acknowledged, from [first] on;
    the pending input is the next one. *)
Record applied_inv (first : Z) (s : fstate) : Prop := {
  ai_wf : inputs_wf (fl_world s);
  ai_first : first ≤ fl_applied s ∧ reached (fl_world s) (fl_applied s);
  ai_acked i : In i (turn_inputs (w_db (fl_world s))) → of_turn i → in_kind i = "message" →
    first < in_seq i ≤ fl_applied s → accepted_in (fl_seen s) (in_seq i);
  ai_pending p : fl_pending s = Some p →
    fl_applied s < pi_sequence p ∧ reached (fl_world s) (pi_sequence p)
    ∧ ∀ i, In i (turn_inputs (w_db (fl_world s))) → of_turn i → fl_applied s < in_seq i → pi_sequence p ≤ in_seq i;
}.

Lemma accepted_more seen env n : accepted_in seen n → accepted_in (seen ++ [env]) n.
Proof. intros (e & Hin & He). exists e. rewrite elem_of_app. auto. Qed.

Lemma sorted_app_lt (l k : list Z) x y : StronglySorted Z.lt (l ++ k) → x ∈ l → y ∈ k → x < y.
Proof.
  induction l as [|z l IH]; [by intros _ ?%not_elem_of_nil|]. cbn. intros [Hs Hz]%StronglySorted_inv [->|Hx]%elem_of_cons Hy.
  - rewrite Forall_forall in Hz. apply Hz, elem_of_app. by right.
  - by apply IH.
Qed.

(** An input that was not there before has a later number than any reached. *)
Lemma appended_later w w' i n :
  inputs_wf w → inputs_advance w w' → reached w n → In i (turn_inputs (w_db w')) → In i (turn_inputs (w_db w)) ∨ n < in_seq i.
Proof.
  intros Hwf [[new E] _ Hwf' _] (j & Hj & Hn) Hi.
  specialize (Hwf' Hwf). destruct Hwf' as [[Hsort _ _] _]. rewrite E in Hi, Hsort. apply in_app_iff in Hi as [Hi|Hi]; [by left|right].
  rewrite fmap_app in Hsort. enough (in_seq j < in_seq i) by lia.
  eapply sorted_app_lt; [exact Hsort|by apply list_elem_of_fmap_2, list_elem_of_In..].
Qed.

Lemma later_inputs w w' i n :
  inputs_wf w → steps w w' → reached w n → In i (turn_inputs (w_db w')) → In i (turn_inputs (w_db w)) ∨ n < in_seq i.
Proof. intros Hwf Hs. apply appended_later; [done|by apply steps_inputs]. Qed.

Lemma reached_steps w w' n : steps w w' → reached w n → reached w' n.
Proof.
  intros Hs (j & Hj & Hn). exists j. split; [|done]. destruct (steps_inputs _ _ Hs) as [[new ->] _ _ _]. apply in_app_iff. auto.
Qed.

Lemma same_sequence w i j :
  inputs_wf w → In i (turn_inputs (w_db w)) → In j (turn_inputs (w_db w)) → in_seq j = in_seq i → j = i.
Proof.
  intros [[Hs _ _] _] Hi Hj E. revert Hs Hi Hj. generalize (turn_inputs (w_db w)) as l. intros l.
  induction l as [|x l IH]; [done|]. cbn. intros [Hs Hx]%StronglySorted_inv Hi Hj. rewrite Forall_forall in Hx.
  assert (∀ y, In y l → in_seq x < in_seq y) as Hlt by (intros y Hy; by apply Hx, list_elem_of_fmap_2, list_elem_of_In).
  destruct Hi as [->|Hi], Hj as [->|Hj]; [done|specialize (Hlt _ Hj); lia|specialize (Hlt _ Hi); lia|auto].
Qed.

Lemma flow_applied first s s' : applied_inv first s → flow s s' → applied_inv first s'.
Proof.
  intros [Hwf [Hf Hre] Ha Hp] Hs. destruct Hs; cbn in *.
  - rename select (steps w w') into Hw. pose proof (reached_steps _ _ _ Hw Hre) as Hre'. split; cbn.
    + by apply (steps_inputs _ _ Hw).
    + auto.
    + intros i Hi Ht Hk Hi2. destruct (later_inputs _ _ _ _ Hwf Hw Hre Hi) as [?|?]; [auto|lia].
    + intros p' ->. destruct (Hp p' eq_refl) as (Hlt & Hrp & Hmin).
      split; [done|]. split; [by eapply reached_steps|]. intros i Hi Ht Hi2.
      destruct (later_inputs _ _ _ _ Hwf Hw Hrp Hi) as [?|?]; [auto|lia].
  - split; cbn; auto using accepted_more.
  - split; cbn; auto.
  - destruct (Hp p eq_refl) as (Hlt & Hrp & Hmin). split; cbn; [done|split; [lia|done]| |done].
    intros i Hi Ht Hk [Hi1 Hi2]. destruct (decide (in_seq i ≤ a)) as [Hle|Hgt].
    { apply accepted_more. auto. }
    assert (in_seq i = pi_sequence p) as -> by (specialize (Hmin i Hi Ht); lia).
    exists env. split; [apply elem_of_app; right; by left|done].
  - split; cbn; auto using accepted_more. intros p' [= <-]. apply (Hp p eq_refl).
  - split; cbn; auto using accepted_more. intros p' [= <-]. apply (Hp p eq_refl).
  - rename select (next_input w a i) into Hn. destruct Hn as (Hi & Hti & Hlt & Hmin). split; cbn; [done| | |done].
    + split; [lia|]. exists i. split; [done|lia].
    + intros j Hj Ht Hk [Hj1 Hj2]. destruct (decide (in_seq j ≤ a)) as [Hle|Hgt]; [auto|].
      assert (in_seq j = in_seq i) as E by (specialize (Hmin j Hj Ht); lia).
      assert (j = i) as -> by (by eapply same_sequence). done.
  - rename select (next_input w a i) into Hn. destruct Hn as (Hi & Hti & Hlt & Hmin). split; cbn; [done|auto|done|].
    intros p [= <-]. cbn. split; [lia|]. split; [exists i; split; [done|lia]|auto].
  - split; cbn; auto. intros p' [= <-]. apply (Hp p eq_refl).
Qed.
(** ** Repeated sends *)

Definition steers_input (n : Z) (f : sent) : bool := match f with SSteer id _ => id =?s pretty n | _ => false end.
Definition steers (n : Z) (out : list sent) : nat := length (List.filter (steers_input n) out).
Definition refusals (n : Z) (seen : list Envelope) : nat := length (List.filter (acknowledged_as n refused) seen).

Lemma steers_snoc n out f : steers n (out ++ [f]) = (steers n out + if steers_input n f then 1 else 0)%nat.
Proof. unfold steers. rewrite List.filter_app, length_app. cbn. by destruct (steers_input n f). Qed.

Lemma refusals_snoc n seen env :
  refusals n (seen ++ [env]) = (refusals n seen + if acknowledged_as n refused env then 1 else 0)%nat.
Proof. unfold refusals. rewrite List.filter_app, length_app. cbn. by destruct (acknowledged_as n refused env). Qed.

Lemma refusals_mono n seen env : (refusals n seen ≤ refusals n (seen ++ [env]))%nat.
Proof. rewrite refusals_snoc. lia. Qed.

Lemma once_more n out seen env :
  (steers n out ≤ 1 + refusals n seen)%nat → (steers n out ≤ 1 + refusals n (seen ++ [env]))%nat.
Proof. pose proof (refusals_mono n seen env). lia. Qed.

(** What was sent for the inputs so far. *)
Record steer_inv (s : fstate) : Prop := {
  si_sent n : steers n (fl_sent s) ≠ O → n ≤ fl_applied s ∨ ∃ p, fl_pending s = Some p ∧ pi_sequence p = n;
  si_once n : (steers n (fl_sent s) ≤ 1 + refusals n (fl_seen s))%nat;
  si_pending p : fl_pending s = Some p →
    fl_applied s < pi_sequence p
    ∧ (pi_waiting p = false → pi_written p = false →
       (steers (pi_sequence p) (fl_sent s) ≤ refusals (pi_sequence p) (fl_seen s))%nat);
}.

Ltac fcbn := cbn [fl_applied fl_pending fl_seen fl_sent fl_world pi_sequence pi_waiting pi_written].
Ltac fcbn_all := cbn [fl_applied fl_pending fl_seen fl_sent fl_world pi_sequence pi_waiting pi_written] in *.

Lemma flow_steers s s' : steer_inv s → flow s s' → steer_inv s'.
Proof.
  intros [Hsent Honce Hp] Hs. destruct Hs; fcbn_all.
  - split; auto.
  - split; fcbn; [done|auto using once_more|]. intros p' E. destruct (Hp p' E) as [? Hn]. split; [done|]. intros Hw Hr.
    specialize (Hn Hw Hr). pose proof (refusals_mono (pi_sequence p') seen env). lia.
  - assert (∀ n, steers n (out ++ [f]) = steers n out) as E.
    { intros n. rewrite steers_snoc. destruct f; cbn in *; (done || lia). }
    split; fcbn; [intros n; rewrite E; auto|intros n; rewrite E; auto|].
    intros p' Hn. destruct (Hp _ Hn). split; [done|]. by rewrite E.
  - destruct (Hp p eq_refl) as [Hlt _]. split; fcbn; [|auto using once_more|done].
    intros n Hn. left. destruct (Hsent n Hn) as [?|(p' & [= <-] & <-)]; lia.
  - destruct (Hp p eq_refl) as [Hlt _]. split; fcbn; [|auto using once_more|].
    + intros n Hn. destruct (Hsent n Hn) as [?|(p' & [= <-] & <-)]; [by left|right]. by eexists.
    + intros p' [= <-]. done.
  - destruct (Hp p eq_refl) as [Hlt _]. split; fcbn; [|auto using once_more|].
    + intros n Hn. destruct (Hsent n Hn) as [?|(p' & [= <-] & <-)]; [by left|right]. by eexists.
    + intros p' [= <-]. fcbn. split; [done|]. intros _ _. rewrite refusals_snoc.
      rename select (acknowledged_as _ refused env = true) into Hr. rewrite Hr. specialize (Honce (pi_sequence p)). lia.
  - rename select (next_input w a i) into Hn. destruct Hn as (_ & _ & Hlt & _). split; fcbn; [|done..].
    intros n Hn. left. destruct (Hsent n Hn) as [?|(p' & ? & _)]; [lia|done].
  - rename select (next_input w a i) into Hn. destruct Hn as (_ & _ & Hlt & _). split; fcbn; [|done|].
    + intros n Hn. destruct (Hsent n Hn) as [?|(p' & ? & _)]; [by left|done].
    + intros p [= <-]. fcbn. split; [done|]. intros _ _. destruct (steers (in_seq i) out) eqn:E; [lia|].
      destruct (Hsent (in_seq i)) as [?|(p' & ? & _)]; [lia|lia|done].
  - destruct (Hp p eq_refl) as [Hlt Hn]. specialize (Hn ltac:(done) ltac:(done)). split; fcbn.
    + intros n. rewrite steers_snoc. cbn [steers_input]. destruct (pretty (pi_sequence p) =?s pretty n) eqn:E.
      * intros _. right. eexists. split; [done|]. fcbn. by apply bool_decide_eq_true_1, (inj pretty) in E.
      * rewrite Nat.add_0_r. intros Hs. destruct (Hsent n Hs) as [?|(p' & [= <-] & <-)]; [by left|right]. by eexists.
    + intros n. rewrite steers_snoc. cbn [steers_input]. destruct (pretty (pi_sequence p) =?s pretty n) eqn:E; [|specialize (Honce n); lia].
      apply bool_decide_eq_true_1, (inj pretty) in E as <-. lia.
    + intros p' [= <-]. done.
Qed.
End steering.

(** ** Deliveries follow the protocol *)

Section refinement.
Context `{UUIDs, Oracle, EventSizes}.
Context (float_text : string → string) (usage_left : Usage → json → Usage) (args_len : Envelope → Z).
Context (leased : bool) (tenantID sessionID turnID : string) (tools : list string) (session turn : N).
Hypothesis Hsession : parseID sessionID = Ok session.
Hypothesis Hturn : parseID turnID = Ok turn.

Abbreviation handle := (handle float_text usage_left args_len leased tenantID sessionID turnID tools).
Abbreviation finishDelivery := (finishDelivery float_text leased tenantID sessionID turnID tools).
Abbreviation close_journal := (close_journal float_text usage_left leased tenantID sessionID turnID).
Abbreviation dstep := (dstep float_text usage_left args_len leased tenantID sessionID turnID tools session turn).
Abbreviation flows := (rtc (flow session turn)).
Abbreviation applied d := (rs_applied (dl_result d)).

Lemma flow_receives a p seen out w frames : flows (MkFlow a p seen out w) (MkFlow a p (seen ++ frames) out w).
Proof.
  revert seen. induction frames as [|env frames IH]; intros seen; [by rewrite app_nil_r|].
  eapply rtc_l; [apply flow_receive|]. change (env :: frames) with ([env] ++ frames). rewrite app_assoc. apply IH.
Qed.

(** The next input of a Turn, as [ListTurnInputs] finds it. *)
Lemma ListTurnInputs_next after w input inputs w' :
  ListTurnInputs tenantID sessionID turnID after 1 w = (Ok (input :: inputs), w') →
  ∃ i, next_input session turn w after i ∧ ti_sequence input = in_seq i ∧ ti_kind input = in_kind i.
Proof using Hsession Hturn.
  unfold ListTurnInputs, ListTurnInputsQ. intros Hr.
  apply bind_run in Hr as (p & w1 & Hq & Hr). apply of_result_run in Hq as [Hp ->].
  destruct (turnLookup_run _ _ _ _ Hp) as (_ & Es & Et). rewrite Hsession in Es. rewrite Hturn in Et.
  injection Es as Es. injection Et as Et. rewrite <- Es, <- Et in Hr. clear Es Et.
  apply bind_run in Hr as ([] & w1 & Hq & Hr). apply require_run in Hq as [_ ->].
  apply bind_run in Hr as (t & w1 & Hg & Hr).
  pose proof (GetTurn_still tenantID sessionID turnID w) as Ew. rewrite Hg in Ew. cbn in Ew. subst w1.
  apply bind_run in Hr as (rows & w1 & Hq & Hr). apply query_run in Hq as [Erows ->]. apply ret_run in Hr as [Hr _].
  destruct (tenant_session _ _ _); [|by rewrite Erows in Hr].
  set (l := List.filter _ _) in Erows.
  assert (StronglySorted (λ a b : input_row, (in_seq a <=? in_seq b) = true) (sort_by (λ a b, in_seq a <=? in_seq b) l)) as Hsort.
  { apply sort_by_sorted; intros; lia. }
  assert (∀ i, In i (sort_by (λ a b, in_seq a <=? in_seq b) l) ↔ In i (turn_inputs (w_db w)) ∧ of_turn session turn i ∧ after < in_seq i) as Hin.
  { intros i. rewrite in_sort_by. unfold l, of_turn. rewrite List.filter_In, !andb_true_iff, !bool_decide_eq_true, Z.ltb_lt.
    split; [intros (? & (? & ?) & ?)|intros (? & (? & ?) & ?)]; auto. }
  destruct (sort_by _ l) as [|i rest]; [by rewrite Erows in Hr|]. cbn in Erows.
  rewrite Erows in Hr. cbn in Hr. injection Hr as -> ->. exists i. cbn. split; [|done].
  destruct (proj1 (Hin i) ltac:(by left)) as (Hi & Ht & Hlt). split; [done|]. split; [done|]. split; [done|].
  intros j Hj Htj Hltj. assert (In j (i :: rest)) as [->|Hr] by (by apply Hin); [lia|].
  apply StronglySorted_inv in Hsort as [_ Hall]. rewrite Forall_forall in Hall.
  apply list_elem_of_In in Hr. apply Hall in Hr. lia.
Qed.

Lemma next_pending_flow now d rm v rm' seen out :
  dl_pending d = None → next_pending tenantID sessionID turnID now d rm = (v, rm') →
  flows (MkFlow (applied d) None seen out (rm_world rm')) (MkFlow (applied v.1) (dl_pending v.1) seen out (rm_world rm')).
Proof using Hsession Hturn.
  intros Hp. unfold next_pending. intros Hr. destruct (over _ rm) as [[inputs|e] rm1] eqn:Eo.
  2: { injection Hr as <- <-. cbn. by rewrite Hp. }
  destruct inputs as [|input inputs]; [injection Hr as <- <-; cbn; by rewrite Hp|].
  assert (rm1 = rm') as -> by (repeat case_match; by simplify_eq).
  apply over_run in Eo as [[_ [e ?]]|(r1 & E & Hr1)]; [done|]. destruct Hr1 as [<-|[e ?]]; [|done].
  pose proof (ListTurnInputs_still tenantID sessionID turnID (applied d) 1 (rm_world rm)) as Ew. rewrite E in Ew. cbn in Ew.
  rewrite Ew. apply ListTurnInputs_next in E as (i & Hn & Es & Ek).
  destruct (ti_kind input =?s "tool_result") eqn:E1.
  { injection Hr as <-. cbn. rewrite Hp, Es. apply rtc_once, flow_skip; [done|]. apply bool_decide_eq_true_1 in E1. congruence. }
  destruct (ti_kind input =?s "cancel"); [injection Hr as <-; cbn; by rewrite Hp|].
  destruct (messageText _) as [text|e]; [|injection Hr as <-; cbn; by rewrite Hp].
  destruct (ti_kind input =?s "message"); injection Hr as <-; cbn; rewrite ?Hp; [|done].
  rewrite Es. by apply rtc_once, flow_next.
Qed.

(** A send that failed ends the delivery: the protocol counts it as sent. *)
Lemma steer_flow now sendable d v out' a seen out w :
  steer now sendable d = (v, out') →
  applied v.1 = applied d
  ∧ ∃ p, flows (MkFlow a (dl_pending d) seen out w) (MkFlow a p seen (out ++ out') w) ∧ (v.2 = None → p = dl_pending v.1).
Proof.
  unfold steer. intros Hr. destruct (dl_pending d) as [p|] eqn:Ep.
  2: { injection Hr as <- <-. split; [done|]. exists None. by rewrite app_nil_r. }
  destruct (negb (pi_written p) && _).
  { injection Hr as <- <-. split; [done|]. exists (Some p). by rewrite app_nil_r. }
  destruct (pi_waiting p) eqn:Ew; cbn in Hr.
  { injection Hr as <- <-. split; [done|]. exists (Some p). by rewrite app_nil_r. }
  destruct (pi_written p) eqn:Er; cbn in Hr.
  { injection Hr as <- <-. split; [done|]. exists (Some p). by rewrite app_nil_r. }
  destruct sendable; injection Hr as <- <-; (split; [done|]); (eexists; split; [apply rtc_once; by apply flow_steer|done]).
Qed.
(** [follows d seen out w v frames out']: the verdict is reached along the protocol. *)
Definition follows (d : delivery) (seen : list Envelope) (out : list sent) (w : world) (v : verdict)
    (frames : list Envelope) (out' : list sent) : Prop :=
  ∃ p, flows (MkFlow (applied d) (dl_pending d) seen out w) (MkFlow (applied v.1) p (seen ++ frames) (out ++ out') w)
    ∧ (v.2 = None → p = dl_pending v.1).

Lemma follows_same d seen out w d' status frames :
  applied d' = applied d → (status = None → dl_pending d' = dl_pending d) → follows d seen out w (d', status) frames [].
Proof.
  intros Ea Ep. exists (dl_pending d). cbn. rewrite Ea, app_nil_r. split; [apply flow_receives|]. intros E. symmetry. auto.
Qed.

Lemma on_steer_ack_follows env d seen out w :
  (env_type env =?s "prompt_steer_ack") = true → follows d seen out w (on_steer_ack env d) [env] [].
Proof.
  intros Ht. unfold on_steer_ack. destruct (steer_ack env) as [ack|] eqn:Ea; [|by apply follows_same].
  destruct (dl_pending d) as [p|] eqn:Ep; [|by apply follows_same].
  destruct (sa_input ack =?s pretty (pi_sequence p)) eqn:Ei; cbn; [|by apply follows_same].
  assert (∀ test, test ack = true → acknowledged_as (pi_sequence p) test env = true) as Hack.
  { intros test Htest. unfold acknowledged_as, ack_for. rewrite Ht, Ea. cbn. by rewrite Ei. }
  destruct (sa_accepted ack) eqn:E1.
  { exists None. cbn. rewrite Ep, app_nil_r. split; [|done]. apply rtc_once, flow_accept. by apply Hack. }
  destruct (sa_written ack && _).
  { eexists. cbn. rewrite Ep, app_nil_r. split; [|done]. apply rtc_once, flow_written. }
  destruct (refused ack) eqn:E2; cbn.
  - destruct (pi_written p) eqn:E3; cbn; [repeat case_match; by apply follows_same|].
    eexists. cbn. rewrite Ep, app_nil_r. split; [|done]. apply rtc_once, flow_refused; [by apply Hack|done].
  - repeat case_match; by apply follows_same.
Qed.

Lemma on_upstream_follows env d rm v rm' seen out w :
  on_upstream float_text usage_left args_len leased tenantID sessionID turnID tools env d rm = (v, rm') →
  follows d seen out w v [env] [].
Proof.
  unfold on_upstream. intros Hr. destruct (observe _ _ rm) as [[wr j] rm1].
  destruct (mergeObservation _ _ _ _) as [valid r] eqn:Em. apply mergeObservation_keeps in Em as [_ Ea].
  set (d1 := set_result (set_journal d j) r) in Hr.
  assert (applied d1 = applied d ∧ dl_pending d1 = dl_pending d) as [E1 E2] by done.
  clearbody d1. clear Ea. destruct valid; cbn in Hr; [|injection Hr as <- <-; by apply follows_same].
  destruct (is_ok wr); cbn in Hr; [|injection Hr as <- <-; by apply follows_same]. unfold on_frame in Hr.
  destruct (env_type env =?s "error"); [case_match; injection Hr as <- <-; by apply follows_same|].
  destruct (env_type env =?s "done"); [injection Hr as <- <-; by apply follows_same|].
  destruct (env_type env =?s "function_call").
  { destruct (flush _ rm1) as [[f j1] rm2]. destruct (is_ok f); cbn in Hr; [|injection Hr as <- <-; by apply follows_same].
    destruct (record _ _ _ _ _ env rm2) as [r1 rm3]. injection Hr as <- <-. destruct (is_ok r1); by apply follows_same. }
  destruct (env_type env =?s "prompt_steer_ack") eqn:Es.
  { injection Hr as <- <-. pose proof (on_steer_ack_follows env d1 seen out w Es) as Hf.
    unfold follows in *. by rewrite E1, E2 in Hf. }
  destruct (_ || _); injection Hr as <- <-; by apply follows_same.
Qed.

Lemma on_tick_follows now later sendable d rm v rm' out' seen out :
  on_tick tenantID sessionID turnID tools now later sendable d rm = (v, rm', out') →
  follows d seen out (rm_world rm') v [] out'.
Proof using Hsession Hturn.
  intros [(code & -> & Hc & ->)|[[-> ->]|[[-> ->]|(d1 & out1 & rm1 & rm2 & Hf & _ & Hv)]]]%on_tick_run.
  - by apply follows_same.
  - by apply follows_same.
  - exists (dl_pending d). cbn. rewrite app_nil_r. split; [|done]. by apply rtc_once, flow_send.
  - assert (applied d1 = applied d ∧ dl_pending d1 = dl_pending d
      ∧ ∀ w, flows (MkFlow (applied d) (dl_pending d) seen out w) (MkFlow (applied d) (dl_pending d) seen (out ++ out1) w))
      as (E1 & E2 & Hout).
    { apply function_start_spec in Hf as [[-> ->]|[[call ->] (? & ? & ? & ? & ->)]].
      - split_and!; [done..|]. intros w. by rewrite app_nil_r.
      - split_and!; [done..|]. intros w. by apply rtc_once, flow_send. }
    unfold follows. rewrite app_nil_r.
    destruct Hv as [[-> ->]|[(v2 & Hn & Hp & Hv)|(_ & out2 & Hs & ->)]].
    + exists (dl_pending d). cbn. rewrite E1. split; [apply Hout|done].
    + apply (next_pending_flow _ _ _ _ _ seen (out ++ out1)) in Hp; [|done]. rewrite E1 in Hp.
      destruct Hv as [(-> & -> & Hsome)|(d2 & out2 & -> & Hs & ->)].
      * eexists. split; [etrans; [apply Hout|]; rewrite <- E2, Hn; exact Hp|]. by destruct (v.2), Hsome.
      * apply (steer_flow _ _ _ _ _ (applied d2) seen (out ++ out1) (rm_world rm')) in Hs as (Ea & p & Hs & Hv).
        exists p. split; [|done]. etrans; [apply Hout|]. rewrite <- E2, Hn. etrans; [exact Hp|]. cbn.
        rewrite Ea, app_assoc. exact Hs.
    + apply (steer_flow _ _ _ _ _ (applied d) seen (out ++ out1) (rm_world rm')) in Hs as (Ea & p & Hs & Hv).
      exists p. split; [|done]. etrans; [apply Hout|]. rewrite Ea, E1, app_assoc, <- E2. exact Hs.
Qed.

Lemma handle_follows a d rm v rm' frames out' seen out :
  handle a d rm = (v, rm', frames, out') → follows d seen out (rm_world rm') v frames out'.
Proof using Hsession Hturn.
  intros Hr. destruct a as [frame|r| |r queued| |[env|]|now later sendable]; cbn [Delivery.handle] in Hr.
  - injection Hr as <- <- <- <-. unfold on_preparation. repeat case_match; by apply follows_same.
  - unfold on_function_reply in Hr. destruct (confirm _ _ _ _ r rm) as [c rm1]. injection Hr as <- <- <- <-.
    case_match; by apply follows_same.
  - destruct (flush _ rm) as [[f j] rm1]. injection Hr as <- <- <- <-. case_match; by apply follows_same.
  - unfold on_cancel_reply in Hr. destruct (drain _ _ queued d) as [b d1] eqn:Ed.
    destruct (recordCancellation _ _ _ _ _ r d1 rm) as [[[b2 d2] rm2] fr2] eqn:Ec.
    apply drain_keeps in Ed as (_ & A1 & _). apply recordCancellation_keeps in Ec as (_ & A2 & _).
    injection Hr as <- <- <- <-. repeat case_match; apply follows_same; cbn; congruence.
  - injection Hr as <- <- <- <-. by apply follows_same.
  - destruct (on_upstream _ _ _ _ _ _ _ _ env d rm) as [v1 rm1] eqn:Eu. injection Hr as <- <- <- <-.
    by eapply on_upstream_follows.
  - injection Hr as <- <- <- <-. by apply follows_same.
  - destruct (on_tick _ _ _ _ _ _ _ d rm) as [[v1 rm1] out1] eqn:Et. injection Hr as <- <- <- <-.
    by eapply on_tick_follows.
Qed.
(** A delivery as a state of the protocol; what is pending matters in the loop. *)
Record abstracts (s : dstate) (f : fstate) : Prop := {
  ab_applied : fl_applied f = applied (ds_delivery s);
  ab_seen : fl_seen f = ds_seen s;
  ab_sent : fl_sent f = ds_sent s;
  ab_world : fl_world f = rm_world (ds_remote s);
  ab_pending : ds_phase s = Looping → fl_pending f = dl_pending (ds_delivery s);
}.

Lemma finishDelivery_applied r d rm d' status rm' frames :
  finishDelivery r d rm = (d', status, rm', frames) → applied d' = applied d.
Proof.
  assert (∀ d rm frames d' status rm' frames',
    conclude tenantID sessionID turnID tools d rm frames = (d', status, rm', frames') → applied d' = applied d) as Hc.
  { intros *. unfold conclude. intros Hc. repeat case_match; by simplify_eq. }
  unfold Delivery.finishDelivery. intros Hr. destruct (bool_decide (dl_cancel d = None)); [by eapply Hc|].
  destruct r as [r|]; [|by simplify_eq].
  destruct (recordCancellation _ _ _ _ _ r d rm) as [[[b d1] rm1] fr1] eqn:Er.
  apply recordCancellation_keeps in Er as (_ & <- & _).
  destruct b; cbn in Hr; [|by simplify_eq]. destruct r as [ack|e]; [|by simplify_eq].
  destruct (ak_applied ack); [by simplify_eq|]. destruct (negb _); [by simplify_eq|by eapply Hc].
Qed.

Lemma close_applied queued incomplete d status rm d' status' rm' :
  close_journal queued incomplete d status rm = (d', status', rm') → applied d' = applied d.
Proof.
  unfold Delivery.close_journal. intros Hr. destruct (drain _ _ queued d) as [b d1] eqn:Ed.
  apply drain_keeps in Ed as (_ & <- & _). destruct b; destruct (flush _ rm) as [[f j] rm1];
    destruct (is_ok f), incomplete; by simplify_eq.
Qed.

Lemma dstep_refines s s' f :
  good_remote (ds_remote s) → dstep s s' → abstracts s f → ∃ f', flows f f' ∧ abstracts s' f'.
Proof using Hsession Hturn.
  intros Hg Hs [Ea Ese Eo Ew Ep]. pose proof (dstep_steps _ _ _ _ _ _ _ _ _ _ _ _ Hs Hg) as Hsteps.
  destruct f as [a p seen0 out0 w]. cbn in *.
  assert (flows (MkFlow a p seen0 out0 w) (MkFlow a p seen0 out0 (rm_world (ds_remote s')))) as Hfirst.
  { apply rtc_once, flow_store. by rewrite Ew. }
  destruct Hs as [ar d rm seen out d' v rm' frames out' He Hen Hr|r d rm seen out d' status rm' frames He Hr
    |queued incomplete d rm seen out status d' status' rm' Hl Hq Hr|d rm seen out ph rm' Hst El]; cbn in *; subst.
  - apply (handle_follows _ _ _ _ _ _ _ seen out) in Hr as (p' & Hf & Hp'). cbn in Hf, Hp'. rewrite Ep in * by done.
    eexists. split; [etrans; [exact Hfirst|exact Hf]|]. split; cbn; [done..|]. intros Hv. apply Hp'. by destruct v.
  - eexists. split; [etrans; [exact Hfirst|apply flow_receives]|]. split; cbn; [|done..].
    by apply finishDelivery_applied in Hr.
  - exists (MkFlow (applied d) p (seen ++ queued) (if status' =?s "failed" then out ++ [SAbort] else out) (rm_world rm')).
    split; [etrans; [exact Hfirst|]; etrans; [apply (flow_receives _ _ _ _ _ queued)|]|split; cbn; [|done..]].
    + destruct (status' =?s "failed"); [by apply rtc_once, flow_send|done].
    + by apply close_applied in Hr.
  - eexists. split; [exact Hfirst|]. by split.
Qed.

Definition flow_start (first : Z) (w : world) (out : list sent) : fstate := MkFlow first None [] out w.

(** The first frame of a delivery is not an input. *)
Lemma run_refines subscribed sendable prepared first sub rm s :
  good_remote rm → rtc dstep (deliver_start subscribed sendable prepared first sub rm) s →
  ∃ f, flows (flow_start first (rm_world rm) []) f ∧ abstracts s f.
Proof using Hsession Hturn.
  intros Hg Hs.
  assert (∃ f, flows (flow_start first (rm_world rm) []) f ∧ abstracts (deliver_start subscribed sendable prepared first sub rm) f) as Hstart.
  { unfold deliver_start. destruct subscribed; [|by eexists; split; [reflexivity|split]].
    destruct sendable; (eexists; split; [apply rtc_once, (flow_send _ _ _ _ _ _ _ (match prepared with Some p => SStart (pp_handle p) | None => SPrompt end));
      by destruct prepared|by split]). }
  assert (good_remote (ds_remote (deliver_start subscribed sendable prepared first sub rm))) as Hg0.
  { unfold deliver_start. by destruct subscribed, sendable. }
  clear Hg. induction Hs as [|s1 s2 s3 H12 H23 IH]; [done|]. apply IH.
  - destruct Hstart as (f & Hf & Hab). destruct (dstep_refines _ _ _ Hg0 H12 Hab) as (f' & Hf' & Hab'). exists f'. split; [by etrans|done].
  - eapply good_steps; [|exact Hg0]. by eapply dstep_steps.
Qed.
(** A delivery has an acknowledgement for every message it counts as applied. *)
Lemma applied_messages_acknowledged subscribed sendable prepared first sub rm s :
  good_remote rm → inputs_wf (rm_world rm) → reached (rm_world rm) first →
  rtc dstep (deliver_start subscribed sendable prepared first sub rm) s →
  steps (rm_world rm) (rm_world (ds_remote s)) ∧ reached (rm_world (ds_remote s)) (applied (ds_delivery s)) ∧
  ∀ i, In i (turn_inputs (w_db (rm_world (ds_remote s)))) → of_turn session turn i → in_kind i = "message" →
    first < in_seq i ≤ applied (ds_delivery s) → accepted_in (ds_seen s) (in_seq i).
Proof using Hsession Hturn.
  intros Hg Hiw Hre Hs. apply run_refines in Hs as (f & Hf & Hab); [|done].
  assert (applied_inv session turn first f ∧ steps (rm_world rm) (fl_world f)) as [Hinv Hst].
  { eapply (rtc_ind_r (λ f, applied_inv session turn first f ∧ steps (rm_world rm) (fl_world f))); [| |exact Hf].
    - split; [|done]. split; cbn; [done|split; [lia|done]|lia|done].
    - intros f1 f2 _ Hstep [Hinv1 Hst1]. split; [by eapply flow_applied|]. by destruct Hstep; [etrans|..]. }
  rewrite (ab_world _ _ Hab) in Hst. split; [done|]. rewrite <- (ab_world _ _ Hab), <- (ab_applied _ _ Hab), <- (ab_seen _ _ Hab).
  split; [apply Hinv|]. apply (ai_acked _ _ _ _ Hinv).
Qed.

(** ** The end of the Turn *)

Lemma complete_inputs status outcome native n w r w' :
  CompleteExecution tenantID sessionID turnID status outcome native n w = (Ok r, w') →
  turn_inputs (w_db w') = turn_inputs (w_db w).
Proof.
  intros Hr. apply (moves_run (on_db same_inputs)) in Hr as [E _]; [exact E|].
  unfold CompleteExecution. apply (moves_bind _); [moves_tac|intros p].
  destruct (terminalStatus status) eqn:Et; [|apply (moves_throw_bind _)].
  moves_tac. apply (withSessionState_moves _). intros. apply (complete_turn_moves _); [| |done]; intros;
    unfold insert_event, CountTurnEvent; moves_tac; apply (moves_exec _); intros w1; (split; [done|cbn; lia]).
Qed.

Lemma complete_wf status outcome native n rm r rm' :
  over (CompleteExecution tenantID sessionID turnID status outcome native n) rm = (r, rm') →
  turns_wf (w_db (rm_world rm)) → turns_wf (w_db (rm_world rm')).
Proof.
  intros Ho. apply steps_turns_wf. eapply over_steps; [|exact Ho]. intros w.
  pose proof (step_serve w (ReqCompleteExecution tenantID sessionID turnID status outcome native n)) as Hs.
  apply rtc_once. cbn [serve] in Hs. unfold ignore, mbind, tx_bind in Hs. by destruct (CompleteExecution _ _ _ _ _ _ _ w) as [[]].
Qed.

(** A Run that ends as completed was delivered as completed, with every message
    of the Turn applied. *)
Lemma finishRun_completed model res status rm t rm' :
  turns_wf (w_db (rm_world rm)) →
  finishRun float_text tenantID sessionID turnID model res status rm = (Ok t, rm') → tn_status t = "completed" →
  status = "completed" ∧ turn_inputs (w_db (rm_world rm')) = turn_inputs (w_db (rm_world rm))
  ∧ ∀ i, In i (turn_inputs (w_db (rm_world rm))) → of_turn session turn i → in_kind i = "message" → in_seq i ≤ rs_applied res.
Proof using Hsession Hturn.
  intros Hwf. unfold finishRun. intros Hr Ht.
  assert (∀ status outcome native n rm r rm', turns_wf (w_db (rm_world rm)) →
    over (CompleteExecution tenantID sessionID turnID status outcome native n) rm = (Ok r, rm') →
    tn_status r = status ∧ turn_inputs (w_db (rm_world rm')) = turn_inputs (w_db (rm_world rm))
    ∧ (status = "completed" → ∀ i, In i (turn_inputs (w_db (rm_world rm))) → of_turn session turn i → in_kind i = "message" → in_seq i ≤ n)) as Hcall.
  { intros status1 outcome native n rm1 r1 rm2 Hwf1 [[_ [e ?]]|(r2 & E & Hr2)]%over_run; [done|].
    destruct Hr2 as [<-|[e ?]]; [|done]. pose proof (complete_inputs _ _ _ _ _ _ _ E) as Ei.
    destruct (turnLookup tenantID sessionID turnID) as [p|e] eqn:Ep.
    2: { unfold CompleteExecution in E. rewrite Ep in E. discriminate E. }
    destruct (turnLookup_run _ _ _ _ Ep) as (_ & Es & Et). rewrite Hsession in Es. rewrite Hturn in Et.
    injection Es as Es. injection Et as Et.
    destruct (complete_execution_run _ _ _ _ _ _ _ _ _ _ _ Hwf1 Ep E) as (_ & _ & _ & Hst & Hall).
    split; [done|]. split; [done|]. intros Hc i Hi [Hs1 Hs2] Hk. rewrite Es in Hs1. rewrite Et in Hs2. by apply Hall. }
  destruct (us_model _ =?s ""); cbv zeta in Hr;
    (destruct (_ || _); cbn [rs_applied with_done] in Hr;
     (destruct (over _ rm) as [[r1|e1] rm1] eqn:Eo;
      [injection Hr as -> ->; destruct (Hcall _ _ _ _ _ _ _ Hwf Eo) as (Hst & Ei & Hall); rewrite Hst in Ht; try discriminate Ht; auto|])).
  all: destruct (bool_decide (e1 = ErrUnappliedInputs)); [|discriminate Hr].
  all: assert (turns_wf (w_db (rm_world rm1))) as Hwf1 by (by eapply complete_wf).
  all: destruct (Hcall _ _ _ _ _ _ _ Hwf1 Hr) as (Hst & _ & _); rewrite Hst in Ht; discriminate Ht.
Qed.
(** ** Properties *)

(** C15. Every delivery follows the steering protocol: whatever arrives in whatever
    order, whatever other clients do and whatever calls fail, the applied number,
    the frames received and the frames sent of the delivery are those of a run of
    the protocol, in which inputs are taken up in order, one at a time. *)
Theorem delivery_refines_steering subscribed sendable prepared first sub rm s :
  good_remote rm → rtc dstep (deliver_start subscribed sendable prepared first sub rm) s →
  ∃ f, flows (flow_start first (rm_world rm) []) f ∧ abstracts s f.
Proof using Hsession Hturn. apply run_refines. Qed.

(** No message of a completed Turn is lost: when the Run of a delivery ends with
    the Turn completed, every message of the Turn, those admitted while it was
    running included, is one of the initial inputs or was acknowledged by the
    device as accepted. *)
Lemma completed_messages_acknowledged subscribed sendable prepared first sub rm s status model t rm' :
  good_remote rm → turns_wf (w_db (rm_world rm)) → inputs_wf (rm_world rm) → reached (rm_world rm) first →
  rtc dstep (deliver_start subscribed sendable prepared first sub rm) s → ds_phase s = Returned status →
  finishRun float_text tenantID sessionID turnID model (dl_result (ds_delivery s)) status (ds_remote s) = (Ok t, rm') →
  tn_status t = "completed" →
  ∀ i, In i (turn_inputs (w_db (rm_world rm'))) → of_turn session turn i → in_kind i = "message" →
    in_seq i ≤ first ∨ accepted_in (ds_seen s) (in_seq i).
Proof using Hsession Hturn.
  intros Hg Htw Hiw Hre Hs _ Hr Ht i Hi Hti Hk.
  destruct (applied_messages_acknowledged _ _ _ _ _ _ _ Hg Hiw Hre Hs) as (Hst & _ & Hacked). apply (steps_turns_wf _ _ Hst) in Htw.
  destruct (finishRun_completed _ _ _ _ _ _ Htw Hr Ht) as (_ & Ei & Hall). rewrite Ei in Hi.
  destruct (decide (in_seq i ≤ first)) as [|Hgt]; [by left|right]. apply Hacked; [done..|]. specialize (Hall i Hi Hti Hk). lia.
Qed.

(** C16. Inputs are not repeated behind the device's back: a delivery sends each
    input at most once, plus once for every time the device answered that it was
    not ready for it. *)
Theorem inputs_sent_once subscribed sendable prepared first sub rm s n :
  good_remote rm → rtc dstep (deliver_start subscribed sendable prepared first sub rm) s →
  (steers n (ds_sent s) ≤ 1 + refusals n (ds_seen s))%nat.
Proof using Hsession Hturn.
  intros Hg Hs. apply run_refines in Hs as (f & Hf & Hab); [|done].
  assert (steer_inv f) as Hinv.
  { eapply (rtc_ind_r steer_inv); [| |exact Hf].
    - split; [by intros m []|intros m; cbn; lia|done].
    - intros f1 f2 _ Hstep Hinv1. by eapply flow_steers. }
  rewrite <- (ab_seen _ _ Hab), <- (ab_sent _ _ Hab). apply Hinv.
Qed.
End refinement.

(** ** Witnesses *)

(** A second message is admitted to the running Turn. *)
Definition steered_world : world := run [req_message "k2" "more"] started_world.

Lemma steered_steps : steps world0 steered_world.
Proof. eapply steps_trans; [exact started_world_steps|]. unfold steered_world. apply run_steps. Qed.

Definition ack_frame (members : list (string * json)) : Envelope :=
  MkEnvelope "prompt_steer_ack" turn_id (raw_of (JObj (("input_id", JStr "2") :: members))).

(** It is sent, refused, sent again and accepted, and the Turn completes. *)
Definition steered_events : list devent :=
  [ESelect (ATick 0 0 true); ESelect (AUpstream (Some (ack_frame [("error_code", JStr "busy")])));
   ESelect (ATick 250000 250000 true); ESelect (AUpstream (Some (ack_frame [("accepted", JBool true)])));
   ESelect (AUpstream (Some (done_frame "Hello"))); EFinish None; EClose [] false].

Definition steered_start : dstate := deliver_start true true None 1 false (MkRemote steered_world []).
Definition steered_delivery : dstate := demo_dexec steered_start steered_events.

Lemma steered_run :
  rtc (dstep no_float no_usage no_args false tenant_id session_id turn_id [] 2 100) steered_start steered_delivery.
Proof. apply dexec_steps. Qed.

Lemma steered_good : good_remote (MkRemote steered_world []).
Proof. exact (proj2 (steps_events _ _ steered_steps) world0_events_wf). Qed.

Lemma delivery_refines_steering_witness :
  ∃ f, rtc (flow 2 100) (flow_start 1 steered_world []) f ∧ abstracts steered_delivery f ∧ fl_applied f = 2.
Proof.
  destruct (@delivery_refines_steering binary_uuids demo_oracle demo_sizes no_float no_usage no_args false tenant_id session_id turn_id [] 2 100 eq_refl eq_refl
    true true None 1 false (MkRemote steered_world []) steered_delivery steered_good steered_run) as (f & Hf & Hab).
  exists f. split; [exact Hf|]. split; [exact Hab|]. rewrite (ab_applied _ _ Hab). vm_compute; reflexivity.
Defined.

Lemma inputs_sent_once_witness :
  steers 2 (ds_sent steered_delivery) = 2%nat
  ∧ (steers 2 (ds_sent steered_delivery) ≤ 1 + refusals 2 (ds_seen steered_delivery))%nat.
Proof.
  split; [vm_compute; reflexivity|].
  exact (@inputs_sent_once binary_uuids demo_oracle demo_sizes no_float no_usage no_args false tenant_id session_id turn_id [] 2 100 eq_refl eq_refl
    true true None 1 false (MkRemote steered_world []) steered_delivery 2 steered_good steered_run).
Defined.

Abbreviation steered_finish :=
  (finishRun no_float tenant_id session_id turn_id "model" (dl_result (ds_delivery steered_delivery)) "completed"
    (ds_remote steered_delivery)).

Definition turn_of (r : result Turn) : Turn :=
  match r with Ok t => t | Err _ => MkTurn "" "" "" 0 None None None None None false end.

Lemma turn_of_ok (x : result Turn * remote) : is_ok x.1 = true → x = (Ok (turn_of x.1), x.2).
Proof. by destruct x as [[t|e] rm]. Qed.

Lemma completed_messages_acknowledged_witness :
  in_seq <$> turn_inputs (w_db (rm_world steered_finish.2)) = [1; 2]
  ∧ ∀ i, In i (turn_inputs (w_db (rm_world steered_finish.2))) → of_turn 2 100 i → in_kind i = "message" →
      in_seq i ≤ 1 ∨ accepted_in (ds_seen steered_delivery) (in_seq i).
Proof.
  split; [vm_compute; reflexivity|].
  refine (@completed_messages_acknowledged binary_uuids demo_oracle demo_sizes no_float no_usage no_args false tenant_id session_id turn_id [] 2 100 eq_refl eq_refl
    true true None 1 false (MkRemote steered_world []) steered_delivery "completed" "model" (turn_of steered_finish.1) steered_finish.2
    steered_good _ _ _ steered_run _ _ _).
  - exact (steps_turns_wf _ _ steered_steps world0_turns_wf).
  - exact (ia_wf _ _ (steps_inputs _ _ steered_steps) world0_inputs_wf).
  - assert (in_seq <$> turn_inputs (w_db steered_world) = [1; 2]) as E by (vm_compute; reflexivity).
    destruct (turn_inputs (w_db steered_world)) as [|i l] eqn:El; [discriminate E|].
    exists i. cbn [rm_world]. rewrite El. split; [by left|]. cbn in E. injection E as -> _. lia.
  - vm_compute; reflexivity.
  - apply turn_of_ok. vm_compute; reflexivity.
  - vm_compute; reflexivity.
Defined.
