(* ===== verification/ManagedRuntimes.v ===== *)
(** * ManagedRuntimes

    The lifecycle of managed runtimes ([runtime_lifecycle.go],
    [runtime_pending.go], [runtime_connections.go], [runtime_initialization.go],
    [runtime_setup.go], [runtime_provider_selection.go] of
    [services/agents-api/internal/execution]): a runtime is created once for an
    environment, observed, initialized, kept alive and finally destroyed, through
    a sandbox provider whose answers may be lost.

    What the loop meets is a class of inputs, [Surroundings], indexed by the
    number of calls made so far: what other clients did to the store before the
    call, whether a call to the store is answered, what the provider answers, which
    device is connected, the clock.  The calls to the provider are recorded.  The
    gate of the lifecycle makes its operations exclude each other; they are the
    steps of [lstep]. *)
From stdpp Require Import base tactics list strings numbers relations.
From S2P Require Import Prelude GoJson Contract Items Database Queries EnvQueries SessionLog Turns Environments Reads Configuration Setup.
From S2P Require Import Relations.

(** ** The provider *)

(** The errors of [sandbox]. *)
Definition sandbox_invalid : error := ErrOther "invalid sandbox configuration".
Definition sandbox_ownership : error := ErrOther "sandbox ownership mismatch".
Definition sandbox_not_found : error := ErrOther "sandbox allocation not found".
Definition sandbox_unconfirmed : error := ErrOther "initialization command outcome unconfirmed; reclaim allocation before reuse".

Record Reference := MkReference { rf_tenant : string; rf_env : string; rf_alloc : string }.

#[export] Instance reference_eq_dec : EqDecision Reference.
Proof. solve_decision. Defined.

Record Info := MkInfo { inf_reference : Reference; inf_provider : string; inf_state : string; inf_complete : bool }.

(** Standard output as the decoder reads it, standard error, exit code. *)
Record CommandResult := MkCommandResult { cr_stdout : raw_message; cr_stderr : string; cr_exit : Z }.

(** What the lifecycle asked of a provider or, for a release, of the store.  Of a
    bootstrap the reference is recorded, of a command its number. *)
Inductive pcall :=
  | PCreate (r : Reference)
  | PInfo (r : Reference)
  | PRenew (r : Reference)
  | PKill (r : Reference) (ok : bool)
  | PCommand (r : Reference) (step : nat)
  | PRelease (r : Reference).

(** ** Setup *)

Inductive runtimeSetupOperation :=
  | OpConfigure (env : list (string * string))
  | OpSkill (skill : InlineSkill)
  | OpPackages (action : string) (packages : list string)
  | OpSetup (command cwd : string).

Definition package_operation (action : string) (l : list string) : list runtimeSetupOperation :=
  match l with [] => [] | _ => [OpPackages action l] end.

Definition setupOperations (s : EnvironmentSetup) : list runtimeSetupOperation :=
  if setup_empty s then [] else
  [OpConfigure (es_env s)] ++ List.map OpSkill (es_skills s)
  ++ package_operation "system" (packages (pk_system (es_packages s)))
  ++ package_operation "npm" (packages (pk_npm (es_packages s)))
  ++ package_operation "python" (packages (pk_python (es_packages s)))
  ++ List.map (λ c, OpSetup (su_command_text c) (if su_cwd c =?s "" then "/workspace" else su_cwd c)) (es_commands s).

(** The receipt of a command: version, outcome, size. *)
Record Receipt := MkCommandReceipt { cm_version : Z; cm_outcome : string; cm_size : option Z }.

Definition dec_receipt (sized : bool) : decoder Receipt := dec_struct (λ r k v,
  if key_is "version" k then n ← dec_int64 (cm_version r) v; Some (MkCommandReceipt n (cm_outcome r) (cm_size r))
  else if key_is "outcome" k then s ← dec_string (cm_outcome r) v; Some (MkCommandReceipt (cm_version r) s (cm_size r))
  else if sized && key_is "size_bytes" k then n ← dec_ptr 0 dec_int64 (cm_size r) v; Some (MkCommandReceipt (cm_version r) (cm_outcome r) n)
  else Some r).

(** The command ran and reports completion. *)
Definition confirmed (sized : bool) (r : CommandResult) : option Receipt :=
  if negb (cr_exit r =? 0) || negb (cr_stderr r =?s "") then None else
  receipt ← raw_value (cr_stdout r) ≫= dec_receipt sized (MkCommandReceipt 0 "" None);
  if (cm_version receipt =? 1) && (cm_outcome receipt =?s "completed") then Some receipt else None.

(** ** The state of the lifecycle *)

(** [runtimeConnection]: the socket, its generation, the last revision, whether it
    was connected. *)
Record runtimeConnection := MkRuntimeConnection { cn_peer : N; cn_generation : string; cn_revision : Z; cn_connected : bool }.

Record runtimeInitialization := MkInitialization {
  it_owner : RuntimeAllocation; it_next : nat; it_count : nat; it_files : nat;
  it_operations : list runtimeSetupOperation; it_deadline : Z }.

(** The maps are association lists on the allocation's identifier. *)
Record lifecycle := MkLifecycle {
  lf_cursor : string; lf_pending : string; lf_connections : list (string * runtimeConnection);
  lf_initializing : option runtimeInitialization }.

(** The fields of a lifecycle that has just been built. *)
Definition initial_lifecycle : lifecycle := MkLifecycle "" "" [] None.

Definition set_cursor (l : lifecycle) (c : string) : lifecycle := MkLifecycle c (lf_pending l) (lf_connections l) (lf_initializing l).
Definition set_pending_cursor (l : lifecycle) (c : string) : lifecycle := MkLifecycle (lf_cursor l) c (lf_connections l) (lf_initializing l).
Definition set_connections (l : lifecycle) (m : list (string * runtimeConnection)) : lifecycle :=
  MkLifecycle (lf_cursor l) (lf_pending l) m (lf_initializing l).
Definition set_initializing (l : lifecycle) (i : option runtimeInitialization) : lifecycle :=
  MkLifecycle (lf_cursor l) (lf_pending l) (lf_connections l) i.

Definition assoc {A} (k : string) (m : list (string * A)) : option A := snd <$> head (List.filter (λ kv, kv.1 =?s k) m).
Definition assoc_delete {A} (k : string) (m : list (string * A)) : list (string * A) := List.filter (λ kv, negb (kv.1 =?s k)) m.
Definition assoc_put {A} (k : string) (a : A) (m : list (string * A)) : list (string * A) := (k, a) :: assoc_delete k m.

(** ** What the lifecycle meets *)

(** Each input by the number of the call that meets it.  [su_file] is the outcome
    of reading a stored initial file: its path, its declared size and the length
    of its body; [su_setup] that of reading the sealed setup of an environment;
    [su_skill] whether the archive of a skill could be read. *)
Class Surroundings := {
  su_others : nat → list request;
  su_fate : nat → fate;
  su_ping : nat → result unit;
  su_info : nat → result Info;
  su_kill : nat → result unit;
  su_run : nat → result CommandResult;
  su_peer : nat → option N;
  su_now : nat → Z;
  su_hash : nat → string;
  su_generation : nat → string;
  su_setup : nat → result EnvironmentSetup;
  su_file : nat → result (string * option Z * Z);
  su_skill : nat → bool;
}.

(** [RuntimeProviders]: the parsed address of Core ([None] when it does not parse),
    the default provider, those chosen for an engine, and the providers by key,
    [false] for a nil one. *)
Record RuntimeProviders := MkProviders {
  rp_core : option URL; rp_default : string; rp_engines : list (string * string); rp_providers : list (string * bool) }.

(** Whether a provider is configured under a key. *)
Definition has_provider (config : RuntimeProviders) (key : string) : bool :=
  default false (assoc key (rp_providers config)).

Definition core_url_ok (u : option URL) : bool :=
  match u with
  | None => false
  | Some u => negb (url_host u =?s "") && ((url_scheme u =?s "http") || (url_scheme u =?s "https"))
      && negb (url_user u) && (url_query u =?s "") && (url_fragment u =?s "")
  end.

(** What [newRuntimeLifecycle] checks; [registry] is false for a nil registry. *)
Definition newRuntimeLifecycle `{UUIDs} (registry : bool) (config : RuntimeProviders) : result lifecycle :=
  _ ← reject_if (negb (core_url_ok (rp_core config)) || bool_decide (rp_providers config = []) || negb registry) sandbox_invalid;
  _ ← reject_if (negb (forallb (λ kp : string * bool, canonical_uuid kp.1 && kp.2) (rp_providers config))) sandbox_invalid;
  _ ← reject_if (negb (forallb (λ e : string * string, negb (e.2 =?s "") && has_provider config e.2) (rp_engines config))) sandbox_invalid;
  _ ← reject_if (negb (rp_default config =?s "") && negb (has_provider config (rp_default config))) sandbox_invalid;
  Ok initial_lifecycle.

Definition ProviderForEngine (r : RuntimeProviders) (kind : string) : string :=
  if bool_decide (rp_engines r = []) then rp_default r else default "" (assoc kind (rp_engines r)).

Record rstate := MkRState { rt_world : world; rt_life : lifecycle; rt_trace : list pcall; rt_count : nat }.

Definition rt (A : Type) := rstate → result A * rstate.

#[export] Instance rt_ret : MRet rt := λ A a s, (Ok a, s).
#[export] Instance rt_bind : MBind rt := λ A B f m s,
  match m s with (Ok a, s') => f a s' | (Err e, s') => (Err e, s') end.

Definition fail {A} (e : error) : rt A := λ s, (Err e, s).
Definition demand (c : bool) (e : error) : rt unit := if c then mret tt else fail e.

(** The outcome of [m] as a value. *)
Definition attempt {A} (m : rt A) : rt (result A) := λ s, let '(r, s') := m s in (Ok r, s').

Definition life : rt lifecycle := λ s, (Ok (rt_life s), s).
Definition set_life (l : lifecycle) : rt unit := λ s, (Ok tt, MkRState (rt_world s) l (rt_trace s) (rt_count s)).
Definition change_life (f : lifecycle → lifecycle) : rt unit := l ← life; set_life (f l).

(** An input, and a recorded call. *)
Definition input {A} (f : nat → A) : rt A := λ s,
  (Ok (f (rt_count s)), MkRState (rt_world s) (rt_life s) (rt_trace s) (S (rt_count s))).
Definition called (c : pcall) : rt unit := λ s,
  (Ok tt, MkRState (rt_world s) (rt_life s) (rt_trace s ++ [c]) (rt_count s)).
Definition lift {A} (r : result A) : rt A := λ s, (r, s).

Section lifecycle.
Context `{UUIDs, Oracle, EventSizes, Surroundings}.

(** The world after a list of requests, whatever each returned. *)
Fixpoint serve_all (rs : list request) (w : world) : world :=
  match rs with [] => w | r :: rs' => serve_all rs' (serve r w).2 end.

(** A call to the store, behind whatever other clients did first. *)
Definition ask {A} (call : tx A) : rt A := λ s,
  let k := rt_count s in
  let '(r, rm) := over call (MkRemote (serve_all (su_others k) (rt_world s)) [su_fate k]) in
  (r, MkRState (rm_world rm) (rt_life s) (rt_trace s) (S k)).

Context (leased : bool) (config : RuntimeProviders).

(** [CheckExecutionOwnership]. *)
Definition check_ownership : rt unit := ping ← input su_ping; ask (CheckExecutionOwnership leased ping).

Definition runtimeReference (owner : RuntimeAllocation) : Reference :=
  MkReference (ra_tenant owner) (ra_env owner) (ra_id owner).

Definition create (r : Reference) : rt Info := _ ← called (PCreate r); info ← input su_info; lift info.
Definition get_info (r : Reference) : rt Info := _ ← called (PInfo r); info ← input su_info; lift info.
Definition renew (r : Reference) : rt Info := _ ← called (PRenew r); info ← input su_info; lift info.
Definition kill (r : Reference) : rt unit :=
  outcome ← input su_kill; _ ← called (PKill r (is_ok outcome)); lift outcome.
Definition run_command (r : Reference) (step : nat) : rt CommandResult :=
  _ ← called (PCommand r step); outcome ← input su_run; lift outcome.

(** ** Provisioning *)

(** The owner that is returned beside an error is left out. *)
Definition provision (tenant environment providerKey : string) : rt RuntimeAllocation :=
  _ ← demand (has_provider config providerKey) sandbox_invalid;
  env ← ask (GetEnvironment tenant environment);
  _ ← demand (match parseEnvironmentPlacement (en_config env) with
              | Ok placement => pl_type placement =?s "openai_hosted" | Err _ => false end) sandbox_invalid;
  hash ← input su_hash;
  owner ← ask (ReserveRuntimeAllocation leased tenant environment providerKey hash);
  if ra_replayed owner then mret owner else
  _ ← check_ownership;
  info ← attempt (create (runtimeReference owner));
  match info with
  | Err e =>
      _ ← (if bool_decide (e = sandbox_invalid) || bool_decide (e = sandbox_ownership)
           then _ ← ask (RequestRuntimeCleanup leased owner); mret tt else mret tt);
      fail e
  | Ok info =>
      _ ← demand (bool_decide (inf_reference info = runtimeReference owner) && negb (inf_provider info =?s "")
                  && (inf_state info =?s "running") && inf_complete info) sandbox_ownership;
      ask (ObserveRuntimeRunning leased owner)
  end.

(** An error of one item ends the scan only when the execution lease is lost. *)
Definition tolerate (m : rt unit) : rt unit :=
  outcome ← attempt m;
  match outcome with Ok _ => mret tt | Err _ => check_ownership end.

Fixpoint provision_rows (rows : list (string * string * string)) : rt unit :=
  match rows with
  | [] => mret tt
  | (id, tenant, engine) :: rows' =>
      _ ← change_life (λ l, set_pending_cursor l id);
      let provider := ProviderForEngine config engine in
      _ ← (if provider =?s "" then mret tt else tolerate (_ ← provision tenant id provider; mret tt));
      provision_rows rows'
  end.

Definition provisionPending : rt unit :=
  if (rp_default config =?s "") && bool_decide (rp_engines config = []) then mret tt else
  l ← life;
  ping ← input su_ping;
  rows ← ask (ListUnallocatedHostedEnvironments leased ping (lf_pending l));
  match rows with
  | [] => change_life (λ l, set_pending_cursor l "")
  | _ => provision_rows rows
  end.
(** ** Connections *)

Definition observeConnection (owner : RuntimeAllocation) : rt unit :=
  if negb (ra_init owner =?s "complete") then mret tt else
  bound ← ask (GetSessionDevice (ra_tenant owner) (ra_session owner));
  _ ← demand ((ed_id bound =?s ra_device owner) && (ed_environment bound =?s ra_env owner)) ErrDeviceBindingConflict;
  peer ← input su_peer;
  l ← life;
  let connected := bool_decide (is_Some peer) in
  if connected && (negb (ra_settled owner) || negb (ra_state owner =?s "running")) then mret tt else
  current ← match peer, assoc (ra_id owner) (lf_connections l) with
            | Some p, c =>
                if bool_decide (cn_peer <$> c = Some p) then mret c else
                generation ← input su_generation;
                _ ← ask (ReplaceEnvironmentConnection leased (ra_tenant owner) (ra_env owner) generation);
                let fresh := MkRuntimeConnection p generation 0 false in
                _ ← change_life (λ l, set_connections l (assoc_put (ra_id owner) fresh (lf_connections l)));
                mret (Some fresh)
            | None, c => mret c
            end;
  match current with
  | None => mret tt
  | Some c =>
      if Bool.eqb (cn_connected c) connected then mret tt else
      let c := MkRuntimeConnection (cn_peer c) (cn_generation c) (wrap64 (cn_revision c + 1)) (cn_connected c) in
      _ ← change_life (λ l, set_connections l (assoc_put (ra_id owner) c (lf_connections l)));
      _ ← ask (ObserveEnvironmentConnection leased (ra_tenant owner) (ra_env owner) (cn_generation c) (cn_revision c) connected);
      change_life (λ l, set_connections l (assoc_put (ra_id owner)
        (MkRuntimeConnection (cn_peer c) (cn_generation c) (cn_revision c) connected) (lf_connections l)))
  end.

(** ** Initialization *)

(** The initialization members of an environment's configuration. *)
Definition dec_file_lenient : decoder (option Z) := dec_struct (λ n k v,
  if key_is "id" k || key_is "type" k || key_is "path" k || key_is "file_id" k then _ ← dec_string "" v; Some n
  else if key_is "size_bytes" k then dec_ptr 0 dec_int64 n v
  else Some n).

Definition dec_initialization : decoder (bool * option (list (option Z))) := dec_struct (λ c k v,
  if key_is "initialization" k then b ← dec_bool c.1 v; Some (b, c.2)
  else if key_is "files" k then l ← dec_slice None dec_file_lenient c.2 v; Some (c.1, l)
  else Some c).

Definition is_initializing (id : string) (l : lifecycle) : bool :=
  match lf_initializing l with Some i => ra_id (it_owner i) =?s id | None => false end.

Definition request_runtime_cleanup (owner : RuntimeAllocation) : rt RuntimeAllocation := ask (RequestRuntimeCleanup leased owner).

Definition observeInitialization (owner : RuntimeAllocation) : rt unit :=
  if ra_init owner =?s "complete" then mret tt else
  l ← life;
  if ra_init owner =?s "running" then
    if is_initializing (ra_id owner) l then mret tt else _ ← request_runtime_cleanup owner; mret tt
  else if bool_decide (is_Some (lf_initializing l)) then mret tt else
  env ← ask (GetEnvironment (ra_tenant owner) (ra_env owner));
  match dec_initialization (false, None) (en_config env) with
  | None => _ ← request_runtime_cleanup owner; mret tt
  | Some (initialization, files) =>
      let files := length (default [] files) in
      if (50 <? files)%nat then _ ← request_runtime_cleanup owner; mret tt else
      stored ← input su_setup;
      setup ← lift stored;
      let operations := setupOperations setup in
      if (files + length operations =? 0)%nat || Bool.eqb initialization (setup_empty setup)
      then _ ← request_runtime_cleanup owner; mret tt else
      claimed ← ask (ClaimRuntimeInitialization leased owner);
      now ← input su_now;
      change_life (λ l, set_initializing l
        (Some (MkInitialization claimed 0 (files + length operations) files operations (now + 1800000000))))
  end.

(** [step] is the number of the operation that the command carries out. *)
Definition installInitialFile (provider : bool) (r : Reference) (step : nat) (path : string) (size : option Z) (body : Z) : rt unit :=
  _ ← demand (provider && bool_decide (size = Some body) && (body <=? MaxInitialFileBytes) && has_prefix path "/workspace/") sandbox_invalid;
  result ← run_command r step;
  match confirmed true result with
  | Some receipt => demand (bool_decide (cm_size receipt = Some body)) (ErrOther "initial environment file installation unconfirmed")
  | None => fail (ErrOther "initial environment file installation unconfirmed")
  end.

Definition runRuntimeSetup (provider : bool) (r : Reference) (step : nat) (op : runtimeSetupOperation) : rt unit :=
  _ ← demand provider sandbox_invalid;
  _ ← match op with
      | OpSkill _ => readable ← input su_skill; demand readable (ErrOther "invalid or unsupported Skill bundle")
      | _ => mret tt
      end;
  result ← run_command r step;
  demand (bool_decide (is_Some (confirmed false result))) (ErrOther "environment initialization operation unconfirmed").

Definition stop_initializing : rt unit := change_life (λ l, set_initializing l None).

(** The operation [it_next] of an initialization. *)
Definition initialize_next (owner : RuntimeAllocation) (active : runtimeInitialization) : rt unit :=
  let provider := has_provider config (ra_provider owner) in
  if (it_next active <? it_files active)%nat then
    stored ← input su_file;
    file ← lift stored;
    installInitialFile provider (runtimeReference owner) (it_next active) file.1.1 file.1.2 file.2
  else
    match it_operations active !! (it_next active - it_files active)%nat with
    | Some op => runRuntimeSetup provider (runtimeReference owner) (it_next active) op
    | None => fail (ErrOther "index out of range")
    end.

Definition advanceInitialization : rt unit :=
  l ← life;
  match lf_initializing l with
  | None => mret tt
  | Some active =>
      owner ← ask (GetRuntimeAllocation (ra_tenant (it_owner active)) (ra_env (it_owner active)));
      if (ra_state owner =?s "cleanup_pending") || (ra_state owner =?s "released") || ra_deleted owner || ra_expired owner
      then stop_initializing
      else if ra_init owner =?s "complete" then stop_initializing
      else if negb (ra_id owner =?s ra_id (it_owner active)) || negb (ra_init owner =?s "running")
      then _ ← stop_initializing; fail sandbox_ownership
      else
        now ← input su_now;
        if it_deadline active <? now then _ ← stop_initializing; fail sandbox_unconfirmed else
        owned ← attempt check_ownership;
        match owned with
        | Err e => _ ← stop_initializing; fail e
        | Ok _ =>
            outcome ← attempt (initialize_next owner active);
            match outcome with
            | Err e => _ ← stop_initializing; fail e
            | Ok _ =>
                let active := MkInitialization (it_owner active) (S (it_next active)) (it_count active) (it_files active)
                                (it_operations active) (it_deadline active) in
                if (it_next active =? it_count active)%nat then
                  completed ← attempt (ask (CompleteRuntimeInitialization leased owner));
                  _ ← stop_initializing;
                  _ ← lift completed; mret tt
                else change_life (λ l, set_initializing l (Some active))
            end
        end
  end.

(** ** Observation *)

Definition reclaimed (owner : RuntimeAllocation) : bool :=
  ra_deleted owner || ra_expired owner || (ra_state owner =?s "cleanup_pending").

(** Destroying what an allocation owns. *)
Definition reclaim (owner : RuntimeAllocation) : rt unit :=
  owner ← request_runtime_cleanup owner;
  _ ← check_ownership;
  _ ← kill (runtimeReference owner);
  if negb (ra_settled owner) then mret tt else
  _ ← called (PRelease (runtimeReference owner));
  _ ← ask (ReleaseRuntimeAllocation leased owner);
  mret tt.

(** A runtime that runs: it is initialized and kept while its device is connected. *)
Definition keep (owner : RuntimeAllocation) : rt unit :=
  owner ← ask (ObserveRuntimeRunning leased owner);
  _ ← observeInitialization owner;
  peer ← input su_peer;
  if bool_decide (peer = None) then mret tt else
  renewed ← renew (runtimeReference owner);
  _ ← demand (bool_decide (inf_reference renewed = runtimeReference owner) && (inf_state renewed =?s "running")
              && inf_complete renewed) sandbox_ownership;
  _ ← ask (KeepRuntimeAllocation leased owner);
  mret tt.

(** Cleanup is asked for and what is remembered of the runtime forgotten, or its
    connection is observed. *)
Definition observe_authority (owner : RuntimeAllocation) : rt RuntimeAllocation :=
  l ← life;
  owner ← (if (ra_init owner =?s "running") && negb (is_initializing (ra_id owner) l)
           then request_runtime_cleanup owner else mret owner);
  if reclaimed owner then
    owner ← request_runtime_cleanup owner;
    _ ← change_life (λ l, let l := set_connections l (assoc_delete (ra_id owner) (lf_connections l)) in
                          if is_initializing (ra_id owner) l then set_initializing l None else l);
    mret owner
  else _ ← observeConnection owner; mret owner.

(** [observe] of the lifecycle. *)
Definition observe_runtime (owner : RuntimeAllocation) : rt unit :=
  owner ← observe_authority owner;
  _ ← demand (has_provider config (ra_provider owner)) sandbox_invalid;
  _ ← check_ownership;
  answer ← attempt (get_info (runtimeReference owner));
  info ← match answer with
         | Ok info => mret (Some info)
         | Err e => if bool_decide (e = sandbox_not_found) then mret None else fail e
         end;
  let mine := match info with Some i => bool_decide (inf_reference i = runtimeReference owner) | None => true end in
  _ ← demand mine sandbox_ownership;
  let running := match info with
                 | Some i => negb (inf_provider i =?s "") && (inf_state i =?s "running")
                 | None => false
                 end in
  let complete := match info with Some i => inf_complete i | None => false end in
  owner ← (if running && complete && negb (ra_settled owner) then ask (SettleRuntimeCreation leased owner) else mret owner);
  if reclaimed owner then reclaim owner
  else if negb running || negb complete then mret tt
  else keep owner.

Fixpoint observe_rows (rows : list RuntimeAllocation) : rt unit :=
  match rows with
  | [] => mret tt
  | owner :: rows' =>
      _ ← change_life (λ l, set_cursor l (ra_id owner));
      _ ← tolerate (observe_runtime owner);
      observe_rows rows'
  end.

(** One scan, under the gate of the lifecycle. *)
Definition ReconcileManagedRuntimes : rt unit :=
  l ← life;
  ping ← input su_ping;
  rows ← ask (ListRuntimeAllocations leased ping (lf_cursor l));
  match rows with
  | [] =>
      _ ← change_life (λ l, set_cursor l "");
      _ ← tolerate advanceInitialization;
      provisionPending
  | _ => _ ← observe_rows rows; provisionPending
  end.

(** ** The service *)

(** One operation under the gate, a restart of the process, or requests of others. *)
Inductive lstep : relation rstate :=
  | l_reconcile s : lstep s (ReconcileManagedRuntimes s).2
  | l_provision tenant environment provider s : lstep s (provision tenant environment provider s).2
  | l_restart s : lstep s (MkRState (rt_world s) initial_lifecycle (rt_trace s) (rt_count s))
  | l_requests rs s : lstep s (MkRState (serve_all rs (rt_world s)) (rt_life s) (rt_trace s) (rt_count s)).
End lifecycle.
