(* ===== verification/ManagedFacts.v ===== *)
(** * ManagedFacts

    What the lifecycle of managed runtimes guarantees across lost replies, failed
    calls, restarts and whatever other clients do: a sandbox is created at most
    once for an environment, destroyed only once its allocation durably awaits
    cleanup, released only right after it was destroyed, and no step of an
    initialization is carried out twice.  The proofs are in a Hoare logic on the
    lifecycle's monad, [hoare], with an exceptional postcondition. *)
From stdpp Require Import base tactics list strings numbers relations.
From S2P Require Import Prelude GoJson Contract Items Database Queries EnvQueries SessionLog Turns Environments Reads Configuration Setup.
From S2P Require Import Relations Tables Scenario EnvScenario Frames Lifecycle Runtime ManagedRuntimes.

(** ** Triples *)

Definition hoare {A} (P : rstate → Prop) (m : rt A) (Q : A → rstate → Prop) (E : rstate → Prop) : Prop :=
  ∀ s, P s → match m s with (Ok a, s') => Q a s' | (Err _, s') => E s' end.

Lemma hoare_ret {A} (a : A) P Q E : (∀ s, P s → Q a s) → hoare P (mret a) Q E.
Proof. intros HQ s Hs. by apply HQ. Qed.

Lemma hoare_bind {A B} P (m : rt A) (f : A → rt B) R Q E :
  hoare P m R E → (∀ a, hoare (R a) (f a) Q E) → hoare P (m ≫= f) Q E.
Proof. intros Hm Hf s Hs. specialize (Hm s Hs). unfold mbind, rt_bind. destruct (m s) as [[a|e] s']; [by apply Hf|done]. Qed.

Lemma hoare_attempt {A} P (m : rt A) Q E : hoare P m Q E →
  hoare P (attempt m) (λ r s, match r with Ok a => Q a s | Err _ => E s end) (λ _, False).
Proof. intros Hm s Hs. specialize (Hm s Hs). unfold attempt. by destruct (m s) as [[a|e] s']. Qed.

Lemma hoare_conseq {A} (P P' : rstate → Prop) (m : rt A) (Q Q' : A → rstate → Prop) (E E' : rstate → Prop) :
  (∀ s, P' s → P s) → (∀ a s, Q a s → Q' a s) → (∀ s, E s → E' s) → hoare P m Q E → hoare P' m Q' E'.
Proof. intros HP HQ HE Hm s Hs%HP%Hm. destruct (m s) as [[a|e] s']; auto. Qed.

(** ** The invariant *)

(** The environments of the sandboxes that were created and the steps that were run. *)
Definition creations (trace : list pcall) : list string :=
  omap (λ c, match c with PCreate r => Some (rf_env r) | _ => None end) trace.
Definition commands (trace : list pcall) : list (string * nat) :=
  omap (λ c, match c with PCommand r k => Some (rf_alloc r, k) | _ => None end) trace.

(** Every release follows the destruction of what is released. *)
Fixpoint releases_follow (previous : option pcall) (trace : list pcall) : Prop :=
  match trace with
  | [] => True
  | c :: trace' =>
      match c with PRelease r => previous = Some (PKill r true) | _ => True end ∧ releases_follow (Some c) trace'
  end.

Lemma releases_follow_snoc previous trace c :
  releases_follow previous (trace ++ [c]) ↔
  releases_follow previous trace
  ∧ match c with PRelease r => match list.last trace with Some p => Some p | None => previous end = Some (PKill r true) | _ => True end.
Proof.
  revert previous. induction trace as [|x l IH]; intros previous; cbn [app releases_follow]; [destruct c; cbn; tauto|].
  rewrite IH. destruct c; try tauto. destruct l as [|y l]; [tauto|].
  change (list.last (x :: y :: l)) with (list.last (y :: l)).
  destruct (list.last (y :: l)) eqn:El; [tauto|]. by apply last_None in El.
Qed.

Lemma releases_follow_split before r after :
  releases_follow None (before ++ PRelease r :: after) → ∃ before', before = before' ++ [PKill r true].
Proof.
  intros Hr. assert (releases_follow None (before ++ [PRelease r])) as Hs.
  { revert Hr. generalize (None : option pcall). induction before as [|c l IH]; intros p; cbn; [tauto|].
    intros [? ?]. auto. }
  apply releases_follow_snoc in Hs as [_ Hl]. destruct (list.last before) as [c|] eqn:El; [|done].
  injection Hl as ->. by apply last_Some in El.
Qed.

Definition rt_db (s : rstate) : db := w_db (rt_world s).

Section facts.
Context `{UUIDs, Oracle, EventSizes, Surroundings}.

(** An allocation of a given identifier with a property that it keeps. *)
Definition allocated (p : alloc_row → Prop) (id : string) (s : rstate) : Prop :=
  ∃ a, In a (allocations (rt_db s)) ∧ uuid_string (al_id a) = id ∧ p a.

Definition lasting (p : alloc_row → Prop) : Prop := ∀ a a', alloc_evolves a a' → p a → p a'.

Definition serves (env : string) (a : alloc_row) : Prop := uuid_string (al_env a) = env.
Definition dying (a : alloc_row) : Prop := rank_le (Some 2%nat) (alloc_rank (al_state a)).
Definition claimed_init (a : alloc_row) : Prop := rank_le (Some 1%nat) (init_rank (al_init a)).

Lemma lasting_serves env : lasting (serves env).
Proof. intros a a' He. unfold serves. by rewrite (ae_env _ _ He). Qed.
Lemma lasting_dying : lasting dying.
Proof. intros a a' He Hd. unfold dying in *. etrans; [done|apply He]. Qed.
Lemma lasting_claimed : lasting claimed_init.
Proof. intros a a' He Hd. unfold claimed_init in *. etrans; [done|apply He]. Qed.

Lemma dying_state a : dying a → al_state a = "cleanup_pending" ∨ al_state a = "released".
Proof. unfold dying, rank_le, alloc_rank. repeat case_bool_decide; cbn; auto; lia. Qed.
Lemma claimed_state a : claimed_init a → al_init a = "running" ∨ al_init a = "complete".
Proof. unfold claimed_init, rank_le, init_rank. repeat case_bool_decide; cbn; auto; lia. Qed.

(** The initialization in progress: its allocation was claimed, and the steps that
    were run for it lie behind it. *)
Definition progress (next : nat) (id : string) (s : rstate) : Prop :=
  allocated claimed_init id s ∧ ∀ k, (id, k) ∈ commands (rt_trace s) → (k < next)%nat.

Record inv_core (s : rstate) : Prop := MkInv {
  iv_wf : allocations_wf (rt_db s);
  iv_created r : PCreate r ∈ rt_trace s → allocated (serves (rf_env r)) (rf_alloc r) s;
  iv_once : NoDup (creations (rt_trace s));
  iv_killed r ok : PKill r ok ∈ rt_trace s → allocated dying (rf_alloc r) s;
  iv_released : releases_follow None (rt_trace s);
  iv_started id k : (id, k) ∈ commands (rt_trace s) → allocated claimed_init id s;
  iv_steps : NoDup (commands (rt_trace s));
}.

Definition inv (s : rstate) : Prop :=
  inv_core s ∧ ∀ i, lf_initializing (rt_life s) = Some i → progress (it_next i) (ra_id (it_owner i)) s.

(** Calls to the store, and inputs, pass. *)
Record passes (s s' : rstate) : Prop := MkPasses {
  ps_life : rt_life s' = rt_life s;
  ps_trace : rt_trace s' = rt_trace s;
  ps_db : allocations_advance (rt_db s) (rt_db s');
}.

#[export] Instance passes_preorder : PreOrder passes.
Proof.
  split.
  - intros s. by split.
  - intros a b c [] []. split; try congruence. by etrans.
Qed.

Lemma allocated_passes p id s s' :
  lasting p → allocations_wf (rt_db s) → passes s s' → allocated p id s → allocated p id s'.
Proof.
  intros Hp Hwf [_ _ Hd] (a & Ha & <- & Hpa). destruct (advances_persist _ _ _ _ _ _ _ _ Hd Hwf Ha) as (a' & Ha' & He).
  exists a'. rewrite (ae_id _ _ He). eauto.
Qed.

Lemma progress_passes next id s s' : allocations_wf (rt_db s) → passes s s' → progress next id s → progress next id s'.
Proof.
  intros Hwf Hs [Ha Hk]. split; [by eapply allocated_passes; eauto using lasting_claimed|]. by rewrite (ps_trace _ _ Hs).
Qed.

Lemma inv_core_passes s s' : passes s s' → inv_core s → inv_core s'.
Proof.
  intros Hs [Hwf Hc Ho Hk Hr Hst Hsteps]. pose proof (ps_trace _ _ Hs) as Et.
  split; rewrite ?Et; try done.
  - by apply (ps_db _ _ Hs).
  - intros r Hin. eapply allocated_passes; eauto using lasting_serves.
  - intros r ok Hin. eapply allocated_passes; eauto using lasting_dying.
  - intros id k Hin. eapply allocated_passes; eauto using lasting_claimed.
Qed.

Lemma inv_passes s s' : passes s s' → inv s → inv s'.
Proof.
  intros Hs [Hc Hi]. split; [by eapply inv_core_passes|]. intros i Hl. rewrite (ps_life _ _ Hs) in Hl.
  eapply progress_passes; eauto. apply Hc.
Qed.

(** ** Facts that hold along calls *)

Class Fact (F : rstate → Prop) : Prop := {
  fact_wf s : F s → allocations_wf (rt_db s);
  fact_passes s s' : passes s s' → F s → F s';
}.

#[export] Instance inv_fact : Fact inv.
Proof. split; [by intros s [[]]|apply inv_passes]. Qed.

#[export] Instance core_fact : Fact inv_core.
Proof. split; [by intros s []|apply inv_core_passes]. Qed.

#[export] Instance allocated_fact F p id : Fact F → lasting p → Fact (λ s, F s ∧ allocated p id s).
Proof.
  intros HF Hp. split; [intros s [HFs _]; by apply fact_wf in HFs|]. intros s s' Hs [HFs Ha].
  split; [by eapply fact_passes|]. eapply allocated_passes; eauto. by apply fact_wf in HFs.
Qed.

(** Conditions on the trace alone. *)
#[export] Instance trace_fact F (T : list pcall → Prop) : Fact F → Fact (λ s, F s ∧ T (rt_trace s)).
Proof.
  intros HF. split; [intros s [HFs _]; by apply fact_wf in HFs|]. intros s s' Hs [HFs Ht].
  split; [by eapply fact_passes|]. by rewrite (ps_trace _ _ Hs).
Qed.

#[export] Instance progress_fact F next id : Fact F → Fact (λ s, F s ∧ progress next id s).
Proof.
  intros HF. split; [intros s [HFs _]; by apply fact_wf in HFs|]. intros s s' Hs [HFs Hp].
  split; [by eapply fact_passes|]. eapply progress_passes; eauto. by apply fact_wf in HFs.
Qed.
(** ** Calls to the store *)

Definition tame {A} (call : tx A) : Prop := ∀ w, allocations_advance (w_db w) (w_db (call w).2).

Lemma tame_reads {A} (call : tx A) : reads call → tame call.
Proof. intros Hr w. apply allocations_same. by destruct (Hr w) as [-> _]. Qed.

Lemma tame_serve r : tame (serve r).
Proof. intros w. apply steps_allocations. apply rtc_once. constructor. Qed.

Lemma tame_ignore {A} (call : tx A) : tame (ignore call) → tame call.
Proof.
  intros Ht w. specialize (Ht w). unfold ignore, mbind, tx_bind in Ht. by destruct (call w) as [[a|e] w'].
Qed.

Lemma tame_ownership ping leased : tame (CheckExecutionOwnership leased ping).
Proof. apply tame_reads. unfold CheckExecutionOwnership. apply reads_bind; [apply reads_require|done]. Qed.

Lemma tame_list ping leased after : tame (ListRuntimeAllocations leased ping after).
Proof.
  apply tame_reads. unfold ListRuntimeAllocations, CheckExecutionOwnership, ListRuntimeAllocationsQ.
  repeat first [apply reads_require | done | apply reads_bind; [|intros ?]].
Qed.

Lemma tame_unallocated ping leased after : tame (ListUnallocatedHostedEnvironments leased ping after).
Proof.
  apply tame_reads. unfold ListUnallocatedHostedEnvironments, CheckExecutionOwnership, ListUnallocatedHostedEnvironmentsQ.
  repeat first [apply reads_require | done | apply reads_bind; [|intros ?]].
Qed.

Lemma tame_device tenant session : tame (GetSessionDevice tenant session).
Proof.
  apply tame_reads. unfold GetSessionDevice, requireInitializedEnvironment, GetSessionInitializationReady, GetSessionDeviceQ.
  repeat first [done | apply reads_bind; [|intros ?] | match goal with |- reads (match ?x with _ => _ end) => destruct x end].
Qed.

Lemma tame_environment tenant env : tame (GetEnvironment tenant env).
Proof. apply tame_reads, reads_GetEnvironment. Qed.
Lemma tame_allocation tenant env : tame (GetRuntimeAllocation tenant env).
Proof. apply tame_reads, reads_GetRuntimeAllocation. Qed.

Lemma tame_replace leased tenant env generation : tame (ReplaceEnvironmentConnection leased tenant env generation).
Proof. apply (tame_serve (ReqReplaceConnection leased tenant env generation)). Qed.
Lemma tame_observe leased tenant env generation revision connected :
  tame (ObserveEnvironmentConnection leased tenant env generation revision connected).
Proof. apply (tame_serve (ReqObserveConnection leased tenant env generation revision connected)). Qed.
Lemma tame_reserve leased tenant env provider hash : tame (ReserveRuntimeAllocation leased tenant env provider hash).
Proof. apply tame_ignore, (tame_serve (ReqReserveAllocation leased tenant env provider hash)). Qed.
Lemma tame_running leased owner : tame (ObserveRuntimeRunning leased owner).
Proof. apply tame_ignore, (tame_serve (ReqObserveRunning leased owner)). Qed.
Lemma tame_keep leased owner : tame (KeepRuntimeAllocation leased owner).
Proof. apply tame_ignore, (tame_serve (ReqKeepAllocation leased owner)). Qed.
Lemma tame_settle leased owner : tame (SettleRuntimeCreation leased owner).
Proof. apply tame_ignore, (tame_serve (ReqSettleCreation leased owner)). Qed.
Lemma tame_claim leased owner : tame (ClaimRuntimeInitialization leased owner).
Proof. apply tame_ignore, (tame_serve (ReqClaimInitialization leased owner)). Qed.
Lemma tame_complete leased owner : tame (CompleteRuntimeInitialization leased owner).
Proof. apply tame_ignore, (tame_serve (ReqCompleteInitialization leased owner)). Qed.
Lemma tame_cleanup leased owner : tame (RequestRuntimeCleanup leased owner).
Proof. apply tame_ignore, (tame_serve (ReqCleanup leased owner)). Qed.
Lemma tame_release leased owner : tame (ReleaseRuntimeAllocation leased owner).
Proof. apply tame_ignore, (tame_serve (ReqRelease leased owner)). Qed.

#[local] Hint Resolve tame_ownership tame_list tame_unallocated tame_device tame_environment tame_allocation tame_replace
  tame_observe tame_reserve tame_running tame_keep tame_settle tame_claim tame_complete tame_cleanup tame_release : store.

Lemma serve_all_advance rs w : allocations_advance (w_db w) (w_db (serve_all rs w)).
Proof. revert w. induction rs as [|r rs IH]; intros w; [done|]. cbn [serve_all]. etrans; [apply tame_serve|apply IH]. Qed.

Lemma ask_passes {A} (call : tx A) s : tame call → passes s (ask call s).2.
Proof.
  intros Hc. unfold ask. set (w := serve_all _ _).
  destruct (over call (MkRemote w [su_fate (rt_count s)])) as [r rm] eqn:Eo. split; [done|done|].
  etrans; [apply (serve_all_advance (su_others (rt_count s)))|]. apply over_run in Eo as [[E _]|(r1 & E & _)]; cbn in *.
  - by rewrite E.
  - specialize (Hc w). by rewrite E in Hc.
Qed.

(** A call that answers ran, behind the requests of others. *)
Lemma ask_run {A} (call : tx A) s a s' :
  ask call s = (Ok a, s') →
  ∃ w, call w = (Ok a, rt_world s') ∧ allocations_advance (rt_db s) (w_db w) ∧ rt_life s' = rt_life s ∧ rt_trace s' = rt_trace s.
Proof.
  unfold ask. set (w := serve_all _ _). destruct (over call _) as [r rm] eqn:Eo. intros [= -> <-].
  exists w. apply over_run in Eo as [[_ [e [=]]]|(r1 & E & [<-|[e [=]]])].
  split; [done|]. split; [apply serve_all_advance|done].
Qed.

(** ** Rules *)

(** [F] holds before and after, whether [m] fails or not. *)
Definition keeps_fact (F : rstate → Prop) {A} (m : rt A) : Prop := hoare F m (λ _, F) F.

Section rules.
Context (F : rstate → Prop).

Lemma keeps_ret {A} (a : A) : keeps_fact F (mret a).
Proof. by intros s. Qed.
Lemma keeps_fail {A} e : keeps_fact F (fail e : rt A).
Proof. by intros s. Qed.
Lemma keeps_lift {A} (r : result A) : keeps_fact F (lift r).
Proof. intros s Hs. by destruct r. Qed.
Lemma keeps_demand c e : keeps_fact F (demand c e).
Proof. intros s Hs. by destruct c. Qed.
Lemma keeps_life : keeps_fact F life.
Proof. by intros s. Qed.
Lemma keeps_bind {A B} (m : rt A) (f : A → rt B) : keeps_fact F m → (∀ a, keeps_fact F (f a)) → keeps_fact F (m ≫= f).
Proof. apply hoare_bind. Qed.
Lemma keeps_attempt {A} (m : rt A) : keeps_fact F m → keeps_fact F (attempt m).
Proof.
  intros Hm%hoare_attempt. eapply hoare_conseq, Hm; [done| |done]. by intros [].
Qed.

Context `{!Fact F}.

Lemma hoare_input {A} (f : nat → A) E : hoare F (input f) (λ _, F) E.
Proof using Type*. intros s Hs. eapply fact_passes, Hs. by split. Qed.
Lemma keeps_input {A} (f : nat → A) : keeps_fact F (input f).
Proof using Type*. apply hoare_input. Qed.
Lemma keeps_ask {A} (call : tx A) : tame call → keeps_fact F (ask call).
Proof using Type*.
  intros Hc s Hs. pose proof (ask_passes call s Hc) as Hp. destruct (ask call s) as [[a|e] s']; by eapply fact_passes.
Qed.
End rules.

Create HintDb lifecycle.

Ltac keeps_tac :=
  repeat (intros; cbv beta;
    lazymatch goal with
    | |- hoare ?F ?m (λ _, ?F) ?F => change (keeps_fact F m)
    | |- keeps_fact _ (mret _) => apply keeps_ret
    | |- keeps_fact _ (fail _) => apply keeps_fail
    | |- keeps_fact _ (lift _) => apply keeps_lift
    | |- keeps_fact _ (demand _ _) => apply keeps_demand
    | |- keeps_fact _ life => apply keeps_life
    | |- keeps_fact _ (input _) => apply (keeps_input _)
    | |- keeps_fact _ (ask _) => apply (keeps_ask _); solve [auto with store]
    | |- keeps_fact _ (attempt _) => apply keeps_attempt
    | |- keeps_fact _ (_ ≫= _) => apply keeps_bind
    | |- keeps_fact _ (match ?x with _ => _ end) => destruct x
    | |- keeps_fact _ _ => solve [auto with lifecycle nocore]
    end).

Lemma keeps_ownership F leased `{!Fact F} : keeps_fact F (check_ownership leased).
Proof. unfold check_ownership. keeps_tac. Qed.
#[local] Hint Extern 0 (keeps_fact _ (check_ownership _)) => apply (keeps_ownership _ _) : lifecycle.

(** What a call must find for the invariant to go on. *)
Definition call_ok (c : pcall) (s : rstate) : Prop :=
  match c with
  | PCreate r => allocated (serves (rf_env r)) (rf_alloc r) s ∧ rf_env r ∉ creations (rt_trace s)
  | PKill r _ => allocated dying (rf_alloc r) s
  | PCommand r k => allocated claimed_init (rf_alloc r) s ∧ (rf_alloc r, k) ∉ commands (rt_trace s)
  | PRelease r => list.last (rt_trace s) = Some (PKill r true)
  | _ => True
  end.

Lemma NoDup_snoc {A} (l : list A) x : NoDup l → x ∉ l → NoDup (l ++ [x]).
Proof.
  intros Hl Hx. apply NoDup_app. split; [done|]. split; [|apply NoDup_singleton].
  by intros y Hy ->%list_elem_of_singleton.
Qed.

Lemma elem_of_snoc {A} (l : list A) x y : x ∈ l ++ [y] ↔ x ∈ l ∨ x = y.
Proof. rewrite elem_of_app, list_elem_of_singleton. done. Qed.

Lemma call_core c s :
  inv_core s → call_ok c s → inv_core (MkRState (rt_world s) (rt_life s) (rt_trace s ++ [c]) (rt_count s)).
Proof.
  intros [Hwf Hc Ho Hk Hr Hst Hsteps] Hok. split; cbn [rt_trace]; unfold creations, commands in *; rewrite ?omap_app.
  - done.
  - intros r [Hin| <-]%elem_of_snoc; [by apply Hc|]. apply Hok.
  - destruct c; cbn; rewrite ?app_nil_r; try done. by apply NoDup_snoc, Hok.
  - intros r ok [Hin| <-]%elem_of_snoc; [by apply (Hk r ok)|]. apply Hok.
  - apply releases_follow_snoc. split; [done|]. destruct c; try done. cbn in Hok. by rewrite Hok.
  - destruct c; cbn; rewrite ?app_nil_r; try apply Hst.
    intros id k [Hin|[= -> ->]]%elem_of_snoc; [by apply (Hst id k)|]. apply Hok.
  - destruct c; cbn; rewrite ?app_nil_r; try done. by apply NoDup_snoc, Hok.
Qed.

Lemma call_inv c s :
  inv s → call_ok c s → (∀ r k, c ≠ PCommand r k) → inv (MkRState (rt_world s) (rt_life s) (rt_trace s ++ [c]) (rt_count s)).
Proof.
  intros [Hc Hi] Hok Hn. split; [by apply call_core|]. intros i Hl%Hi. destruct Hl as [Ha Hk]. split; [done|].
  intros k Hin. apply Hk. unfold commands in *. cbn [rt_trace] in *. rewrite omap_app in Hin.
  destruct c; cbn in Hin; rewrite ?app_nil_r in Hin; try done. by destruct (Hn r step).
Qed.

Lemma hoare_called c P E : (∀ s, P s → inv s ∧ call_ok c s) → (∀ r k, c ≠ PCommand r k) → hoare P (called c) (λ _, inv) E.
Proof. intros HP Hn s [Hi Hok]%HP. by apply call_inv. Qed.

Lemma keeps_get_info r : keeps_fact inv (get_info r).
Proof. unfold get_info. keeps_tac. by apply hoare_called. Qed.
Lemma keeps_renew r : keeps_fact inv (renew r).
Proof. unfold renew. keeps_tac. by apply hoare_called. Qed.

(** What the lifecycle remembers besides the initialization is not in the invariant. *)
Lemma keeps_change f :
  (∀ l, lf_initializing (f l) = lf_initializing l ∨ lf_initializing (f l) = None) → keeps_fact inv (change_life f).
Proof.
  intros Hf s [[] Hi]. split; [done|]. cbn. intros i Hl. destruct (Hf (rt_life s)) as [E|E]; rewrite E in Hl; [|done].
  by apply Hi in Hl.
Qed.

(** ** What the answers of the store mean *)

(** The row an update returns and the one it read. *)
Lemma update_allocation_run id p f w row w' :
  update_allocation id p f w = (Ok (Some row), w') →
  ∃ a, In a (allocations (w_db w)) ∧ al_id a = id ∧ p a = true ∧ row = f a ∧ In row (allocations (w_db w')).
Proof.
  unfold update_allocation. intros Hr. apply bind_run in Hr as (old & w1 & Hq & Hr). apply query_run in Hq as [-> ->].
  destruct (head _) as [a|] eqn:Eh; [|discriminate Hr]. apply bind_run in Hr as ([] & w1 & Hq & Hr).
  apply exec_run in Hq as ->. apply ret_run in Hr as [[= ->] ->]. apply head_filter_Some in Eh as [Hin Hhit].
  pose proof (in_update_where_hit (λ a, (al_id a =?s id) && p a) f _ _ Hin Hhit) as Hin'. apply andb_true_iff in Hhit as [Hid%bool_decide_eq_true_1 Hp].
  by exists a.
Qed.

Lemma mutate_answer leased owner live apply w res w' :
  mutateRuntimeAllocation leased owner live apply w = (Ok res, w') →
  ∃ old row w1 w2, In old (allocations (w_db w1)) ∧ w_db w1 = w_db w ∧ apply old w1 = (Ok row, w2)
    ∧ allocations (w_db w') = allocations (w_db w2) ∧ ra_id res = uuid_string (al_id row).
Proof.
  intros Hr. apply mutateRuntimeAllocation_run in Hr
    as (tenant & c & w1 & row & w2 & session & _ & _ & _ & _ & [now Hc] & _ & E1 & Hr & Hf & ->).
  apply allocation_rows_in in Hc as [Hc _]. exists (alr_alloc c), row, w1, w2. rewrite E1.
  repeat (split; [done|]). split; [apply Hf|done].
Qed.

Lemma cleanup_answer leased owner w res w' :
  RequestRuntimeCleanup leased owner w = (Ok res, w') →
  ∃ a, In a (allocations (w_db w')) ∧ uuid_string (al_id a) = ra_id res ∧ dying a.
Proof.
  intros Hr. apply mutate_answer in Hr as (old & row & w1 & w2 & Hold & _ & Hr & -> & ->).
  exists row. unfold request_cleanup in Hr. destruct (decide (al_state old = "released")) as [Es|Es].
  - rewrite bool_decide_eq_true_2 in Hr by done. apply ret_run in Hr as [-> ->]. repeat (split; [done|]). unfold dying. rewrite Es. vm_compute. lia.
  - rewrite bool_decide_eq_false_2 in Hr by done.
    apply bind_run in Hr as (n & w3 & _ & Hr). apply bind_run in Hr as (c & w4 & _ & Hr).
    apply bind_run in Hr as (u & w5 & _ & Hr). apply one_run, update_allocation_run in Hr as (a & _ & _ & _ & -> & Hin).
    repeat (split; [done|]). vm_compute. lia.
Qed.

Lemma claim_answer leased owner w res w' :
  ClaimRuntimeInitialization leased owner w = (Ok res, w') →
  ∃ a a', In a (allocations (w_db w)) ∧ uuid_string (al_id a) = ra_id res ∧ al_init a = "pending"
    ∧ In a' (allocations (w_db w')) ∧ uuid_string (al_id a') = ra_id res ∧ claimed_init a'.
Proof.
  intros Hr. apply mutate_answer in Hr as (old & row & w1 & w2 & _ & <- & Hr & -> & ->).
  apply one_run in Hr. unfold ClaimRuntimeInitializationQ in Hr. apply bind_run in Hr as (now & w3 & Hn & Hr).
  apply clock_run in Hn as [<- _]. apply update_allocation_run in Hr as (a & Ha & _ & Hp & -> & Hin).
  exists a, (init_row "running" a). unfold initializing in Hp. bsolve. repeat (split; [done|]). vm_compute. lia.
Qed.

Lemma create_allocation_run id env device provider w row w' :
  CreateRuntimeAllocation id env device provider w = (Ok row, w') →
  In row (allocations (w_db w')) ∧ al_env row = env ∧ ∀ x, In x (allocations (w_db w)) → al_env x ≠ env.
Proof.
  unfold CreateRuntimeAllocation. intros Hr.
  apply bind_run in Hr as (now1 & w1 & E1 & Hr). apply bind_run in Hr as (now2 & w2 & E2 & Hr).
  apply clock_run in E1 as [E1 _], E2 as [E2 _]. tx_inv.
  rename select (negb (existsb (λ a, al_env a =?s env) _) = true) into Hfree. cbn.
  split; [apply in_app_iff; right; by left|]. split; [done|]. rewrite E2, E1, negb_true_iff, existsb_false_iff in Hfree.
  intros x Hx%Hfree. by apply bool_decide_eq_false_1 in Hx.
Qed.

Lemma reserve_answer leased tenant env provider hash w owner w' :
  allocations_wf (w_db w) → ReserveRuntimeAllocation leased tenant env provider hash w = (Ok owner, w') →
  ra_replayed owner = false →
  ∃ a, In a (allocations (w_db w')) ∧ uuid_string (al_id a) = ra_id owner ∧ uuid_string (al_env a) = ra_env owner
    ∧ ∀ x, In x (allocations (w_db w)) → al_env x ≠ al_env a.
Proof.
  intros Hwf Hr Hrep. unfold ReserveRuntimeAllocation in Hr.
  apply bind_run in Hr as ([] & w1 & Hq & Hr). apply require_run in Hq as [_ ->].
  apply bind_run in Hr as (pk & w1 & Hq & Hr). apply of_result_run in Hq as [_ ->].
  apply bind_run in Hr as (owned & w1 & Hq & Hr). apply GetEnvironment_run in Hq as [-> _].
  apply bind_run in Hr as ([] & w1 & Hq & Hr). apply require_run in Hq as [_ ->].
  apply bind_run in Hr as (lookup & w1 & Hq & Hr). apply of_result_run in Hq as [_ ->].
  apply bind_run in Hr as (device & w1 & Hq & Hr). apply reads_run in Hq; [|apply reads_newDeviceParams].
  apply withSessionState_run in Hr as (t & session & s & w2 & _ & _ & _ & _ & Hr & ->).
  unfold reserve_allocation in Hr. apply bind_run in Hr as (prev & w3 & Hp & Hr).
  apply reads_run in Hp; [|by apply reads_bind]. destruct prev as [r|].
  { apply bind_run in Hr as ([] & w4 & _ & Hr). apply ret_run in Hr as [-> _]. discriminate Hrep. }
  apply bind_run in Hr as (cur & w4 & Hc & Hr). apply one_run, query_run in Hc as [_ ->].
  apply bind_run in Hr as ([] & w4 & Hc & Hr). apply require_run in Hc as [_ ->].
  apply bind_run in Hr as (u & w4 & Hc & Hr).
  apply (moves_run (on_db allocations_advance)) in Hc as [Hadv _]; [|apply (createEnvironmentDevice_moves _)].
  apply bind_run in Hr as (id & w5 & Hu & Hr). apply uuid_run in Hu as [Eu _].
  apply bind_run in Hr as (row & w6 & Hc & Hr). apply ret_run in Hr as [-> ->].
  apply create_allocation_run in Hc as (Hin & Henv & Hfree). exists row. repeat (split; [done|]). rewrite Henv. intros x Hx.
  rewrite Eu in Hfree. rewrite Hp, Hq in Hadv. destruct (advances_persist _ _ _ _ _ _ _ _ Hadv Hwf Hx) as (y & Hy & He).
  rewrite <- (ae_env _ _ He). by apply Hfree.
Qed.

Section lifecycle.
Context `{!UUIDLaws} (leased : bool) (config : RuntimeProviders).

Lemma uuid_string_inj u v : uuid_string u = uuid_string v → u = v.
Proof using Type*. intros E. pose proof (uuid_parse_string u) as Hu. rewrite E, uuid_parse_string in Hu. congruence. Qed.

(** The rows of one identifier are one row. *)
Lemma allocated_row p a s :
  allocations_wf (rt_db s) → In a (allocations (rt_db s)) → allocated p (uuid_string (al_id a)) s → p a.
Proof using Type*.
  intros Hwf Ha (b & Hb & E%uuid_string_inj & Hp). by rewrite (nodup_key al_id (allocations (rt_db s)) a b) by (done || apply Hwf).
Qed.

(** A state behind the requests of others, before the call. *)
Definition before (s : rstate) (w : world) : rstate := MkRState w (rt_life s) (rt_trace s) (rt_count s).

Lemma before_passes s w : allocations_advance (rt_db s) (w_db w) → passes s (before s w).
Proof. by split. Qed.

Definition unused (owner : RuntimeAllocation) (s : rstate) : Prop :=
  (inv s ∧ allocated (serves (ra_env owner)) (ra_id owner) s) ∧ ra_env owner ∉ creations (rt_trace s).

#[export] Instance unused_fact owner : Fact (unused owner).
Proof. apply (trace_fact _ (λ t, ra_env owner ∉ creations t)). apply allocated_fact; [apply _|apply lasting_serves]. Qed.

Lemma creations_in env trace : env ∈ creations trace → ∃ r, PCreate r ∈ trace ∧ rf_env r = env.
Proof.
  intros Hin. apply list_elem_of_omap in Hin as (c & Hc & Ec). destruct c; try discriminate Ec. injection Ec as <-. by exists r.
Qed.

Lemma hoare_reserve tenant env provider hash :
  hoare inv (ask (ReserveRuntimeAllocation leased tenant env provider hash))
    (λ owner s, inv s ∧ (ra_replayed owner = false → unused owner s)) inv.
Proof using Type*.
  intros s Hs. pose proof (ask_passes (ReserveRuntimeAllocation leased tenant env provider hash) s (tame_reserve _ _ _ _ _)) as Hp.
  destruct (ask _ s) as [[owner|e] s'] eqn:Ea; [|by eapply inv_passes].
  assert (inv s') as Hs' by (by eapply inv_passes). split; [done|]. intros Hrep.
  apply ask_run in Ea as (w & Hr & Hadv & _ & Et). pose proof (inv_passes _ _ (before_passes _ _ Hadv) Hs) as Hb.
  apply reserve_answer in Hr as (a & Ha & Hid & Henv & Hfree); [|apply Hb|done].
  split; [split; [done|by exists a]|]. rewrite Et. intros (r & Hr & Er)%creations_in.
  destruct (iv_created _ (proj1 Hb) r Hr) as (x & Hx & _ & Ex). unfold serves in Ex. rewrite Er, <- Henv in Ex.
  apply uuid_string_inj in Ex. by apply (Hfree x).
Qed.

Lemma hoare_create owner : hoare (unused owner) (create (runtimeReference owner)) (λ _, inv) inv.
Proof using Type*.
  unfold create. apply (hoare_bind _ _ _ (λ _, inv)); [|keeps_tac].
  apply hoare_called; [|done]. intros s [[Hs Ha] Hn]. by split.
Qed.

Lemma keeps_provision tenant env provider : keeps_fact inv (provision leased config tenant env provider).
Proof using Type*.
  unfold provision. do 4 (apply keeps_bind; [keeps_tac|intros ?]). eapply hoare_bind; [apply hoare_reserve|intros owner].
  destruct (ra_replayed owner) eqn:Er; [by apply hoare_ret; intros s []|].
  apply (hoare_conseq (unused owner) _ _ (λ _, inv) _ inv); [intros s [_ Hu]; exact (Hu Er)|done|done|].
  apply (hoare_bind _ _ _ (λ _, unused owner)); [eapply hoare_conseq, keeps_ownership, _; [done|done|by intros s [[]]]|intros _].
  apply (hoare_bind _ _ _ (λ _, inv)); [eapply hoare_conseq, hoare_attempt, hoare_create; [done|by intros []|done]|].
  keeps_tac.
Qed.

Lemma keeps_tolerate m : keeps_fact inv m → keeps_fact inv (tolerate leased m).
Proof. intros Hm. unfold tolerate. keeps_tac. Qed.

Ltac change_tac := intros; apply keeps_change; intros l; try by left.

Lemma keeps_provision_rows rows : keeps_fact inv (provision_rows leased config rows).
Proof using Type*.
  induction rows as [|[[id tenant] engine] rows IH]; cbn [provision_rows]; [keeps_tac|].
  apply keeps_bind; [change_tac|intros _]. apply keeps_bind; [|by intros _].
  destruct (_ =?s _); [keeps_tac|]. apply keeps_tolerate, keeps_bind; [apply keeps_provision|keeps_tac].
Qed.

Lemma keeps_provisionPending : keeps_fact inv (provisionPending leased config).
Proof using Type*.
  unfold provisionPending. destruct (_ && _); [keeps_tac|]. do 3 (apply keeps_bind; [keeps_tac|intros ?]).
  destruct a1; [change_tac|apply keeps_provision_rows].
Qed.

Lemma keeps_observeConnection owner : keeps_fact inv (observeConnection leased owner).
Proof.
  unfold observeConnection. keeps_tac; change_tac.
Qed.

(** ** Initialization *)

(** The steps of an allocation below [k] may have been run. *)
Definition at_step (k : nat) (id : string) (s : rstate) : Prop := inv_core s ∧ progress k id s.

#[export] Instance at_step_fact k id : Fact (at_step k id).
Proof. apply progress_fact, _. Qed.

Lemma at_step_mono k id s : at_step k id s → at_step (S k) id s.
Proof. intros [Hc [Ha Hk]]. split; [done|]. split; [done|]. intros j Hj%Hk. lia. Qed.

Lemma commands_snoc trace c :
  commands (trace ++ [c]) = commands trace ++ match c with PCommand r k => [(rf_alloc r, k)] | _ => [] end.
Proof. unfold commands. rewrite omap_app. by destruct c. Qed.

Lemma hoare_run_command r k : hoare (at_step k (rf_alloc r)) (run_command r k) (λ _, at_step (S k) (rf_alloc r)) (at_step (S k) (rf_alloc r)).
Proof.
  unfold run_command. apply (hoare_bind _ _ _ (λ _, at_step (S k) (rf_alloc r))); [|keeps_tac].
  intros s [Hc [Ha Hk]]. split; [|split; [done|]].
  - apply call_core; [done|]. split; [done|]. intros Hin%Hk. lia.
  - cbn [rt_trace]. intros j. rewrite commands_snoc. intros [Hj%Hk|[= ->]]%elem_of_snoc; lia.
Qed.

(** Work before the command, the command, the reading of its answer. *)
Lemma hoare_before {A B} k id (m : rt A) (f : A → rt B) :
  keeps_fact (at_step k id) m →
  (∀ a, hoare (at_step k id) (f a) (λ _, at_step (S k) id) (at_step (S k) id)) →
  hoare (at_step k id) (m ≫= f) (λ _, at_step (S k) id) (at_step (S k) id).
Proof.
  intros Hm Hf. apply (hoare_bind _ _ _ (λ _, at_step k id)); [|done].
  eapply hoare_conseq, Hm; [done|done|]. apply at_step_mono.
Qed.

Lemma hoare_installInitialFile provider r k path size body :
  hoare (at_step k (rf_alloc r)) (installInitialFile provider r k path size body) (λ _, at_step (S k) (rf_alloc r)) (at_step (S k) (rf_alloc r)).
Proof.
  unfold installInitialFile. apply hoare_before; [keeps_tac|intros _].
  eapply hoare_bind; [apply hoare_run_command|]. keeps_tac.
Qed.

Lemma hoare_runRuntimeSetup provider r k op :
  hoare (at_step k (rf_alloc r)) (runRuntimeSetup provider r k op) (λ _, at_step (S k) (rf_alloc r)) (at_step (S k) (rf_alloc r)).
Proof.
  unfold runRuntimeSetup. apply hoare_before; [keeps_tac|intros _]. apply hoare_before; [keeps_tac|intros _].
  eapply hoare_bind; [apply hoare_run_command|]. keeps_tac.
Qed.

Lemma hoare_initialize_next owner i :
  hoare (at_step (it_next i) (ra_id owner)) (initialize_next config owner i)
    (λ _, at_step (S (it_next i)) (ra_id owner)) (at_step (S (it_next i)) (ra_id owner)).
Proof.
  unfold initialize_next. destruct (_ <? _)%nat.
  - do 2 (apply hoare_before; [keeps_tac|intros ?]). apply (hoare_installInitialFile _ (runtimeReference owner)).
  - destruct (_ !! _); [apply (hoare_runRuntimeSetup _ (runtimeReference owner))|].
    intros s Hs. by apply at_step_mono.
Qed.

(** What becomes of the initialization. *)
Lemma hoare_stop (P E : rstate → Prop) : (∀ s, P s → inv_core s) → hoare P stop_initializing (λ _, inv) E.
Proof. intros HP s []%HP. by split. Qed.

Lemma hoare_proceed i E :
  hoare (at_step (it_next i) (ra_id (it_owner i))) (change_life (λ l, set_initializing l (Some i))) (λ _, inv) E.
Proof. intros s [[] Hp]. split; [done|]. intros j [= <-]. exact Hp. Qed.

Lemma hoare_claim owner :
  hoare inv (ask (ClaimRuntimeInitialization leased owner)) (λ claimed, at_step 0 (ra_id claimed)) inv.
Proof using Type*.
  intros s Hs. pose proof (ask_passes (ClaimRuntimeInitialization leased owner) s (tame_claim _ _)) as Hp.
  destruct (ask _ s) as [[claimed|e] s'] eqn:Ea; [|by eapply inv_passes].
  assert (inv s') as [Hs' _] by (by eapply inv_passes). split; [done|].
  apply ask_run in Ea as (w & Hr & Hadv & _ & Et). pose proof (inv_passes _ _ (before_passes _ _ Hadv) Hs) as [Hb _].
  apply claim_answer in Hr as (a & a' & Ha & Hid & Hpend & Ha' & Hid' & Hst). split; [by exists a'|].
  intros k Hin. rewrite Et in Hin. apply (iv_started _ Hb) in Hin. rewrite <- Hid in Hin.
  apply allocated_row in Hin; [|apply Hb|done]. unfold claimed_init in Hin. rewrite Hpend in Hin. vm_compute in Hin. lia.
Qed.

Lemma keeps_observeInitialization owner : keeps_fact inv (observeInitialization leased owner).
Proof using Type*.
  unfold observeInitialization, request_runtime_cleanup. destruct (_ =?s _); [keeps_tac|]. apply keeps_bind; [keeps_tac|intros l].
  destruct (_ =?s _); [keeps_tac|]. destruct (bool_decide _); [keeps_tac|]. apply keeps_bind; [keeps_tac|intros env].
  destruct (dec_initialization _ _) as [[init files]|]; [|keeps_tac]. cbv zeta. destruct (_ <? _)%nat; [keeps_tac|].
  do 2 (apply keeps_bind; [keeps_tac|intros ?]). destruct (_ || _); [keeps_tac|].
  eapply hoare_bind; [apply hoare_claim|intros claimed]. cbv beta.
  apply (hoare_bind _ _ _ (λ _, at_step 0 (ra_id claimed))); [|intros now].
  - apply (hoare_input _).
  - apply (hoare_proceed (MkInitialization _ _ _ _ _ _)).
Qed.

(** The initialization that is in progress. *)
Definition active (i : runtimeInitialization) (s : rstate) : Prop := inv s ∧ lf_initializing (rt_life s) = Some i.

#[export] Instance active_fact i : Fact (active i).
Proof.
  split; [by intros s [[[]]]|]. intros s s' Hp [Hs Hi]. split; [by eapply inv_passes|]. by rewrite (ps_life _ _ Hp).
Qed.

Lemma active_step i s : active i s → at_step (it_next i) (ra_id (it_owner i)) s.
Proof. intros [[Hc Hi] Hl]. split; [done|]. by apply Hi. Qed.

Lemma active_core i s : active i s → inv_core s.
Proof. by intros [[]]. Qed.

(** Stopping and failing. *)
Lemma hoare_stop_fail {A} (P : rstate → Prop) e (Q : A → rstate → Prop) :
  (∀ s, P s → inv_core s) → hoare P (_ ← stop_initializing; fail e) Q inv.
Proof. intros HP. apply (hoare_bind _ _ _ (λ _, inv)); [by apply hoare_stop|]. by intros _ s. Qed.

Lemma hoare_after_step i (leased' : bool) owner :
  let i' := MkInitialization (it_owner i) (S (it_next i)) (it_count i) (it_files i) (it_operations i) (it_deadline i) in
  hoare (at_step (S (it_next i)) (ra_id (it_owner i)))
    (if (it_next i' =? it_count i')%nat then
       completed ← attempt (ask (CompleteRuntimeInitialization leased' owner));
       _ ← stop_initializing;
       _ ← lift completed; mret tt
     else change_life (λ l, set_initializing l (Some i'))) (λ _, inv) inv.
Proof.
  intros i'. destruct (_ =? _)%nat; [|apply (hoare_proceed i')].
  apply (hoare_bind _ _ _ (λ _, at_step (S (it_next i)) (ra_id (it_owner i)))).
  - eapply hoare_conseq, hoare_attempt, (keeps_ask (at_step (S (it_next i)) (ra_id (it_owner i)))), tame_complete; [done|by intros []|done].
  - intros r. apply (hoare_bind _ _ _ (λ _, inv)); [|keeps_tac]. apply hoare_stop. by intros s [].
Qed.

Lemma hoare_owned_step i owner :
  ra_id owner = ra_id (it_owner i) →
  hoare (active i) (outcome ← attempt (initialize_next config owner i);
    match outcome with
    | Err e => _ ← stop_initializing; fail e
    | Ok _ =>
        let i' := MkInitialization (it_owner i) (S (it_next i)) (it_count i) (it_files i) (it_operations i) (it_deadline i) in
        if (it_next i' =? it_count i')%nat then
          completed ← attempt (ask (CompleteRuntimeInitialization leased owner));
          _ ← stop_initializing;
          _ ← lift completed; mret tt
        else change_life (λ l, set_initializing l (Some i'))
    end) (λ _, inv) inv.
Proof.
  intros Eid. pose proof (hoare_initialize_next owner i) as Hn. rewrite Eid in Hn.
  apply (hoare_bind _ _ _ (λ _, at_step (S (it_next i)) (ra_id (it_owner i)))).
  - eapply hoare_conseq, hoare_attempt, Hn; [apply active_step|by intros []|done].
  - intros [[]|e]; [apply hoare_after_step|]. apply hoare_stop_fail. by intros s [].
Qed.

Lemma hoare_advance i :
  hoare (active i) (ask (GetRuntimeAllocation (ra_tenant (it_owner i)) (ra_env (it_owner i)))) (λ _, active i) inv.
Proof. eapply hoare_conseq, (keeps_ask (active i)), tame_allocation; [done|done|]. by intros s []. Qed.

Lemma keeps_advanceInitialization : keeps_fact inv (advanceInitialization leased config).
Proof.
  unfold advanceInitialization.
  apply (hoare_bind _ _ _ (λ l s, inv s ∧ l = rt_life s)); [by intros s|intros l].
  destruct (lf_initializing l) as [i|] eqn:El; [|by intros s []].
  apply (hoare_conseq (active i) _ _ (λ _, inv) _ inv); [|done|done|]; [intros s [Hs ->]; by split|].
  eapply hoare_bind; [apply hoare_advance|intros owner]. cbv beta.
  destruct (_ || ra_expired owner); [apply hoare_stop, active_core|].
  destruct (ra_init owner =?s "complete"); [apply hoare_stop, active_core|].
  destruct (_ || _) eqn:Eo; [apply hoare_stop_fail, active_core|].
  apply (hoare_bind _ _ _ (λ _, active i)); [apply (hoare_input _)|intros now].
  destruct (_ <? _); [apply hoare_stop_fail, active_core|].
  apply (hoare_bind _ _ _ (λ _, active i)); [|intros [[]|e]; [|apply hoare_stop_fail, active_core]].
  - eapply hoare_conseq, hoare_attempt, (keeps_ownership (active i)), _; [done|by intros []|done].
  - apply hoare_owned_step. bsolve. done.
Qed.

(** ** Observation *)

Definition condemned (owner : RuntimeAllocation) (s : rstate) : Prop := inv s ∧ allocated dying (ra_id owner) s.

#[export] Instance condemned_fact owner : Fact (condemned owner).
Proof. apply allocated_fact; [apply _|apply lasting_dying]. Qed.

Lemma hoare_cleanup owner : hoare inv (request_runtime_cleanup leased owner) condemned inv.
Proof.
  unfold request_runtime_cleanup. intros s Hs.
  pose proof (ask_passes (RequestRuntimeCleanup leased owner) s (tame_cleanup _ _)) as Hp.
  destruct (ask _ s) as [[res|e] s'] eqn:Ea; [|by eapply inv_passes].
  split; [by eapply inv_passes|]. apply ask_run in Ea as (w & Hr & _). by apply cleanup_answer in Hr.
Qed.

Lemma keeps_cleanup owner : keeps_fact inv (request_runtime_cleanup leased owner).
Proof. eapply hoare_conseq, hoare_cleanup; [done| |done]. by intros a s []. Qed.

(** A destruction that succeeded is the last call. *)
Lemma hoare_kill owner :
  hoare (condemned owner) (kill (runtimeReference owner))
    (λ _ s, inv s ∧ list.last (rt_trace s) = Some (PKill (runtimeReference owner) true)) inv.
Proof.
  unfold kill. apply (hoare_bind _ _ _ (λ _, condemned owner)); [apply (hoare_input _)|intros outcome].
  intros s [Hs Ha]. unfold mbind, rt_bind, called, lift.
  assert (inv (MkRState (rt_world s) (rt_life s) (rt_trace s ++ [PKill (runtimeReference owner) (is_ok outcome)]) (rt_count s)))
    as Hi by (by apply call_inv).
  destruct outcome; [|done]. split; [done|]. cbn [rt_trace]. by rewrite last_snoc.
Qed.

Lemma keeps_reclaim owner : keeps_fact inv (reclaim leased owner).
Proof.
  unfold reclaim. eapply hoare_bind; [apply hoare_cleanup|intros o]. cbv beta.
  apply (hoare_bind _ _ _ (λ _, condemned o)); [eapply hoare_conseq, (keeps_ownership (condemned o)), _; [done|done|by intros s []]|intros _].
  eapply hoare_bind; [apply hoare_kill|intros ?]. cbv beta. destruct (negb _); [by intros s []|].
  apply (hoare_bind _ _ _ (λ _, inv)); [|keeps_tac]. apply hoare_called; [|done]. by intros s [].
Qed.

Lemma keeps_keep owner : keeps_fact inv (keep leased owner).
Proof using Type*.
  unfold keep. apply keeps_bind; [keeps_tac|intros o]. apply keeps_bind; [apply keeps_observeInitialization|intros _].
  apply keeps_bind; [keeps_tac|intros peer]. destruct (bool_decide _); [keeps_tac|].
  apply keeps_bind; [apply keeps_renew|intros renewed]. keeps_tac.
Qed.

Lemma keeps_observe_authority owner : keeps_fact inv (observe_authority leased owner).
Proof.
  unfold observe_authority. apply keeps_bind; [keeps_tac|intros l].
  apply keeps_bind; [destruct (_ && _); [apply keeps_cleanup|keeps_tac]|intros o].
  destruct (reclaimed o); [|apply keeps_bind; [apply keeps_observeConnection|keeps_tac]].
  apply keeps_bind; [apply keeps_cleanup|intros o']. apply keeps_bind; [|keeps_tac].
  apply keeps_change. intros l'. cbv zeta. destruct (is_initializing _ _); [by right|by left].
Qed.

Lemma keeps_observe_runtime owner : keeps_fact inv (observe_runtime leased config owner).
Proof using Type*.
  unfold observe_runtime. apply keeps_bind; [apply keeps_observe_authority|intros o]. cbv zeta.
  do 2 (apply keeps_bind; [keeps_tac|intros _]). apply keeps_bind; [apply keeps_attempt, keeps_get_info|intros answer].
  do 3 (apply keeps_bind; [keeps_tac|intros ?]).
  destruct (reclaimed _); [apply keeps_reclaim|]. destruct (_ || _); [keeps_tac|apply keeps_keep].
Qed.

Lemma keeps_observe_rows rows : keeps_fact inv (observe_rows leased config rows).
Proof using Type*.
  induction rows as [|owner rows IH]; cbn [observe_rows]; [keeps_tac|].
  apply keeps_bind; [change_tac|intros _]. apply keeps_bind; [|by intros _]. apply keeps_tolerate, keeps_observe_runtime.
Qed.

Lemma keeps_reconcile : keeps_fact inv (ReconcileManagedRuntimes leased config).
Proof using Type*.
  unfold ReconcileManagedRuntimes. do 3 (apply keeps_bind; [keeps_tac|intros ?]). destruct a1.
  - apply keeps_bind; [change_tac|intros _]. apply keeps_bind; [|intros _; apply keeps_provisionPending].
    apply keeps_tolerate, keeps_advanceInitialization.
  - apply keeps_bind; [apply keeps_observe_rows|intros _; apply keeps_provisionPending].
Qed.

(** ** Runs of the service *)

Lemma keeps_state {A} (m : rt A) s : keeps_fact inv m → inv s → inv (m s).2.
Proof. intros Hm Hs%Hm. by destruct (m s) as [[a|e] s']. Qed.

Lemma lstep_inv s s' : lstep leased config s s' → inv s → inv s'.
Proof using Type*.
  intros [] Hs.
  - apply keeps_state; [apply keeps_reconcile|done].
  - apply keeps_state; [apply keeps_provision|done].
  - destruct Hs as [[] _]. by split.
  - eapply inv_passes, Hs. split; [done|done|apply serve_all_advance].
Qed.

Lemma lsteps_inv s s' : rtc (lstep leased config) s s' → inv s → inv s'.
Proof using Type*. induction 1; [done|]. eauto using lstep_inv. Qed.

(** A service that has not called a provider yet. *)
Lemma start_inv w n : allocations_wf (w_db w) → inv (MkRState w initial_lifecycle [] n).
Proof.
  intros Hwf. split; [|done]. split; cbn; try done; try apply NoDup_nil_2; by intros * ?%not_elem_of_nil.
Qed.

(** ** Properties *)

(** C32. A sandbox is created at most once for an environment, and only for an
    allocation that is on record for it: whatever replies are lost, calls fail,
    processes restart or other clients do in between. *)
Theorem runtime_created_once w n s :
  allocations_wf (w_db w) → rtc (lstep leased config) (MkRState w initial_lifecycle [] n) s →
  NoDup (creations (rt_trace s))
  ∧ ∀ r, PCreate r ∈ rt_trace s → ∃ a, In a (allocations (w_db (rt_world s)))
      ∧ uuid_string (al_id a) = rf_alloc r ∧ uuid_string (al_env a) = rf_env r.
Proof using Type*. intros Hwf Hs%lsteps_inv%proj1; [|by apply start_inv]. split; apply Hs. Qed.

(** C33. A sandbox is destroyed only once its allocation durably waits for cleanup,
    which it never takes back, and an allocation is given up only right after its
    sandbox was destroyed. *)
Theorem destruction_is_authorized w n s :
  allocations_wf (w_db w) → rtc (lstep leased config) (MkRState w initial_lifecycle [] n) s →
  (∀ r ok, PKill r ok ∈ rt_trace s → ∃ a, In a (allocations (w_db (rt_world s)))
      ∧ uuid_string (al_id a) = rf_alloc r ∧ (al_state a = "cleanup_pending" ∨ al_state a = "released"))
  ∧ ∀ r before after, rt_trace s = before ++ PRelease r :: after → ∃ before', before = before' ++ [PKill r true].
Proof using Type*.
  intros Hwf Hs%lsteps_inv%proj1; [|by apply start_inv]. split.
  - intros r ok Hin%(iv_killed _ Hs). destruct Hin as (a & Ha & Hid & Hd). exists a. repeat (split; [done|]). by apply dying_state.
  - intros r before after E. pose proof (iv_released _ Hs) as Hr. rewrite E in Hr. by apply releases_follow_split in Hr.
Qed.

(** C34. No step of an initialization is carried out twice, in any order of scans,
    failures and restarts, and none before the initialization was durably claimed. *)
Theorem initialization_steps_once w n s :
  allocations_wf (w_db w) → rtc (lstep leased config) (MkRState w initial_lifecycle [] n) s →
  NoDup (commands (rt_trace s))
  ∧ ∀ r k, PCommand r k ∈ rt_trace s → ∃ a, In a (allocations (w_db (rt_world s)))
      ∧ uuid_string (al_id a) = rf_alloc r ∧ (al_init a = "running" ∨ al_init a = "complete").
Proof using Type*.
  intros Hwf Hs%lsteps_inv%proj1; [|by apply start_inv]. split; [apply Hs|]. intros r k Hin.
  destruct (iv_started _ Hs (rf_alloc r) k) as (a & Ha & Hid & Hst).
  - apply list_elem_of_omap. by exists (PCommand r k).
  - exists a. repeat (split; [done|]). by apply claimed_state.
Qed.
End lifecycle.
End facts.

(** ** Witnesses *)

(** A Session whose environment is set up by one command. *)
Definition setup_config : json :=
  JObj [("environment", JObj [("type", JStr "openai_hosted"); ("initialization", JBool true)])].

Definition setup_db : db :=
  let d := with_sessions bare_db [MkSession 2%N 1%N "codex" (JObj []) "create" "" 900 setup_config 0 None None None] in
  with_setups d [2%N].

Definition setup_world : world := MkWorld setup_db 0 0 0.

Definition demo_reference : Reference := MkReference tenant_id env_id (uuid_string 101%N).

#[export] Instance demo_surroundings : Surroundings := {|
  su_others _ := [];
  su_fate _ := Replied;
  su_ping _ := Ok tt;
  su_info _ := Ok (MkInfo demo_reference "sandbox-1" "running" true);
  su_kill _ := Ok tt;
  su_run _ := Ok (MkCommandResult (raw_of (JObj [("version", JNum "1"); ("outcome", JStr "completed")])) "" 0);
  su_peer _ := None;
  su_now _ := 0;
  su_hash _ := digest;
  su_generation _ := uuid_string 13%N;
  su_setup _ := Ok (MkSetup [] [MkSetupCommand "make" ""] (MkPackages None None None) []);
  su_file _ := Err ErrNotFound;
  su_skill _ := true;
|}.

Definition demo_providers : RuntimeProviders := MkProviders None provider_key [] [(provider_key, true)].

(** Reconciliations, then the Session is deleted and another one runs. *)
Fixpoint reconciled (n : nat) (s : rstate) : rstate :=
  match n with O => s | S n' => reconciled n' (ReconcileManagedRuntimes true demo_providers s).2 end.

Definition setup_state : rstate := MkRState setup_world initial_lifecycle [] 0.
Definition after_requests (rs : list request) (s : rstate) : rstate :=
  MkRState (serve_all rs (rt_world s)) (rt_life s) (rt_trace s) (rt_count s).
Definition reclaimed_state : rstate :=
  reconciled 2 (after_requests [ReqDeleteSession tenant_id session_id] (reconciled 5 setup_state)).

Lemma reconciled_steps n s : rtc (lstep true demo_providers) s (reconciled n s).
Proof. revert s. induction n as [|n IH]; intros s; [done|]. eapply rtc_l; [constructor|apply IH]. Qed.

Lemma interrupted_steps n rs m s :
  rtc (lstep true demo_providers) s (reconciled m (after_requests rs (reconciled n s))).
Proof.
  etrans; [apply reconciled_steps|]. eapply rtc_l; [apply (l_requests _ _ rs)|]. apply reconciled_steps.
Qed.

Lemma reclaimed_steps : rtc (lstep true demo_providers) setup_state reclaimed_state.
Proof. exact (interrupted_steps 5 _ 2 _). Qed.

#[global] Opaque reclaimed_state.

Lemma setup_allocations : allocations_wf (w_db setup_world).
Proof. split; [apply NoDup_nil|apply Forall_nil|intros; cbn; lia]. all: done. Qed.

Lemma runtime_created_once_witness :
  NoDup (creations (rt_trace reclaimed_state)) ∧ creations (rt_trace reclaimed_state) = [env_id].
Proof.
  split; [|vm_compute; reflexivity].
  exact (proj1 (runtime_created_once true demo_providers setup_world 0 reclaimed_state setup_allocations reclaimed_steps)).
Defined.

Lemma destruction_is_authorized_witness :
  (∃ a, In a (allocations (w_db (rt_world reclaimed_state))) ∧ uuid_string (al_id a) = rf_alloc demo_reference
    ∧ (al_state a = "cleanup_pending" ∨ al_state a = "released"))
  ∧ al_state <$> allocations (w_db (rt_world reclaimed_state)) = ["released"].
Proof.
  split; [|vm_compute; reflexivity].
  apply (proj1 (destruction_is_authorized true demo_providers setup_world 0 reclaimed_state setup_allocations reclaimed_steps)
    demo_reference true).
  apply (list_elem_of_lookup_2 _ 6). vm_compute. reflexivity.
Defined.

Lemma initialization_steps_once_witness :
  NoDup (commands (rt_trace reclaimed_state))
  ∧ commands (rt_trace reclaimed_state) = [(rf_alloc demo_reference, 0%nat); (rf_alloc demo_reference, 1%nat)].
Proof.
  split; [|vm_compute; reflexivity].
  exact (proj1 (initialization_steps_once true demo_providers setup_world 0 reclaimed_state setup_allocations reclaimed_steps)).
Defined.
