(* ===== verification/Policy.v ===== *)
(** * Policy

    What an engine is qualified for and what a device must advertise: the
    profiles of [services/agents-api/internal/engine], and [policy.go],
    [support.go], [engine_profile.go], [mcp.go], [mcp_support.go],
    [mcp_credentials.go] and [functionTools] of
    [services/agents-api/internal/execution], with the advertisements of a
    connected device ([AgentKindStatus] of [internal/agentdaemon/gateway]).

    A configuration is checked when a Session is created and again, with the
    capabilities of a device, before its Turns are claimed; PolicyFacts.v relates
    the two. *)
From stdpp Require Import base tactics list strings numbers gmap.
From S2P Require Import Prelude GoJson Contract Items Database Queries EnvQueries SessionLog Turns Environments Reads Configuration Setup Delivery.

(** ** Tools *)

(** [v1.MCPTool]; of the request metadata the names are kept. *)
Record MCPHTTPTransport := MkTransport {
  tr_type : string; tr_url : string; tr_headers : option (list (string * string)) }.

Record MCPTool := MkMCPTool {
  mt_type : string; mt_label : string; mt_transport : MCPHTTPTransport; mt_allowed : option (list string);
  mt_origin : string; mt_credential : option string; mt_metadata : list string; mt_required : bool }.

Definition zero_transport : MCPHTTPTransport := MkTransport "" "" None.
Definition zero_mcp_tool : MCPTool := MkMCPTool "" "" zero_transport None "" None [] false.

Definition dec_names : decoder (list string) := λ cur j,
  match j with JNull => Some [] | JObj kvs => Some (cur ++ kvs.*1) | _ => None end.

Definition dec_transport (strict : bool) : decoder MCPHTTPTransport := dec_struct (λ t k v,
  if key_is "type" k then s ← dec_string (tr_type t) v; Some (MkTransport s (tr_url t) (tr_headers t))
  else if key_is "server_url" k then s ← dec_string (tr_url t) v; Some (MkTransport (tr_type t) s (tr_headers t))
  else if key_is "headers" k then m ← dec_ptr [] dec_variables (tr_headers t) v; Some (MkTransport (tr_type t) (tr_url t) m)
  else unknown strict t).

Definition dec_mcp_tool (strict : bool) : decoder MCPTool := dec_struct (λ t k v,
  let '(MkMCPTool type label transport allowed origin credential metadata required) := t in
  if key_is "type" k then s ← dec_string type v; Some (MkMCPTool s label transport allowed origin credential metadata required)
  else if key_is "server_label" k then s ← dec_string label v; Some (MkMCPTool type s transport allowed origin credential metadata required)
  else if key_is "transport" k then r ← dec_transport strict transport v; Some (MkMCPTool type label r allowed origin credential metadata required)
  else if key_is "allowed_tools" k then l ← strings allowed v; Some (MkMCPTool type label transport l origin credential metadata required)
  else if key_is "connection_origin" k then s ← dec_string origin v; Some (MkMCPTool type label transport allowed s credential metadata required)
  else if key_is "credential_id" k then s ← dec_ptr "" dec_string credential v; Some (MkMCPTool type label transport allowed origin s metadata required)
  else if key_is "request_metadata" k then m ← dec_names metadata v; Some (MkMCPTool type label transport allowed origin credential m required)
  else if key_is "required" k then b ← dec_bool required v; Some (MkMCPTool type label transport allowed origin credential metadata b)
  else unknown strict t).

(** [proto.FunctionTool] and [proto.MCPHTTPServer]. *)
Record FunctionTool := MkFunctionTool { ft_name : string; ft_description : string; ft_parameters : json }.

Record MCPHTTPServer := MkServer {
  sv_label : string; sv_url : string; sv_allowed : option (list string); sv_required : bool; sv_token : option string }.

(** A function as an Agent declares it. *)
Record DeclaredFunction := MkDeclared {
  df_type : string; df_name : string; df_description : string; df_parameters : option json; df_deferred : bool }.

Definition dec_declared : decoder DeclaredFunction := dec_struct (λ f k v,
  let '(MkDeclared type name description parameters deferred) := f in
  if key_is "type" k then s ← dec_string type v; Some (MkDeclared s name description parameters deferred)
  else if key_is "name" k then s ← dec_string name v; Some (MkDeclared type s description parameters deferred)
  else if key_is "description" k then s ← dec_string description v; Some (MkDeclared type name s parameters deferred)
  else if key_is "parameters" k then p ← dec_raw parameters v; Some (MkDeclared type name description p deferred)
  else if key_is "defer_loading" k then b ← dec_bool deferred v; Some (MkDeclared type name description parameters b)
  else None).

(** The loop of [functionTools]. *)
Fixpoint function_loop (names : list string) (raw : list (option json)) : result (list FunctionTool) :=
  match raw with
  | [] => Ok []
  | value :: raw' =>
      match value ≫= dec_declared (MkDeclared "" "" "" None false) with
      | None => Err (ErrOther "json")
      | Some tool =>
          match df_parameters tool with
          | Some (JObj _ as parameters) =>
              _ ← reject_if (negb (df_type tool =?s "function") || df_deferred tool || (TrimSpace (df_name tool) =?s "")
                             || (512 <? str_len (df_name tool)) || bool_decide (df_name tool ∈ names))
                    (ErrOther "execution requires unique non-deferred functions with object schemas");
              rest ← function_loop (df_name tool :: names) raw';
              Ok (MkFunctionTool (df_name tool) (df_description tool) parameters :: rest)
          | _ => Err (ErrOther "execution requires unique non-deferred functions with object schemas")
          end
      end
  end.

Definition functionTools (raw : list (option json)) : result (list FunctionTool) :=
  _ ← reject_if (64 <? Z.of_nat (length raw)) (ErrOther "at most 64 function tools are supported");
  function_loop [] raw.

Section policy.
Context `{UUIDs, URLs}.

Definition mcp_url_ok (text : string) : bool :=
  match url_parse text with
  | None => false
  | Some u => negb (url_hostname u =?s "") && ((url_scheme u =?s "http") || (url_scheme u =?s "https"))
      && negb (url_user u) && (url_fragment u =?s "") && (url_query u =?s "") && negb (url_force_query u)
  end.

(** The declaration of an HTTP server, apart from its URL and tool names. *)
Definition mcp_declaration_ok (tool : MCPTool) (names : list string) : bool :=
  negb (TrimSpace (mt_label tool) =?s "") && negb (bool_decide (mt_label tool ∈ names)) && (mt_origin tool =?s "service")
  && bool_decide (mt_metadata tool = []) && (tr_type (mt_transport tool) =?s "http")
  && bool_decide (tr_headers (mt_transport tool) = None).

(** The loop of [executionTools]: what is not an MCP tool is left for
    [functionTools]. *)
Fixpoint scan_tools (names : list string) (raw : list (option json)) : result (list (option json) * list MCPHTTPServer) :=
  match raw with
  | [] => Ok ([], [])
  | value :: raw' =>
      match value ≫= dec_one "type" "" with
      | None => Err (ErrOther "invalid execution tool")
      | Some kind =>
          if negb (kind =?s "mcp") then '(functions, servers) ← scan_tools names raw'; Ok (value :: functions, servers) else
          match value ≫= dec_mcp_tool true zero_mcp_tool with
          | None => Err (ErrOther "unsupported execution MCP configuration")
          | Some tool =>
              _ ← reject_if (negb (mcp_declaration_ok tool names)) (ErrOther "unsupported execution MCP configuration");
              _ ← reject_if (negb (mcp_url_ok (tr_url (mt_transport tool)))) (ErrOther "unsupported execution MCP URL");
              _ ← reject_if (existsb (λ name, name =?s "") (default [] (mt_allowed tool))) (ErrOther "invalid execution MCP tool name");
              '(functions, servers) ← scan_tools (mt_label tool :: names) raw';
              Ok (functions, MkServer (mt_label tool) (tr_url (mt_transport tool)) (mt_allowed tool) (mt_required tool) None :: servers)
          end
      end
  end.

(** The three values [executionTools] returns; servers are returned even when a
    function is refused. *)
Definition executionTools (raw : list (option json)) : list FunctionTool * list MCPHTTPServer * option error :=
  match scan_tools [] raw with
  | Err e => ([], [], Some e)
  | Ok (functions, servers) =>
      match functionTools functions with
      | Ok resolved => (resolved, servers, None)
      | Err e => ([], servers, Some e)
      end
  end.

(** ** Engine profiles *)

(** [EnginePanic] stands for a nil pointer that is dereferenced. *)
Inductive engine_error := EngineInvalidInput | EngineMessage (message : string) | EnginePanic.

Record Profile := MkProfile {
  pr_placements : list string; pr_web_search : bool; pr_verbosity : bool; pr_bearer : bool;
  pr_configuration : option (Agent → option EnvironmentConfig → bool → option engine_error);
  pr_tools : option (option EnvironmentConfig → bool → list FunctionTool → list MCPHTTPServer → option engine_error);
  pr_function_result : option (list FunctionResultContent → option engine_error) }.

Definition Accepts (p : Profile) (placement : string) : bool := existsb (λ x, x =?s placement) (pr_placements p).

Definition fail_if (c : bool) (e : engine_error) (rest : option engine_error) : option engine_error := if c then Some e else rest.

Definition has_type (environment : option EnvironmentConfig) (types : list string) : bool :=
  match environment with Some e => existsb (λ t, ec_type e =?s t) types | None => false end.

Definition nonempty {A} (l : list A) : bool := match l with [] => false | _ => true end.

Definition codexProfile : Profile :=
  MkProfile ["none"; "self_hosted"; "openai_hosted"] true true true None
    (Some (λ environment hasDaemon _ mcp,
       fail_if (nonempty mcp && (negb (has_type environment ["none"; "self_hosted"]) || hasDaemon))
         (EngineMessage "HTTP MCP execution currently requires the Codex service-side environment:none profile") None))
    None.

(** What the two Anthropic engines refuse besides their placement. *)
Definition plain_agent (agent : Agent) : bool :=
  negb (ma_enabled (ag_multi agent)) && bool_decide (ma_max (ag_multi agent) = None)
  && bool_decide (re_effort (ag_reasoning agent) = None) && bool_decide (re_summary (ag_reasoning agent) = None)
  && ((ag_tier agent =?s "") || (ag_tier agent =?s "auto"))
  && ((tc_format (ag_text agent) =?s "") || (tc_format (ag_text agent) =?s "text")).

Definition medium_verbosity (agent : Agent) : bool :=
  (tc_verbosity (ag_text agent) =?s "") || (tc_verbosity (ag_text agent) =?s "medium").

Definition placed_model (agent : Agent) (environment : option EnvironmentConfig) (hasDaemon : bool) : bool :=
  has_type environment ["none"; "openai_hosted"] && negb hasDaemon && negb (TrimSpace (ag_model agent) =?s "").

Definition validateClaudeConfiguration (agent : Agent) (environment : option EnvironmentConfig) (hasDaemon : bool) : option engine_error :=
  fail_if (negb (placed_model agent environment hasDaemon)) EngineInvalidInput
    (fail_if (negb (medium_verbosity agent)) (EngineMessage "The configured engine currently supports medium text verbosity only.")
       (fail_if (negb (plain_agent agent)) EngineInvalidInput None)).

(** The regular expressions of labels and tool names. *)
Definition label_byte (c : Ascii.ascii) : bool := letter c || in_range 48 57 c || in_range 45 45 c.
Definition tool_byte (c : Ascii.ascii) : bool := label_byte c || in_range 46 46 c.
Definition claudeMCPLabel (s : string) : bool := negb (s =?s "") && all_bytes label_byte s.
Definition claudeMCPTool (s : string) : bool := negb (s =?s "") && all_bytes tool_byte s.

Definition query_marks : list nat := [63; 35]%nat.

Fixpoint validateClaudeMCP (servers : list MCPHTTPServer) : option engine_error :=
  match servers with
  | [] => None
  | server :: servers' =>
      fail_if (negb (claudeMCPLabel (sv_label server)) || (sv_label server =?s "functions") || contains_any (sv_url server) query_marks)
        (EngineMessage "The configured engine does not support this HTTP MCP declaration.")
        (fail_if (negb (List.forallb claudeMCPTool (default [] (sv_allowed server))))
           (EngineMessage "The configured engine does not support this MCP tool name.")
           (validateClaudeMCP servers'))
  end.

Definition validateClaudeTools (environment : option EnvironmentConfig) (hasDaemon : bool)
    (tools : list FunctionTool) (mcp : list MCPHTTPServer) : option engine_error :=
  match environment with
  | None => Some EnginePanic
  | Some e =>
      fail_if ((ec_type e =?s "openai_hosted") && nonempty mcp)
        (EngineMessage "The configured workspace profile does not support HTTP MCP tools.")
        match validateClaudeMCP mcp with
        | Some e => Some e
        | None =>
            fail_if (negb (List.forallb (λ tool, bool_decide (dec_one "type" "" (ft_parameters tool) = Some "object")) tools))
              (EngineMessage "The configured engine currently requires function schemas with root type object.") None
        end
  end.

Definition claudeProfile : Profile :=
  MkProfile ["none"; "openai_hosted"] false false true (Some validateClaudeConfiguration) (Some validateClaudeTools)
    (Some (λ content, fail_if (negb (List.forallb (λ part, frc_type part =?s "input_text") content)) EngineInvalidInput None)).

Definition mcodeProfile : Profile :=
  MkProfile ["none"; "openai_hosted"] false false false
    (Some (λ agent environment hasDaemon,
       fail_if (negb (placed_model agent environment hasDaemon && plain_agent agent && medium_verbosity agent)) EngineInvalidInput None))
    (Some (λ _ _ functions mcp, fail_if (nonempty functions || nonempty mcp)
       (EngineMessage "The configured engine does not support public functions or MCP tools.") None))
    None.

(** [None] is the zero value, which selects the built-in profiles. *)
Definition Catalog : Type := option (gmap string Profile).

Definition qualified : gmap string Profile :=
  <["codex" := codexProfile]> (<["claude_sdk" := claudeProfile]> {["mcode" := mcodeProfile]}).

Definition CatalogLookup (c : Catalog) (kind : string) : option Profile := default qualified c !! kind.

Definition profileError (e : engine_error) : error :=
  match e with
  | EngineInvalidInput => ErrInvalidInput
  | EngineMessage m => ErrOther m
  | EnginePanic => ErrOther "nil pointer dereference"
  end.

Definition engine_result (r : option engine_error) : result unit :=
  match r with Some e => Err (profileError e) | None => Ok tt end.

Definition has_daemon (s : Snapshot) : bool := bool_decide (is_Some (sn_daemon s)).

Definition agent_tools (s : Snapshot) : list (option json) := default [] (ag_tools (sn_agent s)).

Definition error_result (e : option error) : result unit := match e with Some e => Err e | None => Ok tt end.

Definition validateProfileConfiguration (profile : Profile) (s : Snapshot) : result unit :=
  _ ← match pr_configuration profile with
      | Some check => engine_result (check (sn_agent s) (sn_environment s) (has_daemon s))
      | None => Ok tt
      end;
  let '(functions, mcp, err) := executionTools (agent_tools s) in
  _ ← match pr_configuration profile with Some _ => error_result err | None => Ok tt end;
  _ ← match pr_tools profile with
      | Some check => engine_result (check (sn_environment s) (has_daemon s) functions mcp)
      | None => Ok tt
      end;
  error_result err.

(** The inputs whose function results the profile looks at. *)
Fixpoint validateProfileInputs (profile : Profile) (inputs : list Input) : result unit :=
  match pr_function_result profile, inputs with
  | None, _ | _, [] => Ok tt
  | Some check, input :: inputs' =>
      if negb (inp_kind input =?s "tool_result") then validateProfileInputs profile inputs' else
      match raw_value (inp_payload input) ≫= dec_function_input (MkResultInput "" "" None) with
      | None => Err ErrInvalidInput
      | Some value =>
          match functionResult (MkFunctionCall (fr_call value) "" "" (RawMessage 0 [] AtEOF) (fr_result value) false) with
          | Some (SFunctionResult _ _ _ content) =>
              _ ← engine_result (check content); validateProfileInputs profile inputs'
          | _ => Err ErrInvalidInput
          end
      end
  end.

(** ** Frozen MCP credentials *)

(** The MCP tools by their label; a later declaration replaces an earlier one. *)
Fixpoint collect_tools (tools : gmap string MCPTool) (raw : list (option json)) : option (gmap string MCPTool) :=
  match raw with
  | [] => Some tools
  | value :: raw' =>
      tool ← value ≫= dec_mcp_tool false zero_mcp_tool;
      collect_tools (if mt_type tool =?s "mcp" then <[mt_label tool := tool]> tools else tools) raw'
  end.

(** A binding that names no credential. *)
Definition anonymous (b : MCPCredentialBinding) : bool := mb_credential b =?s "".

Definition anonymous_ok (tool : MCPTool) (b : MCPCredentialBinding) : bool :=
  (mb_vault b =?s "") && (mb_auth b =?s "") && bool_decide (mt_credential tool = None).

Definition bearer_ok (attached : list N) (tool : MCPTool) (b : MCPCredentialBinding) : bool :=
  match uuid_parse (mb_vault b), uuid_parse (mb_credential b), url_parse (mb_url b) with
  | Some vault, Some id, Some endpoint =>
      bool_decide (vault ∈ attached) && (mb_auth b =?s "static_bearer")
      && match mt_credential tool with Some declared => bool_decide (uuid_parse declared = Some id) | None => true end
      && (url_scheme endpoint =?s "https")
  | _, _, _ => false
  end.

(** The loop over the bindings: the labels seen, and the credentials selected. *)
Fixpoint select_bindings (tools : gmap string MCPTool) (attached : list N) (seen : list string)
    (selected : gmap string MCPCredentialBinding) (bindings : list MCPCredentialBinding)
  : option (list string * gmap string MCPCredentialBinding) :=
  match bindings with
  | [] => Some (seen, selected)
  | b :: bindings' =>
      tool ← tools !! mb_label b;
      if bool_decide (mb_label b ∈ seen) || negb (tr_url (mt_transport tool) =?s mb_url b) then None else
      let seen := mb_label b :: seen in
      if anonymous b then if anonymous_ok tool b then select_bindings tools attached seen selected bindings' else None
      else if bearer_ok attached tool b then select_bindings tools attached seen (<[mb_label b := b]> selected) bindings' else None
  end.

Definition invalid_binding : error := ErrOther "invalid frozen MCP credential binding".

Definition selectedMCPCredentials (s : Snapshot) : result (gmap string MCPCredentialBinding) :=
  let vaults := default [] (sn_vaults s) in
  let bindings := default [] (sn_credentials s) in
  match
    tools ← collect_tools ∅ (agent_tools s);
    attached ← mapM uuid_parse vaults;
    '(seen, selected) ← select_bindings tools attached [] ∅ bindings;
    if List.forallb (λ kv : string * MCPTool, bool_decide (kv.1 ∈ seen)
         || (bool_decide (mt_credential kv.2 = None) && negb (nonempty vaults) && negb (nonempty bindings))) (map_to_list tools)
    then Some selected else None
  with
  | Some selected => Ok selected
  | None => Err invalid_binding
  end.

(** ** Devices *)

(** [device.KindCapabilities]. *)
Record KindCapabilities := MkCapabilities {
  Streaming : bool; Permissions : bool; UsageReports : bool; Resume : bool; NativeSessionRecovery : bool; Steering : bool;
  MessageItems : bool; ToolItems : bool; ToolObservations : bool; EnvironmentNone : bool; RemoteEnvironment : bool;
  LocalEnvironment : bool; LocalEnvironmentNetworkPolicy : bool; Preparation : bool; WorkspaceReadPreparation : bool;
  WorkspaceOutputExport : bool; WebSearchControl : bool; ExecutionControls : bool; TextVerbosity : bool;
  SubagentControl : bool; FunctionTools : bool; MCPHTTPTools : bool; MCPHTTPRequired : bool;
  MCPHTTPRemoteEnvironment : bool; MCPHTTPRemoteBearerAuth : bool; MCPHTTPBearerAuth : bool;
  DurableInputReceipts : bool; DurableTurns : bool; WorkspaceAuthoring : bool }.

Definition no_capabilities : KindCapabilities :=
  MkCapabilities false false false false false false false false false false false false false false false
    false false false false false false false false false false false false false false.

(** [device.SupportedAgentKind]. *)
Record SupportedAgentKind := MkKind { kd_kind : string; kd_available : bool; kd_version : string; kd_caps : KindCapabilities }.

(** What a connected device has advertised: whether a heartbeat arrived, and the
    kinds of the last one. *)
Record peer := MkPeer { kinds_seen : bool; supported_kinds : list SupportedAgentKind }.

Definition setSupportedAgentKinds (kinds : list SupportedAgentKind) (p : peer) : peer := MkPeer true kinds.

Definition legacyClaudeCodeKind : SupportedAgentKind :=
  MkKind "claude_code" true "" (MkCapabilities true true true true false false false false false false false false false false
    false false false false false false false false false false false false false false false).

Definition no_kind : SupportedAgentKind := MkKind "" false "" no_capabilities.

(** (descriptor, found, known). *)
Definition AgentKindStatus (p : peer) (kind : string) : SupportedAgentKind * bool * bool :=
  let kind := TrimSpace kind in
  if kind =?s "" then (no_kind, false, false)
  else if negb (kinds_seen p) then
    if kind =?s "claude_code" then (legacyClaudeCodeKind, true, false) else (no_kind, false, false)
  else match List.find (λ k, kd_kind k =?s kind) (supported_kinds p) with
       | Some k => (k, true, true)
       | None => (no_kind, false, true)
       end.

(** ** Policy *)

Context (engines : Catalog).

Definition mcpCredentialBindings (engine : string) (s : Snapshot) : result (gmap string MCPCredentialBinding) :=
  selected ← selectedMCPCredentials s;
  let bearer := match CatalogLookup engines engine with Some profile => pr_bearer profile | None => false end in
  _ ← reject_if (nonempty (map_to_list selected) && negb bearer)
        (ErrOther "The configured engine currently supports anonymous HTTP MCP only.");
  Ok selected.

Definition mcpExecutionCredentials (engine : string) (s : Snapshot) (servers : list MCPHTTPServer) (caps : KindCapabilities)
  : result (gmap string MCPCredentialBinding) :=
  let some_server := nonempty servers in
  let at_ := λ type, bool_decide (environment_type s = Some type) in
  _ ← reject_if (some_server && (negb (MCPHTTPTools caps) || negb (at_ "none" || at_ "self_hosted") || has_daemon s))
        (ErrOther "device must support the service-side HTTP MCP profile");
  selected ← mcpCredentialBindings engine s;
  let bearer := nonempty (map_to_list selected) in
  _ ← reject_if (existsb sv_required servers && negb (MCPHTTPRequired caps)) (ErrOther "device must advertise mcp_http_required");
  _ ← (if some_server && at_ "self_hosted" then
         _ ← reject_if (negb (MCPHTTPRemoteEnvironment caps)) (ErrOther "device must support service-side HTTP MCP with a remote environment");
         _ ← reject_if (bearer && negb (MCPHTTPRemoteBearerAuth caps)) (ErrOther "device must advertise mcp_http_remote_bearer_auth");
         reject_if (negb (Preparation caps) || negb (RemoteEnvironment caps)) (ErrOther "device must advertise preparation and remote_environment")
       else Ok tt);
  _ ← reject_if (bearer && negb (MCPHTTPBearerAuth caps)) (ErrOther "device must advertise mcp_http_bearer_auth");
  _ ← reject_if (some_server && at_ "none" && negb (EnvironmentNone caps)) (ErrOther "device must advertise environment_none");
  Ok selected.

(** [json.Marshal] of a [v1.Environment]. *)
Definition enc_raws (l : option (list (option json))) : json :=
  JArr (List.map (λ r, default JNull r) (default [] l)).

Definition enc_network (n : EnvironmentNetworkInput) : json :=
  JObj (member "access" (JStr (nw_access n)) ++ if no_elements (nw_domains n) then [] else member "allowed_domains" (enc_strings (nw_domains n))).

Definition enc_environment_config (e : EnvironmentConfig) : json :=
  let unless_empty := λ (empty : bool) k j, if empty then [] else member k j in
  JObj (unless_empty (no_elements (ec_skills e)) "skills" (enc_raws (ec_skills e))
        ++ unless_empty (negb (nonempty (ec_env e))) "env" (enc_string_map (ec_env e))
        ++ unless_empty (no_elements (ec_setup e)) "setup_commands" (enc_raws (ec_setup e))
        ++ omit_nil "packages" enc_packages (ec_packages e)
        ++ unless_empty (no_elements (ec_files e)) "files" (enc_raws (ec_files e))
        ++ omit_str "environment_template_id" (ec_template e)
        ++ member "type" (JStr (ec_type e))
        ++ omit_str "workspace_directory" (ec_workspace e)
        ++ unless_empty (no_elements (ec_capabilities e)) "capability_directories" (enc_strings (ec_capabilities e))
        ++ omit_nil "network" enc_network (ec_network e)).

Definition workspace_forbidden : list nat := [0; 13; 10; 92]%nat.

(** What a placement requires of the rest of a configuration. *)
Definition validate_placement (s : Snapshot) : result unit :=
  match sn_environment s with
  | None => Ok tt
  | Some e =>
      let no_model := has_daemon s || (TrimSpace (ag_model (sn_agent s)) =?s "") in
      _ ← reject_if ((ec_type e =?s "self_hosted")
                     && (no_model || negb (path_abs (ec_workspace e)) || contains_any (ec_workspace e) workspace_forbidden
                         || negb (no_elements (ec_capabilities e)))) ErrInvalidInput;
      reject_if ((ec_type e =?s "openai_hosted") && (no_model || negb (LocalWorkspaceConfiguration (enc_environment_config e)))) ErrInvalidInput
  end.

Definition unplaced (profile : Profile) (s : Snapshot) : bool :=
  match environment_type s with Some type => negb (Accepts profile type) | None => false end.

Definition validate_snapshot (engine : string) (s : Snapshot) : result unit :=
  match CatalogLookup engines engine with
  | None => Err ErrInvalidInput
  | Some profile =>
      _ ← reject_if (unplaced profile s) ErrInvalidInput;
      _ ← mcpCredentialBindings engine s;
      _ ← validate_placement s;
      validateProfileConfiguration profile s
  end.

Definition ValidateSessionConfiguration (engine : string) (configuration : json) : result unit :=
  match unmarshal_snapshot configuration with
  | None => Err ErrInvalidInput
  | Some s => validate_snapshot engine s
  end.

Definition canAdmitInputs (engine : string) (configuration : json) : bool :=
  match unmarshal_snapshot configuration with
  | None => false
  | Some s => bool_decide (environment_type s = Some "none") && negb (has_daemon s)
      && is_ok (ValidateSessionConfiguration engine configuration)
  end.

Definition validateEngineInputs (engine : string) (inputs : list Input) : result unit :=
  match CatalogLookup engines engine with
  | None => Err ErrInvalidInput
  | Some profile => validateProfileInputs profile inputs
  end.

Definition network_disabled (s : Snapshot) : bool :=
  match sn_environment s with
  | Some e => match ec_network e with Some n => nw_access n =?s "disabled" | None => false end
  | None => false
  end.

Definition engineCapabilities (p : peer) (engine : string) (s : Snapshot) : result KindCapabilities :=
  match CatalogLookup engines engine with
  | None => Err (ErrOther "execution engine placement is not supported")
  | Some profile =>
      _ ← reject_if (unplaced profile s) (ErrOther "execution engine placement is not supported");
      _ ← match pr_configuration profile with Some _ => validateProfileConfiguration profile s | None => Ok tt end;
      let '(info, found, known) := AgentKindStatus p engine in
      let caps := kd_caps info in
      _ ← reject_if (negb known || negb found || negb (kd_available info) || negb (Streaming caps) || negb (Steering caps)
                     || negb (DurableTurns caps) || negb (DurableInputReceipts caps))
            (ErrOther "device must advertise streaming, steering and durable turns for this engine");
      _ ← reject_if (negb (ExecutionControls caps)) (ErrOther "device must advertise execution_controls");
      _ ← reject_if (pr_web_search profile && negb (WebSearchControl caps)) (ErrOther "device must advertise web_search_control");
      _ ← reject_if (pr_verbosity profile && negb (TextVerbosity caps)) (ErrOther "device must advertise text_verbosity");
      _ ← reject_if (negb (ToolObservations caps)) (ErrOther "device must advertise tool_observations");
      _ ← reject_if (negb (ma_enabled (ag_multi (sn_agent s))) && negb (SubagentControl caps)) (ErrOther "device must advertise subagent_control");
      let '(functions, mcp, err) := executionTools (agent_tools s) in
      _ ← reject_if (bool_decide (is_Some err)) (ErrOther "invalid execution tool configuration");
      _ ← reject_if (nonempty functions && negb (FunctionTools caps)) (ErrOther "device must advertise function_tools");
      _ ← mcpExecutionCredentials engine s mcp caps;
      let at_ := λ type, bool_decide (environment_type s = Some type) in
      _ ← reject_if (at_ "self_hosted" && (negb (Preparation caps) || negb (RemoteEnvironment caps)))
            (ErrOther "device must advertise preparation and remote_environment");
      _ ← reject_if (at_ "openai_hosted" && (negb (Preparation caps) || negb (LocalEnvironment caps) || negb (WorkspaceReadPreparation caps)
                                              || negb (WorkspaceOutputExport caps)))
            (ErrOther "device must advertise local preparation, workspace reads and output export");
      _ ← reject_if (at_ "openai_hosted" && negb (network_disabled s)
                     && negb (LocalEnvironmentNetworkPolicy caps))
            (ErrOther "device must advertise local_environment_network_policy");
      _ ← reject_if (at_ "none" && negb (EnvironmentNone caps)) (ErrOther "device must advertise environment_none");
      Ok caps
  end.
End policy.
