(* ===== verification/PolicyFacts.v ===== *)
(** * PolicyFacts

    Theorems about Policy.v: which credentials a frozen configuration selects,
    when a device is accepted for a configuration, and that the check at creation
    and the check before a claim agree. *)
From stdpp Require Import base tactics list strings numbers gmap.
From S2P Require Import Prelude GoJson Contract Items Database Queries EnvQueries SessionLog Turns Environments Reads Configuration Setup Delivery Policy.

(** ** Chains of checks *)

Lemma guarded_bind {B} (c : bool) (m : result unit) (f : unit → result B) b :
  ((if c then m else Ok tt) ≫= f) = Ok b ↔ (c = true → m = Ok tt) ∧ f tt = Ok b.
Proof. destruct c, m as [[]|]; naive_solver. Qed.

Lemma guard_false c cap : c && negb cap = false ↔ (c = true → cap = true).
Proof. destruct c, cap; naive_solver. Qed.

Lemma guard_or_false c a b : c && (a || b) = false ↔ (c && a = false) ∧ (c && b = false).
Proof. destruct c, a, b; naive_solver. Qed.

Lemma negb_false b : negb b = false ↔ b = true.
Proof. destruct b; naive_solver. Qed.

(** Chains of checks as implications between conditions and what they ask for. *)
Ltac as_conditions :=
  rewrite ?guarded_bind, ?reject_if_bind, ?reject_if_Ok, ?guard_or_false, ?guard_false, ?orb_false_iff, ?negb_false, ?andb_true_iff.

Ltac as_conditions_in H :=
  rewrite ?guarded_bind, ?reject_if_bind, ?reject_if_Ok, ?guard_or_false, ?guard_false, ?orb_false_iff, ?negb_false, ?andb_true_iff in H.

Lemma nonempty_true {A} (l : list A) : nonempty l = true ↔ l ≠ [].
Proof. destruct l; naive_solver. Qed.

Lemma nonempty_false {A} (l : list A) : nonempty l = false ↔ l = [].
Proof. destruct l; naive_solver. Qed.

Lemma engine_result_Ok r u : engine_result r = Ok u ↔ r = None.
Proof. destruct r, u; naive_solver. Qed.

Lemma fail_if_None c e rest : fail_if c e rest = None ↔ c = false ∧ rest = None.
Proof. destruct c; naive_solver. Qed.

Lemma find_eq_string {A} (f : A → string) k l x : List.find (λ a, f a =?s k) l = Some x → x ∈ l ∧ f x = k.
Proof. intros [Hin Hk]%find_some. apply bool_decide_eq_true_1 in Hk. by rewrite list_elem_of_In. Qed.

Section facts.
Context `{UUIDs, URLs}.

(** ** Selected credentials *)

(** A binding names a declared server, by its URL, and either nothing more or a
    bearer credential of an attached vault for an https endpoint. *)
Definition bearer_authorized (attached : list N) (tool : MCPTool) (b : MCPCredentialBinding) : Prop :=
  ∃ vault id endpoint,
    uuid_parse (mb_vault b) = Some vault ∧ vault ∈ attached ∧ mb_auth b = "static_bearer" ∧
    uuid_parse (mb_credential b) = Some id ∧ url_parse (mb_url b) = Some endpoint ∧ url_scheme endpoint = "https" ∧
    ∀ declared, mt_credential tool = Some declared → uuid_parse declared = Some id.

Definition binding_allowed (tools : gmap string MCPTool) (attached : list N) (b : MCPCredentialBinding) : Prop :=
  ∃ tool, tools !! mb_label b = Some tool ∧ tr_url (mt_transport tool) = mb_url b ∧
    if anonymous b then mb_vault b = "" ∧ mb_auth b = "" ∧ mt_credential tool = None
    else bearer_authorized attached tool b.

(** The decision that was frozen when the Session was created is consistent:
    every declared server is bound at most once, each binding is allowed, and a
    server is left without one only when there is nothing to choose from. *)
Record frozen_decision (s : Snapshot) (fd_tools : gmap string MCPTool) (fd_attached : list N)
    (selected : gmap string MCPCredentialBinding) : Prop := {
  fd_declared : collect_tools ∅ (agent_tools s) = Some fd_tools;
  fd_vaults : mapM uuid_parse (default [] (sn_vaults s)) = Some fd_attached;
  fd_once : NoDup (mb_label <$> default [] (sn_credentials s));
  fd_allowed : Forall (binding_allowed fd_tools fd_attached) (default [] (sn_credentials s));
  fd_decided : ∀ label tool, fd_tools !! label = Some tool →
    label ∈ mb_label <$> default [] (sn_credentials s) ∨
    (mt_credential tool = None ∧ default [] (sn_vaults s) = [] ∧ default [] (sn_credentials s) = []);
  fd_selected : ∀ label b, selected !! label = Some b ↔
    b ∈ default [] (sn_credentials s) ∧ mb_label b = label ∧ anonymous b = false }.

Lemma bearer_ok_spec attached tool b : bearer_ok attached tool b = true ↔ bearer_authorized attached tool b.
Proof.
  unfold bearer_ok, bearer_authorized.
  destruct (uuid_parse (mb_vault b)) as [vault|]; [|naive_solver].
  destruct (uuid_parse (mb_credential b)) as [id|]; [|naive_solver].
  destruct (url_parse (mb_url b)) as [endpoint|]; [|naive_solver].
  destruct (mt_credential tool) as [declared|];
    rewrite !andb_true_iff, !bool_decide_eq_true; naive_solver.
Qed.

Lemma anonymous_ok_spec tool b : anonymous_ok tool b = true ↔ mb_vault b = "" ∧ mb_auth b = "" ∧ mt_credential tool = None.
Proof. unfold anonymous_ok. rewrite !andb_true_iff, !bool_decide_eq_true. naive_solver. Qed.

Lemma select_bindings_cons tools attached seen selected b bindings r :
  select_bindings tools attached seen selected (b :: bindings) = Some r ↔
  (mb_label b ∉ seen) ∧ binding_allowed tools attached b ∧
  select_bindings tools attached (mb_label b :: seen) (if anonymous b then selected else <[mb_label b := b]> selected) bindings = Some r.
Proof.
  cbn [select_bindings]. unfold binding_allowed. destruct (tools !! mb_label b) as [tool|]; [cbn|naive_solver].
  case_bool_decide as Hseen; [naive_solver|]. case_bool_decide as Hurl; [|naive_solver]. cbn.
  pose proof (anonymous_ok_spec tool b). pose proof (bearer_ok_spec attached tool b).
  destruct (anonymous b), (anonymous_ok tool b), (bearer_ok attached tool b); naive_solver.
Qed.

Lemma select_bindings_spec tools attached bindings seen selected r :
  select_bindings tools attached seen selected bindings = Some r ↔
  NoDup (mb_label <$> bindings) ∧ (∀ b, b ∈ bindings → mb_label b ∉ seen) ∧ Forall (binding_allowed tools attached) bindings ∧
  r = (rev (mb_label <$> bindings) ++ seen,
       foldl (λ m b, if anonymous b then m else <[mb_label b := b]> m) selected bindings).
Proof.
  revert seen selected. induction bindings as [|b bindings IH]; intros seen selected.
  { cbn. rewrite NoDup_nil, Forall_nil. set_solver. }
  rewrite select_bindings_cons, IH, fmap_cons, NoDup_cons, Forall_cons, list_elem_of_fmap.
  cbn [rev foldl]. rewrite <-(assoc_L (++)). cbn.
  split.
  - intros (Hs & Ha & Hnd & Hnew & Hall & ->). split_and!; try done.
    + intros (b' & E & Hb'). apply (Hnew b' Hb'). rewrite <-E. left.
    + intros b' [->|Hb']%elem_of_cons; [done|]. specialize (Hnew b' Hb'). set_solver.
  - intros ([Hfresh Hnd] & Hnew & [Ha Hall] & ->). split_and!; try done; [apply Hnew; left|].
    intros b' Hb' [E|Hin]%elem_of_cons; [apply Hfresh; eauto|]. by apply (Hnew b'); [right|].
Qed.

Lemma selected_lookup (bindings : list MCPCredentialBinding) (m : gmap string MCPCredentialBinding) label b :
  NoDup (mb_label <$> bindings) → (∀ b, b ∈ bindings → m !! mb_label b = None) →
  foldl (λ m b, if anonymous b then m else <[mb_label b := b]> m) m bindings !! label = Some b ↔
  m !! label = Some b ∨ (b ∈ bindings ∧ mb_label b = label ∧ anonymous b = false).
Proof.
  revert m. induction bindings as [|b' bindings IH]; intros m; cbn [foldl fmap list_fmap]; [set_solver|].
  rewrite NoDup_cons, list_elem_of_fmap. intros [Hfresh Hnd] Hnew.
  assert (Hl : m !! mb_label b' = None) by (apply Hnew; left).
  assert (Hother : ∀ b, b ∈ bindings → mb_label b ≠ mb_label b') by (intros b0 Hb0 E; apply Hfresh; eauto).
  assert (Hrest : ∀ b, b ∈ bindings → m !! mb_label b = None) by (intros b0 Hb0; apply Hnew; by right).
  destruct (anonymous b') eqn:Ean.
  - rewrite IH by done. rewrite elem_of_cons. naive_solver congruence.
  - rewrite IH; [|done|].
    + rewrite elem_of_cons. destruct (decide (mb_label b' = label)) as [<-|Hne].
      * rewrite lookup_insert_eq. naive_solver congruence.
      * rewrite lookup_insert_ne by done. naive_solver congruence.
    + intros b0 Hb0. rewrite lookup_insert_ne; [eauto|]. intros E. by apply (Hother b0).
Qed.

Lemma selection_complete (tools : gmap string MCPTool) (seen : list string) (vaults : list string) (bindings : list MCPCredentialBinding) :
  List.forallb (λ kv : string * MCPTool, bool_decide (kv.1 ∈ seen)
    || (bool_decide (mt_credential kv.2 = None) && negb (nonempty vaults) && negb (nonempty bindings))) (map_to_list tools) = true ↔
  ∀ label tool, tools !! label = Some tool → label ∈ seen ∨ (mt_credential tool = None ∧ vaults = [] ∧ bindings = []).
Proof.
  rewrite forallb_forall. split.
  - intros Hall label tool Ht. specialize (Hall (label, tool)). rewrite <-list_elem_of_In, elem_of_map_to_list in Hall.
    specialize (Hall Ht). cbn in Hall. rewrite orb_true_iff, !andb_true_iff, !negb_true_iff, !bool_decide_eq_true, !nonempty_false in Hall.
    naive_solver.
  - intros Hall [label tool]. rewrite <-list_elem_of_In, elem_of_map_to_list. intros Ht. specialize (Hall label tool Ht). cbn.
    rewrite orb_true_iff, !andb_true_iff, !negb_true_iff, !bool_decide_eq_true, !nonempty_false. naive_solver.
Qed.

(** A frozen configuration yields credentials exactly when its decision is
    consistent, and then those of the bindings that name one. *)
Theorem selectedMCPCredentials_spec s selected :
  selectedMCPCredentials s = Ok selected ↔ ∃ tools attached, frozen_decision s tools attached selected.
Proof.
  unfold selectedMCPCredentials. destruct (collect_tools ∅ (agent_tools s)) as [tools|] eqn:Et; cbn; [|split; [done|]; intros (? & ? & []); congruence].
  destruct (mapM uuid_parse _) as [attached|] eqn:Ev; cbn; [|split; [done|]; intros (? & ? & []); congruence].
  destruct (select_bindings tools attached [] ∅ _) as [[seen sel]|] eqn:Es; cbn.
  - apply select_bindings_spec in Es as (Hnd & _ & Hall & [= -> ->]).
    pose proof (selection_complete tools (rev (mb_label <$> default [] (sn_credentials s)) ++ []) (default [] (sn_vaults s)) (default [] (sn_credentials s))) as Hc.
    destruct (List.forallb _ _).
    + split.
      * intros [= <-]. exists tools, attached. split; try done.
        -- intros label tool Ht. destruct ((proj1 Hc) eq_refl label tool Ht) as [Hin|]; [left|by right].
           rewrite app_nil_r in Hin. by rewrite list_elem_of_In, <-in_rev, <-list_elem_of_In in Hin.
        -- intros label b. rewrite selected_lookup by (done || intros; by rewrite lookup_empty). rewrite lookup_empty. naive_solver.
      * intros (tools' & attached' & []). simplify_eq. f_equal. apply map_eq. intros label. apply option_eq. intros b.
        rewrite selected_lookup by (done || intros; by rewrite lookup_empty). rewrite lookup_empty, fd_selected0. naive_solver.
    + split; [done|]. intros (tools' & attached' & []). simplify_eq. assert (false = true) as [=].
      apply Hc. intros label tool Ht. destruct (fd_decided0 label tool Ht) as [Hin|]; [left|by right].
      by rewrite app_nil_r, list_elem_of_In, <-in_rev, <-list_elem_of_In.
  - split; [done|]. intros (tools' & attached' & []). simplify_eq.
    assert (∃ r, select_bindings tools attached [] ∅ (default [] (sn_credentials s)) = Some r) as [r Hr]; [|congruence].
    eexists. apply select_bindings_spec. split_and!; [done|set_solver|done|reflexivity].
Qed.

(** ** Servers and the tools they were declared as *)

Lemma dec_struct_hom {A B} (f : A → B) (m : A → string → json → option A) (m' : B → string → json → option B) a j x :
  (∀ a k v a', m a k v = Some a' → m' (f a) k v = Some (f a')) →
  dec_struct m a j = Some x → dec_struct m' (f a) j = Some (f x).
Proof.
  intros Hm. destruct j as [| | | |l|kvs]; cbn; try done; [naive_solver|]. revert a.
  induction kvs as [|[k v] kvs IH]; intros a; cbn; [naive_solver|].
  destruct (m a k v) as [a'|] eqn:E; cbn.
  - rewrite (Hm _ _ _ _ E). cbn. apply IH.
  - intros Hn. exfalso. clear -Hn. induction kvs as [|kv kvs IH]; cbn in Hn; [done|auto].
Qed.

Ltac decode_member :=
  repeat match goal with
  | |- context [if key_is ?n ?k then _ else _] => destruct (key_is n k)
  | H : context [if key_is ?n ?k then _ else _] |- _ => destruct (key_is n k)
  | H : mbind _ _ = Some _ |- _ => apply bind_Some in H as (? & ? & ?)
  end; simplify_eq.

Lemma dec_transport_lenient t j x : dec_transport true t j = Some x → dec_transport false t j = Some x.
Proof.
  apply (dec_struct_hom id). intros a k v a' Hm. cbn in *. unfold unknown in *.
  decode_member; simplify_option_eq; done.
Qed.

Lemma dec_mcp_tool_lenient t j x : dec_mcp_tool true t j = Some x → dec_mcp_tool false t j = Some x.
Proof.
  apply (dec_struct_hom id). intros [] k v a' Hm. unfold id. unfold unknown in *.
  destruct (key_is "transport" k) eqn:Et.
  - decode_member; try (erewrite dec_transport_lenient by done); simplify_option_eq; done.
  - decode_member; simplify_option_eq; done.
Qed.

Lemma dec_mcp_tool_type strict t j x : dec_mcp_tool strict t j = Some x → dec_one "type" (mt_type t) j = Some (mt_type x).
Proof.
  apply (dec_struct_hom mt_type). intros [] k v a' Hm. unfold unknown in *. cbn in Hm |- *.
  destruct strict; decode_member; done.
Qed.

(** The declaration a server was made of. *)
Definition declares (tool : MCPTool) (server : MCPHTTPServer) : Prop :=
  mt_label tool = sv_label server ∧ tr_url (mt_transport tool) = sv_url server ∧ mt_allowed tool = sv_allowed server ∧
  mt_required tool = sv_required server.

Lemma scan_tools_cons names value raw functions servers :
  scan_tools names (value :: raw) = Ok (functions, servers) →
  ∃ kind, value ≫= dec_one "type" "" = Some kind ∧
    if decide (kind = "mcp") then
      ∃ tool server servers', value ≫= dec_mcp_tool true zero_mcp_tool = Some tool ∧ declares tool server ∧
        (mt_label tool ∉ names) ∧ mcp_url_ok (sv_url server) = true ∧ sv_token server = None ∧ servers = server :: servers' ∧
        scan_tools (mt_label tool :: names) raw = Ok (functions, servers')
    else ∃ functions', functions = value :: functions' ∧ scan_tools names raw = Ok (functions', servers).
Proof.
  cbn [scan_tools]. destruct (value ≫= dec_one "type" "") as [kind|] eqn:Ek; [|done]. intros Hs. exists kind. split; [done|].
  destruct (decide (kind = "mcp")) as [->|Hk].
  - rewrite bool_decide_eq_true_2 in Hs by done. cbn in Hs.
    destruct (value ≫= dec_mcp_tool true zero_mcp_tool) as [tool|] eqn:Et; [|done].
    apply reject_if_bind in Hs as [Hdecl Hs]. apply reject_if_bind in Hs as [Hurl Hs]. apply reject_if_bind in Hs as [_ Hs].
    apply bind_Ok in Hs as ([functions' servers'] & Hs & [= <- <-]).
    unfold mcp_declaration_ok in Hdecl. bsolve.
    exists tool, (MkServer (mt_label tool) (tr_url (mt_transport tool)) (mt_allowed tool) (mt_required tool) None), servers'.
    by split_and!.
  - rewrite bool_decide_eq_false_2 in Hs by done. cbn in Hs.
    apply bind_Ok in Hs as ([functions' servers'] & Hs & [= <- <-]). eauto.
Qed.

(** The tools of the two readings agree: as servers of an execution and as what
    credentials are bound to. *)
Lemma scan_collect raw names tools functions servers tools' :
  scan_tools names raw = Ok (functions, servers) → collect_tools tools raw = Some tools' →
  (∀ label, label ∈ names → tools' !! label = tools !! label) ∧
  (∀ server, server ∈ servers → mcp_url_ok (sv_url server) = true ∧ sv_token server = None ∧
     (sv_label server ∉ names) ∧ ∃ tool, tools' !! sv_label server = Some tool ∧ declares tool server) ∧
  NoDup (sv_label <$> servers) ∧
  (∀ label, is_Some (tools' !! label) → is_Some (tools !! label) ∨ label ∈ sv_label <$> servers).
Proof.
  revert names tools functions servers. induction raw as [|value raw IH]; intros names tools functions servers Hs Hc.
  { cbn in *. simplify_eq. split_and!; [done|set_solver|constructor|naive_solver]. }
  apply scan_tools_cons in Hs as (kind & Hk & Hs). cbn in Hc. apply bind_Some in Hc as (tool & Ht & Hc).
  destruct value as [j|]; cbn in Hk, Ht; [|done].
  pose proof (dec_mcp_tool_type _ _ _ _ Ht) as Hk'. cbn in Hk'. rewrite Hk in Hk'. injection Hk' as ->.
  destruct (decide (mt_type tool = "mcp")) as [Hm|Hm].
  - destruct Hs as (tool' & server & servers' & Ht' & Hd & Hnew & Hurl & Htok & -> & Hs). cbn in Ht'.
    apply dec_mcp_tool_lenient in Ht'. rewrite Ht' in Ht. injection Ht as ->. rewrite bool_decide_eq_true_2 in Hc by done.
    destruct (IH _ _ _ _ Hs Hc) as (Hkeep & Hservers & Hnd & Hdom). destruct Hd as (Hl & Hd). rewrite Hl in *.
    assert (Hlater : ∀ server', server' ∈ servers' → sv_label server' ≠ sv_label server).
    { intros server' Hin E. destruct (Hservers _ Hin) as (_ & _ & Hout & _). apply Hout. rewrite E. left. }
    split_and!.
    + intros label Hin. rewrite Hkeep by by right. rewrite lookup_insert_ne; [done|]. by intros <-.
    + intros server' [->|Hin]%elem_of_cons.
      * split_and!; [done..|]. exists tool. rewrite Hkeep by left. by rewrite lookup_insert_eq.
      * destruct (Hservers _ Hin) as (? & ? & ? & ?). set_solver.
    + rewrite fmap_cons, NoDup_cons. split; [|done]. rewrite list_elem_of_fmap. intros (server' & E & Hin). by apply (Hlater server').
    + intros label Hsome. rewrite fmap_cons, elem_of_cons. destruct (decide (label = sv_label server)) as [->|Hne]; [by right; left|].
      destruct (Hdom label Hsome) as [Hold|]; [|by right; right]. left. by rewrite lookup_insert_ne in Hold.
  - destruct Hs as (functions' & -> & Hs). rewrite bool_decide_eq_false_2 in Hc by done. by apply (IH _ _ _ _ Hs).
Qed.

Lemma executionTools_Ok raw functions servers :
  executionTools raw = (functions, servers, None) ↔
  ∃ rest, scan_tools [] raw = Ok (rest, servers) ∧ functionTools rest = Ok functions.
Proof.
  unfold executionTools. destruct (scan_tools [] raw) as [[rest servers']|e]; [|split; [done|]; intros (? & ? & ?); congruence].
  destruct (functionTools rest) eqn:E; naive_solver congruence.
Qed.

(** ** Devices *)

Definition only_if (c : bool) (l : list (KindCapabilities → bool)) : list (KindCapabilities → bool) := if c then l else [].

(** What a device has to advertise for a configuration. *)
Definition required_capabilities (profile : Profile) (s : Snapshot) (functions : list FunctionTool)
    (servers : list MCPHTTPServer) (bearer : bool) : list (KindCapabilities → bool) :=
  let at_ := λ type, bool_decide (environment_type s = Some type) in
  [Streaming; Steering; DurableTurns; DurableInputReceipts; ExecutionControls; ToolObservations]
  ++ only_if (pr_web_search profile) [WebSearchControl]
  ++ only_if (pr_verbosity profile) [TextVerbosity]
  ++ only_if (negb (ma_enabled (ag_multi (sn_agent s)))) [SubagentControl]
  ++ only_if (nonempty functions) [FunctionTools]
  ++ only_if (nonempty servers) [MCPHTTPTools]
  ++ only_if (existsb sv_required servers) [MCPHTTPRequired]
  ++ only_if bearer [MCPHTTPBearerAuth]
  ++ only_if (nonempty servers && at_ "self_hosted") [MCPHTTPRemoteEnvironment]
  ++ only_if (nonempty servers && at_ "self_hosted" && bearer) [MCPHTTPRemoteBearerAuth]
  ++ only_if (at_ "self_hosted") [Preparation; RemoteEnvironment]
  ++ only_if (at_ "openai_hosted") [Preparation; LocalEnvironment; WorkspaceReadPreparation; WorkspaceOutputExport]
  ++ only_if (at_ "openai_hosted" && negb (network_disabled s)) [LocalEnvironmentNetworkPolicy]
  ++ only_if (at_ "none") [EnvironmentNone].

Definition advertises (caps : KindCapabilities) (l : list (KindCapabilities → bool)) : Prop := Forall (λ c, c caps = true) l.

Lemma advertises_app caps l l' : advertises caps (l ++ l') ↔ advertises caps l ∧ advertises caps l'.
Proof. unfold advertises. by rewrite Forall_app. Qed.

Lemma advertises_only_if caps c l : advertises caps (only_if c l) ↔ (c = true → advertises caps l).
Proof. destruct c; cbn; [naive_solver|]. split; [done|]. intros _. constructor. Qed.

Lemma advertises_cons caps c l : advertises caps (c :: l) ↔ c caps = true ∧ advertises caps l.
Proof. unfold advertises. by rewrite Forall_cons. Qed.

Lemma advertises_nil caps : advertises caps [] ↔ True.
Proof. split; [done|constructor]. Qed.

(** HTTP MCP servers are reached from the service: in an environment that has
    none of its own, or one elsewhere, and not from a daemon. *)
Definition service_side (s : Snapshot) : Prop :=
  (environment_type s = Some "none" ∨ environment_type s = Some "self_hosted") ∧ sn_daemon s = None.

(** The configuration of an execution, apart from the device. *)
Record executable (engines : Catalog) (engine : string) (s : Snapshot) (profile : Profile) (functions : list FunctionTool)
    (servers : list MCPHTTPServer) (selected : gmap string MCPCredentialBinding) : Prop := {
  ex_profile : CatalogLookup engines engine = Some profile;
  ex_placed : unplaced profile s = false;
  ex_valid : is_Some (pr_configuration profile) → validateProfileConfiguration profile s = Ok tt;
  ex_tools : executionTools (agent_tools s) = (functions, servers, None);
  ex_selected : mcpCredentialBindings engines engine s = Ok selected;
  ex_servers : servers ≠ [] → service_side s }.

Lemma mcpExecutionCredentials_spec engines engine s servers caps selected :
  mcpExecutionCredentials engines engine s servers caps = Ok selected ↔
  mcpCredentialBindings engines engine s = Ok selected ∧ (servers ≠ [] → service_side s) ∧
  let at_ := λ type, bool_decide (environment_type s = Some type) in
  let bearer := nonempty (map_to_list selected) in
  advertises caps (only_if (nonempty servers) [MCPHTTPTools]
    ++ only_if (existsb sv_required servers) [MCPHTTPRequired]
    ++ only_if bearer [MCPHTTPBearerAuth]
    ++ only_if (nonempty servers && at_ "self_hosted") [MCPHTTPRemoteEnvironment; Preparation; RemoteEnvironment]
    ++ only_if (nonempty servers && at_ "self_hosted" && bearer) [MCPHTTPRemoteBearerAuth]
    ++ only_if (nonempty servers && at_ "none") [EnvironmentNone]).
Proof.
  unfold mcpExecutionCredentials, service_side. rewrite reject_if_bind.
  destruct (mcpCredentialBindings engines engine s) as [selected'|e]; cbn -[map_to_list]; [|naive_solver].
  rewrite !advertises_app, !advertises_only_if, !advertises_cons, !advertises_nil, <-nonempty_true.
  assert (Hside : nonempty servers && (negb (bool_decide (environment_type s = Some "none") || bool_decide (environment_type s = Some "self_hosted"))) = false
    ↔ (nonempty servers = true → environment_type s = Some "none" ∨ environment_type s = Some "self_hosted")).
  { rewrite guard_false, orb_true_iff, !bool_decide_eq_true. done. }
  assert (Hdaemon : nonempty servers && has_daemon s = false ↔ (nonempty servers = true → sn_daemon s = None)).
  { unfold has_daemon. destruct (nonempty servers), (sn_daemon s); naive_solver. }
  rewrite !guard_or_false, Hside, Hdaemon, guard_false.
  rewrite reject_if_bind, guarded_bind. as_conditions. clear Hside Hdaemon.
  split; intros; destruct_and!; simplify_eq; split_and!; tauto.
Qed.

(** A device is accepted for a configuration exactly when the configuration is
    executable and the device has reported, in a heartbeat, that the engine is
    available with every capability the configuration needs. *)
Theorem engineCapabilities_spec engines p engine s caps :
  engineCapabilities engines p engine s = Ok caps ↔
  ∃ profile functions servers selected info,
    executable engines engine s profile functions servers selected ∧
    AgentKindStatus p engine = (info, true, true) ∧ kd_available info = true ∧ caps = kd_caps info ∧
    advertises caps (required_capabilities profile s functions servers (nonempty (map_to_list selected))).
Proof.
  unfold engineCapabilities. destruct (CatalogLookup engines engine) as [profile|] eqn:Ep;
    [|split; [done|]; intros (? & ? & ? & ? & ? & [] & _); congruence].
  destruct (AgentKindStatus p engine) as [[info found] known]. rewrite reject_if_bind, bind_Ok.
  destruct (executionTools (agent_tools s)) as [[functions servers] err] eqn:Etools.
  split.
  - intros (Hplaced & [] & Hvalid & Hc). destruct known, found; [|done..]. as_conditions_in Hc.
    destruct_and!. destruct err; [done|]. match goal with H : mbind _ _ = Ok _ |- _ => rename H into Hc end.
    apply bind_Ok in Hc as (selected & Hmcp & Hc). apply mcpExecutionCredentials_spec in Hmcp as (Hsel & Hside & Hadv).
    as_conditions_in Hc. destruct_and!. simplify_eq.
    exists profile, functions, servers, selected, info. split_and!; try done.
    + split; try done. intros [check Hcheck]. by rewrite Hcheck in Hvalid.
    + unfold required_capabilities in *. cbn zeta in *.
      rewrite !advertises_app, !advertises_only_if, !advertises_cons, !advertises_nil, ?andb_true_iff in *. destruct_and!. split_and!; tauto.
  - intros (profile' & functions' & servers' & selected & info' & [] & [= -> -> ->] & Hav & -> & Hadv).
    rewrite Etools in ex_tools0. injection ex_tools0 as -> -> ->. rewrite Ep in ex_profile0. injection ex_profile0 as ->.
    unfold required_capabilities in Hadv. cbn zeta in Hadv.
    rewrite !advertises_app, !advertises_only_if, !advertises_cons, !advertises_nil, ?andb_true_iff in Hadv. destruct_and!.
    split; [done|]. exists tt. split; [destruct (pr_configuration profile'); eauto|]. as_conditions.
    split_and!; try tauto; try done. apply bind_Ok. exists selected. split.
    + apply mcpExecutionCredentials_spec. split_and!; [done..|]. cbn zeta.
      rewrite !advertises_app, !advertises_only_if, !advertises_cons, !advertises_nil, ?andb_true_iff. split_and!; tauto.
    + as_conditions. split_and!; tauto.
Qed.

(** ** Admission and dispatch *)

Lemma qualified_profiles engine profile :
  CatalogLookup None engine = Some profile → profile = codexProfile ∨ profile = claudeProfile ∨ profile = mcodeProfile.
Proof.
  unfold CatalogLookup, qualified. cbn [default]. rewrite !lookup_insert_Some, lookup_singleton_Some. naive_solver.
Qed.

Lemma has_type_Some environment a b :
  has_type environment [a; b] = true → ∃ e, environment = Some e ∧ (ec_type e = a ∨ ec_type e = b).
Proof.
  destruct environment as [e|]; [|done]. cbn. rewrite orb_false_r, orb_true_iff, !bool_decide_eq_true. eauto.
Qed.

Lemma no_daemon s : has_daemon s = false → sn_daemon s = None.
Proof. unfold has_daemon. destruct (sn_daemon s); [|done]. by rewrite bool_decide_eq_true_2. Qed.

(** The servers of a configuration a built-in profile accepts are service-side. *)
Lemma profile_servers s engine profile functions servers :
  CatalogLookup None engine = Some profile → validateProfileConfiguration profile s = Ok tt →
  executionTools (agent_tools s) = (functions, servers, None) → servers ≠ [] → service_side s.
Proof.
  intros Hp Hv Ht Hs. unfold validateProfileConfiguration in Hv. rewrite Ht in Hv.
  apply nonempty_true in Hs. unfold service_side, environment_type.
  destruct (qualified_profiles _ _ Hp) as [->|[->| ->]]; cbn [pr_configuration pr_tools codexProfile claudeProfile mcodeProfile] in Hv;
    repeat (apply bind_Ok in Hv as ([] & ? & Hv)); rewrite ?engine_result_Ok, ?fail_if_None in *.
  - rewrite Hs in *. cbn in *. destruct_and!. bsolve.
    match goal with H : has_type _ _ = true |- _ => apply has_type_Some in H as (e & -> & Hin) end. cbn.
    split; [naive_solver congruence|by apply no_daemon].
  - unfold validateClaudeConfiguration, validateClaudeTools, placed_model in *. rewrite fail_if_None in *. destruct_and!. bsolve.
    match goal with H : has_type _ _ = true |- _ => apply has_type_Some in H as (e & He & Hin) end. rewrite He in *. cbn.
    rewrite fail_if_None in *. destruct_and!. rewrite Hs in *. rewrite andb_true_r in *. bsolve.
    split; [naive_solver congruence|by apply no_daemon].
  - rewrite Hs, orb_true_r in *. naive_solver.
Qed.

Lemma validate_snapshot_executable engine s :
  validate_snapshot None engine s = Ok tt → ∃ profile functions servers selected, executable None engine s profile functions servers selected.
Proof.
  unfold validate_snapshot. destruct (CatalogLookup None engine) as [profile|] eqn:Ep; [|done]. intros Hv.
  apply reject_if_bind in Hv as [Hplaced Hv]. apply bind_Ok in Hv as (selected & Hsel & Hv). apply bind_Ok in Hv as ([] & _ & Hv).
  destruct (executionTools (agent_tools s)) as [[functions servers] err] eqn:Et.
  assert (err = None) as ->.
  { unfold validateProfileConfiguration in Hv. rewrite Et in Hv. repeat (apply bind_Ok in Hv as (? & ? & Hv)). by destruct err. }
  exists profile, functions, servers, selected. split; try done. by apply (profile_servers s engine profile functions).
Qed.

(** C35. The checks at creation and before a claim agree: a Session that was admitted
    is executable, and a device that has the engine is accepted for it exactly when
    it advertises what the configuration needs. *)
Theorem admission_agrees engine configuration s p info :
  ValidateSessionConfiguration None engine configuration = Ok tt → unmarshal_snapshot configuration = Some s →
  AgentKindStatus p engine = (info, true, true) → kd_available info = true →
  ∃ profile functions servers selected,
    executable None engine s profile functions servers selected ∧
    (engineCapabilities None p engine s = Ok (kd_caps info) ↔
     advertises (kd_caps info) (required_capabilities profile s functions servers (nonempty (map_to_list selected)))).
Proof.
  unfold ValidateSessionConfiguration. intros Hv Hs Hinfo Hav. rewrite Hs in Hv.
  destruct (validate_snapshot_executable _ _ Hv) as (profile & functions & servers & selected & Hex).
  exists profile, functions, servers, selected. split; [done|]. rewrite engineCapabilities_spec.
  split; [|intros Hadv; by exists profile, functions, servers, selected, info].
  intros (profile' & functions' & servers' & selected' & info' & Hex' & ? & _ & E & Hadv).
  destruct Hex, Hex'. rewrite ex_tools0 in ex_tools1. rewrite ex_selected0 in ex_selected1. by simplify_eq.
Qed.
End facts.

(** ** An example: an MCP server with a credential, and a function *)
Module PolicyExample.
Definition urls : URLs := λ text, Some (MkURL (if has_prefix text "https:" then "https" else "http") text text false "" false "").

Definition server_url : string := "https://docs.example".

Definition mcp_tool : json := JObj [("type", JStr "mcp"); ("server_label", JStr "docs");
  ("transport", JObj [("type", JStr "http"); ("server_url", JStr server_url)]); ("allowed_tools", JNull);
  ("connection_origin", JStr "service"); ("credential_id", JNull); ("request_metadata", JNull); ("required", JBool true)].

Definition function_tool : json := JObj [("type", JStr "function"); ("name", JStr "lookup"); ("description", JStr "");
  ("parameters", JObj [("type", JStr "object")]); ("defer_loading", JBool false)].

Definition binding : json := JObj [("server_label", JStr "docs"); ("server_url", JStr server_url);
  ("vault_id", JStr "11"); ("credential_id", JStr "101"); ("auth_type", JStr "static_bearer")].

Definition configuration : json := JObj [
  ("agent", JObj [("model", JStr "gpt"); ("tools", JArr [mcp_tool; function_tool])]);
  ("environment", JObj [("type", JStr "none")]);
  ("vault_ids", JArr [JStr "11"]); ("mcp_credentials", JArr [binding])].

Definition snapshot : Snapshot := default (MkSnapshot false zero_agent None None None None) (unmarshal_snapshot configuration).

Definition capabilities : KindCapabilities :=
  MkCapabilities true false false true true true true true true true false false false false false false
    true true true true true true true false false true true true false.

Definition device : peer := setSupportedAgentKinds [MkKind "codex" true "1" capabilities] (MkPeer false []).
End PolicyExample.

Lemma admission_agrees_witness : ∃ profile functions servers selected,
  @executable binary_uuids PolicyExample.urls None "codex" PolicyExample.snapshot profile functions servers selected ∧
  (@engineCapabilities binary_uuids PolicyExample.urls None PolicyExample.device "codex" PolicyExample.snapshot = Ok PolicyExample.capabilities ↔
   advertises PolicyExample.capabilities
     (required_capabilities profile PolicyExample.snapshot functions servers (nonempty (map_to_list selected)))).
Proof.
  apply (@admission_agrees binary_uuids PolicyExample.urls "codex" PolicyExample.configuration PolicyExample.snapshot PolicyExample.device
    (MkKind "codex" true "1" PolicyExample.capabilities)); vm_compute; reflexivity.
Defined.

(** The example is accepted by its device. *)
Example PolicyExample_accepted :
  @engineCapabilities binary_uuids PolicyExample.urls None PolicyExample.device "codex" PolicyExample.snapshot = Ok PolicyExample.capabilities.
Proof. vm_compute. reflexivity. Qed.
