(* ===== verification/Vaults.v ===== *)
(** * Vaults

    Vaults and their credentials: [vaults.go], [vaults_delete.go],
    [vaults_list.go], [vault_credentials.go], [vault_credentials_delete.go],
    [vault_credentials_list.go], [vault_credentials_update.go] and
    [mcp_credentials.go] of [services/agents-api/internal/store] over the
    statements of [vaults.sql], [vault_credentials.sql] and
    [mcp_credentials.sql], with the cipher of [internal/credentialcrypto] and the
    binding of credentials when a Session is created
    ([internal/api/session_credentials.go]).

    The two tables are independent of the rest of the store and have their own
    state here.  AES-GCM with random nonces is the parameter [AEAD]. *)
From stdpp Require Import base tactics list strings numbers relations gmap.
From S2P Require Import Prelude GoJson Contract Items Database Queries EnvQueries SessionLog Turns Environments Reads Configuration Setup Creation Policy.

(** ** State *)

Record vault_row := MkVaultRow {
  vt_id : N; vt_tenant : N; vt_name : option string; vt_metadata : json; vt_created : Z; vt_status : string }.

Record credential_row := MkCredentialRow {
  cr_id : N; cr_vault : N; cr_name : string; cr_auth : string; cr_url : string; cr_ciphertext : string;
  cr_created : Z; cr_updated : Z; cr_status : string }.

Record vault_world := MkVaultWorld {
  vw_vaults : list vault_row; vw_credentials : list credential_row; vw_tick : nat; vw_draw : nat }.

Definition vtx (A : Type) := vault_world → result A * vault_world.

#[global] Instance vtx_ret : MRet vtx := λ A a w, (Ok a, w).
#[global] Instance vtx_bind : MBind vtx := λ A B f m w,
  match m w with (Ok a, w') => f a w' | (Err e, w') => (Err e, w') end.

Definition v_throw {A} (e : error) : vtx A := λ w, (Err e, w).
Definition v_result {A} (r : result A) : vtx A := λ w, (r, w).
Definition v_require (c : bool) (e : error) : vtx unit := λ w, if c then (Ok tt, w) else (Err e, w).
Definition v_query {A} (f : vault_world → A) : vtx A := λ w, (Ok (f w), w).
Definition v_check (name : string) (c : vault_world → bool) : vtx unit := λ w,
  if c w then (Ok tt, w) else (Err (ErrConstraint name), w).

Definition set_vaults (l : list vault_row) (w : vault_world) : vault_world :=
  MkVaultWorld l (vw_credentials w) (vw_tick w) (vw_draw w).
Definition set_credentials (l : list credential_row) (w : vault_world) : vault_world :=
  MkVaultWorld (vw_vaults w) l (vw_tick w) (vw_draw w).
Definition v_exec (f : vault_world → vault_world) : vtx unit := λ w, (Ok tt, f w).

(** The row a query returns, or [pgx.ErrNoRows] as the caller translates it. *)
Definition v_one {A} (e : error) (o : option A) : vtx A := match o with Some a => mret a | None => v_throw e end.

Section vaults.
Context `{UUIDs, Oracle}.

Definition v_clock : vtx Z := λ w,
  (Ok (clock (vw_tick w)), MkVaultWorld (vw_vaults w) (vw_credentials w) (S (vw_tick w)) (vw_draw w)).
Definition v_uuid : vtx N := λ w,
  (Ok (rand (vw_draw w)), MkVaultWorld (vw_vaults w) (vw_credentials w) (vw_tick w) (S (vw_draw w))).

(** ** Statements *)

Definition vault_of (tenant id : N) (v : vault_row) : bool := (vt_tenant v =?s tenant) && (vt_id v =?s id).

(** [JOIN vaults v ON v.id = c.vault_id] of a tenant's vault. *)
Definition in_vault (w : vault_world) (tenant vault : N) (c : credential_row) : bool :=
  (cr_vault c =?s vault) && existsb (vault_of tenant vault) (vw_vaults w).

Definition credential_of (w : vault_world) (tenant vault id : N) (c : credential_row) : bool :=
  in_vault w tenant vault c && (cr_id c =?s id).

Definition CreateVaultQ (id tenant : N) (name : option string) (metadata : json) : vtx vault_row :=
  now ← v_clock;
  _ ← v_check "text" (λ _, match name with Some n => text_ok n | None => true end);
  metadata ← (match jsonb_in metadata with Some j => mret j | None => v_throw (ErrConstraint "jsonb") end : vtx json);
  _ ← v_check "vaults_pkey" (λ w, negb (existsb (λ v, vt_id v =?s id) (vw_vaults w)));
  let row := MkVaultRow id tenant name metadata now "active" in
  _ ← v_exec (λ w, set_vaults (vw_vaults w ++ [row]) w);
  mret row.

Definition GetVaultQ (tenant id : N) : vtx (option vault_row) := v_query (λ w, List.find (vault_of tenant id) (vw_vaults w)).

(** The foreign key deletes the credentials of the vault. *)
Definition DeleteVaultQ (tenant id : N) : vtx (option N) :=
  hit ← v_query (λ w, List.find (vault_of tenant id) (vw_vaults w));
  match hit with
  | None => mret None
  | Some v =>
      _ ← v_exec (λ w, MkVaultWorld (List.filter (λ x, negb (vault_of tenant id x)) (vw_vaults w))
                         (List.filter (λ c, negb (cr_vault c =?s id)) (vw_credentials w)) (vw_tick w) (vw_draw w));
      mret (Some (vt_id v))
  end.

Definition vault_key (v : vault_row) : page_key := (vt_created v, 0, vt_id v).
Definition credential_key (c : credential_row) : page_key := (cr_created c, 0, cr_id c).
Definition with_status (statuses : list string) (status : string) : bool := existsb (λ s, s =?s status) statuses.

Definition ListVaultsQ (tenant : N) (statuses : list string) (ascending : bool) (after : option page_key) (limit : nat)
  : vtx (list vault_row) :=
  v_query (λ w, page_rows vault_key ascending after limit
    (List.filter (λ v, (vt_tenant v =?s tenant) && with_status statuses (vt_status v)) (vw_vaults w))).

Definition CreateStaticCredentialQ (id tenant vault : N) (name url ciphertext : string) : vtx (option credential_row) :=
  now ← v_clock;
  found ← v_query (λ w, existsb (vault_of tenant vault) (vw_vaults w));
  if negb found then mret None else
  _ ← v_check "text" (λ _, text_ok name && text_ok url && negb (ciphertext =?s ""));
  _ ← v_check "vault_credentials_pkey" (λ w, negb (existsb (λ c, cr_id c =?s id) (vw_credentials w)));
  let row := MkCredentialRow id vault name "static_bearer" url ciphertext now now "active" in
  _ ← v_exec (λ w, set_credentials (vw_credentials w ++ [row]) w);
  mret (Some row).

Definition GetCredentialQ (tenant vault id : N) : vtx (option credential_row) :=
  v_query (λ w, List.find (credential_of w tenant vault id) (vw_credentials w)).

(** The row an update of the secret applies to. *)
Definition static_of (w : vault_world) (tenant vault id : N) (url : string) (c : credential_row) : bool :=
  credential_of w tenant vault id c && (cr_auth c =?s "static_bearer") && (cr_url c =?s url).

Definition replace_secret (ciphertext : string) (now : Z) (c : credential_row) : credential_row :=
  MkCredentialRow (cr_id c) (cr_vault c) (cr_name c) (cr_auth c) (cr_url c) ciphertext (cr_created c) now (cr_status c).

Definition UpdateStaticCredentialQ (tenant vault id : N) (url ciphertext : string) : vtx (option credential_row) :=
  now ← v_clock;
  hit ← v_query (λ w, List.find (static_of w tenant vault id url) (vw_credentials w));
  match hit with
  | None => mret None
  | Some c =>
      _ ← v_check "text" (λ _, negb (ciphertext =?s ""));
      _ ← v_exec (λ w, set_credentials (update_where (static_of w tenant vault id url) (replace_secret ciphertext now) (vw_credentials w)) w);
      mret (Some (replace_secret ciphertext now c))
  end.

Definition ListCredentialsQ (tenant vault : N) (statuses : list string) (ascending : bool) (after : option page_key) (limit : nat)
  : vtx (list credential_row) :=
  v_query (λ w, page_rows credential_key ascending after limit
    (List.filter (λ c, in_vault w tenant vault c && with_status statuses (cr_status c)) (vw_credentials w))).

Definition DeleteCredentialQ (tenant vault id : N) : vtx (option N) :=
  hit ← v_query (λ w, List.find (credential_of w tenant vault id) (vw_credentials w));
  match hit with
  | None => mret None
  | Some c =>
      _ ← v_exec (λ w, set_credentials (List.filter (λ c, negb (credential_of w tenant vault id c)) (vw_credentials w)) w);
      mret (Some (cr_id c))
  end.

Definition GetAttachedVaultIDs (tenant : N) (vaults : list N) : vtx (list N) :=
  v_query (λ w, List.map vt_id (List.filter (λ v, (vt_tenant v =?s tenant) && existsb (λ id, vt_id v =?s id) vaults) (vw_vaults w))).

(** A static credential of one of the attached vaults for a server. *)
Definition static_credential (w : vault_world) (tenant : N) (vaults : list N) (url : string) (c : credential_row) : bool :=
  in_vault w tenant (cr_vault c) c && existsb (λ id, cr_vault c =?s id) vaults && (cr_auth c =?s "static_bearer") && (cr_url c =?s url).

Definition FindMCPStaticCredentials (tenant : N) (vaults : list N) (url : string) (id : option N) : vtx (list credential_row) :=
  v_query (λ w, take 2 (sort_by (λ a b, (cr_id a <=? cr_id b)%N)
    (List.filter (λ c, static_credential w tenant vaults url c && match id with Some i => cr_id c =?s i | None => true end) (vw_credentials w)))).

Definition GetMCPStaticCredentialCiphertext (tenant : N) (vaults : list N) (vault id : N) (url : string) : vtx (option string) :=
  v_query (λ w, cr_ciphertext <$> List.find (λ c, static_credential w tenant vaults url c && (cr_vault c =?s vault) && (cr_id c =?s id))
    (vw_credentials w)).

(** ** The cipher *)

(** [credentialcrypto.Binding]. *)
Record Binding := MkBinding {
  bn_tenant : string; bn_vault : string; bn_credential : string; bn_auth : string; bn_destination : string }.

Definition additionalData (b : Binding) : option string :=
  let values := [bn_tenant b; bn_vault b; bn_credential b; bn_auth b; bn_destination b] in
  if List.forallb (λ v, negb (v =?s "") && utf8_valid v) values then
    Some (json_marshal (JObj [("domain", JStr "parsar.agents-api.credential"); ("version", JNum "1");
      ("binding", JObj [("tenant_id", JStr (bn_tenant b)); ("vault_id", JStr (bn_vault b)); ("credential_id", JStr (bn_credential b));
                        ("auth_type", JStr (bn_auth b)); ("destination", JStr (bn_destination b))])]))
  else None.
End vaults.

(** [cipher.AEAD] with random nonces: sealing under a nonce and additional data,
    opening, and what sealing adds to the length. *)
Class AEAD := {
  aead_seal : N → string → string → string;
  aead_open : string → string → option string;
  aead_overhead : Z;
}.

(** Its documented behaviour. *)
Class AEADLaws `{AEAD} := {
  aead_open_seal : ∀ nonce plaintext aad, aead_open (aead_seal nonce plaintext aad) aad = Some plaintext;
  aead_seal_length : ∀ nonce plaintext aad, str_len (aead_seal nonce plaintext aad) = aead_overhead + str_len plaintext;
}.

Definition format_version : Ascii.ascii := Ascii.ascii_of_nat 1.

Section cipher.
Context `{UUIDs, AEAD}.

Definition Seal (nonce : N) (plaintext : string) (b : Binding) : option string :=
  aad ← additionalData b;
  Some (String.String format_version (aead_seal nonce plaintext aad)).

Definition Open (ciphertext : string) (b : Binding) : option string :=
  aad ← additionalData b;
  match ciphertext with
  | String.String version sealed =>
      if (str_len ciphertext <? 1 + aead_overhead) || negb (bool_decide (version = format_version)) then None
      else aead_open sealed aad
  | EmptyString => None
  end.

(** ** Vaults *)

Context `{Oracle} (ciphered : bool).

Record Vault := MkVault {
  vl_id : string; vl_tenant : string; vl_name : option string; vl_metadata : list (string * string); vl_created : Z }.

Definition vaultFromRow (row : vault_row) : result Vault :=
  match dec_string_map (vt_metadata row) with
  | None => Err (ErrOther "decode vault metadata")
  | Some metadata => Ok (MkVault (uuid_string (vt_id row)) (uuid_string (vt_tenant row)) (vt_name row) metadata (vt_created row))
  end.

Definition validVaultName (name : string) : bool := (1 <=? str_len name) && (str_len name <=? 256) && utf8_valid name.

Definition CreateVault (tenantID : string) (name : option string) (metadata : list (string * string)) : vtx Vault :=
  tenant ← v_result (parseID tenantID);
  _ ← v_require (match name with Some n => validVaultName n | None => true end) ErrInvalidInput;
  metadata ← v_result (encodeMetadata metadata);
  id ← v_uuid;
  row ← CreateVaultQ id tenant name metadata;
  v_result (vaultFromRow row).

Definition GetVault (tenantID vaultID : string) : vtx Vault :=
  tenant ← v_result (parseID tenantID);
  id ← v_result (parseID vaultID);
  row ← GetVaultQ tenant id;
  row ← v_one ErrNotFound row;
  v_result (vaultFromRow row).

(** An identifier that does not parse is not found. *)
Definition known_id (value : string) : result N := match parseID value with Ok id => Ok id | Err _ => Err ErrNotFound end.

Definition DeleteVault (tenantID vaultID : string) : vtx string :=
  tenant ← v_result (known_id tenantID);
  id ← v_result (known_id vaultID);
  deleted ← DeleteVaultQ tenant id;
  deleted ← v_one ErrNotFound deleted;
  mret (uuid_string deleted).

Definition listed_statuses (statuses : list string) : list string :=
  match statuses with [] => ["active"; "archived"] | _ => statuses end.

Definition statuses_ok (statuses : list string) : bool :=
  List.forallb (λ s, (s =?s "active") || (s =?s "archived")) statuses.

Definition id_or_zero (value : string) : N := match parseID value with Ok id => id | Err _ => 0%N end.

Fixpoint vaults_of (rows : list vault_row) : result (list Vault) :=
  match rows with [] => Ok [] | row :: rows' => v ← vaultFromRow row; l ← vaults_of rows'; Ok (v :: l) end.

Definition ListVaults (tenantID cursor : string) (limit : Z) (ascending : bool) (statuses : list string)
  : vtx (list Vault * string) :=
  tenant ← v_result (parseID tenantID);
  _ ← v_require (page_size_ok limit) ErrInvalidInput;
  _ ← v_require (statuses_ok (listed_statuses statuses)) ErrInvalidInput;
  after ← (if cursor =?s "" then mret None else
             after ← GetVault tenantID cursor;
             mret (Some (vl_created after, 0, id_or_zero (vl_id after))) : vtx (option page_key));
  rows ← ListVaultsQ tenant (listed_statuses statuses) ascending after (Z.to_nat (limit + 1));
  let page := cut_page (Z.to_nat limit) vt_id rows in
  vaults ← v_result (vaults_of page.1);
  mret (vaults, page.2).

(** ** Credentials *)

Record Credential := MkCredential {
  cd_id : string; cd_vault : string; cd_name : string; cd_auth : string; cd_url : string; cd_created : Z; cd_updated : Z }.

Definition credentialFromRow (row : credential_row) : Credential :=
  MkCredential (uuid_string (cr_id row)) (uuid_string (cr_vault row)) (cr_name row) (cr_auth row) (cr_url row) (cr_created row) (cr_updated row).

(** A sealed secret, or the error of sealing. *)
Definition sealed (token : string) (b : Binding) : vtx string :=
  nonce ← v_uuid;
  match Seal nonce token b with
  | Some ciphertext => mret ciphertext
  | None => v_throw (ErrOther "credential encryption failed")
  end.

Definition CreateStaticCredential (tenantID vaultID name url token : string) : vtx Credential :=
  tenant ← v_result (parseID tenantID);
  vault ← v_result (parseID vaultID);
  _ ← v_require (validVaultName name && negb (url =?s "")) ErrInvalidInput;
  _ ← v_require ciphered credential_storage_unavailable;
  id ← v_uuid;
  ciphertext ← sealed token (MkBinding (uuid_string tenant) (uuid_string vault) (uuid_string id) "static_bearer" url);
  row ← CreateStaticCredentialQ id tenant vault name url ciphertext;
  row ← v_one ErrNotFound row;
  mret (credentialFromRow row).

Definition GetCredential (tenantID vaultID credentialID : string) : vtx Credential :=
  tenant ← v_result (parseID tenantID);
  vault ← v_result (parseID vaultID);
  id ← v_result (parseID credentialID);
  row ← GetCredentialQ tenant vault id;
  row ← v_one ErrNotFound row;
  mret (credentialFromRow row).

Definition UpdateStaticCredential (tenantID vaultID credentialID token : string) : vtx Credential :=
  tenant ← v_result (known_id tenantID);
  vault ← v_result (known_id vaultID);
  id ← v_result (known_id credentialID);
  current ← GetCredential tenantID vaultID credentialID;
  _ ← v_require (cd_auth current =?s "static_bearer") ErrInvalidInput;
  _ ← v_require ciphered credential_storage_unavailable;
  ciphertext ← sealed token (MkBinding (uuid_string tenant) (cd_vault current) (cd_id current) (cd_auth current) (cd_url current));
  row ← UpdateStaticCredentialQ tenant vault id (cd_url current) ciphertext;
  row ← v_one ErrNotFound row;
  mret (credentialFromRow row).

Definition DeleteCredential (tenantID vaultID credentialID : string) : vtx string :=
  tenant ← v_result (known_id tenantID);
  vault ← v_result (known_id vaultID);
  id ← v_result (known_id credentialID);
  deleted ← DeleteCredentialQ tenant vault id;
  deleted ← v_one ErrNotFound deleted;
  mret (uuid_string deleted).

Definition ListCredentials (tenantID vaultID cursor : string) (limit : Z) (ascending : bool) (statuses : list string)
  : vtx (list Credential * string) :=
  vault ← GetVault tenantID vaultID;
  _ ← v_require (page_size_ok limit) ErrInvalidInput;
  _ ← v_require (statuses_ok (listed_statuses statuses)) ErrInvalidInput;
  after ← (if cursor =?s "" then mret None else
             after ← GetCredential tenantID vaultID cursor;
             mret (Some (cd_created after, 0, id_or_zero (cd_id after))) : vtx (option page_key));
  rows ← ListCredentialsQ (id_or_zero (vl_tenant vault)) (id_or_zero (vl_id vault)) (listed_statuses statuses) ascending after
           (Z.to_nat (limit + 1));
  let page := cut_page (Z.to_nat limit) cr_id rows in
  mret (List.map credentialFromRow page.1, page.2).

(** ** Credentials of MCP servers *)

Record MCPCredentialRequest := MkCredentialRequest { mr_label : string; mr_url : string; mr_credential : option string }.

(** The identifiers, without repetitions, in their order. *)
Fixpoint attached_from (seen : list N) (ids : list string) : result (list N) :=
  match ids with
  | [] => Ok []
  | raw :: ids' =>
      id ← known_id raw;
      rest ← attached_from (id :: seen) ids';
      Ok (if bool_decide (id ∈ seen) then rest else id :: rest)
  end.

Definition attachedVaultIDs (ids : list string) : result (list N) := attached_from [] ids.

Definition resolve_one (tenant : N) (vaults : list N) (request : MCPCredentialRequest) : vtx MCPCredentialBinding :=
  _ ← v_require (negb (mr_label request =?s "") && negb (mr_url request =?s "")) ErrInvalidInput;
  id ← v_result (match mr_credential request with
                 | None => Ok None
                 | Some raw => id ← known_id raw; Ok (Some id)
                 end : result (option N));
  rows ← FindMCPStaticCredentials tenant vaults (mr_url request) id;
  match rows with
  | [] =>
      _ ← v_require (bool_decide (mr_credential request = None)) ErrNotFound;
      mret (MkCredentialBinding (mr_label request) (mr_url request) "" "" "")
  | [c] => mret (MkCredentialBinding (mr_label request) (mr_url request) (uuid_string (cr_vault c)) (uuid_string (cr_id c)) (cr_auth c))
  | _ => v_throw ErrInvalidInput
  end.

Fixpoint resolve_all (tenant : N) (vaults : list N) (requests : list MCPCredentialRequest) : vtx (list MCPCredentialBinding) :=
  match requests with
  | [] => mret []
  | request :: requests' =>
      b ← resolve_one tenant vaults request;
      rest ← resolve_all tenant vaults requests';
      mret (b :: rest)
  end.

Definition ResolveMCPCredentials (tenantID : string) (vaultIDs : list string) (requests : list MCPCredentialRequest)
  : vtx (list MCPCredentialBinding) :=
  tenant ← v_result (parseID tenantID);
  vaults ← v_result (attachedVaultIDs vaultIDs);
  owned ← GetAttachedVaultIDs tenant vaults;
  _ ← v_require (length owned =? length vaults)%nat ErrNotFound;
  resolve_all tenant vaults requests.

Definition MCPBearerToken (tenantID : string) (vaultIDs : list string) (b : MCPCredentialBinding) : vtx string :=
  tenant ← v_result (known_id tenantID);
  vaults ← v_result (attachedVaultIDs vaultIDs);
  vault ← v_result (known_id (mb_vault b));
  id ← v_result (known_id (mb_credential b));
  _ ← v_require ((mb_auth b =?s "static_bearer") && negb (mb_url b =?s "")) ErrNotFound;
  ciphertext ← GetMCPStaticCredentialCiphertext tenant vaults vault id (mb_url b);
  ciphertext ← v_one ErrNotFound ciphertext;
  _ ← v_require ciphered credential_storage_unavailable;
  match Open ciphertext (MkBinding (uuid_string tenant) (uuid_string vault) (uuid_string id) (mb_auth b) (mb_url b)) with
  | Some token => mret token
  | None => v_throw (ErrOther "MCP credential decryption failed")
  end.

(** ** The credentials of a new Session *)

Fixpoint credential_requests (raw : list (option json)) : option (list MCPCredentialRequest) :=
  match raw with
  | [] => Some []
  | value :: raw' =>
      tool ← value ≫= dec_mcp_tool false zero_mcp_tool;
      rest ← credential_requests raw';
      Some (if mt_type tool =?s "mcp"
            then MkCredentialRequest (mt_label tool) (tr_url (mt_transport tool)) (mt_credential tool) :: rest else rest)
  end.

Definition with_credentials (s : Snapshot) (bindings : list MCPCredentialBinding) : Snapshot :=
  MkSnapshot (sn_provider s) (sn_agent s) (sn_daemon s) (sn_environment s) (sn_vaults s) (Some bindings).

(** [bindSessionCredentials], on the decoded configuration. *)
Definition bindSessionCredentials (tenantID : string) (s : Snapshot) : vtx Snapshot :=
  requests ← v_result (match credential_requests (agent_tools s) with Some l => Ok l | None => Err ErrInvalidInput end);
  let vaults := default [] (sn_vaults s) in
  if negb (nonempty vaults) && List.forallb (λ r, bool_decide (mr_credential r = None)) requests then mret s else
  bindings ← ResolveMCPCredentials tenantID vaults requests;
  mret (with_credentials s bindings).

(** ** Requests *)

Inductive vault_request :=
  | VCreateVault (tenantID : string) (name : option string) (metadata : list (string * string))
  | VDeleteVault (tenantID vaultID : string)
  | VCreateCredential (tenantID vaultID name url token : string)
  | VUpdateCredential (tenantID vaultID credentialID token : string)
  | VDeleteCredential (tenantID vaultID credentialID : string)
  | VListVaults (tenantID cursor : string) (limit : Z) (ascending : bool) (statuses : list string)
  | VListCredentials (tenantID vaultID cursor : string) (limit : Z) (ascending : bool) (statuses : list string)
  | VResolve (tenantID : string) (vaultIDs : list string) (requests : list MCPCredentialRequest)
  | VToken (tenantID : string) (vaultIDs : list string) (b : MCPCredentialBinding).

(** The tables after a request, whatever it returns. *)
Definition vserve (r : vault_request) (w : vault_world) : vault_world :=
  match r with
  | VCreateVault tenantID name metadata => (CreateVault tenantID name metadata w).2
  | VDeleteVault tenantID vaultID => (DeleteVault tenantID vaultID w).2
  | VCreateCredential tenantID vaultID name url token => (CreateStaticCredential tenantID vaultID name url token w).2
  | VUpdateCredential tenantID vaultID credentialID token => (UpdateStaticCredential tenantID vaultID credentialID token w).2
  | VDeleteCredential tenantID vaultID credentialID => (DeleteCredential tenantID vaultID credentialID w).2
  | VListVaults tenantID cursor limit ascending statuses => (ListVaults tenantID cursor limit ascending statuses w).2
  | VListCredentials tenantID vaultID cursor limit ascending statuses => (ListCredentials tenantID vaultID cursor limit ascending statuses w).2
  | VResolve tenantID vaultIDs requests => (ResolveMCPCredentials tenantID vaultIDs requests w).2
  | VToken tenantID vaultIDs b => (MCPBearerToken tenantID vaultIDs b w).2
  end.

Definition vrun (l : list vault_request) (w : vault_world) : vault_world := List.fold_left (λ w r, vserve r w) l w.
End cipher.
