(* ===== verification/VaultFacts.v ===== *)
(** * VaultFacts

    Theorems about Vaults.v: every operation is one of the changes of
    [vault_change]; the tables stay consistent and every stored secret opens under
    the identity of its row; a token is returned only for a credential of an
    attached vault of the same tenant and for the same server, and it is the last
    one that was stored; and the binding made when a Session is created is one that
    dispatch accepts (Policy.v). *)
From stdpp Require Import base tactics list strings numbers relations gmap.
From S2P Require Import Prelude GoJson Contract Items Database Queries EnvQueries SessionLog Turns Environments Reads Configuration Setup Creation Policy PolicyFacts Vaults.

Section facts.
Context `{UUIDs, AEAD, Oracle, !UUIDLaws, !AEADLaws} (ciphered : bool).

(** ** Changes *)

(** The identity a secret of a row is sealed under. *)
Definition row_binding (tenant : N) (c : credential_row) : Binding :=
  MkBinding (uuid_string tenant) (uuid_string (cr_vault c)) (uuid_string (cr_id c)) (cr_auth c) (cr_url c).

Definition same_tables (w w' : vault_world) : Prop := vw_vaults w' = vw_vaults w ∧ vw_credentials w' = vw_credentials w.

(** The requests that may change or remove a credential of a vault. *)
Definition touches_credential (r : vault_request) (vault id : N) : Prop :=
  match r with
  | VDeleteVault _ vaultID => parseID vaultID = Ok vault
  | VUpdateCredential _ _ credentialID _ | VDeleteCredential _ _ credentialID => parseID credentialID = Ok id
  | _ => False
  end.

(** What a request does to the tables. *)
Inductive vault_change (r : vault_request) (w w' : vault_world) : Prop :=
  | vc_same : same_tables w w' → vault_change r w w'
  | vc_vault row : vw_vaults w' = vw_vaults w ++ [row] → vw_credentials w' = vw_credentials w →
      vt_id row ∉ vt_id <$> vw_vaults w → vault_change r w w'
  | vc_drop tenant id :
      vw_vaults w' = List.filter (λ x, negb (vault_of tenant id x)) (vw_vaults w) →
      vw_credentials w' = List.filter (λ c, negb (cr_vault c =?s id)) (vw_credentials w) →
      existsb (vault_of tenant id) (vw_vaults w) = true → (∀ c, touches_credential r id c) → vault_change r w w'
  | vc_credential tenant row nonce token :
      vw_vaults w' = vw_vaults w → vw_credentials w' = vw_credentials w ++ [row] →
      cr_id row ∉ cr_id <$> vw_credentials w → existsb (vault_of tenant (cr_vault row)) (vw_vaults w) = true →
      cr_auth row = "static_bearer" → cr_url row ≠ "" → Seal nonce token (row_binding tenant row) = Some (cr_ciphertext row) → vault_change r w w'
  | vc_replace tenant vault id url c nonce token now ciphertext :
      vw_vaults w' = vw_vaults w →
      vw_credentials w' = update_where (static_of w tenant vault id url) (replace_secret ciphertext now) (vw_credentials w) →
      c ∈ vw_credentials w → static_of w tenant vault id url c = true →
      Seal nonce token (row_binding tenant c) = Some ciphertext → (∀ v, touches_credential r v id) → vault_change r w w'
  | vc_remove tenant vault id :
      vw_vaults w' = vw_vaults w →
      vw_credentials w' = List.filter (λ c, negb (credential_of w tenant vault id c)) (vw_credentials w) →
      (∀ v, touches_credential r v id) → vault_change r w w'.

(** *** Reads *)

Definition vreads {A} (m : vtx A) : Prop := ∀ w, (m w).2 = w.

Lemma vreads_bind {A B} (m : vtx A) (k : A → vtx B) : vreads m → (∀ a, vreads (k a)) → vreads (m ≫= k).
Proof.
  intros Hm Hk w. unfold mbind, vtx_bind. specialize (Hm w). destruct (m w) as [[a|e] w1]; cbn in *; subst; [apply Hk|done].
Qed.

Lemma vreads_require c e : vreads (v_require c e).
Proof. by destruct c. Qed.

Lemma vreads_one {A} e (o : option A) : vreads (v_one e o).
Proof. by destruct o. Qed.
End facts.

Create HintDb vaults.
#[export] Hint Resolve vreads_require vreads_one : vaults.
#[export] Hint Extern 1 (vreads (v_result _)) => done : vaults.
#[export] Hint Extern 1 (vreads (v_query _)) => done : vaults.
#[export] Hint Extern 1 (vreads (mret _)) => done : vaults.
#[export] Hint Extern 1 (vreads (v_throw _)) => done : vaults.

Ltac vreads_tac :=
  repeat first [solve [eauto with vaults] | apply vreads_bind; [|intros] | case_match].

Section changes.
Context `{UUIDs, AEAD, Oracle, !UUIDLaws, !AEADLaws} (ciphered : bool).

Lemma GetVault_reads tenantID vaultID : vreads (GetVault tenantID vaultID).
Proof. unfold GetVault, GetVaultQ. vreads_tac. Qed.

Lemma GetCredential_reads tenantID vaultID credentialID : vreads (GetCredential tenantID vaultID credentialID).
Proof. unfold GetCredential, GetCredentialQ. vreads_tac. Qed.

Lemma ListVaults_reads tenantID cursor limit ascending statuses : vreads (ListVaults tenantID cursor limit ascending statuses).
Proof. pose proof GetVault_reads. unfold ListVaults, ListVaultsQ. vreads_tac. Qed.

Lemma ListCredentials_reads tenantID vaultID cursor limit ascending statuses :
  vreads (ListCredentials tenantID vaultID cursor limit ascending statuses).
Proof. pose proof GetVault_reads. pose proof GetCredential_reads. unfold ListCredentials, ListCredentialsQ. vreads_tac. Qed.

Lemma resolve_one_reads tenant vaults request : vreads (resolve_one tenant vaults request).
Proof. unfold resolve_one, FindMCPStaticCredentials. vreads_tac. Qed.

Lemma resolve_all_reads tenant vaults requests : vreads (resolve_all tenant vaults requests).
Proof. pose proof resolve_one_reads. induction requests; cbn; vreads_tac. Qed.

Lemma ResolveMCPCredentials_reads tenantID vaultIDs requests : vreads (ResolveMCPCredentials tenantID vaultIDs requests).
Proof. pose proof resolve_all_reads. unfold ResolveMCPCredentials, GetAttachedVaultIDs. vreads_tac. Qed.

Lemma MCPBearerToken_reads tenantID vaultIDs b : vreads (MCPBearerToken ciphered tenantID vaultIDs b).
Proof. unfold MCPBearerToken, GetMCPStaticCredentialCiphertext. vreads_tac. Qed.

(** *** Writes *)

Lemma known_id_Ok value id : known_id value = Ok id ↔ parseID value = Ok id.
Proof. unfold known_id. destruct (parseID value); naive_solver. Qed.

Lemma existsb_id {A} (id : A → N) n l : existsb (λ x, id x =?s n) l = false → n ∉ id <$> l.
Proof.
  intros Hf (x & -> & Hx)%list_elem_of_fmap. assert (existsb (λ y, id y =?s id x) l = true) as Ht; [|congruence].
  apply existsb_exists. exists x. split; [by apply list_elem_of_In|]. by apply bool_decide_eq_true_2.
Qed.

Ltac run_op := unfold sealed in *; unfold mbind, vtx_bind, v_result, v_require, v_query, v_check, v_exec, v_one, v_throw, mret, vtx_ret, v_clock, v_uuid in *.
Ltac unchanged := first [by apply vc_same | idtac].

Lemma CreateVault_change tenantID name metadata w : vault_change (VCreateVault tenantID name metadata) w (CreateVault tenantID name metadata w).2.
Proof.
  unfold CreateVault, CreateVaultQ. run_op. repeat case_match; simplify_eq; cbn; unchanged.
  all: eapply vc_vault; [reflexivity|reflexivity|]. all: cbn in *; apply existsb_id; by apply negb_true_iff.
Qed.

Lemma DeleteVault_change tenantID vaultID w : vault_change (VDeleteVault tenantID vaultID) w (DeleteVault tenantID vaultID w).2.
Proof.
  unfold DeleteVault, DeleteVaultQ. run_op. repeat case_match; simplify_eq; cbn; unchanged.
  all: eapply vc_drop; [reflexivity|reflexivity| |intros; by apply known_id_Ok].
  all: apply existsb_exists; match goal with H : List.find _ _ = Some _ |- _ => apply find_some in H end; eauto.
Qed.

Lemma DeleteCredential_change tenantID vaultID credentialID w :
  vault_change (VDeleteCredential tenantID vaultID credentialID) w (DeleteCredential tenantID vaultID credentialID w).2.
Proof.
  unfold DeleteCredential, DeleteCredentialQ. run_op. repeat case_match; simplify_eq; cbn; unchanged.
  all: eapply vc_remove; [reflexivity|reflexivity|intros; by apply known_id_Ok].
Qed.

Lemma CreateStaticCredential_change tenantID vaultID name url token w :
  vault_change (VCreateCredential tenantID vaultID name url token) w (CreateStaticCredential ciphered tenantID vaultID name url token w).2.
Proof.
  unfold CreateStaticCredential, CreateStaticCredentialQ. run_op. repeat case_match; simplify_eq; cbn; unchanged.
  all: cbn in *; bsolve; eapply vc_credential; try reflexivity; cbn; try done; by apply existsb_id.
Qed.

(** A read of a row, as the operations see it. *)
Lemma GetCredential_run tenantID vaultID credentialID w c w' :
  GetCredential tenantID vaultID credentialID w = (Ok c, w') →
  w' = w ∧ ∃ tenant vault id row, parseID tenantID = Ok tenant ∧ parseID vaultID = Ok vault ∧ parseID credentialID = Ok id ∧
    List.find (credential_of w tenant vault id) (vw_credentials w) = Some row ∧ c = credentialFromRow row.
Proof.
  unfold GetCredential, GetCredentialQ. run_op. intros Hr. repeat case_match; simplify_eq. split; [done|]. eauto 10.
Qed.

Lemma credential_of_true w tenant vault id c :
  credential_of w tenant vault id c = true ↔ cr_vault c = vault ∧ existsb (vault_of tenant vault) (vw_vaults w) = true ∧ cr_id c = id.
Proof. unfold credential_of, in_vault. rewrite !andb_true_iff, !bool_decide_eq_true. naive_solver. Qed.

Lemma UpdateStaticCredential_change tenantID vaultID credentialID token w :
  vault_change (VUpdateCredential tenantID vaultID credentialID token) w (UpdateStaticCredential ciphered tenantID vaultID credentialID token w).2.
Proof.
  unfold UpdateStaticCredential. pose proof (GetCredential_reads tenantID vaultID credentialID w) as Hreads.
  pose proof (GetCredential_run tenantID vaultID credentialID w) as Hrun.
  unfold UpdateStaticCredentialQ. run_op.
  destruct (GetCredential tenantID vaultID credentialID w) as [[current|e] w1]; cbn in Hreads; subst w1;
    repeat case_match; simplify_eq; cbn; unchanged.
  all: destruct (Hrun _ _ eq_refl) as (_ & tenant & vault & id & row & Ht & Hv & Hi & Hrow & ->).
  all: repeat match goal with H : known_id _ = Ok _ |- _ => apply known_id_Ok in H end; simplify_eq.
  all: match goal with H : List.find (static_of _ _ _ _ _) _ = Some ?c |- _ => apply find_some in H as [Hin Hstatic] end.
  all: apply find_some in Hrow as [_ Hrow]; apply credential_of_true in Hrow as (Hrv & _ & Hri).
  all: pose proof Hstatic as Hst; unfold static_of in Hst; rewrite !andb_true_iff, credential_of_true, !bool_decide_eq_true in Hst.
  all: destruct_and!; bsolve; cbn in *.
  all: eapply vc_replace; [reflexivity|reflexivity|by apply list_elem_of_In|exact Hstatic| |by intros].
  all: unfold row_binding; etrans; [|eassumption]; f_equal; cbn; f_equal; congruence.
Qed.

Lemma vserve_change r w : vault_change r w (vserve ciphered r w).
Proof.
  destruct r; cbn [vserve];
    first [apply CreateVault_change | apply DeleteVault_change | apply CreateStaticCredential_change | apply UpdateStaticCredential_change
          | apply DeleteCredential_change | apply vc_same].
  - by rewrite ListVaults_reads.
  - by rewrite ListCredentials_reads.
  - by rewrite ResolveMCPCredentials_reads.
  - by rewrite MCPBearerToken_reads.
Qed.
End changes.

(** ** Consistency *)

Section consistency.
Context `{UUIDs, AEAD, Oracle, !UUIDLaws, !AEADLaws} (ciphered : bool).

Lemma Open_Seal nonce token b ciphertext : Seal nonce token b = Some ciphertext → Open ciphertext b = Some token.
Proof.
  unfold Seal, Open. intros (aad & -> & [= <-])%bind_Some. cbn [mbind option_bind].
  assert (str_len (String.String format_version (aead_seal nonce token aad)) = 1 + (aead_overhead + str_len token)) as ->.
  { rewrite <-(aead_seal_length nonce token aad). unfold str_len. cbn [String.length]. lia. }
  assert (0 ≤ str_len token) by (unfold str_len; lia).
  rewrite (proj2 (Z.ltb_ge _ _)) by lia. rewrite bool_decide_eq_true_2 by done. apply aead_open_seal.
Qed.

(** Identifiers are unique, a credential belongs to a vault, and its secret opens
    under the identity of its row. *)
Record vaults_wf (w : vault_world) : Prop := {
  wf_vault_ids : NoDup (vt_id <$> vw_vaults w);
  wf_credential_ids : NoDup (cr_id <$> vw_credentials w);
  wf_credentials c : c ∈ vw_credentials w → ∃ v token,
    v ∈ vw_vaults w ∧ vt_id v = cr_vault c ∧ cr_auth c = "static_bearer" ∧ Open (cr_ciphertext c) (row_binding (vt_tenant v) c) = Some token }.

Lemma exists_vault tenant id l : existsb (vault_of tenant id) l = true ↔ ∃ v, v ∈ l ∧ vt_tenant v = tenant ∧ vt_id v = id.
Proof.
  rewrite existsb_exists. unfold vault_of. setoid_rewrite andb_true_iff. setoid_rewrite bool_decide_eq_true.
  setoid_rewrite <-list_elem_of_In. done.
Qed.

Lemma fmap_unique {A} (f : A → N) l x y : NoDup (f <$> l) → x ∈ l → y ∈ l → f x = f y → x = y.
Proof.
  induction l as [|z l IH]; cbn; [by intros _ ?%not_elem_of_nil|]. rewrite NoDup_cons, !elem_of_cons. intros [Hz Hl] [->|Hx] [->|Hy] E; try done.
  - destruct Hz. rewrite E. by apply list_elem_of_fmap_2.
  - destruct Hz. rewrite <-E. by apply list_elem_of_fmap_2.
  - by apply IH.
Qed.

Lemma vault_unique w v v' : vaults_wf w → v ∈ vw_vaults w → v' ∈ vw_vaults w → vt_id v = vt_id v' → v = v'.
Proof. intros [Hnd _ _]. by apply fmap_unique. Qed.

Lemma static_of_true w tenant vault id url c :
  static_of w tenant vault id url c = true ↔
  cr_vault c = vault ∧ existsb (vault_of tenant vault) (vw_vaults w) = true ∧ cr_id c = id ∧ cr_auth c = "static_bearer" ∧ cr_url c = url.
Proof. unfold static_of. rewrite !andb_true_iff, credential_of_true, !bool_decide_eq_true. naive_solver. Qed.

Lemma filter_elem {A} (p : A → bool) l x : x ∈ List.filter p l ↔ x ∈ l ∧ p x = true.
Proof. rewrite !list_elem_of_In. apply List.filter_In. Qed.

Lemma NoDup_filter_fmap {A} (f : A → N) (p : A → bool) l : NoDup (f <$> l) → NoDup (f <$> List.filter p l).
Proof.
  induction l as [|x l IH]; cbn; [done|]. rewrite NoDup_cons. intros [Hx Hl]. destruct (p x); cbn; [|auto].
  rewrite NoDup_cons. split; [|auto]. intros (y & E & [Hy _]%filter_elem)%list_elem_of_fmap. apply Hx. rewrite E. by apply list_elem_of_fmap_2.
Qed.

Lemma NoDup_snoc_fmap {A} (f : A → N) l x : NoDup (f <$> l) → f x ∉ f <$> l → NoDup (f <$> (l ++ [x])).
Proof. intros Hl Hx. rewrite fmap_app. apply NoDup_app. split_and!; [done|set_solver|apply NoDup_singleton]. Qed.

Lemma vault_change_wf r w w' : vault_change r w w' → vaults_wf w → vaults_wf w'.
Proof.
  intros Hc Hwf. pose proof (vault_unique w) as Huniq. destruct Hwf as [Hv Hc' Hrows] eqn:Ewf. clear Ewf.
  assert (vaults_wf w) as Hwf' by done.
  destruct Hc as [[E1 E2]|row E1 E2 Hnew|tenant id E1 E2 Hin _|tenant row nonce token E1 E2 Hnew Hin Ha Hu Hs
    |tenant vault id url c nonce token now ciphertext E1 E2 Hin Hst Hs _|tenant vault id E1 E2 _]; split; rewrite ?E1, ?E2; try done.
  - by apply NoDup_snoc_fmap.
  - intros c Hc. destruct (Hrows c Hc) as (v & token & Hin & ?). exists v, token. rewrite elem_of_app. auto.
  - by apply NoDup_filter_fmap.
  - by apply NoDup_filter_fmap.
  - intros c [Hc Hne]%filter_elem. destruct (Hrows c Hc) as (v & token & Hin' & Hid & Ha & Ho). exists v, token. split_and!; try done.
    apply filter_elem. split; [done|]. bsolve. unfold vault_of. rewrite (bool_decide_eq_false_2 (vt_id v = id)) by congruence. by rewrite andb_false_r.
  - by apply NoDup_snoc_fmap.
  - intros c [Hc| ->%list_elem_of_singleton]%elem_of_app; [by apply Hrows|].
    apply exists_vault in Hin as (v & Hin & Ht & Hid). exists v, token. split_and!; try done. rewrite Ht. by eapply Open_Seal.
  - unfold fmap, list_fmap. by rewrite (update_where_map_proj cr_id).
  - intros c' Hy%list_elem_of_In. apply in_update_where in Hy as (x & Hx%list_elem_of_In & ->).
    destruct (Hrows x Hx) as (v & token' & Hvin & Hid & Ha & Ho). destruct (static_of w tenant vault id url x) eqn:Ex; [|by exists v, token'].
    apply static_of_true in Ex as (Hxv & Hex & Hxi & Hxa & Hxu). apply static_of_true in Hst as (Hcv & _ & Hci & Hca & Hcu).
    apply exists_vault in Hex as (v' & Hvin' & Ht & Hid'). assert (v' = v) as -> by (apply (Huniq v' v); [done..|congruence]).
    exists v, token. split_and!; try done. cbn. eapply Open_Seal. rewrite Ht. etrans; [|exact Hs]. f_equal. unfold row_binding. cbn. f_equal; congruence.
  - by apply NoDup_filter_fmap.
  - intros c [Hc _]%filter_elem. by apply Hrows.
Qed.

Lemma vrun_wf l w : vaults_wf w → vaults_wf (vrun ciphered l w).
Proof. revert w. induction l as [|r l IH]; intros w Hwf; [done|]. apply IH. exact (vault_change_wf _ _ _ (vserve_change ciphered r w) Hwf). Qed.

(** ** Tokens *)

(** A credential of a tenant's vault for a server, and its secret. *)
Definition stored_secret (w : vault_world) (tenant vault id : N) (url token : string) : Prop :=
  ∃ v c, v ∈ vw_vaults w ∧ vt_tenant v = tenant ∧ vt_id v = vault ∧
    c ∈ vw_credentials w ∧ cr_vault c = vault ∧ cr_id c = id ∧ cr_url c = url ∧ cr_auth c = "static_bearer" ∧
    Open (cr_ciphertext c) (row_binding tenant c) = Some token.

Lemma static_credential_true w tenant vaults url c :
  static_credential w tenant vaults url c = true ↔
  (∃ v, v ∈ vw_vaults w ∧ vt_tenant v = tenant ∧ vt_id v = cr_vault c) ∧ cr_vault c ∈ vaults ∧ cr_auth c = "static_bearer" ∧ cr_url c = url.
Proof.
  unfold static_credential, in_vault. rewrite !andb_true_iff, !bool_decide_eq_true, exists_vault, existsb_exists.
  setoid_rewrite bool_decide_eq_true. setoid_rewrite <-list_elem_of_In. naive_solver.
Qed.

Abbreviation token_for tenantID vaultIDs b w := ((MCPBearerToken true tenantID vaultIDs b w).1).

(** A token is returned exactly for the secret of a credential of one of the
    attached vaults, owned by the same tenant and meant for the same server. *)
Theorem MCPBearerToken_spec tenantID vaultIDs b w token :
  vaults_wf w →
  token_for tenantID vaultIDs b w = Ok token ↔
  ∃ tenant vaults vault id, parseID tenantID = Ok tenant ∧ attachedVaultIDs vaultIDs = Ok vaults ∧ vault ∈ vaults ∧
    parseID (mb_vault b) = Ok vault ∧ parseID (mb_credential b) = Ok id ∧ mb_auth b = "static_bearer" ∧ mb_url b ≠ "" ∧
    stored_secret w tenant vault id (mb_url b) token.
Proof.
  intros Hwf. unfold MCPBearerToken, GetMCPStaticCredentialCiphertext. unfold mbind, vtx_bind, v_result, v_require, v_query, v_one, v_throw, mret, vtx_ret.
  split.
  - intros Hr. repeat case_match; simplify_eq; cbn in *; simplify_eq.
    repeat match goal with H : known_id _ = Ok _ |- _ => apply known_id_Ok in H end.
    match goal with H : cr_ciphertext <$> _ = Some _ |- _ => apply fmap_Some in H as (c & Hc & ->) end.
    apply find_some in Hc as [Hin%list_elem_of_In Hc]. rewrite !andb_true_iff, static_credential_true, !bool_decide_eq_true in Hc.
    destruct Hc as ((((v & Hv & Ht & Hid) & Hatt & Ha & Hu) & Hvault) & Hci). bsolve.
    subst. eexists _, _, (cr_vault c), (cr_id c). split_and!; try done. exists v, c. split_and!; try done.
    etrans; [|eassumption]. unfold row_binding. congruence.
  - intros (tenant & vaults & vault & id & Ht & Hvs & Hin & Hv & Hi & Ha & Hu & v & c & Hvin & Hvt & Hvid & Hc & Hcv & Hci & Hcu & Hca & Ho).
    rewrite (proj2 (known_id_Ok _ _) Ht), Hvs, (proj2 (known_id_Ok _ _) Hv), (proj2 (known_id_Ok _ _) Hi), Ha.
    rewrite (bool_decide_eq_true_2 _ eq_refl), (bool_decide_eq_false_2 (mb_url b = "")) by done. cbn -[Open].
    set (p := λ c, _ && (cr_id c =?s id)).
    assert (p c = true) as Hp.
    { unfold p. rewrite !andb_true_iff, static_credential_true, !bool_decide_eq_true. split_and!; try congruence. exists v. by split_and!; congruence. }
    destruct (List.find p (vw_credentials w)) as [c'|] eqn:Ef; cbn -[Open].
    + apply find_some in Ef as [Hin'%list_elem_of_In Hp']. assert (c' = c) as ->.
      { apply (fmap_unique cr_id (vw_credentials w)); [apply Hwf|done..|]. unfold p in Hp'. rewrite !andb_true_iff, !bool_decide_eq_true in Hp'. naive_solver congruence. }
      unfold row_binding in Ho. rewrite Hcv, Hci, Hca, Hcu in Ho. by rewrite Ho.
    + exfalso. by rewrite (List.find_none _ _ Ef c) in Hp by by apply list_elem_of_In.
Qed.

(** *** The last secret stored *)

Lemma stored_secret_created tenantID vaultID name url token w c w' tenant vault :
  parseID tenantID = Ok tenant → parseID vaultID = Ok vault →
  CreateStaticCredential true tenantID vaultID name url token w = (Ok c, w') →
  ∃ id, cd_id c = uuid_string id ∧ cd_vault c = uuid_string vault ∧ cd_url c = url ∧ cd_auth c = "static_bearer" ∧ url ≠ "" ∧
    stored_secret w' tenant vault id url token.
Proof.
  intros Ht Hv. unfold CreateStaticCredential, CreateStaticCredentialQ, sealed. rewrite Ht, Hv.
  unfold mbind, vtx_bind, v_result, v_require, v_query, v_check, v_exec, v_one, v_throw, mret, vtx_ret, v_clock, v_uuid.
  intros Hr. repeat case_match; simplify_eq; cbn in *; simplify_eq; bsolve.
  eexists. split_and!; [reflexivity|done..|].
  match goal with H : existsb (vault_of _ _) _ = true |- _ => apply exists_vault in H as (v1 & Hvin & Hvt & Hvid) end.
  eexists v1, _. cbn.
  split_and!; [done|done|done|apply elem_of_app; right; by apply list_elem_of_singleton|cbn; try done; by eapply Open_Seal..].
Qed.


Lemma stored_secret_updated tenantID vaultID credentialID token w c w' tenant vault id :
  parseID tenantID = Ok tenant → parseID vaultID = Ok vault → parseID credentialID = Ok id →
  UpdateStaticCredential true tenantID vaultID credentialID token w = (Ok c, w') →
  cd_id c = uuid_string id ∧ cd_vault c = uuid_string vault ∧ cd_auth c = "static_bearer" ∧ stored_secret w' tenant vault id (cd_url c) token.
Proof.
  intros Ht Hv Hi. unfold UpdateStaticCredential, UpdateStaticCredentialQ, sealed.
  rewrite (proj2 (known_id_Ok _ _) Ht), (proj2 (known_id_Ok _ _) Hv), (proj2 (known_id_Ok _ _) Hi).
  unfold mbind, vtx_bind, v_result, v_require, v_query, v_check, v_exec, v_one, v_throw, mret, vtx_ret, v_clock, v_uuid.
  destruct (GetCredential tenantID vaultID credentialID w) as [[current|e] w1] eqn:Eg; [|done].
  apply GetCredential_run in Eg as (-> & tenant' & vault' & id' & row & Ht' & Hv' & Hi' & Hrow & ->). simplify_eq.
  apply find_some in Hrow as [_ (Hrv & _ & Hri)%credential_of_true].
  intros Hr. repeat case_match; simplify_eq; cbn in *; simplify_eq; bsolve.
  match goal with H : List.find (static_of _ _ _ _ _) _ = Some ?x |- _ => apply find_some in H as [Hin Hst]; rename x into old end.
  pose proof Hst as (Hov & Hex & Hoi & Hoa & Hou)%static_of_true. split_and!; try congruence.
  apply exists_vault in Hex as (v1 & Hvin & Hvt & Hvid).
  eexists v1, _. split_and!; [done|done|done|apply list_elem_of_In, in_update_where_hit; [exact Hin|exact Hst]|done..|].
  cbn. eapply Open_Seal. etrans; [|eassumption]. unfold row_binding. cbn. do 2 f_equal; congruence.
Qed.

Lemma stored_secret_kept r w w' tenant vault id url token :
  vault_change r w w' → ¬ touches_credential r vault id → stored_secret w tenant vault id url token → stored_secret w' tenant vault id url token.
Proof.
  intros Hc Hno (v & c & Hv & Hvt & Hvid & Hcin & Hcv & Hci & Hcu & Hca & Ho).
  destruct Hc as [[E1 E2]|row E1 E2 _|tenant' id' E1 E2 _ Ht|tenant' row nonce token' E1 E2 _ _ _ _ _
    |tenant' vault' id' url' c' nonce token' now ciphertext E1 E2 _ _ _ Ht|tenant' vault' id' E1 E2 Ht]; exists v, c; rewrite E1, E2.
  - by split_and!.
  - rewrite elem_of_app. by split_and!; auto.
  - assert (id' ≠ vault) by (intros ->; by apply Hno).
    split_and!; try done; apply filter_elem; (split; [done|]); apply negb_true_iff.
    + unfold vault_of. rewrite (bool_decide_eq_false_2 (vt_id v = id')) by congruence. apply andb_false_r.
    + apply bool_decide_eq_false_2. congruence.
  - rewrite elem_of_app. by split_and!; auto.
  - assert (id' ≠ id) by (intros ->; by apply (Hno (Ht vault))). split_and!; try done.
    apply list_elem_of_In, in_update_where_miss; [by apply list_elem_of_In|].
    apply not_true_iff_false. intros (_ & _ & ? & _)%static_of_true. naive_solver.
  - assert (id' ≠ id) by (intros ->; by apply (Hno (Ht vault))). split_and!; try done.
    apply filter_elem. split; [done|]. apply negb_true_iff, not_true_iff_false. intros (_ & _ & ?)%credential_of_true. naive_solver.
Qed.

Lemma stored_secret_run l w tenant vault id url token :
  Forall (λ r, ¬ touches_credential r vault id) l → stored_secret w tenant vault id url token →
  stored_secret (vrun true l w) tenant vault id url token.
Proof.
  revert w. induction l as [|r l IH]; intros w; [done|]. intros [Hr Hl]%Forall_cons Hs. apply IH; [done|].
  by eapply stored_secret_kept; [apply vserve_change|..].
Qed.
End consistency.

(** ** Properties *)

Section properties.
Context `{UUIDs, AEAD, Oracle, !UUIDLaws, !AEADLaws}.

(** The tables stay consistent in every state the operations reach. *)
Theorem reachable_vaults_consistent ciphered l tick draw : vaults_wf (vrun ciphered l (MkVaultWorld [] [] tick draw)).
Proof. apply vrun_wf. split; [constructor..|]. by intros c ?%not_elem_of_nil. Qed.

(** C36. The token of a frozen binding is the last one stored for its credential,
    whatever happens to other vaults and credentials. *)
Theorem token_is_last_stored tenantID vaultID token w c w' l id vault vaultIDs vaults label :
  vaults_wf w →
  ((∃ name url, CreateStaticCredential true tenantID vaultID name url token w = (Ok c, w') ) ∨
   (∃ credentialID, cd_url c ≠ "" ∧ UpdateStaticCredential true tenantID vaultID credentialID token w = (Ok c, w'))) →
  parseID vaultID = Ok vault → parseID (cd_id c) = Ok id → Forall (λ r, ¬ touches_credential r vault id) l →
  attachedVaultIDs vaultIDs = Ok vaults → vault ∈ vaults →
  (MCPBearerToken true tenantID vaultIDs (MkCredentialBinding label (cd_url c) (cd_vault c) (cd_id c) "static_bearer") (vrun true l w')).1 = Ok token.
Proof.
  intros Hwf Hop Hv Hid Hl Hatt Hin.
  assert (∃ tenant, parseID tenantID = Ok tenant) as [tenant Ht].
  { destruct (parseID tenantID) as [t|e] eqn:E; [eauto|]. destruct Hop as [(name & url & Hr)|(credentialID & _ & Hr)];
      [unfold CreateStaticCredential in Hr; rewrite E in Hr; discriminate Hr|].
    unfold UpdateStaticCredential, known_id in Hr. rewrite E in Hr. discriminate Hr. }
  assert (vaults_wf w') as Hwf'.
  { destruct Hop as [(name & url & Hr)|(credentialID & _ & Hr)]; [|].
    - pose proof (vault_change_wf _ _ _ (CreateStaticCredential_change true tenantID vaultID name url token w) Hwf) as Hw. by rewrite Hr in Hw.
    - pose proof (vault_change_wf _ _ _ (UpdateStaticCredential_change true tenantID vaultID credentialID token w) Hwf) as Hw. by rewrite Hr in Hw. }
  assert (∃ i, cd_id c = uuid_string i ∧ cd_vault c = uuid_string vault ∧ cd_url c ≠ "" ∧ stored_secret w' tenant vault i (cd_url c) token)
    as (i & Eid & Ev & Hne & Hs).
  { destruct Hop as [(name & url & Hr)|(credentialID & Hne & Hr)].
    - destruct (stored_secret_created _ _ _ _ _ _ _ _ _ _ Ht Hv Hr) as (i & ? & ? & -> & _ & ? & ?). by exists i.
    - assert (∃ i, parseID credentialID = Ok i) as [i Hi].
      { destruct (parseID credentialID) as [i|e] eqn:E; [eauto|]. unfold UpdateStaticCredential, known_id in Hr. rewrite Ht, Hv, E in Hr. discriminate Hr. }
      destruct (stored_secret_updated _ _ _ _ _ _ _ _ _ _ Ht Hv Hi Hr) as (? & ? & _ & ?). by exists i. }
  assert (i = id) as ->.
  { rewrite Eid in Hid. unfold parseID in Hid. rewrite uuid_parse_string in Hid. by case_bool_decide; simplify_eq. }
  apply MCPBearerToken_spec; [by apply vrun_wf|]. exists tenant, vaults, vault, id. cbn. split_and!; try done.
  - rewrite Ev. unfold parseID. rewrite uuid_parse_string. unfold parseID in Hv. destruct (uuid_parse vaultID); [|done].
    case_bool_decide as E; [done|]. injection Hv as ->. by rewrite bool_decide_eq_false_2.
  - by apply stored_secret_run.
Qed.

(** C37. A secret is gone with its credential, and with its vault. *)
Theorem deleted_secrets_are_gone tenantID vaultID credentialID w r w' tenantID' vaultIDs b vault id :
  vaults_wf w → parseID vaultID = Ok vault → parseID credentialID = Ok id → parseID (mb_vault b) = Ok vault →
  DeleteVault tenantID vaultID w = (Ok r, w') ∨ (DeleteCredential tenantID vaultID credentialID w = (Ok r, w') ∧ parseID (mb_credential b) = Ok id) →
  ∀ token, (MCPBearerToken true tenantID' vaultIDs b w').1 ≠ Ok token.
Proof.
  intros Hwf Hv Hi Hb Hop token Htok.
  assert (vaults_wf w') as Hwf'.
  { destruct Hop as [Hr|[Hr _]].
    - pose proof (vault_change_wf _ _ _ (DeleteVault_change tenantID vaultID w) Hwf) as Hw. by rewrite Hr in Hw.
    - pose proof (vault_change_wf _ _ _ (DeleteCredential_change tenantID vaultID credentialID w) Hwf) as Hw. by rewrite Hr in Hw. }
  apply MCPBearerToken_spec in Htok as (tenant & vaults & vault' & id' & _ & _ & _ & Hb' & Hbi & _ & _ & v & c & Hvin & _ & Hvid & Hcin & Hcv & Hci & _); [|done].
  simplify_eq. destruct Hop as [Hr|[Hr Hid]].
  - unfold DeleteVault, DeleteVaultQ in Hr. rewrite (proj2 (known_id_Ok _ _) Hv) in Hr.
    unfold mbind, vtx_bind, v_result, v_query, v_exec, v_one, v_throw, mret, vtx_ret in Hr. repeat case_match; simplify_eq; cbn in *.
    apply filter_elem in Hcin as [_ Hn]. bsolve. congruence.
  - unfold DeleteCredential, DeleteCredentialQ in Hr. rewrite (proj2 (known_id_Ok _ _) Hv), (proj2 (known_id_Ok _ _) Hi) in Hr.
    unfold mbind, vtx_bind, v_result, v_query, v_exec, v_one, v_throw, mret, vtx_ret in Hr. repeat case_match; simplify_eq; cbn in *.
    apply filter_elem in Hcin as [Hcin Hn]. apply negb_true_iff, not_true_iff_false in Hn. apply Hn.
    match goal with Hf : List.find _ _ = Some _ |- _ => apply find_some in Hf as [_ (_ & Hex & _)%credential_of_true] end.
    apply credential_of_true. split_and!; congruence.
Qed.
End properties.

(** ** Binding and selection *)

Section binding.
Context `{UUIDs, AEAD, Oracle, URLs, !UUIDLaws, !AEADLaws}.

(** What a request for a server was resolved to. *)
Definition resolves (w : vault_world) (tenant : N) (vaults : list N) (r : MCPCredentialRequest) (b : MCPCredentialBinding) : Prop :=
  mb_label b = mr_label r ∧ mb_url b = mr_url r ∧ mr_url r ≠ "" ∧
  ((mb_credential b = "" ∧ mb_vault b = "" ∧ mb_auth b = "" ∧ mr_credential r = None) ∨
   ∃ v c, v ∈ vw_vaults w ∧ c ∈ vw_credentials w ∧ vt_tenant v = tenant ∧ vt_id v = cr_vault c ∧ cr_vault c ∈ vaults ∧
     cr_auth c = "static_bearer" ∧ cr_url c = mr_url r ∧
     mb_vault b = uuid_string (cr_vault c) ∧ mb_credential b = uuid_string (cr_id c) ∧ mb_auth b = "static_bearer" ∧
     ∀ raw, mr_credential r = Some raw → parseID raw = Ok (cr_id c)).

Lemma sorted_member {A} (le : A → A → bool) n l x : x ∈ take n (sort_by le l) → x ∈ l.
Proof. intros Hx. apply list_elem_of_In, (in_sort_by le), list_elem_of_In. by eapply elem_of_take in Hx as (? & ? & _); eapply list_elem_of_lookup_2. Qed.

Lemma resolve_one_run tenant vaults r w b w' :
  resolve_one tenant vaults r w = (Ok b, w') → w' = w ∧ resolves w tenant vaults r b.
Proof.
  unfold resolve_one, FindMCPStaticCredentials. unfold mbind at 1, vtx_bind at 1. unfold v_require at 1.
  destruct (_ && _) eqn:Eok; [|done]. bsolve. unfold mbind at 1, vtx_bind at 1, v_result at 1.
  destruct (match mr_credential r with None => _ | Some _ => _ end) as [id|e] eqn:Eid; [|done].
  unfold mbind at 1, vtx_bind at 1, v_query at 1.
  set (rows := take 2 _). assert (∀ c, c ∈ rows → static_credential w tenant vaults (mr_url r) c = true ∧ c ∈ vw_credentials w ∧
    ∀ i, id = Some i → cr_id c = i) as Hrows.
  { intros c Hc%sorted_member. apply filter_elem in Hc as [Hin Hc]. apply andb_true_iff in Hc as [Hs Hi].
    split_and!; [done..|]. intros i ->. by apply bool_decide_eq_true_1 in Hi. }
  destruct rows as [|c [|c' rows']]; [| |done].
  - unfold mbind, vtx_bind, v_require. case_bool_decide as Hn; [|done]. intros [= <- <-]. split; [done|]. split_and!; auto.
  - intros [= <- <-]. split; [done|]. destruct (Hrows c) as (Hs & Hin & Hi); [by left|].
    apply static_credential_true in Hs as ((v & Hv & Ht & Hid) & Hatt & Ha & Hu). split_and!; cbn; auto. right. exists v, c. split_and!; try done.
    intros raw Hraw. rewrite Hraw in Eid. destruct (known_id raw) as [i|] eqn:Ek; [|done]. cbn in Eid. injection Eid as <-.
    apply known_id_Ok in Ek. by rewrite (Hi i eq_refl).
Qed.

Lemma resolve_all_run tenant vaults requests w bindings w' :
  resolve_all tenant vaults requests w = (Ok bindings, w') → w' = w ∧ Forall2 (resolves w tenant vaults) requests bindings.
Proof.
  revert bindings. induction requests as [|r requests IH]; intros bindings; cbn; [by intros [= <- <-]|].
  unfold mbind, vtx_bind, mret, vtx_ret. destruct (resolve_one tenant vaults r w) as [[b|e] w1] eqn:Eb; [|done].
  apply resolve_one_run in Eb as [-> Hb]. destruct (resolve_all tenant vaults requests w) as [[rest|e] w2] eqn:Er; [|done].
  intros [= <- <-]. destruct (IH rest eq_refl) as [-> Hrest]. split; [done|]. by constructor.
Qed.

Lemma attached_from_sound seen ids l :
  attached_from seen ids = Ok l → ∃ parsed, mapM uuid_parse ids = Some parsed ∧ ∀ id, id ∈ l → id ∈ parsed.
Proof.
  revert seen l. induction ids as [|raw ids IH]; intros seen l; cbn; [intros [= <-]; exists []; by split|].
  intros (id & Hid%known_id_Ok & (rest & Hrest & [= <-])%bind_Ok)%bind_Ok.
  destruct (IH _ _ Hrest) as (parsed & Hp & Hin). exists (id :: parsed). unfold parseID in Hid. destruct (uuid_parse raw) as [u|]; [|done].
  case_bool_decide; [done|]. injection Hid as ->. rewrite Hp. split; [done|]. intros i. case_bool_decide; rewrite ?elem_of_cons; naive_solver.
Qed.

Lemma attached_nonzero seen ids l id : attached_from seen ids = Ok l → id ∈ l → id ≠ 0%N.
Proof.
  revert seen l. induction ids as [|raw ids IH]; intros seen l; cbn; [by intros [= <-] ?%not_elem_of_nil|].
  intros (i & Hi%known_id_Ok & (rest & Hrest & [= <-])%bind_Ok)%bind_Ok.
  assert (i ≠ 0%N) by (unfold parseID in Hi; destruct (uuid_parse raw); [|done]; by case_bool_decide; simplify_eq).
  case_bool_decide; rewrite ?elem_of_cons; [eauto|]. intros [->|]; eauto.
Qed.

Lemma ResolveMCPCredentials_run tenantID vaultIDs requests w bindings w' :
  ResolveMCPCredentials tenantID vaultIDs requests w = (Ok bindings, w') →
  w' = w ∧ ∃ tenant vaults, parseID tenantID = Ok tenant ∧ attachedVaultIDs vaultIDs = Ok vaults ∧
    Forall2 (resolves w tenant vaults) requests bindings.
Proof.
  unfold ResolveMCPCredentials, GetAttachedVaultIDs. unfold mbind, vtx_bind, v_result, v_query, v_require.
  destruct (parseID tenantID) as [tenant|]; [|done]. destruct (attachedVaultIDs vaultIDs) as [vaults|]; [|done].
  destruct (_ =? _)%nat; [|done]. intros Hr. apply resolve_all_run in Hr as [-> Hall]. split; [done|]. by exists tenant, vaults.
Qed.

(** The tools a configuration declares, as the requests for credentials see them. *)
Lemma collect_requests raw tools tools' requests :
  collect_tools tools raw = Some tools' → credential_requests raw = Some requests → NoDup (mr_label <$> requests) →
  (∀ label, label ∉ mr_label <$> requests → tools' !! label = tools !! label) ∧
  (∀ r, r ∈ requests → ∃ tool, tools' !! mr_label r = Some tool ∧ tr_url (mt_transport tool) = mr_url r ∧ mt_credential tool = mr_credential r).
Proof.
  revert tools requests. induction raw as [|value raw IH]; intros tools requests; cbn [collect_tools credential_requests].
  { intros [= <-] [= <-] _. split; [done|]. by intros r ?%not_elem_of_nil. }
  intros (tool & Ht & Hc)%bind_Some (tool' & Ht' & (rest & Hrest & [= <-])%bind_Some)%bind_Some. rewrite Ht in Ht'. injection Ht' as <-.
  destruct (bool_decide (mt_type tool = "mcp")); [|by apply IH].
  rewrite fmap_cons, NoDup_cons. intros [Hnew Hnd]. cbn in Hnew. destruct (IH _ _ Hc Hrest Hnd) as [Hother Hin]. split.
  - intros label. cbn. rewrite not_elem_of_cons. intros [Hne Hl]. rewrite Hother by done. by rewrite lookup_insert_ne.
  - intros r [->|Hr]%elem_of_cons; [|by apply Hin]. exists tool. cbn. rewrite Hother by done. by rewrite lookup_insert_eq.
Qed.

Lemma collect_defined raw tools requests : credential_requests raw = Some requests → ∃ tools', collect_tools tools raw = Some tools'.
Proof.
  revert tools requests. induction raw as [|value raw IH]; intros tools requests; cbn; [eauto|].
  intros (tool & -> & (rest & Hrest & _)%bind_Some)%bind_Some. cbn. eauto.
Qed.

Definition https (url : string) : Prop := ∃ u, url_parse url = Some u ∧ url_scheme u = "https".

Lemma uuid_text_nonempty u : uuid_string u ≠ "".
Proof. intros E. pose proof (uuid_parse_string u) as Hu. by rewrite E, uuid_parse_empty in Hu. Qed.

Lemma parseID_text u : u ≠ 0%N → parseID (uuid_string u) = Ok u.
Proof. intros Hu. unfold parseID. rewrite uuid_parse_string. by rewrite bool_decide_eq_false_2. Qed.

(** A resolved binding is one that dispatch allows. *)
Lemma resolves_allowed w tenant vaults parsed tools r b :
  (∀ c, c ∈ vw_credentials w → https (cr_url c)) → (∀ id, id ∈ vaults → id ∈ parsed) →
  (∃ tool, tools !! mr_label r = Some tool ∧ tr_url (mt_transport tool) = mr_url r ∧ mt_credential tool = mr_credential r) →
  resolves w tenant vaults r b → binding_allowed tools parsed b.
Proof.
  intros Hhttps Hvaults (tool & Htool & Hurl & Hcred) (Hl & Hu & _ & [(Hc & Hv & Ha & Hn)|(v & c & Hvin & Hcin & Ht & Hid & Hatt & Hca & Hcu & Hbv & Hbc & Hba & Hraw)]).
  - exists tool. rewrite Hl. split_and!; [done|congruence|]. unfold anonymous. rewrite Hc, bool_decide_eq_true_2 by done. by rewrite Hcred.
  - exists tool. rewrite Hl. split_and!; [done|congruence|]. unfold anonymous. rewrite Hbc, bool_decide_eq_false_2 by apply uuid_text_nonempty.
    destruct (Hhttps c Hcin) as (u & Hparse & Hscheme). exists (cr_vault c), (cr_id c), u. rewrite Hbv, Hbc, Hu, <-Hcu, !uuid_parse_string.
    split_and!; auto. rewrite Hcred. intros raw Hr%Hraw. unfold parseID in Hr. destruct (uuid_parse raw); [|done]. by case_bool_decide; simplify_eq.
Qed.

(** The credentials bound when a Session is created are those dispatch selects:
    the check of the frozen decision passes, and for each selected credential the
    token can be read. *)
Theorem bound_credentials_are_selected tenantID s w s' w' requests :
  vaults_wf w → (∀ c, c ∈ vw_credentials w → https (cr_url c) ∧ cr_id c ≠ 0%N) →
  sn_credentials s = None → credential_requests (agent_tools s) = Some requests → NoDup (mr_label <$> requests) →
  bindSessionCredentials tenantID s w = (Ok s', w') →
  ∃ selected, selectedMCPCredentials s' = Ok selected ∧
    ∀ label b, selected !! label = Some b → ∃ token, (MCPBearerToken true tenantID (default [] (sn_vaults s')) b w').1 = Ok token.
Proof.
  intros Hwf Hrows Hnone Hreq Hnd Hr. destruct (collect_defined (agent_tools s) ∅ requests Hreq) as [tools Htools].
  destruct (collect_requests _ _ _ _ Htools Hreq Hnd) as [Hother Hdecl].
  unfold bindSessionCredentials in Hr. rewrite Hreq in Hr. unfold mbind at 1, vtx_bind at 1, v_result at 1 in Hr.
  destruct (_ && _) eqn:Eopt.
  - injection Hr as <- <-. apply andb_true_iff in Eopt as [Hv Hall]. apply negb_true_iff, nonempty_false in Hv.
    exists ∅. split; [|by intros label b; rewrite lookup_empty]. apply selectedMCPCredentials_spec. exists tools, [].
    split; rewrite ?Hnone, ?Hv; try done; [constructor| |].
    + intros label tool Ht. right. split_and!; try done. destruct (decide (label ∈ mr_label <$> requests)) as [Hl|Hl].
      * apply list_elem_of_fmap in Hl as (r & -> & Hin). destruct (Hdecl r Hin) as (tool' & Ht' & _ & Hcr). rewrite Ht in Ht'. injection Ht' as <-. rewrite Hcr.
        rewrite forallb_forall in Hall. by apply list_elem_of_In, Hall, bool_decide_eq_true_1 in Hin.
      * by rewrite Hother, lookup_empty in Ht.
    + intros label b. rewrite lookup_empty. split; [done|]. by intros [?%not_elem_of_nil _].
  - unfold mbind, vtx_bind in Hr. destruct (ResolveMCPCredentials _ _ _ w) as [[bindings|e] w1] eqn:Eres; [|done]. injection Hr as <- <-.
    apply ResolveMCPCredentials_run in Eres as (-> & tenant & vaults & Ht & Hv & Hall). cbn [sn_vaults with_credentials].
    destruct (attached_from_sound _ _ _ Hv) as (parsed & Hparsed & Hin).
    assert (mb_label <$> bindings = mr_label <$> requests) as Hlabels.
    { clear -Hall. induction Hall as [|r b rs bs [Hl _] _ IH]; [done|]. by rewrite !fmap_cons, IH, Hl. }
    assert (∀ b, b ∈ bindings → ∃ r, r ∈ requests ∧ resolves w tenant vaults r b) as Hres.
    { clear -Hall. induction Hall as [|r b rs bs Hrb _ IH]; [by intros b ?%not_elem_of_nil|].
      intros b' [->|Hb]%elem_of_cons; [exists r; split; [by left|done]|]. destruct (IH b' Hb) as (r' & ? & ?). exists r'. split; [by right|done]. }
    exists (foldl (λ m b, if anonymous b then m else <[mb_label b := b]> m) ∅ bindings).
    assert (∀ label b, foldl (λ m b, if anonymous b then m else <[mb_label b := b]> m) (∅ : gmap string MCPCredentialBinding) bindings !! label = Some b ↔
      b ∈ bindings ∧ mb_label b = label ∧ anonymous b = false) as Hsel.
    { intros label b. rewrite selected_lookup; [|by rewrite Hlabels|intros; apply lookup_empty]. rewrite lookup_empty. naive_solver. }
    split.
    + apply selectedMCPCredentials_spec. exists tools, parsed. split; cbn; try done; [by rewrite Hlabels| |].
      * apply Forall_forall. intros b Hb. destruct (Hres b Hb) as (r & Hr & Hres'). eapply resolves_allowed; [|exact Hin|by apply Hdecl|done]. intros. by apply Hrows.
      * intros label tool Htool. left. rewrite Hlabels. destruct (decide (label ∈ mr_label <$> requests)); [done|]. by rewrite Hother, lookup_empty in Htool.
    + intros label b (Hb & <- & Han)%Hsel. destruct (Hres b Hb) as (r & Hr & Hl & Hu & Hne & [(Hc & _)|(v & c & Hvin & Hcin & Htn & Hid & Hatt & Hca & Hcu & Hbv & Hbc & Hba & _)]).
      { unfold anonymous in Han. by rewrite Hc, bool_decide_eq_true_2 in Han. }
      destruct (wf_credentials _ Hwf c Hcin) as (v' & token & Hvin' & Hid' & _ & Ho).
      assert (v' = v) as -> by (apply (vault_unique w); [done..|congruence]). exists token. apply MCPBearerToken_spec; [done|].
      exists tenant, vaults, (cr_vault c), (cr_id c). rewrite Hbv, Hbc, Hba, Hu, !parseID_text;
        [|by apply Hrows|by eapply attached_nonzero]. split_and!; try done. exists v, c. split_and!; try done. by rewrite <-Htn.
Qed.
End binding.

(** ** Witnesses *)

From S2P Require Import Scenario.

(** A cipher that hides nothing, for evaluation. *)
Module PlainAEAD.
Definition header : string := bytes (repeat 0%nat 28).

Fixpoint skip (n : nat) (s : string) : string :=
  match n, s with
  | O, _ => s
  | S n', String.String _ s' => skip n' s'
  | S _, EmptyString => EmptyString
  end.

Definition plain_aead : AEAD := {|
  aead_seal nonce plaintext aad := header +:+ plaintext;
  aead_open ciphertext aad := Some (skip 28 ciphertext);
  aead_overhead := 28;
|}.

Lemma plain_laws : @AEADLaws plain_aead.
Proof. split; [done|]. intros nonce plaintext aad. cbn [aead_seal plain_aead aead_overhead]. unfold str_len.
  assert (String.length (header +:+ plaintext) = 28 + String.length plaintext)%nat by reflexivity. lia. Qed.
End PlainAEAD.
#[local] Existing Instance PlainAEAD.plain_aead.
#[local] Existing Instance PlainAEAD.plain_laws.
#[local] Existing Instance PolicyExample.urls.

Module VaultExample.
Definition vault_id : string := uuid_string 100%N.
Definition url : string := PolicyExample.server_url.
Definition empty : vault_world := MkVaultWorld [] [] 0 0.

(** A vault, and a credential for a server in it. *)
Definition with_vault : vault_world := vrun true [VCreateVault tenant_id (Some "keys") []] empty.
Definition created : result Credential * vault_world := CreateStaticCredential true tenant_id vault_id "docs" url "secret" with_vault.
Definition credential : Credential := match created.1 with Ok c => c | Err _ => MkCredential "" "" "" "" "" 0 0 end.
Definition binding : MCPCredentialBinding := MkCredentialBinding "docs" (cd_url credential) (cd_vault credential) (cd_id credential) "static_bearer".

(** Other requests of the same tenant. *)
Definition others : list vault_request :=
  [VCreateVault tenant_id None []; VCreateCredential tenant_id vault_id "more" url "other"; VUpdateCredential tenant_id vault_id (uuid_string 7%N) "x"].

Definition snapshot : Snapshot :=
  MkSnapshot false (sn_agent PolicyExample.snapshot) None (sn_environment PolicyExample.snapshot) (Some [vault_id]) None.

Definition requests : list MCPCredentialRequest := [MkCredentialRequest "docs" url None].
End VaultExample.

Lemma with_vault_wf : vaults_wf VaultExample.with_vault.
Proof. apply vrun_wf. split; [constructor..|]. by intros c ?%not_elem_of_nil. Qed.

Lemma created_wf : vaults_wf VaultExample.created.2.
Proof.
  exact (vault_change_wf _ _ _ (CreateStaticCredential_change true tenant_id VaultExample.vault_id "docs" VaultExample.url "secret" _) with_vault_wf).
Qed.

Lemma token_is_last_stored_witness :
  (MCPBearerToken true tenant_id [VaultExample.vault_id] VaultExample.binding (vrun true VaultExample.others VaultExample.created.2)).1 = Ok "secret".
Proof.
  apply (token_is_last_stored tenant_id VaultExample.vault_id "secret" VaultExample.with_vault VaultExample.credential VaultExample.created.2
    VaultExample.others 101%N 100%N [VaultExample.vault_id] [100%N] "docs").
  - exact with_vault_wf.
  - left. exists "docs", VaultExample.url. vm_compute. reflexivity.
  - vm_compute. reflexivity.
  - vm_compute. reflexivity.
  - do 2 (apply Forall_cons; split; [by intros []|]). apply Forall_singleton. vm_compute. discriminate.
  - vm_compute. reflexivity.
  - by apply list_elem_of_singleton.
Defined.

Lemma MCPBearerToken_spec_witness :
  ∃ tenant vaults vault id, parseID tenant_id = Ok tenant ∧ attachedVaultIDs [VaultExample.vault_id] = Ok vaults ∧ vault ∈ vaults ∧
    parseID (mb_vault VaultExample.binding) = Ok vault ∧ parseID (mb_credential VaultExample.binding) = Ok id ∧
    mb_auth VaultExample.binding = "static_bearer" ∧ mb_url VaultExample.binding ≠ "" ∧
    stored_secret VaultExample.created.2 tenant vault id (mb_url VaultExample.binding) "secret".
Proof.
  apply (MCPBearerToken_spec tenant_id [VaultExample.vault_id] VaultExample.binding VaultExample.created.2 "secret" created_wf).
  vm_compute. reflexivity.
Defined.

Lemma deleted_secrets_are_gone_witness :
  (MCPBearerToken true tenant_id [VaultExample.vault_id] VaultExample.binding VaultExample.created.2).1 = Ok "secret" ∧
  ∀ token, (MCPBearerToken true tenant_id [VaultExample.vault_id] VaultExample.binding
    (DeleteVault tenant_id VaultExample.vault_id VaultExample.created.2).2).1 ≠ Ok token.
Proof.
  split; [vm_compute; reflexivity|].
  apply (deleted_secrets_are_gone tenant_id VaultExample.vault_id (cd_id VaultExample.credential) VaultExample.created.2 VaultExample.vault_id
    (DeleteVault tenant_id VaultExample.vault_id VaultExample.created.2).2 tenant_id [VaultExample.vault_id] VaultExample.binding 100%N 101%N created_wf);
    [vm_compute; reflexivity..|].
  left. vm_compute. reflexivity.
Defined.

Lemma bound_credentials_are_selected_witness : ∃ selected,
  selectedMCPCredentials (with_credentials VaultExample.snapshot [VaultExample.binding]) = Ok selected ∧
  ∀ label b, selected !! label = Some b → ∃ token, (MCPBearerToken true tenant_id [VaultExample.vault_id] b VaultExample.created.2).1 = Ok token.
Proof.
  apply (bound_credentials_are_selected tenant_id VaultExample.snapshot VaultExample.created.2
    (with_credentials VaultExample.snapshot [VaultExample.binding]) VaultExample.created.2 VaultExample.requests created_wf).
  - intros c Hc. assert (vw_credentials VaultExample.created.2 = [MkCredentialRow 101 100 "docs" "static_bearer" VaultExample.url
      (String.String format_version (PlainAEAD.header +:+ "secret")) 1001 1001 "active"]) as E by (vm_compute; reflexivity).
    rewrite E in Hc. apply list_elem_of_singleton in Hc as ->. split; [|done]. eexists. split; vm_compute; reflexivity.
  - reflexivity.
  - vm_compute. reflexivity.
  - apply NoDup_singleton.
  - vm_compute. reflexivity.
Defined.
