(* ===== verification/Dispatch.v ===== *)
(** * Dispatch

    The execution of a Turn from its claim to its outcome:
    [Dispatcher.Run] ([dispatcher.go]) and the request for the engine
    ([request.go], [model_execution.go]) of
    [services/agents-api/internal/execution].  Runs that need an environment are in
    Prepared.v.

    The dispatcher's calls to the store may be lost ([over]) and other clients'
    requests are served between them ([nd_others]); the deliveries themselves are
    those of Delivery.v.  Live connections ([lookup_device]), the operator's
    options, connections to environments and the decrypted model configurations
    are parameters. *)
From stdpp Require Import base tactics list strings numbers relations pretty gmap.
From S2P Require Import Prelude GoJson Contract Items Database Queries EnvQueries SessionLog Turns Environments Reads Configuration Setup Creation.
From S2P Require Import Relations Journal Delivery Policy Vaults.

(** ** The dispatcher's view *)

Inductive other := OStore (r : request) | OVault (r : vault_request).

(** The store and the vaults, and what other clients ask of them before each of
    the next calls. *)
Record node := MkNode { nd_remote : remote; nd_vaults : vault_world; nd_others : list (list other) }.

Definition run (A : Type) := node → result A * node.

#[global] Instance run_ret : MRet run := λ A a nd, (Ok a, nd).
#[global] Instance run_bind : MBind run := λ A B f m nd,
  match m nd with (Ok a, nd') => f a nd' | (Err e, nd') => (Err e, nd') end.

Definition r_result {A} (r : result A) : run A := λ nd, (r, nd).
Definition r_throw {A} (e : error) : run A := λ nd, (Err e, nd).
Definition r_require (c : bool) (e : error) : run unit := λ nd, if c then (Ok tt, nd) else (Err e, nd).

(** ** Requests for an engine *)

Record RemoteEnvironmentRef := MkRemoteEnvironment { re_id : string; re_workspace : string; re_url : string; re_token : string }.

Record LocalEnvironmentRef := MkLocalEnvironment {
  le_id : string; le_skills : option (list SkillMetadata); le_tool : bool; le_system : bool; le_network : string }.

(** [proto.PromptRequestPayload], without the members this service never sets. *)
Record PromptRequest := MkPrompt {
  rq_kind : string; rq_conversation : string; rq_run : string; rq_prompt : string; rq_work_dir : string;
  rq_options : gmap string json; rq_controls : option (string * string); rq_servers : option (list MCPHTTPServer);
  rq_remote : option RemoteEnvironmentRef; rq_local : option LocalEnvironmentRef; rq_native : string;
  rq_read_only : bool; rq_state_key : string; rq_release : bool; rq_strict : bool; rq_existing : bool;
  rq_messages : bool; rq_observations : bool; rq_identities : bool; rq_functions : list FunctionTool;
  rq_no_environment : bool; rq_no_subagents : bool }.

Definition with_run (q : PromptRequest) (conversation run prompt work_dir : string) (no_environment : bool) : PromptRequest :=
  MkPrompt (rq_kind q) conversation run prompt work_dir (rq_options q) (rq_controls q) (rq_servers q) (rq_remote q) (rq_local q)
    (rq_native q) (rq_read_only q) (rq_state_key q) (rq_release q) (rq_strict q) (rq_existing q) (rq_messages q) (rq_observations q)
    (rq_identities q) (rq_functions q) no_environment (rq_no_subagents q).

Definition in_environment (q : PromptRequest) (remote : option RemoteEnvironmentRef) (local : option LocalEnvironmentRef) : PromptRequest :=
  MkPrompt (rq_kind q) (rq_conversation q) (rq_run q) (rq_prompt q) (rq_work_dir q) (rq_options q) (rq_controls q) (rq_servers q) remote local
    (rq_native q) (rq_read_only q) (rq_state_key q) (rq_release q) (rq_strict q) (rq_existing q) (rq_messages q) (rq_observations q)
    (rq_identities q) (rq_functions q) (rq_no_environment q) (rq_no_subagents q).

Definition dec_model_provider : decoder ModelProviderInput := dec_struct (λ p k v,
  let '(MkModelProvider protocol base key context output) := p in
  if key_is "protocol" k then s ← dec_string protocol v; Some (MkModelProvider s base key context output)
  else if key_is "base_url" k then s ← dec_string base v; Some (MkModelProvider protocol s key context output)
  else if key_is "api_key" k then s ← dec_string key v; Some (MkModelProvider protocol base s context output)
  else if key_is "context_window" k then n ← dec_int32 context v; Some (MkModelProvider protocol base key n output)
  else if key_is "max_output_tokens" k then n ← dec_int32 output v; Some (MkModelProvider protocol base key context n)
  else Some p).

(** A connection to a self-hosted environment; [cn_release] tells whether there is
    anything to release. *)
Record EnvironmentConnection := MkConnection { cn_url : string; cn_token : string; cn_release : bool }.

(** What the dispatcher is deployed with. *)
Class Deployment := {
  engines : Catalog;
  ciphered : bool;
  leased : bool;
  lookup_device : string → option peer;
  extra_options : option (Session → result (option (gmap string json)));
  environment_connection : option (Session → Environment → result EnvironmentConnection);
  model_secret : string → string → option json;
}.

Section dispatch.
Context `{UUIDs, Oracle, EventSizes, URLs, AEAD, Deployment}.

Definition serve_other (nd : node) (o : other) : node :=
  match o with
  | OStore r => MkNode (MkRemote (serve r (rm_world (nd_remote nd))).2 (rm_fates (nd_remote nd))) (nd_vaults nd) (nd_others nd)
  | OVault r => MkNode (nd_remote nd) (vserve ciphered r (nd_vaults nd)) (nd_others nd)
  end.

(** The state in which the next call finds the store. *)
Definition meantime (nd : node) : node :=
  match nd_others nd with
  | [] => nd
  | l :: ls => List.fold_left serve_other l (MkNode (nd_remote nd) (nd_vaults nd) ls)
  end.

Definition call {A} (t : tx A) : run A := λ nd,
  let nd := meantime nd in
  let '(r, rm) := over t (nd_remote nd) in (r, MkNode rm (nd_vaults nd) (nd_others nd)).

(** A read of the vaults, with the fate of its reply. *)
Definition vault_call {A} (t : vtx A) : run A := λ nd,
  let nd := meantime nd in
  let '(sent, rm) := over (mret tt) (nd_remote nd) in
  let '(r, vw) := t (nd_vaults nd) in
  (match sent with Ok _ => r | Err e => Err e end, MkNode rm (match sent with Ok _ => vw | Err _ => nd_vaults nd end) (nd_others nd)).

(** ** Model options *)

(** [session_model_execution] holds sealed contents; [model_secret] is what they
    open to. *)
Definition GetSessionModelExecution (tenant session : N) : tx bool :=
  query (λ d, existsb (λ s, (s_id s =?s session) && (s_tenant s =?s tenant)) (sessions d)
              && existsb (λ id, id =?s session) (model_executions d)).

Definition SessionModelExecution (tenantID sessionID : string) : tx ModelProviderInput :=
  tenant ← of_result (parseID tenantID);
  session ← of_result (parseID sessionID);
  found ← GetSessionModelExecution tenant session;
  _ ← require found (ErrOther "session model execution configuration is unavailable");
  match model_secret tenantID sessionID with
  | None => throw (ErrOther "session model execution decryption is unavailable")
  | Some raw =>
      match dec_model_provider (MkModelProvider "" "" "" 0 0) raw with
      | None => throw (ErrOther "invalid stored model execution configuration")
      | Some provider => _ ← require (validate_provider provider) (ErrOther "invalid model provider"); mret provider
      end
  end.

(** The options of each harness. *)
Definition provider_options (engine model : string) (p : ModelProviderInput) : result (gmap string json) :=
  let endpoint := [("base_url", JStr (mp_base_url p)); ("bearer_token", JStr (mp_api_key p))] in
  if engine =?s "codex" then Ok {["codex_provider" := JObj (endpoint ++ [("wire_api", JStr "responses")])]}
  else if engine =?s "claude_sdk" then Ok {["claude_provider" := JObj endpoint]}
  else if engine =?s "mcode" then Ok {["mcode_provider" := JObj [
    ("name", JStr "Configured provider"); ("kind", JStr "custom"); ("enabled", JBool true); ("npm", JStr "@ai-sdk/anthropic");
    ("options", JObj [("baseURL", JStr (mp_base_url p)); ("apiKey", JStr (mp_api_key p))]);
    ("models", JObj [(model, JObj [("name", JStr model); ("tool_call", JBool true);
      ("limit", JObj [("context", JNum (pretty (mp_context p))); ("output", JNum (pretty (mp_output p)))])])])]]}
  else Err (ErrOther "unsupported model provider harness").

Definition sessionModelOptions (session : Session) (model : string) : run (gmap string json) :=
  provider ← call (SessionModelExecution (ss_tenant session) (ss_id session));
  _ ← r_require (ValidateHarness provider (ss_engine session)) (ErrOther "invalid model provider harness");
  r_result (provider_options (ss_engine session) model provider).

(** ** The request *)

(** The tokens of the servers that have a credential. *)
Fixpoint attach_tokens (tenantID : string) (vaults : list string) (selected : gmap string MCPCredentialBinding)
    (servers : list MCPHTTPServer) : run (list MCPHTTPServer) :=
  match servers with
  | [] => mret []
  | server :: servers' =>
      server ← (match selected !! sv_label server with
                | None => mret server
                | Some binding =>
                    token ← vault_call (MCPBearerToken ciphered tenantID vaults binding);
                    mret (MkServer (sv_label server) (sv_url server) (sv_allowed server) (sv_required server) (Some token))
                end : run MCPHTTPServer);
      rest ← attach_tokens tenantID vaults selected servers';
      mret (server :: rest)
  end.

Definition request_servers (session : Session) (s : Snapshot) (caps : KindCapabilities) (mcp : list MCPHTTPServer)
  : run (option (list MCPHTTPServer)) :=
  if negb (nonempty mcp) then mret None else
  selected ← r_result (mcpExecutionCredentials engines (ss_engine session) s mcp caps);
  servers ← attach_tokens (ss_tenant session) (default [] (sn_vaults s)) selected mcp;
  mret (Some servers).

Definition request_options (session : Session) (s : Snapshot) : run (gmap string json) :=
  if sn_provider s then sessionModelOptions session (ag_model (sn_agent s)) else
  match extra_options with
  | None => mret ∅
  | Some options => o ← r_result (options session); mret (default ∅ o)
  end.

Definition executionRequest (session : Session) (s : Snapshot) (caps : KindCapabilities) (bound : SessionExecutionBinding)
  : run PromptRequest :=
  let agent := sn_agent s in
  let recovering := eb_started bound && (eb_native bound =?s "") in
  _ ← r_require (negb (recovering && negb (NativeSessionRecovery caps))) (ErrOther "native session recovery is unavailable");
  let '(functions, mcp, err) := executionTools (agent_tools s) in
  _ ← r_result (error_result err);
  options ← request_options session s;
  servers ← request_servers session s caps mcp;
  let instructions := match ag_instructions agent with Some text => JStr text | None => JNull end in
  let verbosity := if tc_verbosity (ag_text agent) =?s "" then "medium" else tc_verbosity (ag_text agent) in
  let multi := ma_enabled (ag_multi agent) in
  mret (MkPrompt (ss_engine session) "" "" "" ""
    (delete "override_system_prompt" (<["system_prompt" := instructions]> (<["model" := JStr (ag_model agent)]> options)))
    (Some ("disabled", verbosity)) servers None None (eb_native bound) false ("agents-api-" +:+ ss_id session) true true recovering
    (MessageItems caps) true multi functions false (negb multi)).

(** ** Run *)

Record claimed := MkClaimed { cl_model : string; cl_request : PromptRequest; cl_through : Z }.

Definition no_outcome : raw_message := RawMessage 0 [] AtEOF.

Definition execution_snapshot (session : Session) : result Snapshot :=
  match unmarshal_snapshot (ss_config session) with
  | None => Err ErrInvalidInput
  | Some s => _ ← reject_if (TrimSpace (ag_model (sn_agent s)) =?s "") ErrInvalidInput; Ok s
  end.

Definition find_device (id : string) : run peer :=
  r_result (match lookup_device id with Some p => Ok p | None => Err (ErrOther "device is not connected") end).

(** [Dispatcher.Run] up to and including the claim. *)
Definition claim (tenantID sessionID turnID : string) : run claimed :=
  session ← call (GetSession tenantID sessionID);
  bound ← call (GetSessionExecutionBinding tenantID sessionID);
  device ← find_device (ed_id (eb_device bound));
  s ← r_result (execution_snapshot session);
  caps ← r_result (engineCapabilities engines device (ss_engine session) s);
  environment ← r_result (resolveExecutionEnvironment s);
  initial ← call (initialInput tenantID sessionID turnID);
  q ← executionRequest session s caps bound;
  _ ← call (TransitionTurn tenantID sessionID turnID "queued" "in_progress" no_outcome);
  mret (MkClaimed (ag_model (sn_agent s)) (with_run q sessionID turnID initial.1 environment.1 environment.2) initial.2).
End dispatch.

Section runs.
Context `{UUIDs, Oracle, EventSizes, URLs, AEAD, Deployment}.
Context (float_text : string → string) (usage_left : Usage → json → Usage) (args_len : Envelope → Z).

(** The names of the functions the engine may call. *)
Definition request_tools (q : PromptRequest) : list string := ft_name <$> rq_functions q.

(** [deliver] and what follows it: the delivery that ends in state [d]. *)
Inductive delivers (tenantID sessionID : string) (session turn : N) (q : PromptRequest) (through : Z) (prepared : option preparedStart)
    (rm : remote) : dstate → string → Prop :=
  | delivers_returned subscribed sendable d status :
      rtc (dstep float_text usage_left args_len leased tenantID sessionID (rq_run q) (request_tools q) session turn)
        (deliver_start subscribed sendable prepared through (rq_identities q) rm) d →
      ds_phase d = Returned status →
      delivers tenantID sessionID session turn q through prepared rm d status.

(** [Dispatcher.Run] on a Turn: what it returns, the store afterwards, and the
    claim and the delivery when there was one. *)
Inductive Run (tenantID sessionID turnID : string) (session turn : N) (nd : node)
  : result Turn → node → option (claimed * dstate) → Prop :=
  | run_refused e nd' :
      claim tenantID sessionID turnID nd = (Err e, nd') → Run tenantID sessionID turnID session turn nd (Err e) nd' None
  | run_delivered c nd' d status r rm :
      claim tenantID sessionID turnID nd = (Ok c, nd') →
      delivers tenantID sessionID session turn (cl_request c) (cl_through c) None (nd_remote nd') d status →
      finishRun float_text tenantID sessionID turnID (cl_model c) (dl_result (ds_delivery d)) status (ds_remote d) = (r, rm) →
      Run tenantID sessionID turnID session turn nd r (MkNode rm (nd_vaults nd') (nd_others nd')) (Some (c, d)).
End runs.
