(* ===== verification/DispatchFacts.v ===== *)
(** * DispatchFacts

    Theorems about Dispatch.v: what a Run claims before it sends anything, that it
    delivers every message of a Turn it completes, and to whom it gives secrets. *)
From stdpp Require Import base tactics list strings numbers relations pretty gmap sorting.
From S2P Require Import Prelude GoJson Contract Items Database Queries EnvQueries SessionLog Turns Environments Reads Configuration Setup Creation.
From S2P Require Import Relations Scenario Frames Lifecycle Calls EventLog TurnLog Inputs Outcomes Journal Delivery DeliveryFacts Steering.
From S2P Require Import Policy PolicyFacts Vaults VaultFacts Dispatch.

(** ** Runs of the monad *)

Lemma run_bind_Ok {A B} (m : run A) (f : A → run B) nd b nd' :
  (m ≫= f) nd = (Ok b, nd') → ∃ a nd1, m nd = (Ok a, nd1) ∧ f a nd1 = (Ok b, nd').
Proof. unfold mbind, run_bind. destruct (m nd) as [[a|e] nd1]; [eauto|done]. Qed.

Lemma r_result_Ok {A} (r : result A) nd a nd' : r_result r nd = (Ok a, nd') → r = Ok a ∧ nd' = nd.
Proof. unfold r_result. naive_solver. Qed.

Lemma r_require_Ok c e nd u nd' : r_require c e nd = (Ok u, nd') → c = true ∧ nd' = nd.
Proof. unfold r_require. destruct c; naive_solver. Qed.

Section facts.
Context `{UUIDs, Oracle, EventSizes, URLs, AEAD, Deployment}.

(** What happened to the store and the vaults between two states of a node. *)
Record later (nd nd' : node) : Prop := {
  lt_steps : steps (rm_world (nd_remote nd)) (rm_world (nd_remote nd'));
  lt_vaults : ∃ l, nd_vaults nd' = vrun ciphered l (nd_vaults nd) }.

#[export] Instance later_preorder : PreOrder later.
Proof.
  split.
  - intros nd. split; [done|]. by exists [].
  - intros a b c [Hs1 [l1 E1]] [Hs2 [l2 E2]]. split; [by etrans|]. exists (l1 ++ l2). rewrite E2, E1. unfold vrun. by rewrite fold_left_app.
Qed.

Lemma serve_other_later nd o : later nd (serve_other nd o).
Proof.
  destruct o as [r|r]; split; cbn; try done.
  - apply rtc_once. constructor.
  - by exists [].
  - by exists [r].
Qed.

Lemma meantime_later nd : later nd (meantime nd).
Proof.
  unfold meantime. destruct (nd_others nd) as [|l ls]; [done|].
  assert (later nd (MkNode (nd_remote nd) (nd_vaults nd) ls)) as Hl by (split; [done|by exists []]). revert Hl.
  generalize (MkNode (nd_remote nd) (nd_vaults nd) ls) as nd1. induction l as [|o l IH]; intros nd1 Hl; [done|].
  cbn. apply IH. etrans; [exact Hl|]. apply serve_other_later.
Qed.

(** A call that succeeds ran in the state the other clients left. *)
Lemma call_Ok {A} (t : tx A) nd a nd' :
  call t nd = (Ok a, nd') → ∃ w, steps (rm_world (nd_remote nd)) w ∧ t w = (Ok a, rm_world (nd_remote nd')) ∧
    ∃ l, nd_vaults nd' = vrun ciphered l (nd_vaults nd).
Proof.
  unfold call. pose proof (meantime_later nd) as [Hs Hv]. destruct (over t (nd_remote (meantime nd))) as [r rm] eqn:Eo. intros [= -> <-]. cbn.
  apply over_run in Eo as [[_ [e ?]]|(r1 & E & Hr)]; [done|]. destruct Hr as [<-|[e ?]]; [|done]. eauto.
Qed.

Lemma call_later {A} (t : tx A) nd a nd' :
  (∀ w, steps w (t w).2) → call t nd = (Ok a, nd') → later nd nd'.
Proof.
  intros Ht Hc. apply call_Ok in Hc as (w & Hs & E & Hv). split; [|done]. etrans; [exact Hs|]. pose proof (Ht w) as Hw. by rewrite E in Hw.
Qed.

(** *** Reads *)

Definition still {A} (m : tx A) : Prop := ∀ w, (m w).2 = w.

Lemma still_bind {A B} (m : tx A) (k : A → tx B) : still m → (∀ a, still (k a)) → still (m ≫= k).
Proof. intros Hm Hk w. unfold mbind, tx_bind. specialize (Hm w). destruct (m w) as [[a|e] w1]; cbn in *; subst; [apply Hk|done]. Qed.

Lemma still_require c e : still (require c e).
Proof. by destruct c. Qed.
End facts.

Create HintDb still.
#[export] Hint Resolve still_require : still.
#[export] Hint Extern 1 (still (of_result _)) => done : still.
#[export] Hint Extern 1 (still (query _)) => done : still.
#[export] Hint Extern 1 (still (mret _)) => done : still.
#[export] Hint Extern 1 (still (throw _)) => done : still.

Ltac still_tac := repeat first [solve [eauto with still] | apply still_bind; [|intros] | case_match].

Section reads.
Context `{UUIDs, Oracle, EventSizes, URLs, AEAD, Deployment}.

Lemma GetSession_still tenantID sessionID : still (GetSession tenantID sessionID).
Proof.
  unfold GetSession, GetSessionQ, sessionActivity, GetSessionEnvironmentQ, environmentInputActivity, GetEnvironmentInputActivity,
    GetLatestSessionTurn, functionActions, ListPendingFunctionCalls, SessionTokenUsage. still_tac.
Qed.

Lemma GetSessionExecutionBinding_still tenantID sessionID : still (GetSessionExecutionBinding tenantID sessionID).
Proof.
  unfold GetSessionExecutionBinding, requireInitializedEnvironment, GetSessionInitializationReady, GetSessionExecutionBindingQ. still_tac.
Qed.

Lemma initialInput_still tenantID sessionID turnID : still (initialInput tenantID sessionID turnID).
Proof.
  unfold initialInput. apply still_bind; [|intros; still_tac]. intros w. apply ListTurnInputs_still.
Qed.

Lemma SessionModelExecution_still tenantID sessionID : still (SessionModelExecution tenantID sessionID).
Proof. unfold SessionModelExecution, GetSessionModelExecution. still_tac. Qed.

Lemma call_still {A} (t : tx A) nd a nd' : still t → call t nd = (Ok a, nd') → later nd nd'.
Proof. intros Ht. apply call_later. intros w. by rewrite Ht. Qed.

Lemma sessionActivity_run session w s w' :
  sessionActivity session w = (Ok s, w') →
  ss_id s = ss_id session ∧ ss_tenant s = ss_tenant session ∧ ss_engine s = ss_engine session ∧ ss_config s = ss_config session.
Proof.
  unfold sessionActivity. intros Hr. apply bind_run in Hr as (env & w1 & _ & Hr). apply bind_run in Hr as (ea & w2 & _ & Hr).
  apply bind_run in Hr as (last & w3 & _ & Hr). destruct last; [|by apply ret_run in Hr as [-> _]].
  apply bind_run in Hr as (actions & w4 & _ & Hr). apply bind_run in Hr as (usage & w5 & _ & Hr). by apply ret_run in Hr as [-> _].
Qed.

Lemma GetSession_run tenantID sessionID w s w' :
  GetSession tenantID sessionID w = (Ok s, w') →
  ∃ tenant id, parseID tenantID = Ok tenant ∧ parseID sessionID = Ok id ∧ ss_tenant s = uuid_string tenant ∧ ss_id s = uuid_string id.
Proof.
  unfold GetSession, GetSessionQ. intros Hr. apply bind_run in Hr as (tenant & w1 & Ht & Hr). apply of_result_run in Ht as [Ht ->].
  apply bind_run in Hr as (id & w1 & Hi & Hr). apply of_result_run in Hi as [Hi ->].
  apply bind_run in Hr as (row & w1 & Hq & Hr). apply query_run in Hq as [Erow ->]. destruct row as [row|]; [|done].
  apply bind_run in Hr as (session & w1 & Hs & Hr). apply of_result_run in Hs as [Hs ->].
  apply sessionActivity_run in Hr as (E1 & E2 & _). exists tenant, id. split_and!; [done..| |].
  all: symmetry in Erow; apply head_Some_elem_of in Erow; apply list_elem_of_In, List.filter_In in Erow as [_ Hrow].
  all: apply andb_true_iff in Hrow as [[Hrt Hri]%andb_true_iff _]; apply bool_decide_eq_true_1 in Hrt, Hri; subst.
  all: unfold sessionFromRow in Hs; repeat (apply bind_Ok in Hs as (? & _ & Hs)); repeat case_match; by simplify_eq.
Qed.
End reads.

(** ** Requests *)

Section requests.
Context `{UUIDs, Oracle, EventSizes, URLs, AEAD, Deployment}.

Lemma vault_call_Ok {A} (t : vtx A) nd a nd' :
  vreads t → vault_call t nd = (Ok a, nd') → later nd nd' ∧ (t (nd_vaults nd')).1 = Ok a.
Proof.
  intros Ht. unfold vault_call. pose proof (meantime_later nd) as Hl. specialize (Ht (nd_vaults (meantime nd))).
  destruct (over (mret tt) (nd_remote (meantime nd))) as [[[]|e] rm] eqn:Eo; cycle 1.
  { destruct (t _). intros [= ?]. }
  destruct (t (nd_vaults (meantime nd))) as [r vw] eqn:Et. cbn in Ht. subst vw. intros [= -> <-]. cbn. rewrite Et.
  split; [|done]. etrans; [exact Hl|]. split; cbn; [|by exists []].
  apply over_run in Eo as [[-> _]|(r1 & E & _)]; [done|]. unfold mret, tx_ret in E. by injection E as _ <-.
Qed.

(** A server as the engine sees it, with the token of its credential at some
    moment between [nd] and [nd']. *)
Definition authorized (tenantID : string) (vaults : list string) (selected : gmap string MCPCredentialBinding) (nd nd' : node)
    (server server' : MCPHTTPServer) : Prop :=
  match selected !! sv_label server with
  | None => server' = server
  | Some binding => ∃ token at_, later nd at_ ∧ later at_ nd' ∧
      (MCPBearerToken ciphered tenantID vaults binding (nd_vaults at_)).1 = Ok token ∧
      server' = MkServer (sv_label server) (sv_url server) (sv_allowed server) (sv_required server) (Some token)
  end.

Lemma authorized_later tenantID vaults selected nd nd1 nd2 nd3 server server' :
  later nd nd1 → later nd2 nd3 → authorized tenantID vaults selected nd1 nd2 server server' →
  authorized tenantID vaults selected nd nd3 server server'.
Proof.
  intros Hb Ha. unfold authorized. case_match; [|done]. intros (token & at_ & ? & ? & ? & ?). exists token, at_.
  split_and!; [by etrans|by etrans|done..].
Qed.

Lemma attach_tokens_Ok tenantID vaults selected servers nd servers' nd' :
  attach_tokens tenantID vaults selected servers nd = (Ok servers', nd') →
  later nd nd' ∧ Forall2 (authorized tenantID vaults selected nd nd') servers servers'.
Proof.
  revert nd servers'. induction servers as [|server servers IH]; intros nd servers' Hr; cbn in Hr.
  { injection Hr as <- <-. split; [done|constructor]. }
  apply run_bind_Ok in Hr as (server' & nd1 & Hone & Hr). apply run_bind_Ok in Hr as (rest & nd2 & Hrest & Hr). injection Hr as <- <-.
  apply IH in Hrest as [Hl2 Hall].
  assert (later nd nd1 ∧ authorized tenantID vaults selected nd nd1 server server') as [Hl1 Ha].
  { unfold authorized. destruct (selected !! sv_label server) as [binding|]; [|by injection Hone as <- <-].
    apply run_bind_Ok in Hone as (token & nd3 & Ht & Hone). injection Hone as <- <-.
    apply vault_call_Ok in Ht as [Hl Ht]; [|apply MCPBearerToken_reads]. split; [done|]. exists token, nd3. by split_and!. }
  split; [by etrans|]. constructor; [eapply authorized_later; [reflexivity|exact Hl2|exact Ha]|].
  eapply Forall2_impl; [exact Hall|]. intros ? ?. by apply authorized_later.
Qed.

Lemma request_options_later session s nd o nd' : request_options session s nd = (Ok o, nd') → later nd nd'.
Proof.
  unfold request_options, sessionModelOptions. intros Hr. destruct (sn_provider s).
  - apply run_bind_Ok in Hr as (p & nd1 & Hc & Hr). apply run_bind_Ok in Hr as ([] & nd2 & Hq & Hr).
    apply r_require_Ok in Hq as [_ ->]. apply r_result_Ok in Hr as [_ ->]. eapply call_still; [|exact Hc]. apply SessionModelExecution_still.
  - destruct extra_options; [|by injection Hr as _ <-]. apply run_bind_Ok in Hr as (x & nd1 & Hc & Hr). apply r_result_Ok in Hc as [_ ->].
    by injection Hr as _ <-.
Qed.

(** The servers of a request are the declared ones; those with a frozen binding
    carry its token. *)
Lemma executionRequest_Ok session s caps bound nd q nd' :
  executionRequest session s caps bound nd = (Ok q, nd') →
  later nd nd' ∧ ∃ functions mcp, executionTools (agent_tools s) = (functions, mcp, None) ∧ rq_functions q = functions ∧
    match rq_servers q with
    | None => mcp = []
    | Some servers => mcp ≠ [] ∧ ∃ selected, mcpCredentialBindings engines (ss_engine session) s = Ok selected ∧
        Forall2 (authorized (ss_tenant session) (default [] (sn_vaults s)) selected nd nd') mcp servers
    end.
Proof.
  unfold executionRequest. intros Hr. apply run_bind_Ok in Hr as ([] & nd1 & Hq & Hr). apply r_require_Ok in Hq as [_ ->].
  destruct (executionTools (agent_tools s)) as [[functions mcp] err] eqn:Et. cbv zeta in Hr.
  apply run_bind_Ok in Hr as ([] & nd1 & Hq & Hr). apply r_result_Ok in Hq as [He ->]. destruct err; [done|].
  apply run_bind_Ok in Hr as (o & nd1 & Ho & Hr). apply request_options_later in Ho.
  apply run_bind_Ok in Hr as (servers & nd2 & Hs & Hr). injection Hr as <- <-. cbn.
  unfold request_servers in Hs. destruct (nonempty mcp) eqn:En; cbn in Hs.
  - apply run_bind_Ok in Hs as (selected & nd3 & Hsel & Hs). apply r_result_Ok in Hsel as [Hsel ->].
    apply run_bind_Ok in Hs as (out & nd3 & Hat & Hs). injection Hs as <- <-.
    apply attach_tokens_Ok in Hat as [Hl Hall]. split; [by etrans|]. exists functions, mcp. split; [done|]. split; [done|].
    split; [by apply nonempty_true|]. exists selected. split; [by apply mcpExecutionCredentials_spec in Hsel as [? _]|].
    eapply Forall2_impl; [exact Hall|]. intros ? ? Ha. eapply authorized_later; [exact Ho|reflexivity|exact Ha].
  - injection Hs as <- <-. split; [done|]. exists functions, mcp. split_and!; [done..|]. by apply nonempty_false.
Qed.
End requests.

(** ** The prompt *)

(** Members of a list in strict order are those up to the last one taken. *)
Lemma filter_upto {A} (key : A → Z) (l k : list A) x :
  StronglySorted (λ a b, key a < key b) (l ++ x :: k) →
  List.filter (λ a, key a <=? key x) (l ++ x :: k) = l ++ [x].
Proof.
  induction l as [|y l IH]; cbn; intros [Hs Hy]%StronglySorted_inv.
  - rewrite Z.leb_refl. f_equal. apply filter_nothing. intros a Ha. rewrite Forall_forall in Hy. apply list_elem_of_In, Hy in Ha. lia.
  - rewrite IH by done. rewrite Forall_forall in Hy. specialize (Hy x). rewrite elem_of_app, elem_of_cons in Hy.
    destruct (key y <=? key x) eqn:E; [done|]. specialize (Hy ltac:(auto)). lia.
Qed.

Lemma filter_sorted {A} (R : A → A → Prop) (f : A → bool) l : StronglySorted R l → StronglySorted R (List.filter f l).
Proof.
  induction 1 as [|x l Hl IH Hx]; cbn; [constructor|]. destruct (f x); [|done]. constructor; [done|].
  rewrite Forall_forall in *. intros y Hy%list_elem_of_In. apply List.filter_In in Hy as [Hy _]. apply Hx. by apply list_elem_of_In.
Qed.

Lemma filter_filter_and {A} (f g : A → bool) l : List.filter f (List.filter g l) = List.filter (λ x, g x && f x) l.
Proof. induction l as [|x l IH]; [done|]. cbn. destruct (g x); cbn; [destruct (f x)|]; by rewrite ?IH. Qed.

Lemma sorted_keys {A} (key : A → Z) l : StronglySorted Z.lt (key <$> l) → StronglySorted (λ a b, key a < key b) l.
Proof.
  induction l as [|x l IH]; [constructor|]. cbn. intros [Hs Hx]%StronglySorted_inv. constructor; [auto|]. by rewrite Forall_fmap in Hx.
Qed.

Section prompts.
Context `{UUIDs, Oracle, EventSizes, URLs, AEAD, Deployment}.

(** The text of an input of the first prompt. *)
Definition opens (kind : string) (payload : json) (text : string) : Prop := kind = "message" ∧ messageText payload = Ok text.

Lemma initial_texts_Ok size texts through inputs texts' through' :
  initial_texts size texts through inputs = Ok (texts', through') →
  ∃ taken rest new, inputs = taken ++ rest ∧ texts' = texts ++ new ∧
    Forall2 (λ input text, opens (ti_kind input) (ti_payload input) text) taken new ∧
    through' = default through (ti_sequence <$> last taken).
Proof.
  revert size texts through. induction inputs as [|input inputs IH]; intros size texts through Hr; cbn in Hr.
  { simplify_eq. exists [], [], []. split_and!; [done|by rewrite app_nil_r|constructor|done]. }
  apply bind_Ok in Hr as ([] & Hk & Hr). apply bind_Ok in Hr as (text & Ht & Hr).
  destruct (_ && _). { simplify_eq. exists [], (input :: inputs), []. split_and!; [done|by rewrite app_nil_r|constructor|done]. }
  apply IH in Hr as (taken & rest & new & -> & -> & Hall & ->). exists (input :: taken), rest, (text :: new).
  split_and!; [done|by rewrite <- app_assoc| |].
  - constructor; [|done]. split; [|done]. unfold reject_if in Hk. destruct (_ =?s _) eqn:E; [|done]. by apply bool_decide_eq_true_1 in E.
  - rewrite last_cons. by destruct (last taken).
Qed.

(** The inputs of a Turn up to a number, in order. *)
Definition inputs_through (session turn : N) (through : Z) (w : world) : list input_row :=
  List.filter (λ i, (in_session i =?s session) && (in_turn i =?s Some turn) && (in_seq i <=? through)) (turn_inputs (w_db w)).

(** The prompt is made of the Turn's first messages, all of them up to some number. *)
Lemma initialInput_Ok tenantID sessionID turnID w prompt through w' session turn :
  inputs_wf w → parseID sessionID = Ok session → parseID turnID = Ok turn →
  initialInput tenantID sessionID turnID w = (Ok (prompt, through), w') →
  ∃ texts, prompt = String.concat paragraph_break texts ∧ reached w through ∧
    Forall2 (λ i text, opens (in_kind i) (in_payload i) text) (inputs_through session turn through w) texts.
Proof.
  intros Hwf Hsession Hturn. unfold initialInput, ListTurnInputs, ListTurnInputsQ. intros Hr.
  apply bind_run in Hr as (inputs & w1 & Hl & Hr). apply bind_run in Hl as (p & w2 & Hq & Hl). apply of_result_run in Hq as [Hp ->].
  destruct (turnLookup_run _ _ _ _ Hp) as (_ & Es & Et). rewrite Hsession in Es. rewrite Hturn in Et. injection Es as Es. injection Et as Et.
  rewrite <- Es, <- Et in Hl. clear Es Et. apply bind_run in Hl as ([] & w2 & Hq & Hl). apply require_run in Hq as [_ ->].
  apply bind_run in Hl as (t & w2 & Hg & Hl). pose proof (GetTurn_still tenantID sessionID turnID w) as Ew. rewrite Hg in Ew. cbn in Ew. subst w2.
  apply bind_run in Hl as (rows & w2 & Hq & Hl). apply query_run in Hq as [Erows ->]. apply ret_run in Hl as [-> ->].
  apply bind_run in Hr as ([texts thr] & w1 & Hq & Hr). apply of_result_run in Hq as [Hq ->].
  apply bind_run in Hr as ([] & w1 & Hne & Hr). apply require_run in Hne as [Hne ->]. apply ret_run in Hr as [[= -> ->] _]. cbn in Hne.
  apply initial_texts_Ok in Hq as (taken & rest & new & Esplit & -> & Hall & ->). exists new. split; [done|].
  set (mine := List.filter (λ i, (in_session i =?s session) && (in_turn i =?s Some turn) && (0 <? in_seq i)) (turn_inputs (w_db w))) in *.
  assert (StronglySorted (λ a b, in_seq a < in_seq b) mine) as Hsort by (apply filter_sorted, sorted_keys; apply Hwf).
  assert (∃ more, mine = rows ++ more ∨ rows = []) as [more [Emine|Enil]].
  { destruct (tenant_session _ _ _); [|exists []; by right]. rewrite sort_by_id in Erows.
    - exists (drop (Z.to_nat 100) mine). left. by rewrite Erows, take_drop.
    - clear -Hsort. induction Hsort as [|x l _ IH Hx]; constructor; [done|]. eapply Forall_impl; [exact Hx|]. cbn. lia. }
  2: { rewrite Enil in Esplit. destruct taken; [|done]. apply Forall2_nil_inv_l in Hall as ->. done. }
  apply List.map_eq_app in Esplit as (rows1 & rows2 & -> & <- & _). rewrite <- app_assoc in Emine.
  destruct rows1 as [|i first _] using rev_ind; [apply Forall2_nil_inv_l in Hall as ->; done|].
  rewrite List.map_app in *. cbn [List.map] in *. rewrite last_snoc. cbn -[inputs_through].
  assert (inputs_through session turn (in_seq i) w = first ++ [i]) as ->.
  { rewrite <- app_assoc in Emine. cbn in Emine. rewrite Emine in Hsort.
    rewrite <- (filter_upto in_seq first (rows2 ++ more) i Hsort), <- Emine. unfold inputs_through, mine. rewrite filter_filter_and.
    apply List.filter_ext_in. intros j Hj. pose proof (iw_drawn _ (iw_seq _ Hwf)) as Hpos. rewrite Forall_forall in Hpos.
    apply list_elem_of_In, Hpos in Hj. rewrite (proj2 (Z.ltb_lt 0 (in_seq j))) by lia. by rewrite andb_true_r. }
  split.
  - exists i. split; [|lia]. assert (i ∈ mine) as Hi by (rewrite Emine, !elem_of_app; set_solver).
    apply list_elem_of_In, List.filter_In in Hi. tauto.
  - apply Forall2_app_inv_l in Hall as (t1 & t2 & Hfirst & Hone & ->). apply Forall2_app; [exact (proj1 (Forall2_fmap_l _ _ _ _) Hfirst)|].
    apply Forall2_cons_inv_l in Hone as (y & l & Hy & Hl & ->). apply Forall2_nil_inv_l in Hl as ->. constructor; [exact Hy|constructor].
Qed.
End prompts.

(** ** Claims *)

Section claims.
Context `{UUIDs, Oracle, EventSizes, URLs, AEAD, Deployment}.

Lemma TransitionTurn_steps tenantID sessionID turnID expected status outcome w :
  steps w (TransitionTurn tenantID sessionID turnID expected status outcome w).2.
Proof.
  pose proof (step_serve w (ReqTransitionTurn tenantID sessionID turnID expected status outcome)) as Hs.
  apply rtc_once. cbn [serve] in Hs. unfold ignore, mbind, tx_bind in Hs. by destruct (TransitionTurn _ _ _ _ _ _ w) as [[]].
Qed.

(** What [Dispatcher.Run] read, and in which order, before it claimed the Turn. *)
Record claim_run (tenantID sessionID turnID : string) (nd : node) (c : claimed) (nd' : node)
    (session : Session) (s : Snapshot) (read request : node) : Prop := {
  cr_reads : later nd read;
  cr_request : later read request;
  cr_after : later request nd';
  cr_tenant : ∃ tenant, parseID tenantID = Ok tenant ∧ ss_tenant session = uuid_string tenant;
  cr_session : ∃ w, steps (rm_world (nd_remote nd)) w ∧ GetSession tenantID sessionID w = (Ok session, w);
  cr_snapshot : execution_snapshot session = Ok s;
  cr_initial : initialInput tenantID sessionID turnID (rm_world (nd_remote read))
    = (Ok (rq_prompt (cl_request c), cl_through c), rm_world (nd_remote read));
  cr_built : ∃ caps bound q, executionRequest session s caps bound read = (Ok q, request) ∧
    rq_servers (cl_request c) = rq_servers q ∧ rq_functions (cl_request c) = rq_functions q ∧ rq_run (cl_request c) = turnID;
  cr_transition : ∃ w t, steps (rm_world (nd_remote request)) w ∧
    TransitionTurn tenantID sessionID turnID "queued" "in_progress" no_outcome w = (Ok t, rm_world (nd_remote nd')) }.

Lemma claim_Ok tenantID sessionID turnID nd c nd' :
  claim tenantID sessionID turnID nd = (Ok c, nd') →
  ∃ session s read request, claim_run tenantID sessionID turnID nd c nd' session s read request.
Proof.
  unfold claim. intros Hr. apply run_bind_Ok in Hr as (session & n1 & Hs & Hr).
  pose proof (call_still _ _ _ _ (GetSession_still _ _) Hs) as L1. apply call_Ok in Hs as (w1 & Hw1 & Hs & _).
  pose proof (GetSession_still tenantID sessionID w1) as E1. rewrite Hs in E1. cbn in E1. rewrite E1 in Hs.
  pose proof Hs as Hs'. apply GetSession_run in Hs' as (tenant & id & Ht & _ & Hst & _).
  apply run_bind_Ok in Hr as (bound & n2 & Hb & Hr). pose proof (call_still _ _ _ _ (GetSessionExecutionBinding_still _ _) Hb) as L2.
  apply run_bind_Ok in Hr as (device & n3 & Hd & Hr). apply r_result_Ok in Hd as [_ ->].
  apply run_bind_Ok in Hr as (s & n3 & Hsn & Hr). apply r_result_Ok in Hsn as [Hsn ->].
  apply run_bind_Ok in Hr as (caps & n3 & Hd & Hr). apply r_result_Ok in Hd as [_ ->].
  apply run_bind_Ok in Hr as (environment & n3 & Hd & Hr). apply r_result_Ok in Hd as [_ ->].
  apply run_bind_Ok in Hr as ([prompt through] & n3 & Hi & Hr). pose proof (call_still _ _ _ _ (initialInput_still _ _ _) Hi) as L3.
  apply call_Ok in Hi as (w3 & _ & Hi & _). pose proof (initialInput_still tenantID sessionID turnID w3) as E3.
  rewrite Hi in E3. cbn in E3. subst w3.
  apply run_bind_Ok in Hr as (q & n4 & Hq & Hr). pose proof (executionRequest_Ok _ _ _ _ _ _ _ Hq) as [L4 _].
  apply run_bind_Ok in Hr as (t & n5 & Htr & Hr). injection Hr as <- <-.
  pose proof (call_later _ _ _ _ (TransitionTurn_steps _ _ _ _ _ _) Htr) as L5. apply call_Ok in Htr as (w5 & Hw5 & Htr & _).
  exists session, s, n3, n4. split; cbn; eauto 10. by do 2 (etrans; [eassumption|]).
Qed.

(** ** Tokens *)

Lemma bearer_token_any tenantID vaults b w token :
  (MCPBearerToken ciphered tenantID vaults b w).1 = Ok token → (MCPBearerToken true tenantID vaults b w).1 = Ok token.
Proof.
  destruct ciphered; [done|]. unfold MCPBearerToken, GetMCPStaticCredentialCiphertext, mbind, vtx_bind, v_result, v_require, v_query, v_one, v_throw.
  repeat case_match; naive_solver.
Qed.
End claims.

Section tokens.
Context `{UUIDs, !UUIDLaws, Oracle, EventSizes, URLs, AEAD, !AEADLaws, Deployment}.

Lemma later_vaults_wf nd nd' : later nd nd' → vaults_wf (nd_vaults nd) → vaults_wf (nd_vaults nd').
Proof. intros [_ [l ->]]. apply vrun_wf. Qed.

(** Where a Run's tokens go: every server of its request is one the snapshot
    declares, and one that carries a token gets the secret that some credential of
    the tenant, in a vault attached to the Session, held for exactly that URL, an
    https one, while the request was built. *)
Definition entitled (tenant : N) (s : Snapshot) (nd nd' : node) (server : MCPHTTPServer) (token : string) : Prop :=
  ∃ vaults vault id endpoint at_, attachedVaultIDs (default [] (sn_vaults s)) = Ok vaults ∧ vault ∈ vaults ∧
    url_parse (sv_url server) = Some endpoint ∧ url_scheme endpoint = "https" ∧
    later nd at_ ∧ later at_ nd' ∧ stored_secret (nd_vaults at_) tenant vault id (sv_url server) token.

Lemma authorized_entitled tenantID tenant s tools attached selected nd nd' server server' token :
  vaults_wf (nd_vaults nd) → parseID tenantID = Ok tenant → frozen_decision s tools attached selected →
  (∃ tool, tools !! sv_label server = Some tool ∧ declares tool server) → sv_token server = None →
  authorized tenantID (default [] (sn_vaults s)) selected nd nd' server server' → sv_token server' = Some token →
  entitled tenant s nd nd' server' token.
Proof.
  intros Hwf Ht Hd (tool & Htool & _ & Hurl & _) Hnone. unfold authorized.
  destruct (selected !! sv_label server) as [b|] eqn:Eb; [|by intros ->; rewrite Hnone].
  intros (token' & at_ & L1 & L2 & Htok%bearer_token_any & ->) [= ->].
  apply MCPBearerToken_spec in Htok as (tenant' & vaults & vault & id & Ht' & Hv & Hin & _ & _ & _ & _ & Hs); [|by eapply later_vaults_wf].
  rewrite Ht in Ht'. injection Ht' as <-.
  apply (fd_selected _ _ _ _ Hd) in Eb as (Hb & Hl & Ha). pose proof (fd_allowed _ _ _ _ Hd) as Hall. rewrite Forall_forall in Hall.
  destruct (Hall b Hb) as (tool' & Htool' & Hurl' & Hau). rewrite Ha in Hau. rewrite Hl, Htool in Htool'. injection Htool' as <-.
  destruct Hau as (_ & _ & endpoint & _ & _ & _ & _ & Hp & Hsch & _). rewrite <- Hurl', Hurl in Hp, Hs.
  by exists vaults, vault, id, endpoint, at_.
Qed.

(** C5. Tokens stay with their server: every server in the request of a claimed Turn
    that carries a token gets the secret a credential of the caller's tenant, in a
    vault attached to the Session, held for exactly that server's https URL, no
    matter what other clients do to vaults and credentials in the meantime. *)
Theorem tokens_stay_with_their_server tenantID sessionID turnID nd c nd' tenant :
  vaults_wf (nd_vaults nd) → parseID tenantID = Ok tenant → claim tenantID sessionID turnID nd = (Ok c, nd') →
  ∃ session s w, steps (rm_world (nd_remote nd)) w ∧ GetSession tenantID sessionID w = (Ok session, w) ∧
    unmarshal_snapshot (ss_config session) = Some s ∧
    ∀ server token, server ∈ default [] (rq_servers (cl_request c)) → sv_token server = Some token →
      entitled tenant s nd nd' server token.
Proof.
  intros Hwf Ht Hc. apply claim_Ok in Hc as (session & s & read & request & [L1 L2 L3 (tenant' & Ht' & Est) (w & Hw & Hg) Hs _ Hq _]).
  rewrite Ht in Ht'. injection Ht' as <-. destruct Hq as (caps & bound & q & Hq & -> & _).
  exists session, s, w. split_and!; [done..| |].
  { unfold execution_snapshot in Hs. destruct (unmarshal_snapshot _); [|done]. apply bind_Ok in Hs as (_ & _ & [= ->]). done. }
  intros server token Hin Htok. apply executionRequest_Ok in Hq as (_ & functions & mcp & Hx & _ & Hq).
  destruct (rq_servers q) as [servers|]; [|by apply not_elem_of_nil in Hin]. destruct Hq as (_ & selected & Hsel & Hall). cbn in Hin.
  apply list_elem_of_lookup_1 in Hin as [k Hk]. destruct (Forall2_lookup_r _ _ _ _ _ Hall Hk) as (declared & Hdk & Ha).
  unfold mcpCredentialBindings in Hsel. apply bind_Ok in Hsel as (sel & Hsel & Hb). apply bind_Ok in Hb as (_ & _ & [= ->]).
  apply selectedMCPCredentials_spec in Hsel as (tools & attached & Hd).
  assert (declared ∈ mcp) as Hdin by (by eapply list_elem_of_lookup_2).
  unfold executionTools in Hx. destruct (scan_tools [] (agent_tools s)) as [[fs svs]|] eqn:Escan; [|done].
  assert (svs = mcp) as -> by (by destruct (functionTools fs); simplify_eq).
  destruct (scan_collect _ _ _ _ _ _ Escan (fd_declared _ _ _ _ Hd)) as (_ & Hsv & _). destruct (Hsv _ Hdin) as (_ & Hnone & _ & Htool).
  eapply (authorized_entitled (ss_tenant session)); [exact Hwf| |exact Hd|exact Htool|exact Hnone| |exact Htok].
  - rewrite Est. apply parseID_text. unfold parseID in Ht. destruct (uuid_parse tenantID); [|done].
    destruct (_ =?s 0%N) eqn:E; [done|]. injection Ht as ->. by apply bool_decide_eq_false_1 in E.
  - eapply authorized_later; [exact L1|exact L3|exact Ha].
Qed.
End tokens.

(** ** Completed Runs *)

Section completion.
Context `{UUIDs, Oracle, EventSizes, URLs, AEAD, Deployment}.
Context (float_text : string → string) (usage_left : Usage → json → Usage) (args_len : Envelope → Z).
Context (tenantID sessionID turnID : string) (session turn : N).
Hypothesis Hsession : parseID sessionID = Ok session.
Hypothesis Hturn : parseID turnID = Ok turn.

Abbreviation Run := (Run float_text usage_left args_len tenantID sessionID turnID session turn).

Lemma inputs_through_steps n w w' :
  inputs_wf w → steps w w' → reached w n → inputs_through session turn n w' = inputs_through session turn n w.
Proof.
  intros Hwf Hs (j & Hj & Hn). destruct (steps_inputs _ _ Hs) as [[new E] _ Hwf' _]. specialize (Hwf' Hwf).
  pose proof (iw_sorted _ (iw_seq _ Hwf')) as Hsort. rewrite E, fmap_app in Hsort.
  unfold inputs_through. rewrite E, List.filter_app. rewrite (filter_nothing _ new); [apply app_nil_r|].
  intros i Hi. assert (in_seq j < in_seq i).
    { eapply sorted_app_lt; [exact Hsort|by apply list_elem_of_fmap_2, list_elem_of_In..]. }
    rewrite (proj2 (Z.leb_gt _ _)) by lia. apply andb_false_r.
Qed.

Lemma delivers_steps q through prepared rm d status :
  good_remote rm → delivers float_text usage_left args_len tenantID sessionID session turn q through prepared rm d status →
  steps (rm_world rm) (rm_world (ds_remote d)).
Proof.
  intros Hg [subscribed sendable d1 status1 Hr _].
  assert (∀ s s', rtc (dstep float_text usage_left args_len leased tenantID sessionID (rq_run q) (request_tools q) session turn) s s' →
    good_remote (ds_remote s) → steps (rm_world (ds_remote s)) (rm_world (ds_remote s'))) as Hall.
  { intros s s' Hs. induction Hs as [|s1 s2 s3 H12 _ IH]; intros Hg1; [done|]. pose proof (dstep_steps _ _ _ _ _ _ _ _ _ _ _ _ H12 Hg1) as H12s.
    etrans; [exact H12s|]. apply IH. by eapply good_steps. }
  apply Hall in Hr; revert Hr; unfold deliver_start; by destruct subscribed, sendable.
Qed.

(** C3. A Run that completes its Turn has given the engine every message of it: those
    up to some number are the paragraphs of the prompt, in order, and each later
    one, also one admitted while the engine was working, was acknowledged by the
    device as accepted. *)
Theorem completed_runs_deliver_everything nd t nd' c d :
  good_remote (nd_remote nd) → turns_wf (w_db (rm_world (nd_remote nd))) → inputs_wf (rm_world (nd_remote nd)) →
  Run nd (Ok t) nd' (Some (c, d)) → tn_status t = "completed" →
  ∃ texts, rq_prompt (cl_request c) = String.concat paragraph_break texts ∧
    Forall2 (λ i text, opens (in_kind i) (in_payload i) text)
      (inputs_through session turn (cl_through c) (rm_world (nd_remote nd'))) texts ∧
    ∀ i, In i (turn_inputs (w_db (rm_world (nd_remote nd')))) → of_turn session turn i → in_kind i = "message" →
      cl_through c < in_seq i → accepted_in (ds_seen d) (in_seq i).
Proof using Hsession Hturn.
  intros Hg Htw Hiw Hr Ht. inversion Hr as [|c' nd1 d' status r rm Hc Hd Hf]; subst. clear Hr. cbn.
  apply claim_Ok in Hc as (ses & s & read & request & [L1 L2 L3 _ _ _ Hi (caps & bound & q & _ & _ & _ & Erun) _]).
  assert (steps (rm_world (nd_remote read)) (rm_world (nd_remote nd1))) as S1 by (etrans; [apply L2|apply L3]).
  assert (steps (rm_world (nd_remote nd)) (rm_world (nd_remote nd1))) as S0 by (etrans; [apply L1|exact S1]).
  pose proof (ia_wf _ _ (steps_inputs _ _ (lt_steps _ _ L1)) Hiw) as Hiw1.
  destruct (initialInput_Ok _ _ _ _ _ _ _ _ _ Hiw1 Hsession Hturn Hi) as (texts & Ep & Hre & Hall).
  assert (good_remote (nd_remote nd1)) as Hg1 by (by eapply good_steps).
  pose proof (delivers_steps _ _ _ _ _ _ Hg1 Hd) as S2. pose proof (steps_turns_wf _ _ S0 Htw) as Htw1.
  destruct (finishRun_completed _ _ _ _ _ _ Hsession Hturn _ _ _ _ _ _ (steps_turns_wf _ _ S2 Htw1) Hf Ht) as (_ & Ei & _).
  exists texts. split; [done|]. split.
  - unfold inputs_through. rewrite Ei. change (List.filter _ _) with (inputs_through session turn (cl_through c) (rm_world (ds_remote d))).
    rewrite (inputs_through_steps (cl_through c) (rm_world (nd_remote read))); [done|done|by etrans|done].
  - intros i Hin Hti Hk Hlt. destruct Hd as [subscribed sendable d status Hd Hph]. rewrite Erun in Hd.
    destruct (completed_messages_acknowledged _ _ _ _ _ _ _ _ _ _ Hsession Hturn _ _ _ _ _ _ _ _ _ _ _ Hg1 Htw1
      (ia_wf _ _ (steps_inputs _ _ S1) Hiw1) (reached_steps _ _ _ S1 Hre) Hd Hph Hf Ht i Hin Hti Hk); [lia|done].
Qed.
End completion.

(** ** Witnesses *)

#[local] Existing Instance PlainAEAD.plain_aead.
#[local] Existing Instance PlainAEAD.plain_laws.
#[local] Existing Instance PolicyExample.urls.

(** The Session of PolicyFacts.v with the vault of VaultFacts.v.  A second message
    is admitted while the token is fetched, so it is not part of the prompt. *)
Module DispatchExample.
Definition binding_json : json := JObj [("server_label", JStr "docs"); ("server_url", JStr VaultExample.url);
  ("vault_id", JStr VaultExample.vault_id); ("credential_id", JStr (cd_id VaultExample.credential)); ("auth_type", JStr "static_bearer")].

Definition configuration : json := JObj [
  ("agent", JObj [("model", JStr "gpt"); ("tools", JArr [PolicyExample.mcp_tool; PolicyExample.function_tool])]);
  ("environment", JObj [("type", JStr "none")]);
  ("vault_ids", JArr [JStr VaultExample.vault_id]); ("mcp_credentials", JArr [binding_json])].

Definition base_db : db :=
  with_session_devices
    (with_devices (with_sessions empty_db [MkSession 2%N 1%N "codex" (JObj []) "create" "" 900 configuration 0 None None None])
      [MkDevice 7%N 1%N "laptop" "" 900 None None None])
    [Database.MkBinding 2%N 7%N ""].

Definition base_world : world := MkWorld base_db 0 0 0.
Definition queued : world := Scenario.run [req_message "k1" "hello"] base_world.

#[local] Instance deployment : Deployment := {|
  engines := None; ciphered := true; leased := false;
  lookup_device id := if id =?s uuid_string 7%N then Some PolicyExample.device else None;
  extra_options := None; environment_connection := None; model_secret _ _ := None |}.

Definition start : node :=
  MkNode (MkRemote queued []) VaultExample.created.2 [[]; []; []; [OStore (req_message "k2" "more"); OVault (VCreateVault tenant_id None [])]].

Definition attempt : result claimed * node := claim tenant_id session_id turn_id start.
Definition claimed : Dispatch.claimed :=
  match attempt.1 with Ok c => c | Err _ => MkClaimed "" (MkPrompt "" "" "" "" "" ∅ None None None None "" false "" false false false false false false [] false false) 0 end.

(** The message is sent, refused, sent again and accepted, and the Turn completes. *)
Definition delivered : dstate :=
  dexec no_float no_usage no_args leased tenant_id session_id (rq_run (cl_request claimed)) (request_tools (cl_request claimed))
    (deliver_start true true None (cl_through claimed) (rq_identities (cl_request claimed)) (nd_remote attempt.2)) steered_events.
Definition finished : result Turn * remote :=
  finishRun no_float tenant_id session_id turn_id (cl_model claimed) (dl_result (ds_delivery delivered)) "completed" (ds_remote delivered).
Definition final : node := MkNode finished.2 (nd_vaults attempt.2) (nd_others attempt.2).
End DispatchExample.
#[local] Existing Instance DispatchExample.deployment.

Lemma example_claimed : claim tenant_id session_id turn_id DispatchExample.start = (Ok DispatchExample.claimed, DispatchExample.attempt.2).
Proof. vm_compute. reflexivity. Qed.

Lemma example_queued : steps DispatchExample.base_world DispatchExample.queued.
Proof. apply run_steps. Qed.

Lemma example_finished :
  finishRun no_float tenant_id session_id turn_id (cl_model DispatchExample.claimed) (dl_result (ds_delivery DispatchExample.delivered)) "completed"
    (ds_remote DispatchExample.delivered) = (Ok (turn_of DispatchExample.finished.1), DispatchExample.finished.2).
Proof. vm_compute. reflexivity. Qed.

Lemma example_run :
  Run no_float no_usage no_args tenant_id session_id turn_id 2 100 DispatchExample.start
    (Ok (turn_of DispatchExample.finished.1)) DispatchExample.final (Some (DispatchExample.claimed, DispatchExample.delivered)).
Proof.
  unfold DispatchExample.final. refine (run_delivered no_float no_usage no_args tenant_id session_id turn_id 2 100 DispatchExample.start
    DispatchExample.claimed DispatchExample.attempt.2 DispatchExample.delivered "completed" (Ok (turn_of DispatchExample.finished.1))
    DispatchExample.finished.2 example_claimed _ example_finished).
  refine (delivers_returned _ _ _ _ _ _ _ _ _ _ _ true true DispatchExample.delivered "completed" _ _); [|vm_compute; reflexivity].
  exact (dexec_steps no_float no_usage no_args leased tenant_id session_id (rq_run (cl_request DispatchExample.claimed))
    (request_tools (cl_request DispatchExample.claimed)) 2 100
    (deliver_start true true None (cl_through DispatchExample.claimed) (rq_identities (cl_request DispatchExample.claimed))
      (nd_remote DispatchExample.attempt.2)) steered_events).
Qed.

Lemma completed_runs_deliver_everything_witness :
  in_seq <$> turn_inputs (w_db (rm_world (nd_remote DispatchExample.final))) = [1; 2] ∧
  ∃ texts, rq_prompt (cl_request DispatchExample.claimed) = String.concat paragraph_break texts ∧
    Forall2 (λ i text, opens (in_kind i) (in_payload i) text)
      (inputs_through 2 100 (cl_through DispatchExample.claimed) (rm_world (nd_remote DispatchExample.final))) texts ∧
    ∀ i, In i (turn_inputs (w_db (rm_world (nd_remote DispatchExample.final)))) → of_turn 2 100 i → in_kind i = "message" →
      cl_through DispatchExample.claimed < in_seq i → accepted_in (ds_seen DispatchExample.delivered) (in_seq i).
Proof.
  split; [vm_compute; reflexivity|].
  apply (@completed_runs_deliver_everything binary_uuids demo_oracle demo_sizes PolicyExample.urls PlainAEAD.plain_aead DispatchExample.deployment
    no_float no_usage no_args tenant_id session_id turn_id 2 100 eq_refl eq_refl DispatchExample.start (turn_of DispatchExample.finished.1)).
  - refine (proj2 (steps_events _ _ example_queued) _). by split; [apply NoDup_nil_2|..].
  - refine (steps_turns_wf _ _ example_queued _). by split; cbn; [apply NoDup_nil|lia|].
  - refine (ia_wf _ _ (steps_inputs _ _ example_queued) _). split; [split; [constructor..|done]|done].
  - exact example_run.
  - vm_compute. reflexivity.
Defined.

Lemma tokens_stay_with_their_server_witness :
  sv_token <$> default [] (rq_servers (cl_request DispatchExample.claimed)) = [Some "secret"] ∧
  ∃ session s w, steps (rm_world (nd_remote DispatchExample.start)) w ∧ GetSession tenant_id session_id w = (Ok session, w) ∧
    unmarshal_snapshot (ss_config session) = Some s ∧
    ∀ server token, server ∈ default [] (rq_servers (cl_request DispatchExample.claimed)) → sv_token server = Some token →
      entitled 1 s DispatchExample.start DispatchExample.attempt.2 server token.
Proof.
  split; [vm_compute; reflexivity|].
  apply (tokens_stay_with_their_server tenant_id session_id turn_id); [exact created_wf|reflexivity|exact example_claimed].
Defined.
