(* ===== verification/Executors.v ===== *)
(** * Executors

    Project scopes and the keys with which executors connect to environments:
    [project_scopes.go], [environment_executor_credentials.go] and
    [executor_credential_target.go] of [services/agents-api/internal/store] with
    [internal/identity], over the statements of [project_scopes.sql] and
    [environment_executor_credentials.sql] and the constraints of their tables.

    Keys are checked against the Sessions and environments of the store, so the
    two tables stand beside a store world.  Random secrets and SHA-256 are the
    parameter [Secrets]. *)
From stdpp Require Import base tactics list strings numbers relations gmap.
From S2P Require Import Prelude GoJson Contract Items Database Queries EnvQueries SessionLog Turns Environments Reads.
From S2P Require Import Relations.

(** ** Identities *)

Record ProjectScope := MkScope { sp_scope_tenant : string; sp_organization : string; sp_project : string }.

#[global] Instance ProjectScope_eq_dec : EqDecision ProjectScope.
Proof. solve_decision. Defined.

Record Principal := MkPrincipal { pc_scope : ProjectScope; pc_kind : string; pc_subject : string }.

Section identity.
Context `{UUIDs}.

Definition scope_ok (s : ProjectScope) : bool :=
  canonical_uuid (sp_scope_tenant s) && validID (sp_organization s) && validID (sp_project s).

(** The two maps of [ProjectScopes]. *)
Fixpoint bind_scopes (by_tenant : gmap string ProjectScope) (by_project : gmap (string * string) string) (scopes : list ProjectScope)
  : option (gmap string ProjectScope) :=
  match scopes with
  | [] => Some by_tenant
  | s :: scopes' =>
      let project := (sp_organization s, sp_project s) in
      if negb (scope_ok s) then None
      else if negb (bool_decide (default s (by_tenant !! sp_scope_tenant s) = s)) then None
      else if negb (default (sp_scope_tenant s) (by_project !! project) =?s sp_scope_tenant s) then None
      else bind_scopes (<[sp_scope_tenant s := s]> by_tenant) (<[project := sp_scope_tenant s]> by_project) scopes'
  end.

(** The valid scopes, once each and in the order of their tenants. *)
Definition ProjectScopes (scopes : list ProjectScope) : option (list ProjectScope) :=
  (λ m : gmap string ProjectScope,
    sort_by (λ a b, String.leb (sp_scope_tenant a) (sp_scope_tenant b)) (snd <$> map_to_list m))
  <$> bind_scopes ∅ ∅ scopes.

Definition principal_ok (p : Principal) : bool :=
  bool_decide (is_Some (ProjectScopes [pc_scope p])) && validSubject (MkSubject (pc_kind p) (pc_subject p)).
End identity.

(** ** State *)

Record scope_row := MkScopeRow { sr_tenant : N; sr_organization : string; sr_project : string }.

(** A key; those issued before principals were recorded have no owner and are
    revoked. *)
Record key_row := MkKey {
  ek_id : N; ek_owner : option (N * string * string); ek_environment : option N; ek_token : string;
  ek_created : option Z; ek_issued : Z; ek_revoked : option Z }.

Record executor_world := MkXWorld {
  xw_store : world; xw_scopes : list scope_row; xw_keys : list key_row; xw_draw : nat }.

Definition etx (A : Type) := executor_world → result A * executor_world.

#[global] Instance etx_ret : MRet etx := λ A a x, (Ok a, x).
#[global] Instance etx_bind : MBind etx := λ A B f m x,
  match m x with (Ok a, x') => f a x' | (Err e, x') => (Err e, x') end.

Definition e_result {A} (r : result A) : etx A := λ x, (r, x).
Definition e_throw {A} (e : error) : etx A := λ x, (Err e, x).
Definition e_query {A} (f : executor_world → A) : etx A := λ x, (Ok (f x), x).

(** A transaction over the store and the keys; one that fails leaves the keys. *)
Definition e_tx {A} (f : list key_row → tx (A * list key_row)) : etx A := λ x,
  match f (xw_keys x) (xw_store x) with
  | (Ok (a, keys), w) => (Ok a, MkXWorld w (xw_scopes x) keys (xw_draw x))
  | (Err e, w) => (Err e, MkXWorld w (xw_scopes x) (xw_keys x) (xw_draw x))
  end.

(** A store operation that leaves the keys alone. *)
Definition e_store {A} (m : tx A) : etx A := e_tx (λ keys, a ← m; mret (a, keys)).

(** What [rand.Read] and [base64] make of the n-th secret, if it can be read, and
    [hex] of SHA-256. *)
Class Secrets := { secret : nat → option string; token_sha256 : string → string }.

(** ** Statements *)

Section executors.
Context `{UUIDs, Oracle, EventSizes, Secrets}.

Definition scope_is (tenant : N) (organization project : string) (s : scope_row) : bool :=
  (sr_tenant s =?s tenant) && (sr_organization s =?s organization) && (sr_project s =?s project).

(** One row of [EnsureProjectScope]; [None] is a conflict, with the tenant's row
    or with another's project. *)
Definition EnsureProjectScopeQ (tenant : N) (organization project : string) (scopes : list scope_row) : option (list scope_row) :=
  match List.find (λ s, sr_tenant s =?s tenant) scopes with
  | Some s => if (sr_organization s =?s organization) && (sr_project s =?s project) then Some scopes else None
  | None =>
      if existsb (λ s, (sr_organization s =?s organization) && (sr_project s =?s project)) scopes then None
      else Some (scopes ++ [MkScopeRow tenant organization project])
  end.

Definition ExecutorProjectScopeExists (tenant : N) (organization project : string) : etx bool :=
  e_query (λ x, existsb (scope_is tenant organization project) (xw_scopes x)).

Definition created_by (kind subject : string) (s : session_row) : bool := bool_decide (s_creator s = Some (kind, subject)).

(** [token_sha256 ~ '^[0-9a-f]{64}$']. *)
Definition token_check (digest : string) : bool := sha256_digest digest =?s Some digest.

Definition principal_check (kind subject : string) : bool :=
  ((kind =?s "user") || (kind =?s "service_account")) && negb (subject =?s "").

Definition IssueExecutorCredentialQ (scopes : list scope_row) (key tenant : N) (kind subject organization project : string)
    (restriction : option N) (digest : string) (keys : list key_row) : tx (option (N * option N) * list key_row) :=
  now ← clock_timestamp;
  allowed ← query (λ d, existsb (scope_is tenant organization project) scopes
    && match restriction with
       | None => true
       | Some env => existsb (λ es : env_row * session_row, (e_id es.1 =?s env) && (s_tenant es.2 =?s tenant) && live es.2
                       && created_by kind subject es.2) (env_sessions d)
       end);
  if negb allowed then mret (None, keys) else
  _ ← constraint_check "environment_executor_credentials" (λ _, token_check digest && principal_check kind subject);
  if existsb (λ k, ek_id k =?s key) keys then mret (None, keys) else
  _ ← constraint_check "environment_executor_credentials_token_sha256_key" (λ _, negb (existsb (λ k, ek_token k =?s digest) keys));
  mret (Some (key, restriction), keys ++ [MkKey key (Some (tenant, kind, subject)) restriction digest (Some now) now None]).

Definition key_of (key tenant : N) (kind subject : string) (k : key_row) : bool :=
  (ek_id k =?s key) && bool_decide (ek_owner k = Some (tenant, kind, subject)).

Definition GetExecutorCredentialForPrincipal (key tenant : N) (kind subject organization project : string) : etx (option (option N)) :=
  e_query (λ x, ek_environment <$> head (List.filter (λ k, key_of key tenant kind subject k
    && existsb (scope_is tenant organization project) (xw_scopes x)) (xw_keys x))).

Definition rotated (digest : string) (now : Z) (k : key_row) : key_row :=
  MkKey (ek_id k) (ek_owner k) (ek_environment k) digest (ek_created k) now None.

Definition RotateExecutorCredentialQ (key tenant : N) (kind subject digest : string) (keys : list key_row)
  : tx (option (N * option N) * list key_row) :=
  now ← clock_timestamp;
  match List.find (key_of key tenant kind subject) keys with
  | None => mret (None, keys)
  | Some k =>
      _ ← constraint_check "environment_executor_credentials" (λ _, token_check digest);
      _ ← constraint_check "environment_executor_credentials_token_sha256_key" (λ _,
            negb (existsb (λ k', (ek_token k' =?s digest) && negb (ek_id k' =?s key)) keys));
      mret (Some (ek_id k, ek_environment k), List.map (λ k', if key_of key tenant kind subject k' then rotated digest now k' else k') keys)
  end.

Definition revoked (now : Z) (k : key_row) : key_row :=
  MkKey (ek_id k) (ek_owner k) (ek_environment k) (ek_token k) (ek_created k) (ek_issued k) (Some (default now (ek_revoked k))).

Definition RevokeExecutorCredentialQ (key tenant : N) (kind subject : string) (keys : list key_row) : tx (Z * list key_row) :=
  now ← clock_timestamp;
  mret (Z.of_nat (length (List.filter (key_of key tenant kind subject) keys)),
        List.map (λ k, if key_of key tenant kind subject k then revoked now k else k) keys).

(** The row of a key that opens an environment. *)
Definition opens_environment (scopes : list scope_row) (digest : string) (k : key_row) (es : env_row * session_row) : bool :=
  match ek_owner k with
  | None => false
  | Some (tenant, kind, subject) =>
      (ek_token k =?s digest) && bool_decide (ek_revoked k = None) && existsb (λ p, sr_tenant p =?s tenant) scopes
      && (s_tenant es.2 =?s tenant) && created_by kind subject es.2
      && match ek_environment k with None => true | Some env => env =?s e_id es.1 end && live es.2
  end.

Definition AuthenticateEnvironmentExecutorQ (env : N) (digest : string) : etx (option N) :=
  e_query (λ x, head (List.flat_map (λ k, List.map (λ es : env_row * session_row, s_tenant es.2)
    (List.filter (λ es, (e_id es.1 =?s env) && opens_environment (xw_scopes x) digest k es) (env_sessions (w_db (xw_store x))))) (xw_keys x))).

(** ** Project scopes *)

Definition scope_conflict : error := ErrOther "configured project conflicts with a persisted execution scope".

Fixpoint ensure_scopes (scopes : list scope_row) (wanted : list ProjectScope) : result (list scope_row) :=
  match wanted with
  | [] => Ok scopes
  | s :: wanted' =>
      tenant ← parseID (sp_scope_tenant s);
      match EnsureProjectScopeQ tenant (sp_organization s) (sp_project s) scopes with
      | Some scopes' => ensure_scopes scopes' wanted'
      | None => Err scope_conflict
      end
  end.

Definition EnsureProjectScopes (scopes : list ProjectScope) : etx unit := λ x,
  match ProjectScopes scopes with
  | None => (Err (ErrOther "invalid project scopes"), x)
  | Some validated =>
      match ensure_scopes (xw_scopes x) validated with
      | Ok rows => (Ok tt, MkXWorld (xw_store x) rows (xw_keys x) (xw_draw x))
      | Err e => (Err e, x)
      end
  end.

(** ** Keys *)

Record IssuedExecutorCredential := MkIssued { ie_key : string; ie_environment : string; ie_token : string }.

Definition executorCredentialIdentity (p : Principal) (keyID : string) : result (N * N) :=
  _ ← reject_if (negb (principal_ok p)) ErrInvalidInput;
  tenant ← parseID (sp_scope_tenant (pc_scope p));
  id ← parseID keyID;
  Ok (tenant, id).

Definition newExecutorSecret : etx (string * string) := λ x,
  let x' := MkXWorld (xw_store x) (xw_scopes x) (xw_keys x) (S (xw_draw x)) in
  match secret (xw_draw x) with
  | Some token => (Ok (token, token_sha256 token), x')
  | None => (Err (ErrOther "cannot read random bytes"), x')
  end.

Definition issuedExecutorCredential (id : N) (environment : option N) (token : string) : IssuedExecutorCredential :=
  MkIssued (uuid_string id) (match environment with Some e => uuid_string e | None => "" end) token.

Definition withExecutorCredentialTarget {A} (p : Principal) (environment : option N)
    (apply : list key_row → tx (A * list key_row)) : etx A :=
  match environment with
  | None => e_tx (λ keys, begin_func (apply keys))
  | Some env =>
      let tenantID := sp_scope_tenant (pc_scope p) in
      owned ← e_store (GetEnvironment tenantID (uuid_string env));
      let tenant := match parseID tenantID with Ok tenant => tenant | Err _ => 0%N end in
      e_tx (λ keys, withPublicSession tenantID (en_session owned) (λ session,
        row ← one (GetSessionQ tenant session);
        _ ← require (created_by (pc_kind p) (pc_subject p) row) ErrNotFound;
        apply keys))
  end.

(** [pgx.ErrNoRows] of a statement on the keys, as its caller translates it. *)
Definition or_else {A} (e : error) (token : string) (m : tx (option (N * option N) * A)) : tx (IssuedExecutorCredential * A) :=
  r ← m;
  match r.1 with
  | Some (id, environment) => mret (issuedExecutorCredential id environment token, r.2)
  | None => throw e
  end.

Definition key_exists : error := ErrOther "executor key ID already exists; rotate explicitly".

Definition IssueExecutorCredential (p : Principal) (keyID environment : string) : etx IssuedExecutorCredential :=
  ids ← e_result (executorCredentialIdentity p keyID);
  let '(tenant, id) := ids in
  let organization := sp_organization (pc_scope p) in
  let project := sp_project (pc_scope p) in
  found ← ExecutorProjectScopeExists tenant organization project;
  _ ← e_result (reject_if (negb found) ErrNotFound);
  restriction ← e_result (if environment =?s "" then Ok None else env ← parseID environment; Ok (Some env));
  drawn ← newExecutorSecret;
  scopes ← e_query xw_scopes;
  withExecutorCredentialTarget p restriction (λ keys,
    or_else key_exists drawn.1 (IssueExecutorCredentialQ scopes id tenant (pc_kind p) (pc_subject p) organization project restriction drawn.2 keys)).

Definition executorCredentialRestriction (p : Principal) (tenant id : N) : etx (option N) :=
  row ← GetExecutorCredentialForPrincipal id tenant (pc_kind p) (pc_subject p) (sp_organization (pc_scope p)) (sp_project (pc_scope p));
  match row with Some environment => mret environment | None => e_throw ErrNotFound end.

Definition RotateExecutorCredential (p : Principal) (keyID : string) : etx IssuedExecutorCredential :=
  ids ← e_result (executorCredentialIdentity p keyID);
  let '(tenant, id) := ids in
  restriction ← executorCredentialRestriction p tenant id;
  drawn ← newExecutorSecret;
  withExecutorCredentialTarget p restriction (λ keys,
    or_else ErrNotFound drawn.1 (RotateExecutorCredentialQ id tenant (pc_kind p) (pc_subject p) drawn.2 keys)).

Definition RevokeExecutorCredential (p : Principal) (keyID : string) : etx unit :=
  ids ← e_result (executorCredentialIdentity p keyID);
  let '(tenant, id) := ids in
  _ ← executorCredentialRestriction p tenant id;
  n ← e_tx (RevokeExecutorCredentialQ id tenant (pc_kind p) (pc_subject p));
  e_result (reject_if (n =? 0) ErrNotFound).

Definition AuthenticateEnvironmentExecutor (environment digest : string) : etx string :=
  match parseID environment, sha256_digest digest with
  | Ok id, Some hash =>
      tenant ← AuthenticateEnvironmentExecutorQ id hash;
      match tenant with Some tenant => mret (uuid_string tenant) | None => e_throw ErrNotFound end
  | _, _ => e_throw ErrNotFound
  end.
End executors.

(** ** Requests *)

Inductive executor_request :=
  | XStore (r : request)
  | XEnsureScopes (scopes : list ProjectScope)
  | XIssue (p : Principal) (keyID environment : string)
  | XRotate (p : Principal) (keyID : string)
  | XRevoke (p : Principal) (keyID : string).

Section requests.
Context `{UUIDs, Oracle, EventSizes, Secrets}.

Definition xserve (r : executor_request) (x : executor_world) : executor_world :=
  match r with
  | XStore r => MkXWorld (serve r (xw_store x)).2 (xw_scopes x) (xw_keys x) (xw_draw x)
  | XEnsureScopes scopes => (EnsureProjectScopes scopes x).2
  | XIssue p keyID environment => (IssueExecutorCredential p keyID environment x).2
  | XRotate p keyID => (RotateExecutorCredential p keyID x).2
  | XRevoke p keyID => (RevokeExecutorCredential p keyID x).2
  end.

Definition xrun (rs : list executor_request) (x : executor_world) : executor_world := List.fold_left (λ x r, xserve r x) rs x.
End requests.
