(* ===== verification/ExecutorFacts.v ===== *)
(** * ExecutorFacts

    Theorems about Executors.v: with which secrets an executor gets into which
    environments, that a secret that was rotated or revoked never does again, and
    that the association of tenants and projects is one to one and permanent. *)
From stdpp Require Import base tactics list strings numbers relations gmap.
From S2P Require Import Prelude GoJson Contract Items Database Queries EnvQueries SessionLog Turns Environments Reads.
From S2P Require Import Relations Scenario Frames Tables Sessions Connections Executors.

Lemma etx_bind_Ok {A B} (m : etx A) (f : A → etx B) x r x' :
  (m ≫= f) x = (r, x') → (∃ a x1, m x = (Ok a, x1) ∧ f a x1 = (r, x')) ∨ (∃ e, m x = (Err e, x') ∧ r = Err e).
Proof. unfold mbind, etx_bind. destruct (m x) as [[a|e] x1]; [eauto|naive_solver]. Qed.

Lemma e_result_eq {A} (v : result A) x r x' : e_result v x = (r, x') → r = v ∧ x' = x.
Proof. unfold e_result. naive_solver. Qed.

Section changes.
Context `{UUIDs, Oracle, EventSizes, Secrets}.

(** ** How the keys change *)

Inductive key_change (x x' : executor_world) : Prop :=
  | kc_keep : xw_keys x' = xw_keys x → xw_scopes x `prefix_of` xw_scopes x' → (xw_draw x ≤ xw_draw x')%nat → key_change x x'
  | kc_issue k token :
      xw_keys x' = xw_keys x ++ [k] → (∀ k', k' ∈ xw_keys x → ek_id k' ≠ ek_id k ∧ ek_token k' ≠ ek_token k) →
      secret (xw_draw x) = Some token → ek_token k = token_sha256 token →
      xw_scopes x' = xw_scopes x → xw_draw x' = S (xw_draw x) → key_change x x'
  | kc_rotate id tenant kind subject token now :
      xw_keys x' = List.map (λ k, if key_of id tenant kind subject k then rotated (token_sha256 token) now k else k) (xw_keys x) →
      (∀ k, k ∈ xw_keys x → ek_token k = token_sha256 token → ek_id k = id) →
      secret (xw_draw x) = Some token → xw_scopes x' = xw_scopes x → xw_draw x' = S (xw_draw x) → key_change x x'
  | kc_revoke id tenant kind subject now :
      xw_keys x' = List.map (λ k, if key_of id tenant kind subject k then revoked now k else k) (xw_keys x) →
      xw_scopes x' = xw_scopes x → xw_draw x' = xw_draw x → key_change x x'.

Lemma e_tx_eq {A} (f : list key_row → tx (A * list key_row)) x r x' :
  e_tx f x = (r, x') → xw_scopes x' = xw_scopes x ∧ xw_draw x' = xw_draw x ∧
    ((∃ e, r = Err e ∧ xw_keys x' = xw_keys x) ∨ ∃ a, r = Ok a ∧ f (xw_keys x) (xw_store x) = (Ok (a, xw_keys x'), xw_store x')).
Proof. unfold e_tx. destruct (f _ _) as [[[a keys]|e] w] eqn:E; intros [= <- <-]; cbn; eauto 10. Qed.

Lemma e_store_eq {A} (m : tx A) x r x' :
  e_store m x = (r, x') → xw_scopes x' = xw_scopes x ∧ xw_draw x' = xw_draw x ∧ xw_keys x' = xw_keys x.
Proof.
  unfold e_store. intros (Es & Ed & [(e & _ & Ek)|(a & _ & Hr)])%e_tx_eq; [done|]. split_and!; [done..|].
  apply bind_run in Hr as (a' & w1 & _ & Hr). apply ret_run in Hr as [[= _ ->] _]. done.
Qed.

(** A change to the keys goes through, once, or they stay. *)
Lemma target_eq {A} p environment (apply : list key_row → tx (A * list key_row)) x r x' :
  withExecutorCredentialTarget p environment apply x = (r, x') → xw_scopes x' = xw_scopes x ∧ xw_draw x' = xw_draw x ∧
    ((∃ e, r = Err e ∧ xw_keys x' = xw_keys x) ∨ ∃ a w w', r = Ok a ∧ apply (xw_keys x) w = (Ok (a, xw_keys x'), w')).
Proof.
  unfold withExecutorCredentialTarget. destruct environment as [env|].
  - cbv zeta. intros [(owned & x1 & Hg & Hr)|(e & Hg & ->)]%etx_bind_Ok; apply e_store_eq in Hg as (Es & Ed & Ek).
    + apply e_tx_eq in Hr as (Es' & Ed' & [(e & -> & Ek')|(a & -> & Hr)]); rewrite Es', Ed'; (split_and!; [done..|]);
        [left; eexists; split; [done|congruence]|right].
      apply withSessionState_run in Hr as (tenant & session & s & w1 & _ & _ & _ & _ & Hr & _).
      apply bind_run in Hr as (row & w2 & _ & Hr). apply bind_run in Hr as ([] & w3 & _ & Hr). rewrite Ek in Hr. eauto 10.
    + split_and!; [done..|]. eauto.
  - intros (Es & Ed & [(e & -> & Ek)|(a & -> & Hr)])%e_tx_eq; (split_and!; [done..|]); [eauto|right].
    apply begin_run in Hr. eauto 10.
Qed.

Lemma or_else_Ok {A} e token (m : tx (option (N * option N) * A)) w c a w' :
  or_else e token m w = (Ok (c, a), w') → ∃ id env, m w = (Ok (Some (id, env), a), w') ∧ c = issuedExecutorCredential id env token.
Proof.
  unfold or_else. intros ([o a'] & w1 & Hm & Hr)%bind_run. cbn in Hr. destruct o as [[id env]|]; [|done].
  apply ret_run in Hr as [[= -> ->] ->]. eauto.
Qed.

Lemma newExecutorSecret_Ok x drawn x' :
  newExecutorSecret x = (Ok drawn, x') → secret (xw_draw x) = Some drawn.1 ∧ drawn.2 = token_sha256 drawn.1 ∧
    xw_keys x' = xw_keys x ∧ xw_scopes x' = xw_scopes x ∧ xw_draw x' = S (xw_draw x).
Proof. unfold newExecutorSecret. destruct (secret _); [|done]. intros [= <- <-]. done. Qed.

Lemma newExecutorSecret_Err x e x' :
  newExecutorSecret x = (Err e, x') → xw_keys x' = xw_keys x ∧ xw_scopes x' = xw_scopes x ∧ xw_draw x' = S (xw_draw x).
Proof. unfold newExecutorSecret. destruct (secret _); [done|]. by intros [= _ <-]. Qed.

Lemma key_change_refl x : key_change x x.
Proof. by apply kc_keep. Qed.

Lemma key_change_draw x x' : xw_keys x' = xw_keys x → xw_scopes x' = xw_scopes x → (xw_draw x ≤ xw_draw x')%nat → key_change x x'.
Proof. intros ? E ?. apply kc_keep; [done|by rewrite E|done]. Qed.

Lemma IssueQ_Ok scopes key tenant kind subject organization project restriction digest keys w id env keys' w' :
  IssueExecutorCredentialQ scopes key tenant kind subject organization project restriction digest keys w = (Ok (Some (id, env), keys'), w') →
  id = key ∧ env = restriction ∧ existsb (scope_is tenant organization project) scopes = true ∧ ∃ now,
    keys' = keys ++ [MkKey key (Some (tenant, kind, subject)) restriction digest (Some now) now None] ∧
    ∀ k, k ∈ keys → ek_id k ≠ key ∧ ek_token k ≠ digest.
Proof.
  unfold IssueExecutorCredentialQ. intros (now & w1 & _ & Hr)%bind_run. apply bind_run in Hr as (allowed & w2 & Hq & Hr).
  apply query_run in Hq as [-> ->]. destruct (_ && _) eqn:Ea; cbn [negb] in Hr; [|apply ret_run in Hr as [[=] _]]. apply andb_true_iff in Ea as [Ea _].
  apply bind_run in Hr as ([] & w2 & _ & Hr). destruct (existsb _ keys) eqn:Ek; [apply ret_run in Hr as [[=] _]|].
  apply bind_run in Hr as ([] & w3 & Hc & Hr). apply check_run in Hc as [Hc _]. apply ret_run in Hr as [[= -> -> ->] _].
  split_and!; [done..|]. exists now. split; [done|]. intros k Hk. apply negb_true_iff in Hc. rewrite existsb_false_iff in Ek, Hc.
  apply list_elem_of_In in Hk. specialize (Ek _ Hk). specialize (Hc _ Hk). bsolve. done.
Qed.

Lemma RotateQ_Ok key tenant kind subject digest keys w id env keys' w' :
  RotateExecutorCredentialQ key tenant kind subject digest keys w = (Ok (Some (id, env), keys'), w') →
  id = key ∧ ∃ now, keys' = List.map (λ k, if key_of key tenant kind subject k then rotated digest now k else k) keys ∧
    ∀ k, k ∈ keys → ek_token k = digest → ek_id k = key.
Proof.
  unfold RotateExecutorCredentialQ. intros (now & w1 & _ & Hr)%bind_run. destruct (List.find _ keys) as [k|] eqn:Ek; [|apply ret_run in Hr as [[=] _]].
  apply bind_run in Hr as ([] & w2 & _ & Hr). apply bind_run in Hr as ([] & w3 & Hc & Hr). apply check_run in Hc as [Hc _].
  apply ret_run in Hr as [[= -> -> ->] _]. apply find_some in Ek as [_ Ek]. unfold key_of in Ek. bsolve. split; [done|]. exists now. split; [done|].
  intros k' Hk Ht. rewrite existsb_false_iff in Hc. apply list_elem_of_In in Hk. specialize (Hc _ Hk). apply andb_false_iff in Hc as [Hc|Hc]; bsolve; congruence.
Qed.

Lemma Issue_change p keyID environment x : key_change x (IssueExecutorCredential p keyID environment x).2.
Proof.
  destruct (IssueExecutorCredential p keyID environment x) as [r x'] eqn:Hr. cbn. unfold IssueExecutorCredential in Hr.
  apply etx_bind_Ok in Hr as [([tenant id] & x1 & He & Hr)|(e & He & _)]; apply e_result_eq in He as [_ ->]; [|apply key_change_refl].
  apply etx_bind_Ok in Hr as [(found & x1 & He & Hr)|(e & He & _)]; [|done]. injection He as _ <-.
  apply etx_bind_Ok in Hr as [(u & x1 & He & Hr)|(e & He & _)]; apply e_result_eq in He as [_ ->]; [|apply key_change_refl].
  apply etx_bind_Ok in Hr as [(restriction & x1 & He & Hr)|(e & He & _)]; apply e_result_eq in He as [_ ->]; [|apply key_change_refl].
  apply etx_bind_Ok in Hr as [(drawn & x1 & Hd & Hr)|(e & Hd & _)].
  2: { apply newExecutorSecret_Err in Hd as (? & ? & ?). apply key_change_draw; [done..|lia]. }
  apply newExecutorSecret_Ok in Hd as (Hsec & Hdig & Ek & Es & Ed).
  apply etx_bind_Ok in Hr as [(scopes & x2 & He & Hr)|(e & He & _)]; [|done]. injection He as _ <-.
  apply target_eq in Hr as (Es' & Ed' & [(e & _ & Ek')|(c & w & w' & _ & Hr)]).
  { apply key_change_draw; [congruence..|lia]. }
  apply or_else_Ok in Hr as (id' & env & Hr & _). apply IssueQ_Ok in Hr as (_ & _ & _ & now & Ek' & Hnew). rewrite Ek in Hnew, Ek'.
  eapply kc_issue; [exact Ek'|exact Hnew|exact Hsec|exact Hdig|congruence|congruence].
Qed.

Lemma restriction_Ok p tenant id x r x' : executorCredentialRestriction p tenant id x = (r, x') → x' = x.
Proof. unfold executorCredentialRestriction, GetExecutorCredentialForPrincipal, mbind, etx_bind, e_query. destruct (_ <$> _); by intros [= _ <-]. Qed.

Lemma Rotate_change p keyID x : key_change x (RotateExecutorCredential p keyID x).2.
Proof.
  destruct (RotateExecutorCredential p keyID x) as [r x'] eqn:Hr. cbn. unfold RotateExecutorCredential in Hr.
  apply etx_bind_Ok in Hr as [([tenant id] & x1 & He & Hr)|(e & He & _)]; apply e_result_eq in He as [_ ->]; [|apply key_change_refl].
  apply etx_bind_Ok in Hr as [(restriction & x1 & He & Hr)|(e & He & _)]; apply restriction_Ok in He as ->; [|apply key_change_refl].
  apply etx_bind_Ok in Hr as [(drawn & x1 & Hd & Hr)|(e & Hd & _)].
  2: { apply newExecutorSecret_Err in Hd as (? & ? & ?). apply key_change_draw; [done..|lia]. }
  apply newExecutorSecret_Ok in Hd as (Hsec & Hdig & Ek & Es & Ed).
  apply target_eq in Hr as (Es' & Ed' & [(e & _ & Ek')|(c & w & w' & _ & Hr)]).
  { apply key_change_draw; [congruence..|lia]. }
  apply or_else_Ok in Hr as (id' & env & Hr & _). apply RotateQ_Ok in Hr as (_ & now & Ek' & Hu). rewrite Ek, Hdig in *.
  eapply kc_rotate; [exact Ek'|exact Hu|exact Hsec|congruence|congruence].
Qed.

Lemma Revoke_change p keyID x : key_change x (RevokeExecutorCredential p keyID x).2.
Proof.
  destruct (RevokeExecutorCredential p keyID x) as [r x'] eqn:Hr. cbn. unfold RevokeExecutorCredential in Hr.
  apply etx_bind_Ok in Hr as [([tenant id] & x1 & He & Hr)|(e & He & _)]; apply e_result_eq in He as [_ ->]; [|apply key_change_refl].
  apply etx_bind_Ok in Hr as [(restriction & x1 & He & Hr)|(e & He & _)]; apply restriction_Ok in He as ->; [|apply key_change_refl].
  apply etx_bind_Ok in Hr as [(n & x1 & He & Hr)|(e & He & _)]; apply e_tx_eq in He as (Es & Ed & Hk).
  2: { destruct Hk as [(e' & _ & Ek)|(a & ? & _)]; [|done]. apply key_change_draw; [done..|lia]. }
  apply e_result_eq in Hr as [_ ->]. destruct Hk as [(e & ? & _)|(a & _ & Hr)]; [done|].
  unfold RevokeExecutorCredentialQ in Hr. apply bind_run in Hr as (now & w & _ & Hr). apply ret_run in Hr as [[= _ Ek] _]. by eapply kc_revoke.
Qed.

Lemma ensure_scopes_prefix scopes wanted rows : ensure_scopes scopes wanted = Ok rows → scopes `prefix_of` rows.
Proof.
  revert scopes. induction wanted as [|s wanted IH]; intros scopes Hr; cbn in Hr; [by simplify_eq|].
  apply bind_Ok in Hr as (tenant & _ & Hr). destruct (EnsureProjectScopeQ _ _ _ _) as [scopes'|] eqn:E; [|done].
  etrans; [|by apply IH]. unfold EnsureProjectScopeQ in E. repeat case_match; simplify_eq; [done|by apply prefix_app_r].
Qed.

Lemma xserve_change r x : key_change x (xserve r x).
Proof.
  destruct r as [r|scopes|p keyID environment|p keyID|p keyID]; cbn [xserve].
  - by apply key_change_draw.
  - unfold EnsureProjectScopes. destruct (ProjectScopes scopes) as [validated|]; [|apply key_change_refl].
    destruct (ensure_scopes _ _) as [rows|e] eqn:E; [|apply key_change_refl]. apply kc_keep; cbn; [done|by eapply ensure_scopes_prefix|done].
  - apply Issue_change.
  - apply Rotate_change.
  - apply Revoke_change.
Qed.
End changes.

(** ** Consistent keys *)

Definition unique_by {A B} (f : A → B) (l : list A) : Prop :=
  ∀ i j x y, l !! i = Some x → l !! j = Some y → f x = f y → i = j.

Lemma unique_by_elem {A B} (f : A → B) l x y : unique_by f l → x ∈ l → y ∈ l → f x = f y → x = y.
Proof. intros Hu [i Hi]%list_elem_of_lookup_1 [j Hj]%list_elem_of_lookup_1 E. pose proof (Hu _ _ _ _ Hi Hj E) as ->. congruence. Qed.

Lemma unique_by_one {A B} (f : A → B) x : unique_by f [x].
Proof. by intros [|i] [|j] a b. Qed.

Lemma unique_by_app {A B} (f : A → B) l x : unique_by f l → (∀ y, y ∈ l → f y ≠ f x) → unique_by f (l ++ [x]).
Proof.
  intros Hu Hx i j a b Hi Hj E. apply lookup_snoc_Some in Hi as [[? Hi]|[-> ->]], Hj as [[? Hj]|[-> ->]]; [by eapply Hu| | |done].
  - exfalso. apply (Hx a); [by eapply list_elem_of_lookup_2|done].
  - exfalso. apply (Hx b); [by eapply list_elem_of_lookup_2|done].
Qed.

Lemma unique_by_map {A B} (f : A → B) (g : A → A) l :
  (∀ i j x y, l !! i = Some x → l !! j = Some y → f (g x) = f (g y) → i = j) → unique_by f (List.map g l).
Proof.
  intros Hg i j x y Hi Hj. change (List.map g l) with (g <$> l) in *. rewrite list_lookup_fmap in Hi, Hj.
  apply fmap_Some in Hi as (a & Ha & ->), Hj as (b & Hb & ->). eauto.
Qed.

Record keys_wf (x : executor_world) : Prop := {
  kw_ids : unique_by ek_id (xw_keys x);
  kw_tokens : unique_by ek_token (xw_keys x) }.

Section keys.
Context `{UUIDs, Oracle, EventSizes, Secrets}.

Lemma key_change_wf x x' : key_change x x' → keys_wf x → keys_wf x'.
Proof.
  intros Hc [Hi Ht]. destruct Hc as [Ek _ _|k token Ek Hnew _ _ _ _|id tenant kind subject token now Ek Hu _ _ _|id tenant kind subject now Ek _ _];
    split; rewrite Ek; try done.
  - apply unique_by_app; [done|]. intros y Hy. by apply Hnew.
  - apply unique_by_app; [done|]. intros y Hy. by apply Hnew.
  - apply unique_by_map. intros i j a b Ha Hb E. apply (Hi i j a b Ha Hb). by destruct (key_of _ _ _ _ a), (key_of _ _ _ _ b).
  - apply unique_by_map. intros i j a b Ha Hb E. destruct (key_of _ _ _ _ a) eqn:Ea, (key_of _ _ _ _ b) eqn:Eb; unfold key_of in *; bsolve; cbn in E.
    + apply (Hi i j a b Ha Hb). congruence.
    + apply (Hi i j a b Ha Hb). symmetry in E. apply Hu in E; [congruence|by eapply list_elem_of_lookup_2].
    + apply (Hi i j a b Ha Hb). apply Hu in E; [congruence|by eapply list_elem_of_lookup_2].
    + by apply (Ht i j a b Ha Hb).
  - apply unique_by_map. intros i j a b Ha Hb E. apply (Hi i j a b Ha Hb). by destruct (key_of _ _ _ _ a), (key_of _ _ _ _ b).
  - apply unique_by_map. intros i j a b Ha Hb E. apply (Ht i j a b Ha Hb). by destruct (key_of _ _ _ _ a), (key_of _ _ _ _ b).
Qed.

(** *** Ended secrets *)

(** No key that is in force has the token. *)
Definition dead (digest : string) (x : executor_world) : Prop := ∀ k, k ∈ xw_keys x → ek_token k = digest → is_Some (ek_revoked k).

Definition never_drawn (digest : string) (from : nat) : Prop := ∀ n token, (from ≤ n)%nat → secret n = Some token → token_sha256 token ≠ digest.

Lemma key_change_dead digest x x' :
  key_change x x' → never_drawn digest (xw_draw x) → dead digest x → dead digest x' ∧ never_drawn digest (xw_draw x').
Proof.
  intros Hc Hn Hd.
  assert (∀ n, (xw_draw x ≤ n)%nat → never_drawn digest n) as Hmore by (intros n Hle m token Hm; apply Hn; lia).
  destruct Hc as [Ek _ Hdr|k token Ek _ Hs Et _ Hdr|id tenant kind subject token now Ek _ Hs _ Hdr|id tenant kind subject now Ek _ Hdr];
    (split; [|apply Hmore; lia]); unfold dead; rewrite Ek; [done|..].
  - intros k' [Hk|Hk%list_elem_of_singleton]%elem_of_app; [by apply Hd|]. subst k'. rewrite Et. intros E. by apply (Hn (xw_draw x) token) in E.
  - intros k' Hk. apply list_elem_of_In, in_map_iff in Hk as (k & <- & Hk%list_elem_of_In). destruct (key_of _ _ _ _ k); [|by apply Hd].
    cbn. intros E. by apply (Hn (xw_draw x) token) in E.
  - intros k' Hk. apply list_elem_of_In, in_map_iff in Hk as (k & <- & Hk%list_elem_of_In). destruct (key_of _ _ _ _ k); [|by apply Hd]. done.
Qed.

Lemma xrun_dead digest rs x : never_drawn digest (xw_draw x) → dead digest x → dead digest (xrun rs x).
Proof.
  revert x. induction rs as [|r rs IH]; intros x Hn Hd; [done|]. destruct (key_change_dead _ _ _ (xserve_change r x) Hn Hd) as [Hd' Hn'].
  by apply IH.
Qed.

(** ** Authentication *)

Lemma in_env_sessions d es : In es (env_sessions d) ↔ In es.1 (environments d) ∧ In es.2 (sessions d) ∧ s_id es.2 = e_session es.1.
Proof.
  unfold env_sessions. rewrite in_flat_map. split.
  - intros (e & He & Hs). apply in_map_iff in Hs as (s & <- & Hs). apply List.filter_In in Hs as [Hs Hid]. by bsolve.
  - intros (He & Hs & Hid). exists es.1. split; [done|]. apply in_map_iff. exists es.2. split; [by destruct es|].
    apply List.filter_In. split; [done|]. by apply bool_decide_eq_true_2.
Qed.

(** The conditions under which a key admits its holder to an environment. *)
Record admitted_by (x : executor_world) (env : N) (digest : string) (k : key_row) (e : env_row) (s : session_row)
    (tenant : N) (kind subject : string) : Prop := {
  ab_key : k ∈ xw_keys x; ab_token : ek_token k = digest; ab_live : ek_revoked k = None;
  ab_owner : ek_owner k = Some (tenant, kind, subject);
  ab_scope : ∃ p, p ∈ xw_scopes x ∧ sr_tenant p = tenant;
  ab_environment : In e (environments (w_db (xw_store x))) ∧ e_id e = env;
  ab_session : In s (sessions (w_db (xw_store x))) ∧ s_id s = e_session e ∧ s_deleted s = None;
  ab_tenant : s_tenant s = tenant; ab_creator : s_creator s = Some (kind, subject);
  ab_restriction : ek_environment k = None ∨ ek_environment k = Some env }.

Lemma opens_environment_true scopes digest k es :
  opens_environment scopes digest k es = true ↔ ∃ tenant kind subject, ek_owner k = Some (tenant, kind, subject) ∧ ek_token k = digest ∧
    ek_revoked k = None ∧ (∃ p, p ∈ scopes ∧ sr_tenant p = tenant) ∧ s_tenant es.2 = tenant ∧ s_creator es.2 = Some (kind, subject) ∧
    (ek_environment k = None ∨ ek_environment k = Some (e_id es.1)) ∧ s_deleted es.2 = None.
Proof.
  unfold opens_environment, created_by, live. destruct (ek_owner k) as [[[tenant kind] subject]|]; [|naive_solver].
  rewrite !andb_true_iff, !bool_decide_eq_true, existsb_exists. split.
  - intros ((((((Ht & Hr) & (p & Hp & Hpt)) & Hs) & Hc) & He) & Hl). apply bool_decide_eq_true_1 in Hpt. exists tenant, kind, subject.
    split_and!; try done; [exists p; by rewrite list_elem_of_In|]. destruct (ek_environment k); [|by left]. bsolve. subst. by right.
  - intros (? & ? & ? & [= <- <- <-] & Ht & Hr & (p & Hp & Hpt) & Hs & Hc & He & Hl). split_and!; try done.
    + exists p. rewrite <- list_elem_of_In. split; [done|]. by apply bool_decide_eq_true_2.
    + destruct He as [->| ->]; [done|]. by apply bool_decide_eq_true_2.
Qed.
End keys.

(** ** Properties *)

Section properties.
Context `{UUIDs, Oracle, EventSizes, Secrets}.

(** C38. An executor is admitted to an environment exactly when its token is the
    current, unrevoked one of a key that the creator of the environment's live
    Session holds in the Session's tenant, not restricted to another environment;
    it then acts for that tenant. *)
Theorem executor_authentication environment text x tenantID :
  NoDup (e_id <$> environments (w_db (xw_store x))) → NoDup (s_id <$> sessions (w_db (xw_store x))) →
  (AuthenticateEnvironmentExecutor environment text x).1 = Ok tenantID ↔
  ∃ env digest k e s tenant kind subject, parseID environment = Ok env ∧ sha256_digest text = Some digest ∧
    admitted_by x env digest k e s tenant kind subject ∧ tenantID = uuid_string tenant.
Proof.
  intros Henvs Hsessions. unfold AuthenticateEnvironmentExecutor, AuthenticateEnvironmentExecutorQ.
  destruct (parseID environment) as [env|e]; [|split; [done|]; naive_solver]. destruct (sha256_digest text) as [digest|]; [|split; [done|]; naive_solver].
  unfold mbind, etx_bind, e_query. set (l := List.flat_map _ _).
  assert (∀ tenant, In tenant l ↔ ∃ k e s kind subject, admitted_by x env digest k e s tenant kind subject) as Hin.
  { intros tenant. unfold l. rewrite in_flat_map. setoid_rewrite in_map_iff. setoid_rewrite List.filter_In.
    setoid_rewrite in_env_sessions. setoid_rewrite andb_true_iff. setoid_rewrite opens_environment_true. split.
    - intros (k & Hk & [e s] & <- & (He & Hs & Hid) & Henv & owner & kind & subject & Ho & Ht & Hr & Hp & Hst & Hc & Hres & Hl).
      cbn in *. apply bool_decide_eq_true_1 in Henv. subst. exists k, e, s, kind, subject. split; try done. by apply list_elem_of_In.
    - intros (k & e & s & kind & subject & [Hk Ht Hr Ho Hp [He Hid] (Hs & Hsid & Hl) Hst Hc Hres]). exists k. split; [by apply list_elem_of_In|].
      exists (e, s). cbn. split; [done|]. split; [done|]. split; [by apply bool_decide_eq_true_2|]. exists tenant, kind, subject. subst. done. }
  destruct l as [|tenant l]; cbn.
  - split; [done|]. intros (env' & digest' & k & e & s & tenant & kind & subject & [= <-] & [= <-] & Ha & _).
    exfalso. apply (proj2 (Hin tenant)). eauto 10.
  - destruct (proj1 (Hin tenant)) as (k & e & s & kind & subject & Ha); [by left|]. split.
    + intros [= <-]. by exists env, digest, k, e, s, tenant, kind, subject.
    + intros (env' & digest' & k' & e' & s' & tenant' & kind' & subject' & [= <-] & [= <-] & Ha' & ->). do 2 f_equal.
      destruct Ha as [_ _ _ _ _ [He1 He2] (Hs1 & Hs2 & _) Hst _ _], Ha' as [_ _ _ _ _ [He1' He2'] (Hs1' & Hs2' & _) Hst' _ _].
      assert (e' = e) as -> by (eapply (nodup_key e_id); [exact Henvs|done|done|congruence]).
      assert (s' = s) as -> by (eapply (nodup_key s_id); [exact Hsessions|done|done|congruence]). congruence.
Qed.

Lemma authenticated_live environment text x tenantID :
  (AuthenticateEnvironmentExecutor environment text x).1 = Ok tenantID →
  ∃ digest k, sha256_digest text = Some digest ∧ k ∈ xw_keys x ∧ ek_token k = digest ∧ ek_revoked k = None.
Proof.
  unfold AuthenticateEnvironmentExecutor, AuthenticateEnvironmentExecutorQ. destruct (parseID environment) as [env|]; [|done].
  destruct (sha256_digest text) as [digest|]; [|done]. unfold mbind, etx_bind, e_query. destruct (head _) as [tenant|] eqn:E; [|done]. intros _.
  apply head_Some_elem_of, list_elem_of_In in E. apply in_flat_map in E as (k & Hk & Ht). apply in_map_iff in Ht as (es & _ & Hes).
  apply List.filter_In in Hes as [_ Hes]. apply andb_true_iff in Hes as [_ Hes]. apply opens_environment_true in Hes as (? & ? & ? & _ & Ht & Hr & _).
  exists digest, k. rewrite list_elem_of_In. done.
Qed.

Lemma identity_Ok p keyID tenant id : executorCredentialIdentity p keyID = Ok (tenant, id) → parseID keyID = Ok id.
Proof.
  unfold executorCredentialIdentity. intros (_ & _ & Hr)%bind_Ok. apply bind_Ok in Hr as (t & _ & Hr). apply bind_Ok in Hr as (i & Hi & [= _ ->]). done.
Qed.

Lemma Revoke_Ok p keyID x u x' :
  RevokeExecutorCredential p keyID x = (Ok u, x') → ∃ id tenant k now, parseID keyID = Ok id ∧ k ∈ xw_keys x ∧
    key_of id tenant (pc_kind p) (pc_subject p) k = true ∧
    xw_keys x' = List.map (λ k, if key_of id tenant (pc_kind p) (pc_subject p) k then revoked now k else k) (xw_keys x) ∧ xw_draw x' = xw_draw x.
Proof.
  unfold RevokeExecutorCredential. intros Hr. apply etx_bind_Ok in Hr as [([tenant id] & x1 & He & Hr)|(e & _ & ?)]; [|done].
  apply e_result_eq in He as [Hid%eq_sym%identity_Ok ->].
  apply etx_bind_Ok in Hr as [(restriction & x1 & He & Hr)|(e & _ & ?)]; [|done]. apply restriction_Ok in He as ->.
  apply etx_bind_Ok in Hr as [(n & x1 & He & Hr)|(e & _ & ?)]; [|done]. apply e_result_eq in Hr as [Hn ->].
  apply e_tx_eq in He as (_ & Ed & [(e & ? & _)|(a & [= <-] & He)]); [done|]. unfold RevokeExecutorCredentialQ in He.
  apply bind_run in He as (now & w & _ & He). apply ret_run in He as [[= En Ek] _].
  destruct (List.filter (key_of id tenant (pc_kind p) (pc_subject p)) (xw_keys x)) as [|k l] eqn:El; [by rewrite En in Hn|].
  assert (In k (List.filter (key_of id tenant (pc_kind p) (pc_subject p)) (xw_keys x))) as Hk by (rewrite El; by left).
  apply List.filter_In in Hk as [Hk1 Hk2]. exists id, tenant, k, now. rewrite list_elem_of_In. done.
Qed.

Lemma Rotate_Ok p keyID x c x' :
  RotateExecutorCredential p keyID x = (Ok c, x') → ∃ id tenant k token now, parseID keyID = Ok id ∧ k ∈ xw_keys x ∧
    key_of id tenant (pc_kind p) (pc_subject p) k = true ∧ secret (xw_draw x) = Some token ∧
    xw_keys x' = List.map (λ k, if key_of id tenant (pc_kind p) (pc_subject p) k then rotated (token_sha256 token) now k else k) (xw_keys x) ∧
    xw_draw x' = S (xw_draw x).
Proof.
  unfold RotateExecutorCredential. intros Hr. apply etx_bind_Ok in Hr as [([tenant id] & x1 & He & Hr)|(e & _ & ?)]; [|done].
  apply e_result_eq in He as [Hid%eq_sym%identity_Ok ->].
  apply etx_bind_Ok in Hr as [(restriction & x1 & He & Hr)|(e & _ & ?)]; [|done]. apply restriction_Ok in He as ->.
  apply etx_bind_Ok in Hr as [(drawn & x1 & Hd & Hr)|(e & _ & ?)]; [|done]. apply newExecutorSecret_Ok in Hd as (Hsec & Hdig & Ek & _ & Ed).
  apply target_eq in Hr as (_ & Ed' & [(e & ? & _)|(c' & w & w' & [= <-] & Hr)]); [done|].
  apply or_else_Ok in Hr as (id' & env & Hr & _). unfold RotateExecutorCredentialQ in Hr. apply bind_run in Hr as (now & w1 & _ & Hr).
  destruct (List.find _ (xw_keys x1)) as [k|] eqn:Ef; [|apply ret_run in Hr as [[=] _]].
  apply bind_run in Hr as ([] & w2 & _ & Hr). apply bind_run in Hr as ([] & w3 & _ & Hr). apply ret_run in Hr as [[= _ _ Ek'] _].
  apply find_some in Ef as [Hk Hkey]. exists id, tenant, k, drawn.1, now. rewrite Hdig, Ek in *. rewrite list_elem_of_In. split_and!; congruence.
Qed.

(** C39. A secret that was replaced or revoked is dead for good: after a rotation or a
    revocation of its key, and whatever requests follow, no environment admits it
    again, as long as no later secret has the same digest. *)
Theorem ended_secrets_stay_dead p keyID x x' rs id k environment text :
  keys_wf x → parseID keyID = Ok id → k ∈ xw_keys x → ek_id k = id → never_drawn (ek_token k) (xw_draw x) →
  (RevokeExecutorCredential p keyID x = (Ok tt, x') ∨ ∃ c, RotateExecutorCredential p keyID x = (Ok c, x')) →
  sha256_digest text = Some (ek_token k) →
  (AuthenticateEnvironmentExecutor environment text (xrun rs x')).1 = Err ErrNotFound.
Proof.
  intros [Hi Ht] Hid Hk Hkid Hn Hop Htext.
  assert (dead (ek_token k) x' ∧ never_drawn (ek_token k) (xw_draw x')) as [Hd Hn'].
  { destruct Hop as [(id' & tenant & k' & now & Hid' & Hk' & Hkey & Ek & Ed)%Revoke_Ok|(c & (id' & tenant & k' & token & now & Hid' & Hk' & Hkey & Hs & Ek & Ed)%Rotate_Ok)];
      rewrite Hid in Hid'; injection Hid' as <-;
      assert (k' = k) as -> by (eapply (unique_by_elem ek_id); [exact Hi|done|done|]; unfold key_of in Hkey; bsolve; congruence);
      (split; [|intros n t Hle; apply Hn; lia]); unfold dead; rewrite Ek; intros j Hj; apply list_elem_of_In, in_map_iff in Hj as (j' & <- & Hj%list_elem_of_In);
      destruct (key_of _ _ _ _ j') eqn:Ej; cbn.
    - done.
    - intros E. apply (unique_by_elem ek_token _ _ _ Ht Hj Hk) in E as ->. congruence.
    - intros E. exfalso. by apply (Hn (xw_draw x) token).
    - intros E. apply (unique_by_elem ek_token _ _ _ Ht Hj Hk) in E as ->. congruence. }
  pose proof (xrun_dead _ rs _ Hn' Hd) as Hdead.
  destruct (AuthenticateEnvironmentExecutor environment text (xrun rs x')) as [[t|e] y] eqn:Ea; cbn.
  - assert ((AuthenticateEnvironmentExecutor environment text (xrun rs x')).1 = Ok t) as Hl by (by rewrite Ea).
    apply authenticated_live in Hl as (digest & j & Hdig & Hj & Hjt & Hjr). rewrite Htext in Hdig. injection Hdig as <-.
    apply Hdead in Hj as [? ?]; congruence.
  - revert Ea. unfold AuthenticateEnvironmentExecutor, AuthenticateEnvironmentExecutorQ, mbind, etx_bind, e_query, e_throw.
    repeat case_match; naive_solver.
Qed.

(** ** Project scopes *)

(** Tenants and projects are one to one. *)
Record scopes_wf (l : list scope_row) : Prop := {
  sw_tenants : unique_by sr_tenant l;
  sw_projects : unique_by (λ s, (sr_organization s, sr_project s)) l }.

Lemma EnsureProjectScopeQ_Ok tenant organization project l l' :
  EnsureProjectScopeQ tenant organization project l = Some l' → scopes_wf l →
  scopes_wf l' ∧ l `prefix_of` l' ∧ MkScopeRow tenant organization project ∈ l'.
Proof.
  intros He [Ht Hp]. unfold EnsureProjectScopeQ in He. destruct (List.find _ l) as [s|] eqn:Ef.
  - apply find_some in Ef as [Hin Hs]. case_match; [|done]. simplify_eq. bsolve. split_and!; [by split|done|].
    apply list_elem_of_In. by destruct s; cbn in *; subst.
  - case_match; [done|]. simplify_eq. rename select (existsb _ _ = false) into Hno. rewrite existsb_false_iff in Hno.
    split_and!; [split; (apply unique_by_app; [done|]); intros y Hy%list_elem_of_In|by apply prefix_app_r|apply elem_of_app; right; by left].
    + apply find_none with (x := y) in Ef; [|done]. cbn. by bsolve.
    + specialize (Hno y Hy). cbn. apply andb_false_iff in Hno as [Hno|Hno]; bsolve; congruence.
Qed.

Lemma bind_scopes_all scopes by_tenant by_project m :
  bind_scopes by_tenant by_project scopes = Some m → by_tenant ⊆ m ∧ ∀ s, s ∈ scopes → m !! sp_scope_tenant s = Some s.
Proof.
  revert by_tenant by_project. induction scopes as [|s scopes IH]; intros by_tenant by_project Hb; cbn in Hb.
  { simplify_eq. split; [done|]. by intros s ?%not_elem_of_nil. }
  destruct (scope_ok s); [|done]. cbn in Hb. destruct (bool_decide (default s _ = s)) eqn:Ed; [|done]. apply bool_decide_eq_true_1 in Ed. cbn in Hb.
  case_match; [done|]. apply IH in Hb as [Hsub Hall].
  assert (m !! sp_scope_tenant s = Some s) as Hs by (eapply lookup_weaken; [apply lookup_insert_eq|exact Hsub]).
  split; [|by intros s' [->|?]%elem_of_cons; [|apply Hall]]. etrans; [|exact Hsub].
  destruct (by_tenant !! sp_scope_tenant s) as [s'|] eqn:E; [|by apply insert_subseteq]. cbn in Ed. subst s'. by rewrite insert_id.
Qed.

Lemma ProjectScopes_all scopes l : ProjectScopes scopes = Some l → ∀ s, s ∈ scopes → s ∈ l.
Proof.
  intros (m & Hm & ->)%fmap_Some s Hs. apply bind_scopes_all in Hm as [_ Hall]. rewrite sort_by_perm. apply list_elem_of_fmap.
  exists (sp_scope_tenant s, s). split; [done|]. apply elem_of_map_to_list. by apply Hall.
Qed.

(** The configured projects are accepted all together or not at all: afterwards
    each has its tenant, tenants and projects are still one to one, and no
    association made before has changed. *)
Theorem project_scopes_are_permanent scopes x x' :
  scopes_wf (xw_scopes x) → EnsureProjectScopes scopes x = (Ok tt, x') →
  scopes_wf (xw_scopes x') ∧ xw_scopes x `prefix_of` xw_scopes x' ∧
  ∀ s, s ∈ scopes → ∃ tenant, parseID (sp_scope_tenant s) = Ok tenant ∧
    MkScopeRow tenant (sp_organization s) (sp_project s) ∈ xw_scopes x'.
Proof.
  intros Hwf. unfold EnsureProjectScopes. destruct (ProjectScopes scopes) as [validated|] eqn:Ev; [|done]. cbn.
  intros Hr. enough (scopes_wf (xw_scopes x') ∧ xw_scopes x `prefix_of` xw_scopes x' ∧ ∀ s, s ∈ validated → ∃ tenant,
    parseID (sp_scope_tenant s) = Ok tenant ∧ MkScopeRow tenant (sp_organization s) (sp_project s) ∈ xw_scopes x') as (? & ? & Hall).
  { split_and!; [done..|]. intros s Hs. by apply Hall, (ProjectScopes_all scopes validated). }
  clear Ev. revert Hr. destruct (ensure_scopes (xw_scopes x) validated) as [rows|e] eqn:Er; [|done]. intros [= <-]. cbn. revert Hwf Er. generalize (xw_scopes x) as l.
  induction validated as [|s validated IH]; intros l Hwf Er; cbn in Er.
  { simplify_eq. split_and!; [done..|]. by intros s ?%not_elem_of_nil. }
  apply bind_Ok in Er as (tenant & Ht & Er). destruct (EnsureProjectScopeQ _ _ _ l) as [l'|] eqn:E; [|done].
  apply EnsureProjectScopeQ_Ok in E as (Hwf' & Hpre & Hin); [|done]. destruct (IH _ Hwf' Er) as (Hwf2 & Hpre2 & Hall).
  split_and!; [done|by etrans|]. intros s' [->|Hs']%elem_of_cons; [|by apply Hall]. exists tenant. split; [done|].
  destruct Hpre2 as [more ->]. apply elem_of_app. by left.
Qed.
End properties.

(** ** Witnesses *)

(** Two secrets can be read.  The creator of a Session issues a key, and rotates it. *)
Module ExecutorExample.
Fixpoint pad (n : nat) (text : string) : string := match n with O => text | S n => "0" +:+ pad n text end.

#[local] Instance secrets : Secrets := {|
  secret n := match n with 0%nat => Some "a" | 1%nat => Some "b" | _ => None end;
  token_sha256 text := pad 63 text |}.

Definition store : world :=
  MkWorld (with_environments (with_sessions empty_db
    [MkSession 2%N 1%N "codex" (JObj []) "create" "" 900 (JObj [("environment", JObj [("type", JStr "self_hosted")])]) 0 None None (Some ("user", "ada"))])
    [MkEnvironment 5%N 2%N "pending" 900]) 0 0 0.

Definition scope : ProjectScope := MkScope tenant_id "org" "project".
Definition ada : Principal := MkPrincipal scope "user" "ada".
Definition key_id : string := uuid_string 9%N.
Definition env_text : string := uuid_string 5%N.

Definition empty : executor_world := MkXWorld store [] [] 0.
Definition scoped : executor_world := (EnsureProjectScopes [scope; scope] empty).2.
Definition issued : executor_world := (IssueExecutorCredential ada key_id env_text scoped).2.
Definition rotation : result IssuedExecutorCredential * executor_world := RotateExecutorCredential ada key_id issued.
Definition old_digest : string := pad 63 "a".
End ExecutorExample.
#[local] Existing Instance ExecutorExample.secrets.

Example ExecutorExample_admits :
  (AuthenticateEnvironmentExecutor ExecutorExample.env_text ExecutorExample.old_digest ExecutorExample.issued).1 = Ok tenant_id.
Proof. vm_compute. reflexivity. Qed.

Lemma executor_authentication_witness :
  ∃ env digest k e s tenant kind subject, parseID ExecutorExample.env_text = Ok env ∧ sha256_digest ExecutorExample.old_digest = Some digest ∧
    admitted_by ExecutorExample.issued env digest k e s tenant kind subject ∧ tenant_id = uuid_string tenant.
Proof.
  apply (executor_authentication ExecutorExample.env_text ExecutorExample.old_digest ExecutorExample.issued tenant_id).
  - vm_compute. repeat constructor; set_solver.
  - vm_compute. repeat constructor; set_solver.
  - vm_compute. reflexivity.
Defined.

Lemma ended_secrets_stay_dead_witness :
  (AuthenticateEnvironmentExecutor ExecutorExample.env_text ExecutorExample.old_digest
    (xrun [XRevoke ExecutorExample.ada ExecutorExample.key_id] ExecutorExample.rotation.2)).1 = Err ErrNotFound.
Proof.
  assert (∃ k, xw_keys ExecutorExample.issued = [k]) as [k Hk] by (eexists; vm_compute; reflexivity).
  assert (ek_token k = ExecutorExample.old_digest) as Et by (revert Hk; vm_compute; by intros [= <-]).
  apply (ended_secrets_stay_dead ExecutorExample.ada ExecutorExample.key_id ExecutorExample.issued ExecutorExample.rotation.2
    [XRevoke ExecutorExample.ada ExecutorExample.key_id] 9%N k ExecutorExample.env_text ExecutorExample.old_digest).
  - split; rewrite Hk; apply unique_by_one.
  - reflexivity.
  - rewrite Hk. by left.
  - revert Hk. vm_compute. by intros [= <-].
  - rewrite Et. intros [|[|n]] token Hn; [|intros [= <-]; vm_compute; discriminate|done]. exfalso. revert Hn. vm_compute. lia.
  - right. eexists. vm_compute. reflexivity.
  - rewrite Et. vm_compute. reflexivity.
Defined.

Lemma project_scopes_are_permanent_witness :
  scopes_wf (xw_scopes ExecutorExample.scoped) ∧ [] `prefix_of` xw_scopes ExecutorExample.scoped ∧
  ∀ s, s ∈ [ExecutorExample.scope; ExecutorExample.scope] → ∃ tenant, parseID (sp_scope_tenant s) = Ok tenant ∧
    MkScopeRow tenant (sp_organization s) (sp_project s) ∈ xw_scopes ExecutorExample.scoped.
Proof.
  apply (project_scopes_are_permanent [ExecutorExample.scope; ExecutorExample.scope] ExecutorExample.empty ExecutorExample.scoped).
  - by split; intros i j x y ?.
  - vm_compute. reflexivity.
Defined.
