(* ===== verification/Artifacts.v ===== *)
(** * Artifacts

    The outputs a Turn leaves behind: [artifact_capture.go] and
    [session_artifacts.go] of [services/agents-api/internal/store] over the
    statements of [session_artifacts.sql].

    An export is a tar stream; [Archive] is what [archive/tar] reads from it.  The
    contents of files live in large objects, of which the model keeps the
    numbers; SHA-256 is a parameter.  Beginning a capture and settling it with the
    Turn are in Turns.v and SessionLog.v. *)
From stdpp Require Import base tactics list strings numbers relations.
From S2P Require Import Prelude GoJson Contract Items Database Queries EnvQueries SessionLog Turns Environments Reads Configuration Setup.

(** ** Archives *)

(** An entry: whether it is a regular file, its name and size, and the bytes the
    stream has for it. *)
Record Entry := MkEntry { te_regular : bool; te_name : string; te_size : Z; te_body : string }.

(** The entries; whether the stream then ends or fails; what follows the trailer,
    unless it cannot be read. *)
Record Archive := MkArchive { ta_entries : list Entry; ta_ends : bool; ta_padding : option string }.

Definition MaxArtifactBytes : Z := 200 * 2 ^ 20.
Definition MaxArtifactBatchBytes : Z := 500 * 2 ^ 20.
Definition MaxArtifacts : Z := 4096.

(** [fs.ValidPath]. *)
Definition valid_path (name : string) : bool :=
  utf8_valid name && ((name =?s ".") || forallb (λ s, negb ((s =?s "") || (s =?s ".") || (s =?s ".."))) (segments name)).

Definition entry_ok (e : Entry) (total : Z) (seen : list string) : bool :=
  te_regular e && has_prefix (te_name e) "outputs/" && valid_path (te_name e) && negb (contains_any (te_name e) path_forbidden)
  && (str_len (te_name e) <=? 4096) && (0 <=? te_size e) && (te_size e <=? MaxArtifactBytes)
  && (te_size e <=? MaxArtifactBatchBytes - total) && (Z.of_nat (length seen) <? MaxArtifacts)
  && negb (existsb (λ n, n =?s te_name e) seen).

Definition zero_byte (c : Ascii.ascii) : bool := (Ascii.nat_of_ascii c =? 0)%nat.

(** At most 32 KiB of zeros. *)
Definition padding_ok (padding : string) : bool :=
  (str_len padding <=? 32768) && forallb zero_byte (String.list_ascii_of_string padding).

(** [StageSessionArtifactParams] without the owner. *)
Record staged := MkStaged { sg_id : N; sg_path : string; sg_size : Z; sg_oid : N; sg_sha : string }.

Section artifacts.
Context `{UUIDs, Oracle, EventSizes} (sha256_text : string → string).

(** [lo_creat]: a number no large object has. *)
Definition create_object : tx N :=
  oid ← query (λ d, N.succ (List.fold_right N.max 0%N (large_objects d)));
  _ ← exec (λ d, with_large_objects d (large_objects d ++ [oid]));
  mret oid.

(** The loop of [captureArtifactArchive]. *)
Fixpoint capture_entries (total : Z) (seen : list string) (entries : list Entry) : tx (list staged) :=
  match entries with
  | [] => mret []
  | e :: entries' =>
      _ ← require (entry_ok e total seen) ErrInvalidInput;
      oid ← create_object;
      _ ← require (te_size e <=? str_len (te_body e)) (ErrOther "unexpected end of the archive");
      let body := String.substring 0 (Z.to_nat (te_size e)) (te_body e) in
      id ← uuid_new;
      rest ← capture_entries (total + te_size e) (te_name e :: seen) entries';
      mret (MkStaged id ("/workspace/" +:+ te_name e) (str_len body) oid (sha256_text body) :: rest)
  end.

Definition captureArtifactArchive (a : Archive) : tx (list staged) :=
  rows ← capture_entries 0 [] (ta_entries a);
  _ ← require (ta_ends a) (ErrOther "invalid archive");
  match ta_padding a with
  | None => throw (ErrOther "unexpected end of the stream")
  | Some padding => _ ← require (padding_ok padding) ErrInvalidInput; mret rows
  end.

(** ** Staging *)

Definition StageSessionArtifact (session turn env : N) (r : staged) : tx unit :=
  _ ← constraint_check "session_artifacts_check" (λ _,
        (20 <=? str_len (sg_path r)) && (str_len (sg_path r) <=? 4110) && (0 <=? sg_size r) && (sg_size r <=? 209715200)
        && (sha256_digest (sg_sha r) =?s Some (sg_sha r)));
  _ ← constraint_check "session_artifacts_pkey" (λ d, negb (existsb (λ a, ar_id a =?s sg_id r) (artifacts d)));
  _ ← constraint_check "session_artifacts_body_oid_key" (λ d, negb (existsb (λ a, ar_oid a =?s sg_oid r) (artifacts d)));
  _ ← constraint_check "session_artifacts_turn_id_path_key" (λ d,
        negb (existsb (λ a, (ar_turn a =?s turn) && (ar_path a =?s sg_path r)) (artifacts d)));
  _ ← constraint_check "session_artifacts_environment_id_fkey" (λ d, existsb (λ e, e_id e =?s env) (environments d));
  _ ← constraint_check "session_artifacts_session_id_turn_id_fkey" (λ d, existsb (turn_is session turn) (turns d));
  exec (λ d, with_artifacts d (artifacts d ++ [MkArtifact (sg_id r) session turn env (sg_path r) (sg_size r) (sg_oid r) (sg_sha r) None])).

Definition StageTurnArtifacts (tenantID sessionID turnID environmentID : string) (input : Archive) : tx unit :=
  p ← of_result (turnLookup tenantID sessionID turnID);
  environment ← of_result (match parseID environmentID with Ok e => Ok e | Err _ => Err ErrInvalidInput end);
  owned ← GetSessionEnvironment tenantID sessionID;
  _ ← require (en_id owned =?s environmentID) ErrNotFound;
  kind ← of_result (match dec_type "" (en_config owned) with Some t => Ok t | None => Err (ErrOther "decode Environment configuration") end);
  _ ← require (kind =?s "openai_hosted") ErrInvalidInput;
  begin_func (
    rows ← captureArtifactArchive input;
    locked ← LockSession (lk_tenant p) (lk_session p);
    match locked with
    | None => throw ErrNotFound
    | Some s =>
        _ ← require (bool_decide (s_deleted s = None)) ErrNotFound;
        turn ← one (GetTurnQ (lk_tenant p) (lk_session p) (lk_turn p));
        _ ← require ((t_status turn =?s "in_progress") && bool_decide (t_cancel turn = None)) ErrTurnConflict;
        tx_iter (StageSessionArtifact (lk_session p) (lk_turn p) environment) rows
    end).

(** ** Published artifacts *)

Record SessionArtifact := MkSessionArtifact {
  sa_artifact : string; sa_of_session : string; sa_of_turn : string; sa_environment : string; sa_path : string; sa_size : Z; sa_published : Z }.

(** [None] is a zero time, which only a row that is not published has. *)
Definition artifactFromRow (row : artifact_row) : SessionArtifact :=
  MkSessionArtifact (uuid_string (ar_id row)) (uuid_string (ar_session row)) (uuid_string (ar_turn row)) (uuid_string (ar_env row))
    (ar_path row) (ar_size row) (default 0 (ar_created row)).

Definition visible_artifact (d : db) (tenant session : N) (a : artifact_row) : bool :=
  (ar_session a =?s session) && bool_decide (is_Some (ar_created a))
  && existsb (λ s, (s_id s =?s session) && (s_tenant s =?s tenant) && live s) (sessions d).

Definition GetSessionArtifactQ (tenant session id : N) : tx (option artifact_row) :=
  query (λ d, head (List.filter (λ a, visible_artifact d tenant session a && (ar_id a =?s id)) (artifacts d))).

Definition GetSessionArtifact (tenantID sessionID artifactID : string) : tx SessionArtifact :=
  p ← of_result (turnLookup tenantID sessionID artifactID);
  row ← GetSessionArtifactQ (lk_tenant p) (lk_session p) (lk_turn p);
  match row with Some row => mret (artifactFromRow row) | None => throw ErrNotFound end.

Definition artifact_key (a : artifact_row) : page_key := (default 0 (ar_created a), 0, ar_id a).

Definition ListSessionArtifactsQ (tenant session : N) (env : option N) (ascending : bool) (after : option page_key) (limit : nat) : tx (list artifact_row) :=
  query (λ d, page_rows artifact_key ascending after limit (List.filter (λ a, visible_artifact d tenant session a
    && match env with None => true | Some e => ar_env a =?s e end) (artifacts d))).

Definition ListSessionArtifacts (tenantID sessionID environmentID cursor : string) (limit : Z) (ascending : bool) : tx (list SessionArtifact * string) :=
  _ ← require (page_size_ok limit) ErrInvalidInput;
  _ ← GetSession tenantID sessionID;
  let parsed := λ v, match parseID v with Ok id => id | Err _ => 0%N end in
  env ← (if environmentID =?s "" then mret None else e ← of_result (parseID environmentID); mret (Some e) : tx (option N));
  after ← (if cursor =?s "" then mret None else
             after ← GetSessionArtifact tenantID sessionID cursor;
             mret (Some (sa_published after, 0, parsed (sa_artifact after))));
  rows ← ListSessionArtifactsQ (parsed tenantID) (parsed sessionID) env ascending after (Z.to_nat (limit + 1));
  let page := cut_page (Z.to_nat limit) ar_id rows in
  mret (List.map artifactFromRow page.1, page.2).

Definition DeleteSessionArtifact (tenantID sessionID artifactID : string) : tx unit :=
  p ← of_result (turnLookup tenantID sessionID artifactID);
  begin_func (
    locked ← LockSession (lk_tenant p) (lk_session p);
    match locked with
    | None => throw ErrNotFound
    | Some s =>
        _ ← require (bool_decide (s_deleted s = None)) ErrNotFound;
        row ← GetSessionArtifactQ (lk_tenant p) (lk_session p) (lk_turn p);
        match row with
        | None => throw ErrNotFound
        | Some row =>
            _ ← exec (λ d, with_artifacts d (List.filter (λ a, negb (visible_artifact d (lk_tenant p) (lk_session p) a && (ar_id a =?s lk_turn p))) (artifacts d)));
            _ ← constraint_check "lo_unlink" (λ d, existsb (λ o, o =?s ar_oid row) (large_objects d));
            exec (λ d, with_large_objects d (List.filter (λ o, negb (o =?s ar_oid row)) (large_objects d)))
        end
    end).
End artifacts.
