(* ===== verification/ArtifactFacts.v ===== *)
(** * ArtifactFacts

    Theorems about Artifacts.v: what a capture that succeeds has stored, and that
    nothing else changes. *)
From stdpp Require Import base tactics list strings numbers relations.
From S2P Require Import Prelude GoJson Contract Items Database Queries EnvQueries SessionLog Turns Environments Reads Configuration Setup Artifacts.
From S2P Require Import Relations Scenario EnvScenario.

Lemma substring_length n s : (n ≤ String.length s)%nat → String.length (String.substring 0 n s) = n.
Proof.
  revert n. induction s as [|c s IH]; intros n Hn; cbn in *; [by assert (n = 0%nat) as -> by lia|].
  destruct n as [|n]; [done|]. cbn. f_equal. apply IH. lia.
Qed.

Definition total_size (rows : list staged) : Z := List.fold_right Z.add 0 (List.map sg_size rows).

Section facts.
Context `{UUIDs, Oracle, EventSizes} (sha256_text : string → string).

(** ** Archives *)

(** A file of an archive that is accepted. *)
Definition output_file (r : staged) : Prop :=
  has_prefix (sg_path r) "/workspace/outputs/" = true ∧ 0 ≤ sg_size r ≤ MaxArtifactBytes.

Record captured (total : Z) (seen : list string) (rows : list staged) : Prop := {
  ca_files : Forall output_file rows;
  ca_paths : NoDup (sg_path <$> rows);
  ca_new n : n ∈ seen → "/workspace/" +:+ n ∉ sg_path <$> rows;
  ca_total : total + total_size rows ≤ MaxArtifactBatchBytes;
  ca_count : Z.of_nat (length seen + length rows) ≤ MaxArtifacts }.

Lemma create_object_run w oid w' :
  create_object w = (Ok oid, w') → w_db w' = with_large_objects (w_db w) (large_objects (w_db w) ++ [oid]).
Proof.
  unfold create_object. intros (o & w1 & Hq & Hr)%bind_run. apply query_run in Hq as [-> ->].
  apply bind_run in Hr as ([] & w2 & He & Hr). apply ret_run in Hr as [-> ->]. unfold exec in He. by injection He as <-.
Qed.

Lemma workspace_prefix name : has_prefix name "outputs/" = true → has_prefix ("/workspace/" +:+ name) "/workspace/outputs/" = true.
Proof. intros Hp. exact Hp. Qed.

Lemma capture_entries_run entries total seen w rows w' :
  total ≤ MaxArtifactBatchBytes → Z.of_nat (length seen) ≤ MaxArtifacts →
  capture_entries sha256_text total seen entries w = (Ok rows, w') →
  captured total seen rows ∧ ∃ oids, w_db w' = with_large_objects (w_db w) (large_objects (w_db w) ++ oids).
Proof.
  revert total seen w rows w'. induction entries as [|e entries IH]; intros total seen w rows w' Ht Hs Hr; cbn [capture_entries] in Hr.
  { apply ret_run in Hr as [-> ->]. split; [|exists []; rewrite app_nil_r; by destruct (w_db w)]. split; cbn; try done; [constructor|set_solver|unfold total_size; cbn; lia|lia]. }
  apply bind_run in Hr as ([] & w1 & Hq & Hr). apply require_run in Hq as [Hok ->]. unfold entry_ok in Hok. bsolve.
  apply bind_run in Hr as (oid & w1 & Hc & Hr). apply create_object_run in Hc.
  apply bind_run in Hr as ([] & w2 & Hq & Hr). apply require_run in Hq as [Hlen ->]. apply Z.leb_le in Hlen. cbv zeta in Hr.
  apply bind_run in Hr as (id & w2 & Hu & Hr). assert (w_db w2 = w_db w1) as Eu by (unfold uuid_new in Hu; by injection Hu as _ <-).
  apply bind_run in Hr as (rest & w3 & Hrest & Hr). apply ret_run in Hr as [-> ->].
  apply IH in Hrest as [[Hf Hp Hn Htot Hcnt] [oids E]]; [|cbn; lia..].
  assert (str_len (String.substring 0 (Z.to_nat (te_size e)) (te_body e)) = te_size e) as Hsize.
  { unfold str_len in *. rewrite substring_length by lia. lia. }
  split.
  - split; cbn -[String.append].
    + constructor; [|done]. split; cbn -[String.append]; [by apply workspace_prefix|]. rewrite Hsize. lia.
    + constructor; [|done]. apply Hn. by left.
    + intros n Hin. rewrite not_elem_of_cons. split; [|apply Hn; by right]. intros Hw. apply (inj (String.app "/workspace/")) in Hw as ->.
      rename select (existsb _ seen = false) into Hex. rewrite existsb_false_iff in Hex. apply list_elem_of_In, Hex in Hin. by bsolve.
    + unfold total_size in *. cbn. rewrite Hsize. lia.
    + cbn in Hcnt. lia.
  - exists (oid :: oids). rewrite E, Eu, Hc. cbn. by rewrite <- app_assoc.
Qed.

(** ** Staging *)

Definition staged_row (session turn env : N) (r : staged) : artifact_row :=
  MkArtifact (sg_id r) session turn env (sg_path r) (sg_size r) (sg_oid r) (sg_sha r) None.

Lemma StageSessionArtifact_run session turn env r w w' :
  StageSessionArtifact session turn env r w = (Ok tt, w') →
  w_db w' = with_artifacts (w_db w) (artifacts (w_db w) ++ [staged_row session turn env r]).
Proof.
  unfold StageSessionArtifact. intros Hr. do 6 (apply bind_run in Hr as ([] & ? & Hc & Hr); apply check_run in Hc as [_ ->]).
  unfold exec in Hr. by injection Hr as <-.
Qed.

Lemma stage_rows_run session turn env rows w w' :
  tx_iter (StageSessionArtifact session turn env) rows w = (Ok tt, w') →
  w_db w' = with_artifacts (w_db w) (artifacts (w_db w) ++ (staged_row session turn env <$> rows)).
Proof.
  revert w. induction rows as [|r rows IH]; intros w Hr; cbn [tx_iter] in Hr.
  { apply ret_run in Hr as [_ ->]. cbn. rewrite app_nil_r. by destruct (w_db w). }
  apply bind_run in Hr as ([] & w1 & Hs & Hr). apply StageSessionArtifact_run in Hs. rewrite (IH _ Hr), Hs. cbn. by rewrite <- app_assoc.
Qed.

Lemma StageTurnArtifacts_run tenantID sessionID turnID environmentID input w r w' p :
  turnLookup tenantID sessionID turnID = Ok p →
  StageTurnArtifacts sha256_text tenantID sessionID turnID environmentID input w = (r, w') →
  match r with
  | Err _ => w_db w' = w_db w
  | Ok _ => ∃ env rows oids,
      w_db w' = with_large_objects (with_artifacts (w_db w) (artifacts (w_db w) ++ (staged_row (lk_session p) (lk_turn p) env <$> rows)))
                  (large_objects (w_db w) ++ oids) ∧
      Forall output_file rows ∧ NoDup (sg_path <$> rows) ∧ total_size rows ≤ MaxArtifactBatchBytes ∧ Z.of_nat (length rows) ≤ MaxArtifacts ∧
      ∃ t, In t (turns (w_db w)) ∧ t_id t = lk_turn p ∧ t_session t = lk_session p ∧ t_status t = "in_progress" ∧ t_cancel t = None
  end.
Proof.
  intros Hp. unfold StageTurnArtifacts. rewrite Hp. intros Hr. destruct r as [[]|e].
  - apply bind_run in Hr as (p' & w1 & Hq & Hr). apply of_result_run in Hq as [[= <-] ->].
    apply bind_run in Hr as (env & w1 & Hq & Hr). apply of_result_run in Hq as [_ ->].
    apply bind_run in Hr as (owned & w1 & Hg & Hr). assert (w1 = w) as ->.
    { unfold GetSessionEnvironment, GetSessionEnvironmentQ in Hg. repeat (apply bind_run in Hg as (? & ? & Hq & Hg); (apply of_result_run in Hq as [_ ->] || apply query_run in Hq as [_ ->])).
      by apply of_result_run in Hg as [_ ->]. }
    apply bind_run in Hr as ([] & w1 & Hq & Hr). apply require_run in Hq as [_ ->].
    apply bind_run in Hr as (kind & w1 & Hq & Hr). apply of_result_run in Hq as [_ ->].
    apply bind_run in Hr as ([] & w1 & Hq & Hr). apply require_run in Hq as [_ ->].
    apply begin_run in Hr. apply bind_run in Hr as (rows & w1 & Hc & Hr). unfold captureArtifactArchive in Hc.
    apply bind_run in Hc as (rows' & w2 & Hc & Hq). apply bind_run in Hq as ([] & w3 & Hq1 & Hq). apply require_run in Hq1 as [_ ->].
    destruct (ta_padding input) as [padding|]; [|done]. apply bind_run in Hq as ([] & w3 & Hq1 & Hq). apply require_run in Hq1 as [_ ->]. apply ret_run in Hq as [-> ->].
    apply capture_entries_run in Hc as [[Hf Hn _ Ht Hcnt] [oids E]]; [|by vm_compute..].
    apply bind_run in Hr as (locked & w2' & Hq & Hr). apply query_run in Hq as [-> ->]. destruct (head _) as [s|]; [|done].
    apply bind_run in Hr as ([] & w2' & Hq & Hr). apply require_run in Hq as [_ ->].
    apply bind_run in Hr as (t & w2' & Hq & Hr). unfold one, GetTurnQ in Hq. apply bind_run in Hq as (o & w3 & Hq & Ho). apply query_run in Hq as [-> ->].
    destruct (if tenant_session _ _ _ then _ else None) as [t'|] eqn:Eo; [|done]. apply ret_run in Ho as [-> ->].
    apply bind_run in Hr as ([] & w2' & Hq & Hr). apply require_run in Hq as [Hst ->].
    apply stage_rows_run in Hr. exists env, rows', oids. rewrite Hr, E. split; [done|]. split; [done|]. split; [done|].
    split; [cbn in Ht; lia|]. split; [cbn in Hcnt; lia|]. destruct (tenant_session _ _ _); [|done].
    apply head_Some_elem_of, list_elem_of_In, List.filter_In in Eo as [Hin Hid]. rewrite E in Hin. unfold turn_is in Hid. bsolve. by exists t'.
  - revert Hr. unfold GetSessionEnvironment, GetSessionEnvironmentQ, begin_func, mbind, tx_bind, of_result, require, query.
    repeat case_match; intros; simplify_eq; done.
Qed.

End facts.

(** ** Witnesses *)

Definition demo_archive : Archive := MkArchive [MkEntry true "outputs/a.txt" 2 "hi"] true (Some "").
Definition demo_sha (_ : string) : string := digest.

Definition demo_capture : result unit * world :=
  StageTurnArtifacts demo_sha tenant_id session_id (uuid_string 102%N) env_id demo_archive promoted_world.

