(* ===== verification/Prepared.v ===== *)
(** * Prepared

    Runs that need an environment: [RunEnvironmentInput]
    ([prepared_dispatch.go]), the preparation it waits for ([preparation.go]), the
    placement it asks for ([environment_placement.go]), the capture of outputs
    ([artifacts.go]) through a prepared workspace ([directory_preparation.go]), and
    the worker's use of the outcome ([worker_schedule.go]) of
    [services/agents-api/internal/execution].

    The frames of a preparation's control stream, ticks of the clock and whether
    frames could be sent are the inputs of these functions, in the order in which
    [select] takes them; a sequence that ends stands for a context that is done.
    Other clients are served between the calls to the store ([call] of Dispatch.v).
    Releasing a preparation or a connection when a function returns is not
    modelled: nothing waits for it. *)
From stdpp Require Import base tactics list strings numbers relations pretty gmap.
From S2P Require Import Prelude GoJson Contract Items Database Queries EnvQueries SessionLog Turns Environments Reads Configuration Setup Creation.
From S2P Require Import Relations Journal Delivery Policy Vaults Dispatch Artifacts.

(** ** Outcomes and early returns *)

Record EnvironmentRun := MkEnvironmentRun { er_reservation : EnvironmentInputReservation; er_turn : option Turn }.

Definition no_reservation : EnvironmentInputReservation := MkInputReservation "" "" "" false [] None None None [].

Definition outcome : Type := EnvironmentRun * option error.

(** Go on, or return. *)
Definition attempt (A : Type) := node → (outcome + A) * node.

#[global] Instance attempt_ret : MRet attempt := λ A a nd, (inr a, nd).
#[global] Instance attempt_bind : MBind attempt := λ A B f m nd,
  match m nd with (inr a, nd') => f a nd' | (inl o, nd') => (inl o, nd') end.

Definition returns {A} (current : EnvironmentRun) (e : option error) : attempt A := λ nd, (inl (current, e), nd).

(** [if err != nil { return run, err }]. *)
Definition or_return {A} (current : EnvironmentRun) (m : run A) : attempt A := λ nd,
  match m nd with (Ok a, nd') => (inr a, nd') | (Err e, nd') => (inl (current, Some e), nd') end.

(** [run.Reservation, err = call]: go on with a pending reservation. *)
Definition reserves (state : string) (m : node → EnvironmentInputReservation * option error * node) : attempt EnvironmentInputReservation := λ nd,
  let '(r, e, nd') := m nd in
  match e with
  | None => if eir_state r =?s state then (inr r, nd') else (inl (MkEnvironmentRun r None, None), nd')
  | Some _ => (inl (MkEnvironmentRun r None, e), nd')
  end.

(** What the select loop of a preparation sees. *)
Inductive control := CTick | CFrame (frame : option Envelope).

(** The preparation of an execution as the dispatcher sees it: whether it could
    subscribe and send, the request's identifier, and the control stream. *)
Record preparation := MkPreparing { pg_subscribed : bool; pg_sent : bool; pg_request : string; pg_events : list control }.

(** The same for a workspace, with the answers to its release. *)
Record workspace := MkWorkspace {
  ws_subscribed : bool; ws_sent : bool; ws_request : string; ws_events : list (option Envelope);
  ws_release_sent : bool; ws_release_events : list (option Envelope) }.

Definition ctx_done : error := ErrOther "context canceled".
Definition ErrExecutionUnavailable : error := ErrOther "execution ownership is unavailable".

Section prepared.
Context `{UUIDs, Oracle, EventSizes, URLs, AEAD, Deployment}.
Context (float_text : string → string) (usage_left : Usage → json → Usage) (args_len : Envelope → Z) (sha256_text : string → string).

(** A call whose error is returned with a zero value. *)
Definition reservation_call (t : tx EnvironmentInputReservation) : node → EnvironmentInputReservation * option error * node := λ nd,
  match call t nd with (Ok r, nd') => (r, None, nd') | (Err e, nd') => (no_reservation, Some e, nd') end.

(** ** Placement *)

Definition bound_policy (bound : ExecutionDevice) (engine network : string) : bool :=
  negb (network =?s "disabled")
  || match lookup_device (ed_id bound) with
     | None => false
     | Some p => let '(info, found, known) := AgentKindStatus p engine in known && found && LocalEnvironmentNetworkPolicy (kd_caps info)
     end.

Definition configurePreparedEnvironment (session : Session) (environment : Environment) (bound : ExecutionDevice) (q : PromptRequest)
  : result PromptRequest :=
  match parseEnvironmentPlacement (en_config environment) with
  | Err _ => Err ErrInvalidInput
  | Ok p =>
      _ ← reject_if (negb (environmentDeviceMatches session environment bound p)) ErrInvalidInput;
      if pl_type p =?s "openai_hosted" then
        _ ← reject_if (pl_system p && negb (pl_tool p)) ErrInvalidInput;
        Ok (in_environment q None (Some (MkLocalEnvironment (en_id environment) (pl_skills p) (pl_tool p) (pl_system p)
          (if bound_policy bound (ss_engine session) (pl_network p) then pl_network p else ""))))
      else
        match environment_connection with
        | None => Err (ErrOther "environment connection resolver is not configured")
        | Some connect =>
            c ← connect session environment;
            _ ← reject_if ((cn_url c =?s "") || (cn_token c =?s "") || negb (cn_release c)) (ErrOther "environment connection is incomplete");
            Ok (in_environment q (Some (MkRemoteEnvironment (en_id environment) (pl_workspace p) (cn_url c) (cn_token c))) None)
        end
  end.

(** ** Preparation *)

Fixpoint awaitPreparation (tenantID sessionID : string) (pending : EnvironmentInputReservation) (p : preparedStart) (events : list control)
  (nd : node) : EnvironmentInputReservation * option error * preparedStart * node :=
  match events with
  | [] => (pending, Some ctx_done, p, nd)
  | CTick :: events' =>
      let '(current, e, nd') := reservation_call (ExpireEnvironmentInput tenantID sessionID (eir_id pending)) nd in
      if bool_decide (is_Some e) || negb (eir_state current =?s "pending") then (current, e, p, nd')
      else awaitPreparation tenantID sessionID pending p events' nd'
  | CFrame None :: _ => (pending, Some (ErrOther "preparation control stream closed"), p, nd)
  | CFrame (Some env) :: events' =>
      match observation p env with
      | None => (pending, Some (ErrOther "preparation is no longer available"), p, nd)
      | Some (status, p') =>
          if (ps_state status =?s "ready") && (ps_run status =?s "") then (pending, None, p', nd)
          else if negb (ps_state status =?s "preparing") then (pending, Some (ErrOther "unexpected preparation state before admission"), p', nd)
          else awaitPreparation tenantID sessionID pending p' events' nd
      end
  end.

Fixpoint awaitDirectoryReady (p : preparedStart) (events : list (option Envelope)) : option preparedStart :=
  match events with
  | Some env :: events' =>
      match observation p env with
      | None => None
      | Some (status, p') =>
          if negb (ps_run status =?s "") then None
          else if ps_state status =?s "ready" then Some p'
          else if ps_state status =?s "preparing" then awaitDirectoryReady p' events'
          else None
      end
  | _ => None
  end.

Fixpoint await_release (p : preparedStart) (events : list (option Envelope)) : bool :=
  match events with
  | Some env :: events' =>
      match controlStatus p env with
      | None => false
      | Some (status, p') =>
          if negb (ps_run status =?s "") then false
          else if (ps_state status =?s "released") && (ps_code status =?s "") then true
          else if (ps_state status =?s "preparing") || (ps_state status =?s "ready") then await_release p' events'
          else false
      end
  | _ => false
  end.

Definition releaseDirectory (p : preparedStart) (ws : workspace) : bool := ws_release_sent ws && await_release p (ws_release_events ws).

Definition workspace_request (session : Session) : PromptRequest :=
  MkPrompt (ss_engine session) "" "" "" "" ∅ None None None None "" true ("agents-api-" +:+ ss_id session) true true false false false false [] false false.

Definition withPreparedWorkspace (session : Session) (environment : Environment) (bound : ExecutionDevice) (ws : workspace)
    (consume : string → run unit) : run unit := λ nd,
  match configurePreparedEnvironment session environment bound (workspace_request session) with
  | Err _ => (Err ErrExecutionUnavailable, nd)
  | Ok _ =>
      if negb (ws_subscribed ws) || negb (ws_sent ws) then (Err ErrExecutionUnavailable, nd) else
      match awaitDirectoryReady (MkPrepared (ws_request ws) "") (ws_events ws) with
      | None => (Err ErrExecutionUnavailable, nd)
      | Some p =>
          let '(r, nd') := consume (pp_handle p) nd in
          if releaseDirectory p ws then (r, nd') else (Err ErrExecutionUnavailable, nd')
      end
  end.

(** ** Outputs *)

(** [ExportWorkspaceOutputs]: [None] when the export cannot begin, otherwise the
    archive it delivers and whether it is confirmed to its end. *)
Definition export := option (Archive * bool).

Definition stage_outputs (session : Session) (environment : Environment) (turnID : string) (x : export) : run unit :=
  match x with
  | None => r_throw (ErrOther "workspace export")
  | Some (archive, confirmed) =>
      _ ← call (StageTurnArtifacts sha256_text (ss_tenant session) (ss_id session) turnID (en_id environment) archive);
      r_require confirmed (ErrOther "workspace export")
  end.

Definition captureCompletedArtifacts (session : Session) (environment : Environment) (bound : ExecutionDevice) (turnID : string)
    (ws : workspace) (x : export) (res : Result) (status : string) (nd : node) : Result * string * node :=
  if negb (status =?s "completed") || negb (LocalWorkspaceConfiguration (en_config environment)) then (res, status, nd) else
  let capture : run unit :=
    _ ← call (BeginTurnArtifactCapture (ss_tenant session) (ss_id session) turnID (rs_applied res));
    withPreparedWorkspace session environment bound ws (λ _, stage_outputs session environment turnID x) in
  match capture nd with
  | (Ok _, nd) => (res, status, nd)
  | (Err e, nd) =>
      let res := with_code res (if bool_decide (e = ErrUnappliedInputs) then "input_not_applied" else "artifact_capture_failed") in
      let '(turn, nd) := call (GetTurn (ss_tenant session) (ss_id session) turnID) nd in
      (res, match turn with Ok t => if bool_decide (is_Some (tn_cancel t)) then "cancelled" else "failed" | Err _ => "failed" end, nd)
  end.

(** ** RunEnvironmentInput *)

Fixpoint reserved_texts (inputs : list CanonInput) : result (list string) :=
  match inputs with
  | [] => Ok []
  | (kind, payload) :: inputs' =>
      _ ← reject_if (negb (kind =?s "message")) ErrInvalidInput;
      text ← messageText payload;
      rest ← reserved_texts inputs';
      Ok (text :: rest)
  end.

(** What a Run holds when it begins to deliver. *)
Record promoted := MkPromoted {
  po_session : Session; po_environment : Environment; po_device : ExecutionDevice; po_model : string; po_request : PromptRequest;
  po_through : Z; po_reservation : EnvironmentInputReservation; po_prepared : preparedStart; po_texts : list string }.

Definition environment_snapshot (session : Session) : result Snapshot :=
  match unmarshal_snapshot (ss_config session) with
  | None => Err ErrInvalidInput
  | Some s => _ ← reject_if (has_daemon s || (TrimSpace (ag_model (sn_agent s)) =?s "")) ErrInvalidInput; Ok s
  end.

(** [RunEnvironmentInput] up to the admission of the input. *)
Definition prepare (tenantID sessionID reservationID : string) (pg : preparation) : attempt promoted :=
  let zero := MkEnvironmentRun no_reservation None in
  _ ← or_return zero (call (CheckExecutionOwnership leased (Ok tt)));
  pending ← reserves "pending" (reservation_call (ExpireEnvironmentInput tenantID sessionID reservationID));
  let current := MkEnvironmentRun pending None in
  session ← or_return current (call (GetSession tenantID sessionID));
  environment ← or_return current (call (GetSessionEnvironment tenantID sessionID));
  s ← or_return current (r_result (environment_snapshot session));
  bound ← or_return current (call (GetSessionExecutionBinding tenantID sessionID));
  device ← or_return current (find_device (ed_id (eb_device bound)));
  caps ← or_return current (r_result (engineCapabilities engines device (ss_engine session) s));
  q ← or_return current (executionRequest session s caps bound);
  texts ← or_return current (r_result (reserved_texts (eir_inputs pending)));
  q ← or_return current (r_result (configurePreparedEnvironment session environment (eb_device bound) q));
  _ ← or_return current (r_require (pg_subscribed pg) (ErrOther "preparation subscription"));
  _ ← or_return current (r_require (pg_sent pg) (ErrOther "preparation send"));
  ready ← (λ nd, let '(r, e, p, nd') := awaitPreparation tenantID sessionID pending (MkPrepared (pg_request pg) "") (pg_events pg) nd in
                 match reserves "pending" (λ _, (r, e, nd')) nd with (inr r, nd') => (inr (r, p), nd') | (inl o, nd') => (inl o, nd') end);
  admitted ← reserves "admitted" (reservation_call (PromoteEnvironmentInput leased tenantID sessionID reservationID));
  match eir_receipts admitted with
  | [] => returns (MkEnvironmentRun admitted None) (Some (ErrOther "index out of range"))
  | first :: _ =>
      if rc_replayed first then returns (MkEnvironmentRun admitted None) None else
      mret (MkPromoted session environment (eb_device bound) (ag_model (sn_agent s))
        (with_run q (rq_conversation q) (rc_turn first) (String.concat paragraph_break texts) (rq_work_dir q) (rq_no_environment q))
        (default 0 (rc_sequence <$> last (eir_receipts admitted))) admitted ready.2 texts)
  end.

(** [RunEnvironmentInput]: what it returns, the state afterwards, and what was
    delivered when it came to that. *)
Inductive RunEnvironmentInput (tenantID sessionID reservationID : string) (session turn : N) (nd : node)
  : outcome → node → option (promoted * dstate) → Prop :=
  | environment_returned pg o nd' :
      prepare tenantID sessionID reservationID pg nd = (inl o, nd') →
      RunEnvironmentInput tenantID sessionID reservationID session turn nd o nd' None
  | environment_delivered pg po nd' d status ws x res status' nd1 r rm :
      prepare tenantID sessionID reservationID pg nd = (inr po, nd') →
      delivers float_text usage_left args_len tenantID sessionID session turn (po_request po) (po_through po) (Some (po_prepared po)) (nd_remote nd') d status →
      captureCompletedArtifacts (po_session po) (po_environment po) (po_device po) (rq_run (po_request po)) ws x (dl_result (ds_delivery d)) status
        (MkNode (ds_remote d) (nd_vaults nd') (nd_others nd')) = (res, status', nd1) →
      finishRun float_text tenantID sessionID (rq_run (po_request po)) (po_model po) res status' (nd_remote (meantime nd1)) = (r, rm) →
      RunEnvironmentInput tenantID sessionID reservationID session turn nd
        (MkEnvironmentRun (po_reservation po) (match r with Ok t => Some t | Err _ => None end), match r with Ok _ => None | Err e => Some e end)
        (MkNode rm (nd_vaults (meantime nd1)) (nd_others (meantime nd1))) (Some (po, d)).

(** The worker goes on unless the error concerns an input that was admitted. *)
Definition runEnvironmentInput (o : outcome) : option error :=
  match o.2 with
  | None => None
  | Some e =>
      let state := eir_state (er_reservation o.1) in
      if state =?s "admitted" then Some e
      else if negb (state =?s "pending") && negb (bool_decide (e = ErrNotFound)) then Some e
      else None
  end.
End prepared.
