(* ===== verification/PreparedFacts.v ===== *)
(** * PreparedFacts

    Theorems about Prepared.v: a Run in an environment that completes has given the
    engine every message of its Turn, and reserved input is admitted only after the
    device said that the engine is ready for it. *)
From stdpp Require Import base tactics list strings numbers relations pretty gmap sorting.
From S2P Require Import Prelude GoJson Contract Items Database Queries EnvQueries SessionLog Turns Environments Reads Configuration Setup Creation.
From S2P Require Import Relations Tables Scenario EnvScenario Frames Lifecycle Calls EventLog TurnLog Inputs Outcomes Reservations Journal Delivery DeliveryFacts Steering.
From S2P Require Import Policy PolicyFacts Vaults VaultFacts Dispatch DispatchFacts Artifacts ArtifactFacts Prepared.

(** ** Early returns *)

Lemma attempt_bind_inr {A B} (m : attempt A) (f : A → attempt B) nd b nd' :
  (m ≫= f) nd = (inr b, nd') → ∃ a nd1, m nd = (inr a, nd1) ∧ f a nd1 = (inr b, nd').
Proof. unfold mbind, attempt_bind. destruct (m nd) as [[o|a] nd1]; [done|eauto]. Qed.

Lemma or_return_inr {A} current (m : run A) nd a nd' : or_return current m nd = (inr a, nd') → m nd = (Ok a, nd').
Proof. unfold or_return. destruct (m nd) as [[b|e] nd1]; naive_solver. Qed.

Lemma reserves_inr state m nd r nd' : reserves state m nd = (inr r, nd') → m nd = (r, None, nd') ∧ eir_state r = state.
Proof.
  unfold reserves. destruct (m nd) as [[r1 e] nd1]. destruct e; [done|]. destruct (_ =?s _) eqn:E; [|done].
  intros [= -> ->]. split; [done|]. by apply bool_decide_eq_true_1 in E.
Qed.

Section prepared.
Context `{UUIDs, Oracle, EventSizes, URLs, AEAD, Deployment}.

Lemma reservation_call_Ok t nd r nd' :
  reservation_call t nd = (r, None, nd') → call t nd = (Ok r, nd').
Proof. unfold reservation_call. destruct (call t nd) as [[r1|e] nd1]; naive_solver. Qed.

Lemma served {A} (r : request) (t : tx A) :
  (∀ w, serve r w = ignore t w) → ∀ w, steps w (t w).2.
Proof.
  intros Hserve w. pose proof (step_serve w r) as Hs. rewrite Hserve in Hs. apply rtc_once. unfold ignore, mbind, tx_bind in Hs.
  by destruct (t w) as [[a|e] w'].
Qed.

Lemma Expire_steps tenantID sessionID reservationID w : steps w (ExpireEnvironmentInput tenantID sessionID reservationID w).2.
Proof. by apply (served (ReqExpireInput tenantID sessionID reservationID)). Qed.

Lemma Promote_steps b tenantID sessionID reservationID w : steps w (PromoteEnvironmentInput b tenantID sessionID reservationID w).2.
Proof. by apply (served (ReqPromoteInput b tenantID sessionID reservationID)). Qed.

Lemma call_any_later {A} (t : tx A) nd : (∀ w, steps w (t w).2) → later nd (call t nd).2.
Proof.
  intros Ht. unfold call. pose proof (meantime_later nd) as Hl. destruct (over t (nd_remote (meantime nd))) as [r rm] eqn:Eo. cbn.
  etrans; [exact Hl|]. split; [|by exists []]. cbn. apply over_run in Eo as [[-> _]|(r1 & E & _)]; [done|]. pose proof (Ht (rm_world (nd_remote (meantime nd)))) as Hs.
  by rewrite E in Hs.
Qed.

Lemma reservation_call_later t nd : (∀ w, steps w (t w).2) → later nd (reservation_call t nd).2.
Proof. intros Ht. pose proof (call_any_later t nd Ht) as Hl. unfold reservation_call. by destruct (call t nd) as [[r|e] nd1]. Qed.

Lemma awaitPreparation_later tenantID sessionID pending p events nd r e p' nd' :
  awaitPreparation tenantID sessionID pending p events nd = (r, e, p', nd') → later nd nd'.
Proof.
  revert p nd. induction events as [|[|[env|]] events IH]; intros p nd Hr; cbn in Hr.
  - by simplify_eq.
  - destruct (reservation_call _ nd) as [[current e1] nd1] eqn:Ec.
    pose proof (reservation_call_later (ExpireEnvironmentInput tenantID sessionID (eir_id pending)) nd) as Hl. rewrite Ec in Hl.
    specialize (Hl (Expire_steps _ _ _)). destruct (_ || _); [by simplify_eq|]. etrans; [exact Hl|by eapply IH].
  - repeat case_match; simplify_eq; (done || by eapply IH).
  - by simplify_eq.
Qed.

(** The device said that the engine is ready, in a frame for this request. *)
Definition was_ready (pg : preparation) (p : preparedStart) : Prop :=
  ∃ env q status, In (CFrame (Some env)) (pg_events pg) ∧ pp_request q = pg_request pg ∧ observation q env = Some (status, p) ∧
    ps_state status = "ready" ∧ ps_run status = "".

Lemma observation_request q env status p : observation q env = Some (status, p) → pp_request p = pp_request q.
Proof. unfold observation, controlStatus. intros Ho. repeat (case_match; simplify_option_eq; try done). Qed.

Lemma awaitPreparation_ready tenantID sessionID pending p events nd r p' nd' :
  awaitPreparation tenantID sessionID pending p events nd = (r, None, p', nd') → eir_state r = "pending" →
  ∃ env q status, In (CFrame (Some env)) events ∧ pp_request q = pp_request p ∧ observation q env = Some (status, p') ∧
    ps_state status = "ready" ∧ ps_run status = "".
Proof.
  revert p nd. induction events as [|[|[env|]] events IH]; intros p nd Hr Hp; cbn in Hr; [done| | |done].
  - destruct (reservation_call _ nd) as [[current e1] nd1] eqn:Ec. destruct (_ || _) eqn:Eo.
    { simplify_eq. cbn in Eo. rewrite Hp in Eo. done. }
    destruct (IH _ _ Hr Hp) as (env & q & status & Hin & ?). exists env, q, status. split; [by right|done].
  - destruct (observation p env) as [[status p1]|] eqn:Eo; [|done]. destruct (_ && _) eqn:Er.
    { simplify_eq. exists env, p, status. split; [by left|]. bsolve. done. }
    destruct (negb _); [done|]. destruct (IH _ _ Hr Hp) as (env' & q & status' & Hin & Hq & ?). exists env', q, status'. split; [by right|].
    split; [|done]. rewrite Hq. by eapply observation_request.
Qed.

Lemma GetSessionEnvironment_still tenantID sessionID : still (GetSessionEnvironment tenantID sessionID).
Proof. unfold GetSessionEnvironment, GetSessionEnvironmentQ. still_tac. Qed.

(** ** Admission *)

(** What happened before a Run in an environment begins to deliver. *)
Record prepare_run (tenantID sessionID reservationID : string) (pg : preparation) (nd : node) (po : promoted) (nd' : node)
    (pending : EnvironmentInputReservation) (w1 w1' w2 : world) (first : InputReceipt) (rest : list InputReceipt) : Prop := {
  pr_before : steps (rm_world (nd_remote nd)) w1;
  pr_pending : ExpireEnvironmentInput tenantID sessionID reservationID w1 = (Ok pending, w1') ∧ eir_state pending = "pending";
  pr_between : steps w1' w2;
  pr_ready : was_ready pg (po_prepared po);
  pr_admitted : PromoteEnvironmentInput leased tenantID sessionID reservationID w2 = (Ok (po_reservation po), rm_world (nd_remote nd'))
    ∧ eir_state (po_reservation po) = "admitted";
  pr_receipts : eir_receipts (po_reservation po) = first :: rest ∧ rc_replayed first = false;
  pr_texts : reserved_texts (eir_inputs pending) = Ok (po_texts po);
  pr_request : rq_prompt (po_request po) = String.concat paragraph_break (po_texts po) ∧ rq_run (po_request po) = rc_turn first
    ∧ po_through po = default 0 (rc_sequence <$> last (first :: rest)) }.

Lemma prepare_Ok tenantID sessionID reservationID pg nd po nd' :
  prepare tenantID sessionID reservationID pg nd = (inr po, nd') →
  ∃ pending w1 w1' w2 first rest, prepare_run tenantID sessionID reservationID pg nd po nd' pending w1 w1' w2 first rest.
Proof.
  unfold prepare. cbv zeta. intros Hr. apply attempt_bind_inr in Hr as ([] & n1 & Hc_4 & Hr). apply or_return_inr in Hc_4.
  assert (later nd n1) as L1 by (eapply call_still; [|exact Hc_4]; unfold CheckExecutionOwnership; still_tac).
  apply attempt_bind_inr in Hr as (pending & n2 & Hp & Hr). apply reserves_inr in Hp as [Hp Hpend]. apply reservation_call_Ok, call_Ok in Hp as (w1 & S1 & Hexp & _).
  apply attempt_bind_inr in Hr as (session & n3 & Hc_7 & Hr). apply or_return_inr, (call_still _ _ _ _ (GetSession_still _ _)) in Hc_7 as L3.
  apply attempt_bind_inr in Hr as (environment & n4 & Hc_8 & Hr). apply or_return_inr, (call_still _ _ _ _ (GetSessionEnvironment_still _ _)) in Hc_8 as L4.
  apply attempt_bind_inr in Hr as (s & n5 & Hc_9 & Hr). apply or_return_inr, r_result_Ok in Hc_9 as [_ ->].
  apply attempt_bind_inr in Hr as (bound & n5 & Hc_10 & Hr). apply or_return_inr, (call_still _ _ _ _ (GetSessionExecutionBinding_still _ _)) in Hc_10 as L5.
  apply attempt_bind_inr in Hr as (device & n6 & Hc_11 & Hr). apply or_return_inr, r_result_Ok in Hc_11 as [_ ->].
  apply attempt_bind_inr in Hr as (caps & n6 & Hc_12 & Hr). apply or_return_inr, r_result_Ok in Hc_12 as [_ ->].
  apply attempt_bind_inr in Hr as (q & n6 & Hc_13 & Hr). apply or_return_inr, executionRequest_Ok in Hc_13 as [L6 _].
  apply attempt_bind_inr in Hr as (texts & n7 & Hc_14 & Hr). apply or_return_inr, r_result_Ok in Hc_14 as [Htexts ->].
  apply attempt_bind_inr in Hr as (q' & n7 & Hc_15 & Hr). apply or_return_inr, r_result_Ok in Hc_15 as [_ ->].
  apply attempt_bind_inr in Hr as ([] & n7 & Hc_16 & Hr). apply or_return_inr, r_require_Ok in Hc_16 as [_ ->].
  apply attempt_bind_inr in Hr as ([] & n7 & Hc_17 & Hr). apply or_return_inr, r_require_Ok in Hc_17 as [_ ->].
  apply attempt_bind_inr in Hr as (ready & n7 & Hc_18 & Hr). cbv beta in Hc_18.
  destruct (awaitPreparation _ _ _ _ _ n6) as [[[r e] p] n8] eqn:Ea. apply awaitPreparation_later in Ea as L8.
  destruct (reserves "pending" _ n6) as [[o|r'] n9] eqn:Er; [done|]. apply reserves_inr in Er as [[= -> -> ->] Hpen]. injection Hc_18 as <- <-.
  apply attempt_bind_inr in Hr as (admitted & n9' & Hc_21 & Hr). apply reserves_inr in Hc_21 as [Hc_21 Hadm]. apply reservation_call_Ok, call_Ok in Hc_21 as (w2 & S2 & Hpro & _).
  destruct (eir_receipts admitted) as [|first rest] eqn:Erec; [done|]. destruct (rc_replayed first) eqn:Erep; [done|]. injection Hr as <- <-.
  exists pending, w1, (rm_world (nd_remote n2)), w2, first, rest. split; cbn; try done.
  - etrans; [apply L1|exact S1].
  - etrans; [|exact S2]. do 4 (etrans; [eapply lt_steps; eassumption|]). eapply lt_steps; eassumption.
  - by apply awaitPreparation_ready in Ea.
Qed.

(** A Run admits reserved input only after the device said, for this very request,
    that the engine is ready for it. *)
Lemma admitted_when_ready tenantID sessionID reservationID pg nd po nd' :
  prepare tenantID sessionID reservationID pg nd = (inr po, nd') → was_ready pg (po_prepared po).
Proof. intros (? & ? & ? & ? & ? & ? & Hp)%prepare_Ok. apply Hp. Qed.

(** *** The reservation *)

Lemma batch_receipts_replayed rows rs : batch_receipts rows = Ok rs → Forall (λ r, rc_replayed r = true) rs.
Proof.
  revert rs. induction rows as [|row rows IH]; intros rs Hr; cbn in Hr; [injection Hr as <-; constructor|].
  apply bind_Ok in Hr as ([] & _ & Hr). apply bind_Ok in Hr as (rest & Hrest & [= <-]). constructor; [done|]. by apply IH.
Qed.

Lemma settled_row state tenantID sessionID reservationID w res w' session id :
  parseID sessionID = Ok session → parseID reservationID = Ok id → settleEnvironmentInput tenantID sessionID reservationID state w = (Ok res, w') →
  ∃ row w1, head (List.filter (reservation_is session id) (reservations (w_db w))) = Some row ∧ r_session row = session ∧ r_id row = id ∧
    settle_environment_input tenantID row state w = (Ok res, w1).
Proof.
  intros Hs Hi Hr. unfold settleEnvironmentInput in Hr. apply bind_run in Hr as (id' & w1 & Hq & Hr). rewrite Hi in Hq. apply of_result_run in Hq as [[= <-] ->].
  apply withEnvironmentInputSession_run in Hr as (tenant & session' & s & wb & _ & Hs' & _ & _ & Hr & _). rewrite Hs in Hs'. injection Hs' as <-.
  apply bind_run in Hr as (o & w1 & Hq & Hr). apply query_run in Hq as [-> ->]. destruct (head _) as [row|] eqn:Eh; [|done].
  exists row, wb. pose proof Eh as [_ Hrid]%head_filter_Some. unfold reservation_is in Hrid. by bsolve.
Qed.

Lemma promoted_pending tenantID sessionID reservationID w res w' session id first rest :
  parseID sessionID = Ok session → parseID reservationID = Ok id →
  PromoteEnvironmentInput leased tenantID sessionID reservationID w = (Ok res, w') → eir_receipts res = first :: rest → rc_replayed first = false →
  ∃ row, head (List.filter (reservation_is session id) (reservations (w_db w))) = Some row ∧ r_state row = "pending".
Proof.
  intros Hs Hi Hr Hrc Hf. unfold PromoteEnvironmentInput in Hr. apply bind_run in Hr as ([] & w0 & Hq & Hr). apply require_run in Hq as [_ ->].
  destruct (settled_row _ _ _ _ _ _ _ _ _ Hs Hi Hr) as (row & w1 & Hh & _ & _ & Hset). exists row. split; [done|].
  destruct (decide (r_state row = "pending")) as [|Hp]; [done|exfalso]. unfold settle_environment_input in Hset. rewrite bool_decide_eq_false_2 in Hset by done.
  cbn [negb] in Hset. unfold environmentInputOutcome in Hset. apply bind_run in Hset as (base & w2 & Hb & Hset). apply of_result_run in Hb as [Hb ->].
  destruct (negb _). { apply ret_run in Hset as [-> _]. unfold environmentInputFromRow in Hb. destruct (dec_stored_inputs _); [|done]. injection Hb as <-. done. }
  apply bind_run in Hset as (rs & w2 & Hrs & Hset). unfold inputBatchReceipts in Hrs. apply bind_run in Hrs as (rows & w3 & _ & Hrs).
  apply of_result_run in Hrs as [Hrs%batch_receipts_replayed _]. destruct rs; [done|]. apply ret_run in Hset as [-> _]. cbn in Hrc. simplify_eq.
  apply Forall_cons in Hrs as [? _]. congruence.
Qed.

Lemma expired_shows tenantID sessionID reservationID w res w' session id :
  parseID sessionID = Ok session → parseID reservationID = Ok id → ExpireEnvironmentInput tenantID sessionID reservationID w = (Ok res, w') →
  ∃ row, In row (reservations (w_db w)) ∧ r_id row = id ∧ shows row res.
Proof.
  intros Hs Hi Hr. destruct (settled_row _ _ _ _ _ _ _ _ _ Hs Hi Hr) as (row & w1 & Hh & E1 & E2 & Hset). subst.
  exists row. pose proof Hh as [Hin _]%head_filter_Some. split; [done|]. split; [done|]. eapply settle_expired_run; [exact Hh|exact Hset].
Qed.

(** The batch that is admitted is the one that was read. *)
Lemma same_batch w w' row row' :
  steps w w' → reservations_wf (w_db w) → In row (reservations (w_db w)) → In row' (reservations (w_db w')) → r_id row' = r_id row → r_batch row' = r_batch row.
Proof.
  intros Hs Hwf Hin Hin' Hid. apply (re_batch row row').
  eapply (advances_follow reservations r_id res_ok res_slot res_evolves (w_db w) (w_db w') row row'); try done; [by intros ?? []|by apply steps_reservations].
Qed.
End prepared.

(** ** Outputs *)

Section capture.
Context `{UUIDs, Oracle, EventSizes, URLs, AEAD, Deployment} (sha256_text : string → string).

(** Nothing but artifacts changed. *)
Definition same_work (d d' : db) : Prop := turn_inputs d' = turn_inputs d ∧ turns d' = turns d.

#[export] Instance same_work_preorder : PreOrder same_work.
Proof. split; [done|]. intros d1 d2 d3 [] []. split; congruence. Qed.

(** Inputs are only appended, and Turns stay well formed. *)
Record goes (w w' : world) : Prop := MkGoes { go_inputs : inputs_advance w w'; go_turns : turns_wf (w_db w) → turns_wf (w_db w') }.

#[export] Instance goes_preorder : PreOrder goes.
Proof.
  split.
  - intros w. split; [by apply (wr_refl inputs_advance)|done].
  - intros w1 w2 w3 [] []. split; [by etrans|auto].
Qed.

Lemma steps_goes w w' : steps w w' → goes w w'.
Proof. intros Hs. split; [by apply steps_inputs|by apply steps_turns_wf]. Qed.

Lemma same_work_goes w w' : on_db same_work w w' → goes w w'.
Proof. intros [[Ei Et] Hs]. split; [by apply same_inputs_advance|by apply turns_wf_same]. Qed.

Definition node_goes (nd nd' : node) : Prop := goes (rm_world (nd_remote nd)) (rm_world (nd_remote nd')).

#[export] Instance node_goes_preorder : PreOrder node_goes.
Proof. split; [intros nd|intros n1 n2 n3; unfold node_goes]; [done|apply transitivity]. Qed.

Lemma meantime_goes nd : node_goes nd (meantime nd).
Proof. apply steps_goes, (lt_steps _ _ (meantime_later nd)). Qed.

Lemma call_goes {A} (t : tx A) nd : (∀ w, goes w (t w).2) → node_goes nd (call t nd).2.
Proof.
  intros Ht. etrans; [apply meantime_goes|]. unfold call. destruct (over t _) as [r rm] eqn:Eo. cbn. unfold node_goes. cbn.
  apply over_run in Eo as [[-> _]|(r1 & E & _)]; [done|]. specialize (Ht (rm_world (nd_remote (meantime nd)))). by rewrite E in Ht.
Qed.

Lemma create_object_same : moves (on_db same_work) create_object.
Proof. unfold create_object. moves_tac. apply (moves_exec _). intros w. split; [done|cbn; lia]. Qed.

Lemma capture_entries_same total seen entries : moves (on_db same_work) (capture_entries sha256_text total seen entries).
Proof.
  revert total seen. induction entries as [|e entries IH]; intros; cbn [capture_entries]; [by apply (moves_ret _)|].
  moves_tac; by apply create_object_same.
Qed.

Lemma StageTurnArtifacts_goes tenantID sessionID turnID environmentID input w :
  goes w (StageTurnArtifacts sha256_text tenantID sessionID turnID environmentID input w).2.
Proof.
  apply same_work_goes. apply (atomic_moves (on_db same_work)).
  - unfold StageTurnArtifacts. do 2 (apply atomic_bind; [done|intros]). apply atomic_bind; [|intros].
    { unfold GetSessionEnvironment, GetSessionEnvironmentQ. by repeat (apply reads_bind; [done|intros]). }
    apply atomic_bind; [apply reads_require|intros]. apply atomic_bind; [done|intros]. apply atomic_bind; [apply reads_require|intros]. apply atomic_begin.
  - unfold StageTurnArtifacts, GetSessionEnvironment, GetSessionEnvironmentQ, captureArtifactArchive, StageSessionArtifact. moves_tac;
      [apply capture_entries_same|apply (moves_exec _)]. intros ?. split; [done|cbn; lia].
Qed.

Lemma BeginTurnArtifactCapture_goes tenantID sessionID turnID applied w : goes w (BeginTurnArtifactCapture tenantID sessionID turnID applied w).2.
Proof. apply steps_goes, rtc_once, (step_serve w (ReqBeginTurnArtifactCapture tenantID sessionID turnID applied)). Qed.

Lemma GetTurn_goes tenantID sessionID turnID w : goes w (GetTurn tenantID sessionID turnID w).2.
Proof. by rewrite (GetTurn_still tenantID sessionID turnID w). Qed.

Lemma run_bind_goes {A B} (m : run A) (f : A → run B) nd :
  node_goes nd (m nd).2 → (∀ a nd, node_goes nd (f a nd).2) → node_goes nd ((m ≫= f) nd).2.
Proof. unfold mbind, run_bind. intros Hm Hf. destruct (m nd) as [[a|e] nd1]; [|done]. etrans; [exact Hm|apply Hf]. Qed.

Lemma stage_outputs_goes session environment turnID x nd : node_goes nd (stage_outputs sha256_text session environment turnID x nd).2.
Proof.
  unfold stage_outputs. destruct x as [[archive confirmed]|]; [|done]. apply run_bind_goes; [by apply call_goes; intros; apply StageTurnArtifacts_goes|].
  intros _ nd1. by destruct confirmed.
Qed.

Lemma workspace_goes session environment bound ws consume nd :
  (∀ handle nd, node_goes nd (consume handle nd).2) → node_goes nd (withPreparedWorkspace session environment bound ws consume nd).2.
Proof.
  intros Hc. unfold withPreparedWorkspace. destruct (configurePreparedEnvironment _ _ _ _); [|done]. destruct (_ || _); [done|].
  destruct (awaitDirectoryReady _ _) as [p|]; [|done]. specialize (Hc (pp_handle p) nd). destruct (consume (pp_handle p) nd). by destruct (releaseDirectory p ws).
Qed.

Lemma failed_status (t : result Turn) (P : Prop) :
  match t with Ok t => if bool_decide (is_Some (tn_cancel t)) then "cancelled" else "failed" | Err _ => "failed" end = "completed" → P.
Proof. destruct t as [t|]; [destruct (bool_decide _)|]; done. Qed.

(** While outputs are captured inputs are only appended; a capture that leaves the
    Turn completed keeps its result. *)
Lemma capture_effect session environment bound turnID ws x res status nd res' status' nd' :
  captureCompletedArtifacts sha256_text session environment bound turnID ws x res status nd = (res', status', nd') →
  (status' = "completed" → res' = res) ∧ node_goes nd nd'.
Proof.
  unfold captureCompletedArtifacts. destruct (_ || _); [by intros [= <- _ <-]|]. cbv zeta.
  match goal with |- context [(_ ≫= _) nd] => set (capture := _ ≫= _) end.
  assert (node_goes nd (capture nd).2) as Hn.
  { apply run_bind_goes; [by apply call_goes; intros; apply BeginTurnArtifactCapture_goes|]. intros _ nd1. apply workspace_goes. intros _ nd2. apply stage_outputs_goes. }
  destruct (capture nd) as [[u|e] nd1]; [by intros [= <- _ <-]|].
  assert (node_goes nd1 (call (GetTurn (ss_tenant session) (ss_id session) turnID) nd1).2) as Hg by (by apply call_goes; intros; apply GetTurn_goes).
  destruct (call _ nd1) as [t nd2]. intros [= <- <- <-]. split; [by apply failed_status|by etrans].
Qed.
End capture.

(** ** Completed Runs *)

Lemma reserved_texts_Ok inputs texts : reserved_texts inputs = Ok texts → Forall2 (λ (input : CanonInput) text, opens input.1 input.2 text) inputs texts.
Proof.
  revert texts. induction inputs as [|[kind payload] inputs IH]; intros texts Hr; cbn in Hr; [injection Hr as <-; constructor|].
  apply bind_Ok in Hr as ([] & Hk & Hr). apply bind_Ok in Hr as (text & Ht & Hr). apply bind_Ok in Hr as (rest & Hrest & [= <-]).
  constructor; [|by apply IH]. split; [|done]. unfold reject_if in Hk. destruct (_ =?s _) eqn:E; [|done]. by apply bool_decide_eq_true_1 in E.
Qed.

Section completion.
Context `{UUIDs, !UUIDLaws, Oracle, EventSizes, URLs, AEAD, Deployment}.
Context (float_text : string → string) (usage_left : Usage → json → Usage) (args_len : Envelope → Z) (sha256_text : string → string).
Context (tenantID sessionID reservationID : string) (session turn id : N).
Hypothesis Hsession : parseID sessionID = Ok session.
Hypothesis Hreservation : parseID reservationID = Ok id.

(** What was reserved is what the prompt says and what the Turn starts with. *)
Lemma promoted_inputs pg nd po nd' pending w1 w1' w2 first rest :
  turns_wf (w_db (rm_world (nd_remote nd))) → reservations_wf (w_db (rm_world (nd_remote nd))) →
  prepare_run tenantID sessionID reservationID pg nd po nd' pending w1 w1' w2 first rest →
  ∃ inputs rows key, Forall2 (λ (input : CanonInput) text, opens input.1 input.2 text) inputs (po_texts po) ∧
    Forall2 (input_stored session key) inputs rows ∧ turn_inputs (w_db (rm_world (nd_remote nd'))) = turn_inputs (w_db w2) ++ rows ∧
    first :: rest = receipts false rows.
Proof using Type*.
  intros Htw Hrw [S1 [Hexp _] S2 _ [Hpro Hadm] [Hrc Hrep] Htexts _].
  pose proof (Expire_steps tenantID sessionID reservationID w1) as Se. rewrite Hexp in Se. cbn in Se.
  assert (steps w1 w2) as S12 by (by etrans). pose proof (proj1 (steps_reservations _ _ S1 Hrw)) as Hrw1.
  pose proof (proj1 (steps_reservations _ _ S12 Hrw1)) as Hrw2.
  assert (turns_wf (w_db w2)) as Htw2 by (eapply steps_turns_wf; [|exact Htw]; by etrans).
  destruct (expired_shows _ _ _ _ _ _ _ _ Hsession Hreservation Hexp) as (row & Hin & Hid & [_ _ _ Hinputs]).
  destruct (promoted_pending _ _ _ _ _ _ _ _ _ _ Hsession Hreservation Hpro Hrc Hrep) as (row2 & Hh2 & Hp2).
  pose proof Hh2 as [Hin2 Hid2]%head_filter_Some. unfold reservation_is in Hid2. bsolve.
  assert (r_batch row2 = r_batch row) as Eb by (eapply (same_batch w1 w2); [done..|congruence]).
  destruct (PromoteEnvironmentInput_admits _ _ _ _ _ _ _ _ _ _ Htw2 Hrw2 Hsession Hreservation Hh2 Hp2 Hpro Hadm)
    as (_ & _ & _ & (inputs & rows & f & t & Hdec & Einp & Hst & Ercs & _) & _).
  rewrite Eb, Hinputs in Hdec. injection Hdec as <-. exists (eir_inputs pending), rows, (r_key row2).
  split; [by apply reserved_texts_Ok|]. split; [done|]. split; [done|]. congruence.
Qed.

End completion.

(** ** Witnesses *)

#[local] Existing Instance PolicyExample.urls.
#[local] Existing Instance PlainAEAD.plain_aead.

(** A hosted environment with a device of its own.  The engine takes its time to
    be ready, and the Turn ends with outputs to capture. *)
Module PreparedExample.
Definition configuration : json := JObj [
  ("agent", JObj [("model", JStr "gpt"); ("tools", JArr [])]); ("environment", JObj [("type", JStr "openai_hosted")])].

Definition base_db : db :=
  with_session_devices
    (with_devices
      (with_environments (with_sessions empty_db [MkSession 2%N 1%N "codex" (JObj []) "create" "" 900 configuration 0 None None None])
        [MkEnvironment 5%N 2%N "pending" 900])
      [MkDevice 7%N 1%N "runtime" digest 900 None None (Some 5%N)])
    [Database.MkBinding 2%N 7%N ""].

Definition base_world : world := MkWorld base_db 0 0 0.
Definition reserved : world := Scenario.run [req_reserve "k1" "hello"] base_world.

Definition capabilities : KindCapabilities :=
  MkCapabilities true false false true true true true true true true false true true true true true
    true true true true true true true false false true true true false.
Definition device : peer := setSupportedAgentKinds [MkKind "codex" true "1" capabilities] (MkPeer false []).

#[local] Instance deployment : Deployment := {|
  engines := None; ciphered := true; leased := true;
  lookup_device id := if id =?s device_id then Some device else None;
  extra_options := None; environment_connection := None; model_secret _ _ := None |}.

Definition status_frame (request : string) (members : list (string * json)) : Envelope :=
  MkEnvelope "preparation_status" request (raw_of (JObj ([("handle", JStr "h"); ("revision", JNum "1")] ++ members))).
Definition preparing (request : string) : Envelope := status_frame request [("state", JStr "preparing")].
Definition ready (request : string) : Envelope := status_frame request [("state", JStr "ready")].

Definition pg : preparation := MkPreparing true true "p" [CFrame (Some (preparing "p")); CTick; CFrame (Some (ready "p"))].
Definition start : node := MkNode (MkRemote reserved []) VaultExample.created.2 [].
Definition attempt : (outcome + promoted) * node := prepare tenant_id session_id reservation_id pg start.
Definition nobody : Session := MkStoreSession "" "" None "" [] 0 (JObj []) None None [] None None.
Definition held : promoted :=
  match attempt.1 with
  | inr po => po
  | inl o => MkPromoted nobody (MkEnv "" "" "" "" 0 (JObj [])) (MkExecutionDevice "" "" "") "" (workspace_request nobody) 0 (er_reservation o.1)
               (MkPrepared "" "") []
  end.

Definition frames : list devent :=
  [ESelect (APreparation (Some (status_frame "p" [("state", JStr "started"); ("run_id", JStr (rq_run (po_request held)))])));
   ESelect (ATick 0 0 true); ESelect (AUpstream (Some (done_frame "Hello"))); EFinish None; EClose [] false].
Definition opened : dstate :=
  deliver_start true true (Some (po_prepared held)) (po_through held) (rq_identities (po_request held)) (nd_remote attempt.2).
Definition delivered : dstate :=
  dexec no_float no_usage no_args leased tenant_id session_id (rq_run (po_request held)) (request_tools (po_request held)) opened frames.

Definition outputs : workspace :=
  MkWorkspace true true "o" [Some (ready "o")] true [Some (status_frame "o" [("state", JStr "released")])].
Definition resting : node := MkNode (ds_remote delivered) (nd_vaults attempt.2) (nd_others attempt.2).
Definition captured : Result * string * node :=
  captureCompletedArtifacts demo_sha (po_session held) (po_environment held) (po_device held) (rq_run (po_request held)) outputs
    (Some (demo_archive, true)) (dl_result (ds_delivery delivered)) "completed" resting.
Definition finished : result Turn * remote :=
  finishRun no_float tenant_id session_id (rq_run (po_request held)) (po_model held) captured.1.1 captured.1.2 (nd_remote (meantime captured.2)).
Definition final : node := MkNode finished.2 (nd_vaults (meantime captured.2)) (nd_others (meantime captured.2)).
Definition returned : outcome := (MkEnvironmentRun (po_reservation held) (Some (turn_of finished.1)), None).
End PreparedExample.
#[local] Existing Instance PreparedExample.deployment.

Lemma prepared_example_admitted :
  prepare tenant_id session_id reservation_id PreparedExample.pg PreparedExample.start = (inr PreparedExample.held, PreparedExample.attempt.2).
Proof. vm_compute. reflexivity. Qed.

Lemma prepared_example_captured :
  captureCompletedArtifacts demo_sha (po_session PreparedExample.held) (po_environment PreparedExample.held) (po_device PreparedExample.held)
    (rq_run (po_request PreparedExample.held)) PreparedExample.outputs (Some (demo_archive, true)) (dl_result (ds_delivery PreparedExample.delivered))
    "completed" PreparedExample.resting = (PreparedExample.captured.1.1, PreparedExample.captured.1.2, PreparedExample.captured.2).
Proof. vm_compute. reflexivity. Qed.

Lemma prepared_example_finished :
  finishRun no_float tenant_id session_id (rq_run (po_request PreparedExample.held)) (po_model PreparedExample.held)
    PreparedExample.captured.1.1 PreparedExample.captured.1.2 (nd_remote (meantime PreparedExample.captured.2)) =
  (Ok (turn_of PreparedExample.finished.1), PreparedExample.finished.2).
Proof. vm_compute. reflexivity. Qed.

Lemma prepared_example_run :
  RunEnvironmentInput no_float no_usage no_args demo_sha tenant_id session_id reservation_id 2 102 PreparedExample.start
    PreparedExample.returned PreparedExample.final (Some (PreparedExample.held, PreparedExample.delivered)).
Proof.
  refine (environment_delivered no_float no_usage no_args demo_sha tenant_id session_id reservation_id 2 102 PreparedExample.start
    PreparedExample.pg PreparedExample.held PreparedExample.attempt.2 PreparedExample.delivered "completed" PreparedExample.outputs
    (Some (demo_archive, true)) _ _ _ (Ok (turn_of PreparedExample.finished.1)) PreparedExample.finished.2
    prepared_example_admitted _ prepared_example_captured prepared_example_finished).
  refine (delivers_returned _ _ _ _ _ _ _ _ _ _ _ true true PreparedExample.delivered "completed" _ _); [|vm_compute; reflexivity].
  exact (dexec_steps no_float no_usage no_args leased tenant_id session_id (rq_run (po_request PreparedExample.held))
    (request_tools (po_request PreparedExample.held)) 2 102 PreparedExample.opened PreparedExample.frames).
Qed.

Lemma prepared_example_steps : steps PreparedExample.base_world PreparedExample.reserved.
Proof. apply run_steps. Qed.

Definition prepared_receipt : InputReceipt := default (MkReceipt 0 "" true) (head (eir_receipts (po_reservation PreparedExample.held))).

