(* ===== verification/Uploads.v ===== *)
(** * Uploads

    How a file gets from the service into a workspace: [WriteWorkspaceFile] of the
    gateway ([internal/agentdaemon/gateway/workspace_write.go]), the router of the
    local daemon ([apps/parsar-daemon/internal/dispatch/workspace_write.go]), its
    writer ([localworkspace/write.go]) and the answers of the helper process
    ([packages/codex-executor/src/bin/write.rs]), over the frames of
    [internal/agentdaemon/proto/workspace_write.go].

    The gateway and the daemon run concurrently and talk over a connection that
    may lose frames; the system is a transition relation with one rule per critical
    section, send and receive.  Timers and cancelled contexts may fire at any
    time.  Frames carry decoded payloads; their size is that of the encoding.  What
    the helper installed is recorded in [sy_applied]. *)
From stdpp Require Import base tactics list strings numbers relations pretty.
From S2P Require Import Prelude GoJson Contract Items Database Queries EnvQueries SessionLog Turns Environments Reads Configuration Setup Artifacts.

(** ** Frames *)

Definition size (data : list Byte.byte) : Z := Z.of_nat (length data).

Definition WorkspaceWriteMaxBytes : Z := 50 * 2 ^ 20.
Definition WorkspaceWriteChunkBytes : Z := 64 * 2 ^ 10.
Definition WorkspaceWriteMaxFrameBytes : Z := 96 * 2 ^ 10.

Record WorkspaceWritePayload := MkWritePayload {
  ww_step : string; ww_environment : string; ww_session : string; ww_path : string; ww_size : Z; ww_sha : string;
  ww_offset : Z; ww_data : list Byte.byte }.

Record WorkspaceWriteResultPayload := MkWriteResult { wr_outcome : string; wr_offset : Z; wr_size : Z; wr_code : string }.

Section payloads.
Context `{UUIDs}.

Definition ValidWorkspaceWriteRequest (p : WorkspaceWritePayload) : bool :=
  if ww_step p =?s "begin" then
    canonical_uuid (ww_environment p) && canonical_uuid (ww_session p) && (sha256_digest (ww_sha p) =?s Some (ww_sha p))
    && (0 <=? ww_size p) && (ww_size p <=? WorkspaceWriteMaxBytes) && (ww_offset p =? 0) && bool_decide (ww_data p = [])
    && (str_len (ww_path p) <=? 4096) && negb (ww_path p =?s ".") && valid_path (ww_path p) && negb (contains_any (ww_path p) path_forbidden)
  else if negb ((ww_environment p =?s "") && (ww_session p =?s "") && (ww_path p =?s "") && (ww_size p =? 0) && (ww_sha p =?s "")) then false
  else if ww_step p =?s "chunk" then
    (0 <=? ww_offset p) && (ww_offset p <=? WorkspaceWriteMaxBytes) && (0 <? size (ww_data p)) && (size (ww_data p) <=? WorkspaceWriteChunkBytes)
  else if ww_step p =?s "commit" then (ww_offset p =? 0) && bool_decide (ww_data p = [])
  else false.
End payloads.

(** [encoding/json] prints bytes in base64. *)
Definition base64_digit (n : N) : Ascii.ascii :=
  Ascii.ascii_of_N (if n <? 26 then 65 + n else if n <? 52 then 71 + n else if n <? 62 then n - 4 else if n =? 62 then 43 else 47)%N.

Definition base64_group (a b c : N) : list Ascii.ascii :=
  let n := (a * 65536 + b * 256 + c)%N in
  List.map (λ d, base64_digit (n / d mod 64)%N) [262144; 4096; 64; 1]%N.

Fixpoint base64 (data : list Byte.byte) : string :=
  let n b := Byte.to_N b in
  let pad := Ascii.ascii_of_nat 61 in
  match data with
  | [] => ""
  | [a] => String.string_of_list_ascii (take 2 (base64_group (n a) 0 0) ++ [pad; pad])
  | [a; b] => String.string_of_list_ascii (take 3 (base64_group (n a) (n b) 0) ++ [pad])
  | a :: b :: c :: rest => String.string_of_list_ascii (base64_group (n a) (n b) (n c)) +:+ base64 rest
  end.

Definition enc_write (p : WorkspaceWritePayload) : json :=
  let opt k (v : string) := if v =?s "" then [] else [(k, JStr v)] in
  let num k (v : Z) := if v =? 0 then [] else [(k, JNum (pretty v))] in
  JObj ([("step", JStr (ww_step p))] ++ opt "environment_id" (ww_environment p) ++ opt "session_id" (ww_session p) ++ opt "path" (ww_path p)
    ++ num "size_bytes" (ww_size p) ++ opt "sha256" (ww_sha p) ++ num "offset" (ww_offset p) ++ opt "data" (base64 (ww_data p))).

Definition frame_fits (p : WorkspaceWritePayload) : bool := json_len (enc_write p) <=? WorkspaceWriteMaxFrameBytes.

(** ** The gateway *)

(** Which answer a call waits for: to the announcement, to the chunk from one
    offset up to another, to the commit. *)
Inductive awaited := AReady | AReceived (from upto : Z) | ACompleted.

Inductive position := PSend (a : awaited) | PWait (a : awaited) | PReturned (r : result WorkspaceWriteResultPayload).

(** A call of [WriteWorkspaceFile]: [ca_reply] is its reply channel, [ca_open]
    whether its entry in [workspaceWrites] is still there. *)
Record write_call := MkCall {
  ca_id : string; ca_request : WorkspaceWritePayload; ca_data : list Byte.byte; ca_at : position;
  ca_reply : option WorkspaceWriteResultPayload; ca_open : bool }.

Definition at_position (c : write_call) (p : position) : write_call :=
  MkCall (ca_id c) (ca_request c) (ca_data c) p (ca_reply c) (match p with PReturned _ => false | _ => ca_open c end).
Definition set_reply (c : write_call) (r : option WorkspaceWriteResultPayload) : write_call :=
  MkCall (ca_id c) (ca_request c) (ca_data c) (ca_at c) r (ca_open c).
Definition close_call (c : write_call) : write_call := MkCall (ca_id c) (ca_request c) (ca_data c) (ca_at c) (ca_reply c) false.

Definition invalid_write : error := ErrOther "agentdaemon gateway: invalid workspace write".
Definition write_capacity : error := ErrOther "agentdaemon gateway: workspace write capacity".
Definition invalid_write_frame : error := ErrOther "agentdaemon gateway: invalid write frame".
Definition invalid_receipt : error := ErrOther "agentdaemon gateway: invalid write receipt".
Definition ErrSessionClosed : error := ErrOther "agentdaemon gateway: session closed".

Definition slice (data : list Byte.byte) (from upto : Z) : list Byte.byte := take (Z.to_nat (upto - from)) (drop (Z.to_nat from) data).

(** The payload that is answered by [a]. *)
Definition frame (request : WorkspaceWritePayload) (data : list Byte.byte) (a : awaited) : WorkspaceWritePayload :=
  match a with
  | AReady => request
  | AReceived from upto => MkWritePayload "chunk" "" "" "" 0 "" from (slice data from upto)
  | ACompleted => MkWritePayload "commit" "" "" "" 0 "" 0 []
  end.

(** The head of the loop over the chunks. *)
Definition next_frame (data : list Byte.byte) (offset : Z) : awaited :=
  if offset <? size data then AReceived offset (Z.min (offset + WorkspaceWriteChunkBytes) (size data)) else ACompleted.

Definition validWorkspaceWriteResult (r : WorkspaceWriteResultPayload) (expected : string) (offset total : Z) : bool :=
  if wr_outcome r =?s "rejected" then
    (wr_offset r =? 0) && (wr_size r =? 0)
    && existsb (λ code, wr_code r =?s code) ["invalid_request"; "resource_unavailable"; "write_capacity"; "write_unsupported"; "write_rejected"]
  else if wr_outcome r =?s "unknown" then (wr_offset r =? 0) && (wr_size r =? 0) && (wr_code r =?s "write_unconfirmed")
  else (wr_outcome r =?s expected) && (wr_offset r =? offset) && (wr_code r =?s "")
       && (if expected =?s "completed" then wr_size r =? total else wr_size r =? 0).

Definition expected (a : awaited) : string * Z :=
  match a with AReady => ("ready", 0) | AReceived _ upto => ("received", upto) | ACompleted => ("completed", 0) end.

(** What follows the receipt of an answer. *)
Definition receive (data : list Byte.byte) (a : awaited) (r : WorkspaceWriteResultPayload) : position :=
  if negb (validWorkspaceWriteResult r (expected a).1 (expected a).2 (size data)) then PReturned (Err invalid_receipt) else
  match a with
  | AReady => if wr_outcome r =?s "ready" then PSend (next_frame data 0) else PReturned (Ok r)
  | AReceived _ upto => if wr_outcome r =?s "received" then PSend (next_frame data upto) else PReturned (Ok r)
  | ACompleted => PReturned (Ok r)
  end.

Section gateway.
Context `{UUIDs} (sha256_text : string → string).

Definition sha256_bytes (data : list Byte.byte) : string := sha256_text (String.string_of_list_byte data).

(** The announcement of a write. *)
Definition announcement (environment session path : string) (data : list Byte.byte) : WorkspaceWritePayload :=
  MkWritePayload "begin" environment session path (size data) (sha256_bytes data) 0 [].

(** [WriteWorkspaceFile] up to its first exchange, on a session that is closed or
    has a call in progress already. *)
Definition open_write (closed busy : bool) (id environment session path : string) (data : list Byte.byte) : result write_call :=
  let request := announcement environment session path data in
  _ ← reject_if (negb (canonical_uuid id) || (WorkspaceWriteMaxBytes <? size data) || negb (ValidWorkspaceWriteRequest request)) invalid_write;
  _ ← reject_if closed ErrSessionClosed;
  _ ← reject_if busy write_capacity;
  Ok (MkCall id request data (PSend AReady) None true).

(** [dispatchWorkspaceWrite]: an answer reaches a call that is open and has none
    unread. *)
Definition dispatchWorkspaceWrite (id : string) (r : WorkspaceWriteResultPayload) (c : write_call) : write_call :=
  if (ca_id c =?s id) && ca_open c && bool_decide (ca_reply c = None) then set_reply c (Some r) else c.
End gateway.

(** ** The daemon *)

(** The goroutine of an upload waits; is between its two critical sections with
    the data to apply, or with an answer; or has ended. *)
Inductive upload_stage := UWaiting | UApplying (apply : bool) (data : list Byte.byte) | UAnswering (r : WorkspaceWriteResultPayload) | UEnded.

Record workspaceUpload := MkUpload {
  up_id : string; up_request : WorkspaceWritePayload; up_data : list Byte.byte; up_finished : bool; up_apply : bool; up_uncertain : bool;
  up_stage : upload_stage }.

(** The fields of [Router] an upload depends on; [ro_owned] tells whether there
    are sessions, idle sessions or preparations that own the workspace. *)
Record router := MkRouter { ro_closed : bool; ro_export : bool; ro_owned : bool; ro_upload : option workspaceUpload }.

Definition with_upload (r : router) (u : option workspaceUpload) : router := MkRouter (ro_closed r) (ro_export r) (ro_owned r) u.

Definition rejectedWorkspaceWrite (code : string) : WorkspaceWriteResultPayload := MkWriteResult "rejected" 0 0 code.

(** [localworkspace.Binding], and its writer when it has one. *)
Record LocalBinding := MkWorkspaceBinding { bd_environment : string; bd_state_key : string; bd_writer : bool }.

Definition AcceptsFileWrite (b : option LocalBinding) (environment session : string) : bool :=
  match b with
  | None => false
  | Some b => bd_writer b && (bd_environment b =?s environment) && (bd_state_key b =?s "agents-api-" +:+ session)
  end.

Section daemon.
Context `{UUIDs} (sha256_text : string → string) (workspace : option LocalBinding).

(** [handleWorkspaceWrite]: the router afterwards, and the answer it sends unless
    it returns an error. *)
Definition handleWorkspaceWrite (id : string) (p : WorkspaceWritePayload) (r : router) : router * option WorkspaceWriteResultPayload :=
  let refuse code := (r, Some (rejectedWorkspaceWrite code)) in
  if negb (canonical_uuid id) then (r, None) else
  let pending := match ro_upload r with Some u => up_id u =?s id | None => false end in
  if negb (frame_fits p) || negb (ValidWorkspaceWriteRequest p) then if pending then (r, None) else refuse "invalid_request" else
  if ro_closed r then (r, None) else
  if ww_step p =?s "begin" then
    if ro_export r then refuse "resource_unavailable" else
    match ro_upload r with
    | Some _ => if pending then (r, None) else refuse "write_capacity"
    | None =>
        if negb (AcceptsFileWrite workspace (ww_environment p) (ww_session p)) || ro_owned r then refuse "resource_unavailable"
        else (with_upload r (Some (MkUpload id p [] false false false UWaiting)), Some (MkWriteResult "ready" 0 0 ""))
    end
  else
    match ro_upload r with
    | None => refuse "resource_unavailable"
    | Some u =>
        if negb pending then refuse "resource_unavailable"
        else if up_finished u then (r, None)
        else if (ww_step p =?s "chunk") && (ww_offset p =? size (up_data u)) && (size (ww_data p) <=? ww_size (up_request u) - size (up_data u)) then
          let data := up_data u ++ ww_data p in
          (with_upload r (Some (MkUpload id (up_request u) data false (up_apply u) (up_uncertain u) (up_stage u))),
           Some (MkWriteResult "received" (size data) 0 ""))
        else
          let apply := if (ww_step p =?s "commit") && (size (up_data u) =? ww_size (up_request u))
            then sha256_bytes sha256_text (up_data u) =?s ww_sha (up_request u) else up_apply u in
          (with_upload r (Some (MkUpload id (up_request u) (up_data u) true apply (up_uncertain u) (up_stage u))), None)
    end.

(** [runWorkspaceUpload] when it wakes up: its first critical section. *)
Definition wake_upload (closed : bool) (u : workspaceUpload) : workspaceUpload :=
  MkUpload (up_id u) (up_request u) [] true (up_apply u) (up_uncertain u) (UApplying (up_apply u && negb closed) (up_data u)).

Definition with_stage (u : workspaceUpload) (s : upload_stage) : workspaceUpload :=
  MkUpload (up_id u) (up_request u) (up_data u) (up_finished u) (up_apply u) (up_uncertain u) s.

(** Its second critical section, which forgets an upload unless its outcome is
    uncertain. *)
Definition finish_upload (r : WorkspaceWriteResultPayload) (u : workspaceUpload) : option workspaceUpload :=
  if wr_outcome r =?s "unknown"
  then Some (MkUpload (up_id u) (up_request u) (up_data u) (up_finished u) (up_apply u) true UEnded) else None.

(** *** The writer *)

Inductive write_failure :=
  | ErrWorkspaceWriteUnsupported | ErrWorkspaceWriteUnavailable | ErrWorkspaceWriteBusy | ErrWorkspaceWriteInvalid
  | ErrWorkspaceWriteRejected | ErrWorkspaceWriteUncertain.

Definition workspaceWriteResult (write : Z + write_failure) (total : Z) : WorkspaceWriteResultPayload :=
  let unknown := MkWriteResult "unknown" 0 0 "write_unconfirmed" in
  match write with
  | inl n => if n =? total then MkWriteResult "completed" 0 total "" else unknown
  | inr ErrWorkspaceWriteUnsupported => rejectedWorkspaceWrite "write_unsupported"
  | inr ErrWorkspaceWriteUnavailable => rejectedWorkspaceWrite "resource_unavailable"
  | inr ErrWorkspaceWriteBusy => rejectedWorkspaceWrite "write_capacity"
  | inr ErrWorkspaceWriteInvalid => rejectedWorkspaceWrite "invalid_request"
  | inr ErrWorkspaceWriteRejected => rejectedWorkspaceWrite "write_rejected"
  | inr ErrWorkspaceWriteUncertain => unknown
  end.

(** How [install] of the helper ends: [committed] tells whether the file had been
    replaced when it failed. *)
Inductive install := Installed | InstallFailed (committed invalid : bool).

Definition installed (i : install) : bool := match i with Installed => true | InstallFailed committed _ => committed end.

(** The line the helper prints. *)
Definition helper_response (i : install) (total : Z) : json :=
  match i with
  | Installed => JObj [("version", JNum "1"); ("outcome", JStr "completed"); ("size_bytes", JNum (pretty total))]
  | InstallFailed committed invalid =>
      JObj [("version", JNum "1"); ("outcome", JStr (if committed then "unknown" else "failed"));
            ("error", JStr (if invalid then "invalid_input" else "write_failed"))]
  end.

(** A run of the helper: it cannot be started; it prints its answer and exits; or
    it is lost, whatever it did. *)
Inductive helper_run := HNotStarted | HExited (i : install) | HLost (replaced : bool).

Record write_wire := MkWriteWire { wi_version : Z; wi_outcome : string; wi_size : option Z; wi_error : option string }.

Definition dec_write_wire : decoder write_wire := dec_struct (λ w k v,
  let '(MkWriteWire version outcome size error) := w in
  if key_is "version" k then n ← dec_int64 version v; Some (MkWriteWire n outcome size error)
  else if key_is "outcome" k then s ← dec_string outcome v; Some (MkWriteWire version s size error)
  else if key_is "size_bytes" k then n ← dec_ptr 0 dec_int64 size v; Some (MkWriteWire version outcome n error)
  else if key_is "error" k then e ← dec_ptr "" dec_string error v; Some (MkWriteWire version outcome size e)
  else unknown true w).

Definition decodeWrite (output : raw_message) (total : Z) : Z + write_failure :=
  match raw_value output ≫= dec_write_wire (MkWriteWire 0 "" None None) with
  | None => inr ErrWorkspaceWriteUncertain
  | Some w =>
      if negb (wi_version w =? 1) then inr ErrWorkspaceWriteUncertain
      else if (wi_outcome w =?s "completed") && bool_decide (wi_error w = None) && bool_decide (wi_size w = Some total) then inl total
      else if (wi_outcome w =?s "failed") && bool_decide (wi_size w = None)
              && (bool_decide (wi_error w = Some "invalid_input") || bool_decide (wi_error w = Some "write_failed")) then inr ErrWorkspaceWriteRejected
      else inr ErrWorkspaceWriteUncertain
  end.

(** [Binding.WriteWorkspaceFile]: its result, whether the file was replaced, and
    whether the writer is uncertain afterwards.  [available] and [locked] are what
    it finds of its context and its lock. *)
Definition WriteWorkspaceFile (path : string) (data : list Byte.byte) (available locked uncertain : bool) (h : helper_run)
  : (Z + write_failure) * bool * bool :=
  match workspace with
  | Some b =>
      if negb (bd_writer b) then (inr ErrWorkspaceWriteUnsupported, false, uncertain)
      else if (WorkspaceWriteMaxBytes <? size data) || (4096 <? str_len path) || (path =?s ".") || negb (valid_path path)
              || contains_any path path_forbidden then (inr ErrWorkspaceWriteInvalid, false, uncertain)
      else if negb available then (inr ErrWorkspaceWriteUnavailable, false, uncertain)
      else if locked then (inr ErrWorkspaceWriteBusy, false, uncertain)
      else if uncertain then (inr ErrWorkspaceWriteUncertain, false, uncertain)
      else match h with
           | HNotStarted => (inr ErrWorkspaceWriteUnavailable, false, false)
           | HLost replaced => (inr ErrWorkspaceWriteUncertain, replaced, true)
           | HExited i =>
               let r := decodeWrite (raw_of (helper_response i (size data))) (size data) in
               (r, installed i, match r with inr ErrWorkspaceWriteUncertain => true | _ => false end)
           end
  | None => (inr ErrWorkspaceWriteUnsupported, false, uncertain)
  end.

(** The part of [runWorkspaceUpload] between its critical sections. *)
Definition apply_upload (apply : bool) (data : list Byte.byte) (u : workspaceUpload) (available locked uncertain : bool) (h : helper_run)
  : WorkspaceWriteResultPayload * bool * bool :=
  if apply then
    let '(write, replaced, uncertain) := WriteWorkspaceFile (ww_path (up_request u)) data available locked uncertain h in
    (workspaceWriteResult write (ww_size (up_request u)), replaced, uncertain)
  else (rejectedWorkspaceWrite "invalid_request", false, uncertain).
End daemon.

(** ** The system *)

(** What was installed, and for which upload. *)
Record applied_write := MkApplied { ap_id : string; ap_path : string; ap_data : list Byte.byte }.

(** The gateway's session and all calls made so far; frames under way in both
    directions; the daemon with the answers it is about to send. *)
Record system := MkSystem {
  sy_closed : bool; sy_calls : list write_call;
  sy_frames : list (string * WorkspaceWritePayload); sy_answers : list (string * WorkspaceWriteResultPayload);
  sy_router : router; sy_uncertain : bool; sy_sending : list (string * WorkspaceWriteResultPayload);
  sy_applied : list applied_write }.

Section system.
Context `{UUIDs} (sha256_text : string → string) (workspace : option LocalBinding).

Definition call_ids (s : system) : list string := ca_id <$> sy_calls s.

Definition set_calls (s : system) (calls : list write_call) : system :=
  MkSystem (sy_closed s) calls (sy_frames s) (sy_answers s) (sy_router s) (sy_uncertain s) (sy_sending s) (sy_applied s).
Definition set_frames (s : system) (frames : list (string * WorkspaceWritePayload)) : system :=
  MkSystem (sy_closed s) (sy_calls s) frames (sy_answers s) (sy_router s) (sy_uncertain s) (sy_sending s) (sy_applied s).
Definition set_answers (s : system) (answers : list (string * WorkspaceWriteResultPayload)) : system :=
  MkSystem (sy_closed s) (sy_calls s) (sy_frames s) answers (sy_router s) (sy_uncertain s) (sy_sending s) (sy_applied s).
Definition set_router (s : system) (r : router) : system :=
  MkSystem (sy_closed s) (sy_calls s) (sy_frames s) (sy_answers s) r (sy_uncertain s) (sy_sending s) (sy_applied s).
Definition set_sending (s : system) (sending : list (string * WorkspaceWriteResultPayload)) : system :=
  MkSystem (sy_closed s) (sy_calls s) (sy_frames s) (sy_answers s) (sy_router s) (sy_uncertain s) sending (sy_applied s).
Definition set_closed (s : system) (closed : bool) (calls : list write_call) : system :=
  MkSystem closed calls (sy_frames s) (sy_answers s) (sy_router s) (sy_uncertain s) (sy_sending s) (sy_applied s).
Definition set_applied (s : system) (r : router) (uncertain : bool) (applied : list applied_write) : system :=
  MkSystem (sy_closed s) (sy_calls s) (sy_frames s) (sy_answers s) r uncertain (sy_sending s) applied.

(** The call [c], one of the calls, becomes [c']. *)
Definition update_call (l : list write_call) (c c' : write_call) (l' : list write_call) : Prop :=
  ∃ l1 l2, l = l1 ++ c :: l2 ∧ l' = l1 ++ c' :: l2.

Inductive sys_step : relation system :=
  (* A call; the identifiers of file writes are never used again. *)
  | sys_open s id environment session path data c :
      id ∉ call_ids s → open_write sha256_text (sy_closed s) (existsb ca_open (sy_calls s)) id environment session path data = Ok c →
      sys_step s (set_calls s (sy_calls s ++ [c]))
  | sys_send s c a calls :
      ca_at c = PSend a → ca_open c = true → frame_fits (frame (ca_request c) (ca_data c) a) = true →
      update_call (sy_calls s) c (at_position c (PWait a)) calls →
      sys_step s (set_frames (set_calls s calls) (sy_frames s ++ [(ca_id c, frame (ca_request c) (ca_data c) a)]))
  | sys_send_fails s c a e calls :
      ca_at c = PSend a → update_call (sy_calls s) c (at_position c (PReturned (Err e))) calls → sys_step s (set_calls s calls)
  | sys_receive s c a r calls :
      ca_at c = PWait a → ca_reply c = Some r →
      update_call (sy_calls s) c (at_position (set_reply c None) (receive (ca_data c) a r)) calls → sys_step s (set_calls s calls)
  | sys_give_up s c a e calls :
      ca_at c = PWait a → update_call (sy_calls s) c (at_position c (PReturned (Err e))) calls → sys_step s (set_calls s calls)
  | sys_dispatch s id r answers :
      sy_answers s = (id, r) :: answers →
      sys_step s (set_answers (set_calls s (dispatchWorkspaceWrite id r <$> sy_calls s)) answers)
  | sys_close s : sys_step s (set_closed s true (close_call <$> sy_calls s))
  | sys_connect s : sy_closed s = true → sys_step s (set_closed s false (sy_calls s))
  (* The connection. *)
  | sys_lose_frame s l m l' : sy_frames s = l ++ m :: l' → sys_step s (set_frames s (l ++ l'))
  | sys_lose_answer s l m l' : sy_answers s = l ++ m :: l' → sys_step s (set_answers s (l ++ l'))
  (* The daemon. *)
  | sys_handle s id p frames r answer :
      sy_frames s = (id, p) :: frames → handleWorkspaceWrite sha256_text workspace id p (sy_router s) = (r, answer) →
      sys_step s (set_sending (set_router (set_frames s frames) r) (sy_sending s ++ match answer with Some a => [(id, a)] | None => [] end))
  | sys_wake s u :
      ro_upload (sy_router s) = Some u → up_stage u = UWaiting →
      sys_step s (set_router s (with_upload (sy_router s) (Some (wake_upload (ro_closed (sy_router s)) u))))
  | sys_apply s u apply data available locked h r replaced uncertain :
      ro_upload (sy_router s) = Some u → up_stage u = UApplying apply data →
      apply_upload workspace apply data u available locked (sy_uncertain s) h = (r, replaced, uncertain) →
      sys_step s (set_applied s (with_upload (sy_router s) (Some (with_stage u (UAnswering r)))) uncertain
        (sy_applied s ++ if replaced then [MkApplied (up_id u) (ww_path (up_request u)) data] else []))
  | sys_finish s u r :
      ro_upload (sy_router s) = Some u → up_stage u = UAnswering r →
      sys_step s (set_sending (set_router s (with_upload (sy_router s) (finish_upload r u))) (sy_sending s ++ [(up_id u, r)]))
  | sys_answer s l id r l' :
      sy_sending s = l ++ (id, r) :: l' → sys_step s (set_answers (set_sending s (l ++ l')) (sy_answers s ++ [(id, r)]))
  | sys_answer_fails s l m l' : sy_sending s = l ++ m :: l' → sys_step s (set_sending s (l ++ l'))
  (* The daemon starts again; a helper that was running may have finished its work. *)
  | sys_restart s applied :
      (applied = [] ∨ ∃ u data, ro_upload (sy_router s) = Some u ∧ up_stage u = UApplying true data ∧
         applied = [MkApplied (up_id u) (ww_path (up_request u)) data]) →
      sys_step s (set_sending (set_applied s (MkRouter false false false None) false (sy_applied s ++ applied)) [])
  (* Sessions, exports and preparations come and go; the router is closed for good. *)
  | sys_router s closed export owned :
      (ro_closed (sy_router s) = true → closed = true) →
      sys_step s (set_router s (MkRouter closed export owned (ro_upload (sy_router s)))).

Definition idle_system : system := MkSystem false [] [] [] (MkRouter false false false None) false [] [].
End system.
