(* ===== verification/UploadFacts.v ===== *)
(** * UploadFacts

    Theorems about Uploads.v.  The system is seen through one call at a time: a
    [view] has the position of the call, its frames and answers under way, the
    daemon's upload of the same identifier and what was installed for it.  Every
    step of the system is a step of the protocol [vstep] in each view, or none;
    the invariant of the protocol gives the guarantees of the whole. *)
From stdpp Require Import base tactics list strings numbers relations pretty.
From S2P Require Import Prelude GoJson Contract Items Database Queries EnvQueries SessionLog Turns Environments Reads Configuration Setup Artifacts.
From S2P Require Import Relations Scenario EnvScenario Uploads.

(** ** The writer *)

Lemma decodeWrite_failed committed invalid n m :
  decodeWrite (raw_of (helper_response (InstallFailed committed invalid) n)) m = inr (if committed then ErrWorkspaceWriteUncertain else ErrWorkspaceWriteRejected).
Proof. by destruct committed, invalid. Qed.

Lemma dec_write_completed lit :
  dec_write_wire (MkWriteWire 0 "" None None) (JObj [("version", JNum "1"); ("outcome", JStr "completed"); ("size_bytes", JNum lit)]) =
  match dec_int64 0 (JNum lit) with Some k => Some (MkWriteWire 1 "completed" (Some k) None) | None => None end.
Proof.
  unfold dec_write_wire, dec_struct. cbn [List.fold_left fst snd mbind option_bind].
  repeat match goal with |- context [key_is ?a ?b] => let v := eval vm_compute in (key_is a b) in change (key_is a b) with v; cbn [mbind option_bind] end.
  change (dec_int64 0 (JNum "1")) with (Some 1). cbn [mbind option_bind dec_string dec_ptr default].
  by destruct (dec_int64 0 (JNum lit)).
Qed.

(** The helper's success is never taken for a refusal. *)
Lemma decodeWrite_installed n m :
  decodeWrite (raw_of (helper_response Installed n)) m = inl m ∨ decodeWrite (raw_of (helper_response Installed n)) m = inr ErrWorkspaceWriteUncertain.
Proof.
  unfold decodeWrite, helper_response. cbn [raw_value raw_of raw_values raw_end mbind option_bind]. rewrite dec_write_completed.
  destruct (dec_int64 0 (JNum (pretty n))) as [k|]; [|by right]. cbn [wi_version wi_outcome wi_error wi_size]. destruct (bool_decide (Some k = Some m)); [left|right]; reflexivity.
Qed.

(** Answers to a frame, after which the call sends the next one. *)
Definition solicited (r : WorkspaceWriteResultPayload) : bool := (wr_outcome r =?s "ready") || (wr_outcome r =?s "received").

(** An answer tells whether the file was replaced, unless it says that this is
    unknown. *)
Lemma apply_upload_truthful workspace apply data u available locked uncertain h r replaced uncertain' :
  apply_upload workspace apply data u available locked uncertain h = (r, replaced, uncertain') →
  solicited r = false ∧ (wr_outcome r = "completed" → replaced = true) ∧ (wr_outcome r = "rejected" → replaced = false) ∧
  (replaced = true → apply = true).
Proof.
  unfold apply_upload. destruct apply; [|by intros [= <- <- _]]. destruct (WriteWorkspaceFile _ _ _ _ _ _ _) as [[write rep] unc] eqn:Ew.
  intros [= <- <- <-]. unfold WriteWorkspaceFile in Ew.
  destruct workspace as [b|]; [|by injection Ew as <- <- _]. destruct (negb (bd_writer b)); [by injection Ew as <- <- _|].
  destruct (_ || _); [by injection Ew as <- <- _|]. destruct (negb available); [by injection Ew as <- <- _|]. destruct locked; [by injection Ew as <- <- _|].
  destruct uncertain; [by injection Ew as <- <- _|]. destruct h as [|i|rep']; [by injection Ew as <- <- _| |by injection Ew as <- <- _].
  destruct i as [|committed invalid].
  - destruct (decodeWrite_installed (size data) (size data)) as [E|E]; rewrite E in Ew; injection Ew as <- <- _; cbn; [|done]. by destruct (_ =? _).
  - rewrite decodeWrite_failed in Ew. injection Ew as <- <- _. by destruct committed.
Qed.

(** ** The protocol of one upload *)

Record view := MkView {
  v_at : position; v_frames : list WorkspaceWritePayload; v_posts : list WorkspaceWriteResultPayload;
  v_upload : option workspaceUpload; v_applied : list applied_write }.

Definition passed (p : position) (a : awaited) : Prop := p = PWait a ∨ ∃ r, p = PReturned r.

(** The call has sent its last frame. *)
Definition finishing (p : position) : Prop := passed p ACompleted.

Section protocol.
Context (sha256_text : string → string) (workspace : option LocalBinding).
Context (id : string) (request : WorkspaceWritePayload) (data : list Byte.byte).
Hypothesis request_begin : ww_step request = "begin".
Hypothesis request_size : ww_size request = size data.

Definition done_write : applied_write := MkApplied id (ww_path request) data.

(** The handler's last branch. *)
Definition closed_upload (x : WorkspaceWritePayload) (u : workspaceUpload) : workspaceUpload :=
  MkUpload (up_id u) (up_request u) (up_data u) true
    (if (ww_step x =?s "commit") && (size (up_data u) =? ww_size (up_request u))
     then sha256_bytes sha256_text (up_data u) =?s ww_sha (up_request u) else up_apply u) (up_uncertain u) (up_stage u).

Inductive vstep : relation view :=
  | vs_send a f p u ap : vstep (MkView (PSend a) f p u ap) (MkView (PWait a) (f ++ [frame request data a]) p u ap)
  | vs_send_fails a e f p u ap : vstep (MkView (PSend a) f p u ap) (MkView (PReturned (Err e)) f p u ap)
  | vs_give_up a e f p u ap : vstep (MkView (PWait a) f p u ap) (MkView (PReturned (Err e)) f p u ap)
  | vs_receive a r f p p' u ap : p ≡ₚ r :: p' → vstep (MkView (PWait a) f p u ap) (MkView (receive data a r) f p' u ap)
  | vs_lose at_ f f' p p' u ap : sublist f' f → p' ⊆+ p → vstep (MkView at_ f p u ap) (MkView at_ f' p' u ap)
  | vs_begin at_ x f p ap :
      ww_step x = "begin" →
      vstep (MkView at_ (x :: f) p None ap)
        (MkView at_ f (p ++ [MkWriteResult "ready" 0 0 ""]) (Some (MkUpload id x [] false false false UWaiting)) ap)
  | vs_refuse at_ x f p u ap code :
      u = None ∨ ww_step x = "begin" → vstep (MkView at_ (x :: f) p u ap) (MkView at_ f (p ++ [rejectedWorkspaceWrite code]) u ap)
  | vs_chunk at_ x f p u ap :
      up_finished u = false → ww_step x = "chunk" → ww_offset x = size (up_data u) →
      vstep (MkView at_ (x :: f) p (Some u) ap)
        (MkView at_ f (p ++ [MkWriteResult "received" (size (up_data u ++ ww_data x)) 0 ""])
           (Some (MkUpload id (up_request u) (up_data u ++ ww_data x) false (up_apply u) (up_uncertain u) (up_stage u))) ap)
  | vs_close at_ x f p u ap :
      up_finished u = false → ww_step x ≠ "begin" → vstep (MkView at_ (x :: f) p (Some u) ap) (MkView at_ f p (Some (closed_upload x u)) ap)
  | vs_wake at_ f p u ap closed :
      up_stage u = UWaiting → vstep (MkView at_ f p (Some u) ap) (MkView at_ f p (Some (wake_upload closed u)) ap)
  | vs_apply at_ f p u ap apply d available locked uncertain h r replaced uncertain' :
      up_stage u = UApplying apply d → apply_upload workspace apply d u available locked uncertain h = (r, replaced, uncertain') →
      vstep (MkView at_ f p (Some u) ap)
        (MkView at_ f p (Some (with_stage u (UAnswering r))) (ap ++ if replaced then [MkApplied id (ww_path (up_request u)) d] else []))
  | vs_finish at_ f p u ap r :
      up_stage u = UAnswering r → vstep (MkView at_ f p (Some u) ap) (MkView at_ f (p ++ [r]) (finish_upload r u) ap)
  | vs_restart at_ f p p' u ap applied :
      p' ⊆+ p →
      (applied = [] ∨ ∃ u' d, u = Some u' ∧ up_stage u' = UApplying true d ∧ applied = [MkApplied id (ww_path (up_request u')) d]) →
      vstep (MkView at_ f p u ap) (MkView at_ f p' None (ap ++ applied)).

(** *** The invariant *)

(** No frame or answer to one is left, and the call sends no more. *)
Record quiet (v : view) : Prop := MkQuiet {
  qu_frames : v_frames v = [];
  qu_posts : Forall (λ r, solicited r = false) (v_posts v);
  qu_at : finishing (v_at v) }.

Definition will_not_apply (s : upload_stage) : Prop :=
  match s with UWaiting | UApplying true _ => False | _ => True end.

(** Nothing was installed, and nothing will be. *)
Record dead (v : view) : Prop := MkDead {
  de_applied : v_applied v = [];
  de_frames : request ∉ v_frames v;
  de_at : v_at v ≠ PSend AReady;
  de_upload u : v_upload v = Some u → will_not_apply (up_stage u) }.

(** What an answer says of the file. *)
Definition tells (v : view) (r : WorkspaceWriteResultPayload) : Prop :=
  (wr_outcome r = "completed" → v_applied v = [done_write]) ∧ (wr_outcome r = "rejected" → dead v).

Definition stage_ok (v : view) (u : workspaceUpload) : Prop :=
  match up_stage u with
  | UWaiting => v_applied v = [] ∧ up_data u `prefix_of` data ∧ (up_apply u = true → up_finished u = true ∧ up_data u = data ∧ quiet v)
  | UApplying apply d => v_applied v = [] ∧ up_finished u = true ∧ (apply = true → d = data ∧ quiet v)
  | UAnswering r => up_finished u = true ∧ (wr_outcome r = "completed" → v_applied v = [done_write]) ∧ (wr_outcome r = "rejected" → v_applied v = [])
      ∧ solicited r = false
  | UEnded => up_finished u = true
  end.

Record vinv (v : view) : Prop := MkVinv {
  vi_frames x : x ∈ v_frames v → ∃ a, x = frame request data a ∧ passed (v_at v) a;
  vi_single : (length (v_frames v) + length (List.filter solicited (v_posts v)) ≤ 1)%nat;
  vi_sending a : v_at v = PSend a → v_frames v = [] ∧ Forall (λ r, solicited r = false) (v_posts v);
  vi_fresh : request ∈ v_frames v ∨ v_at v = PSend AReady →
    v_posts v = [] ∧ v_upload v = None ∧ v_applied v = [] ∧ ∀ r, v_at v ≠ PReturned (Ok r);
  vi_upload u : v_upload v = Some u → up_id u = id ∧ up_request u = request ∧ stage_ok v u;
  vi_posts r : r ∈ v_posts v → tells v r;
  vi_returned r : v_at v = PReturned (Ok r) → tells v r;
  vi_applied : v_applied v = [] ∨ v_applied v = [done_write] ∧ quiet v }.

(** *** Preservation *)

Lemma frame_begin a : ww_step (frame request data a) = "begin" → a = AReady.
Proof. by destruct a. Qed.

Lemma unsolicited_nil p : Forall (λ r, solicited r = false) p ↔ List.filter solicited p = [].
Proof.
  induction p as [|r p IH]; [by split; [|constructor]|]. cbn. rewrite Forall_cons, IH. destruct (solicited r); split; try done; naive_solver.
Qed.

Lemma unsolicited_submseteq p p' : p' ⊆+ p → Forall (λ r, solicited r = false) p → Forall (λ r, solicited r = false) p'.
Proof. rewrite !Forall_forall. intros Hs Hp r Hr. apply Hp. by eapply elem_of_submseteq. Qed.

Lemma solicited_submseteq p p' : p' ⊆+ p → (length (List.filter solicited p') ≤ length (List.filter solicited p))%nat.
Proof. induction 1 as [| |x y l|x l1 l2|]; cbn; repeat case_match; cbn; lia. Qed.

(** A frame under way is the only one, and is not yet answered. *)
Lemma vi_head v x f : vinv v → v_frames v = x :: f →
  f = [] ∧ Forall (λ r, solicited r = false) (v_posts v) ∧ ∀ a, v_at v ≠ PSend a.
Proof.
  intros [_ Hs Hsend _ _ _ _ _] E. rewrite E in Hs. cbn in Hs. split; [by destruct f; [|cbn in Hs; lia]|]. split.
  - apply unsolicited_nil. destruct (List.filter _ _); [done|cbn in Hs; lia].
  - intros a Ha. apply Hsend in Ha as [Hf _]. by rewrite Hf in E.
Qed.

(** An answer to a frame under way is the only one, and leaves no frame. *)
Lemma vi_answer v r p : vinv v → v_posts v ≡ₚ r :: p → solicited r = true →
  v_frames v = [] ∧ Forall (λ r, solicited r = false) p ∧ v_applied v = [].
Proof.
  intros [_ Hs _ _ _ _ _ Hap] E Hr. pose proof (solicited_submseteq (v_posts v) (r :: p)) as Hle. cbn in Hle. rewrite Hr in Hle. cbn in Hle.
  specialize (Hle ltac:(by rewrite E)). split_and!.
  - destruct (v_frames v); [done|cbn in Hs; lia].
  - apply unsolicited_nil. destruct (List.filter solicited p); [done|cbn in Hle; lia].
  - destruct Hap as [|[_ [_ Hq _]]]; [done|]. rewrite E in Hq. apply Forall_cons in Hq as [? _]. congruence.
Qed.

Lemma passed_returned p a r : passed p a → passed (PReturned r) a.
Proof. intros _. right. eauto. Qed.

(** Frames and answers may disappear. *)
Lemma vinv_shrink at_ f f' p p' u ap : sublist f' f → p' ⊆+ p → vinv (MkView at_ f p u ap) → vinv (MkView at_ f' p' u ap).
Proof.
  intros Hf Hp [Hfr Hs Hsend Hfresh Hup Hposts Hret Hap]. cbn in *.
  assert (∀ x, x ∈ f' → x ∈ f) as Hin by (intros; by eapply elem_of_sublist).
  assert (∀ r, r ∈ p' → r ∈ p) as Hpin by (intros; by eapply elem_of_submseteq).
  assert (quiet (MkView at_ f p u ap) → quiet (MkView at_ f' p' u ap)) as Hquiet.
  { intros [Hq1 Hq2 Hq3]. cbn in *. split; cbn; [|by eapply unsolicited_submseteq|done]. subst. by apply sublist_nil_r. }
  assert (dead (MkView at_ f p u ap) → dead (MkView at_ f' p' u ap)) as Hdead by (intros []; split; cbn in *; auto).
  assert (∀ r, tells (MkView at_ f p u ap) r → tells (MkView at_ f' p' u ap) r) as Hv by (intros r []; split; auto).
  split; cbn; auto.
  - pose proof (solicited_submseteq _ _ Hp). pose proof (sublist_length _ _ Hf). lia.
  - intros a Ha. destruct (Hsend a Ha) as [-> Hns]. apply sublist_nil_r in Hf as ->. split; [done|by eapply unsolicited_submseteq].
  - intros Hx. destruct Hfresh as (-> & -> & -> & ?); [naive_solver|]. by apply submseteq_nil_r in Hp as ->.
  - intros u' Hu. destruct (Hup u' Hu) as (? & ? & Hst). split_and!; [done..|]. unfold stage_ok in *. cbn in *. destruct (up_stage u'); naive_solver.
  - naive_solver.
Qed.

(** An answer that is not awaited is added. *)
Lemma vinv_post at_ f p u ap r :
  vinv (MkView at_ f p u ap) → request ∉ f → at_ ≠ PSend AReady → solicited r = false → tells (MkView at_ f p u ap) r →
  vinv (MkView at_ f (p ++ [r]) u ap).
Proof.
  intros [Hfr Hs Hsend Hfresh Hup Hposts Hret Hap] Hnf Hna Hr Hver. cbn in *.
  assert (quiet (MkView at_ f p u ap) → quiet (MkView at_ f (p ++ [r]) u ap)) as Hquiet.
  { intros [Hq1 Hq2 Hq3]. split; cbn in *; [done| |done]. apply Forall_app. auto. }
  assert (∀ r', tells (MkView at_ f p u ap) r' → tells (MkView at_ f (p ++ [r]) u ap) r') as Hv by (intros r' [? Hd]; split; [done|intros Hx%Hd; by destruct Hx; split]).
  split; cbn; auto.
  - rewrite List.filter_app, length_app. cbn. rewrite Hr. cbn. lia.
  - intros a Ha. destruct (Hsend a Ha) as [-> Hns]. split; [done|]. apply Forall_app. auto.
  - naive_solver.
  - intros u' Hu. destruct (Hup u' Hu) as (? & ? & Hst). split_and!; [done..|]. unfold stage_ok in *. cbn in *. destruct (up_stage u'); naive_solver.
  - intros r' [|E%list_elem_of_singleton]%elem_of_app; [|subst]; auto.
  - naive_solver.
Qed.

(** The upload changes while it collects data, and the frame is answered. *)
Lemma vinv_open at_ p ap u r :
  Forall (λ r, solicited r = false) p → (∀ a, at_ ≠ PSend a) → ap = [] → (∀ r', r' ∈ p → tells (MkView at_ [] p (Some u) ap) r') →
  (∀ r', at_ = PReturned (Ok r') → tells (MkView at_ [] p (Some u) ap) r') → tells (MkView at_ [] p (Some u) ap) r →
  up_id u = id → up_request u = request → up_stage u = UWaiting → up_apply u = false → up_data u `prefix_of` data →
  vinv (MkView at_ [] (p ++ [r]) (Some u) ap).
Proof.
  intros Hp Hat -> Hver Hret Hr Hid Hreq Hst Happ Hpre.
  assert (∀ r', tells (MkView at_ [] p (Some u) []) r' → tells (MkView at_ [] (p ++ [r]) (Some u) []) r') as Hv by (intros r' [? Hd]; split; [done|intros Hx%Hd; by destruct Hx; split]).
  split; cbn.
  - by intros x ?%not_elem_of_nil.
  - rewrite List.filter_app, (proj1 (unsolicited_nil p) Hp). cbn. destruct (solicited r); cbn; lia.
  - intros a Ha. by destruct (Hat a).
  - intros [?%not_elem_of_nil|Ha]; [done|by destruct (Hat AReady)].
  - intros u' [= <-]. split_and!; [done..|]. unfold stage_ok. rewrite Hst, Happ. done.
  - intros r' [|E%list_elem_of_singleton]%elem_of_app; [|subst]; auto.
  - auto.
  - by left.
Qed.

(** **** The call *)

Lemma vinv_send a f p u ap : vinv (MkView (PSend a) f p u ap) → vinv (MkView (PWait a) (f ++ [frame request data a]) p u ap).
Proof.
  intros [Hfr Hs Hsend Hfresh Hup Hposts Hret Hap]. cbn in *. destruct (Hsend a eq_refl) as [-> Hns]. cbn.
  assert (¬ quiet (MkView (PSend a) [] p u ap)) as Hnq by (intros [_ _ [?|[??]]]; done).
  assert (ap = []) as -> by naive_solver.
  assert (dead (MkView (PSend a) [] p u []) → dead (MkView (PWait a) [frame request data a] p u [])) as Hdead.
  { intros [_ _ Hna Hu]. cbn in *. split; cbn; [done| |done|done]. rewrite list_elem_of_singleton. intros E. apply Hna. f_equal. apply frame_begin. by rewrite <- E. }
  assert (∀ r, tells (MkView (PSend a) [] p u []) r → tells (MkView (PWait a) [frame request data a] p u []) r) as Hv by (intros r []; split; auto).
  split; cbn; auto; try done.
  - intros x E%list_elem_of_singleton. exists a. split; [done|by left].
  - rewrite (proj1 (unsolicited_nil p) Hns). cbn. lia.
  - intros [E%list_elem_of_singleton|]; [|done]. destruct Hfresh as (-> & -> & _ & _); [|done].
    right. f_equal. apply frame_begin. by rewrite <- E.
  - intros u' Hu. destruct (Hup u' Hu) as (? & ? & Hst). split_and!; [done..|]. unfold stage_ok in *. cbn in *. destruct (up_stage u'); naive_solver.
Qed.

(** The call returns, with an answer that was under way or with an error. *)
Lemma vinv_return at_ res f p u ap :
  vinv (MkView at_ f p u ap) → (∀ r, res = Ok r → (request ∉ f) ∧ tells (MkView at_ f p u ap) r) → vinv (MkView (PReturned res) f p u ap).
Proof.
  intros [Hfr Hs Hsend Hfresh Hup Hposts Hret Hap] Hres. cbn in *.
  assert (quiet (MkView at_ f p u ap) → quiet (MkView (PReturned res) f p u ap)) as Hquiet.
  { intros [Hq1 Hq2 Hq3]. split; cbn in *; [done..|]. right. eauto. }
  assert (∀ r, tells (MkView at_ f p u ap) r → tells (MkView (PReturned res) f p u ap) r) as Hv by (intros r [? Hd]; split; [done|intros Hx%Hd; by destruct Hx; split]).
  split; cbn; auto; try done.
  - intros x Hx. destruct (Hfr x Hx) as (a & -> & Ha). exists a. split; [done|by eapply passed_returned].
  - intros [Hx|]; [|done]. destruct Hfresh as (-> & -> & -> & _); auto. split_and!; [done..|]. intros r [= ->]. by destruct (Hres r eq_refl).
  - intros u' Hu. destruct (Hup u' Hu) as (? & ? & Hst). split_and!; [done..|]. unfold stage_ok in *. cbn in *. destruct (up_stage u'); naive_solver.
  - intros r [= ->]. by apply Hv, Hres.
  - naive_solver.
Qed.

Lemma next_frame_not_begin offset : next_frame data offset ≠ AReady.
Proof. unfold next_frame. by destruct (_ <? _). Qed.

Lemma receive_cases a r : receive data a r = PReturned (Err invalid_receipt) ∨ receive data a r = PReturned (Ok r) ∨
  solicited r = true ∧ ∃ offset, receive data a r = PSend (next_frame data offset).
Proof.
  unfold receive, solicited. destruct (negb _); [by left|]. right.
  destruct a; [destruct (wr_outcome r =?s "ready")|destruct (wr_outcome r =?s "received")|]; cbn; rewrite ?orb_true_r; eauto.
Qed.

(** The answer to its frame lets the call go on. *)
Lemma vinv_continue a r a' f p p' u ap :
  p ≡ₚ r :: p' → solicited r = true → a' ≠ AReady → vinv (MkView (PWait a) f p u ap) → vinv (MkView (PSend a') f p' u ap).
Proof.
  intros Hp Hs Ha' Hv. destruct (vi_answer _ r p' Hv Hp Hs) as (Ef & Hns & Eap). cbn in Ef, Eap. subst f ap.
  assert (¬ quiet (MkView (PWait a) [] p u [])) as Hnq.
  { intros [_ Hq _]. cbn in Hq. rewrite Hp in Hq. apply Forall_cons in Hq as [? _]. congruence. }
  destruct Hv as [Hfr Hs1 Hsend Hfresh Hup Hposts Hret Hap]. cbn in *.
  assert (∀ r', tells (MkView (PWait a) [] p u []) r' → tells (MkView (PSend a') [] p' u []) r') as Hv
    by (intros r' [? Hd]; split; [done|intros Hx%Hd; destruct Hx; split; cbn in *; congruence || done]).
  split; cbn; try done.
  - by intros x ?%not_elem_of_nil.
  - rewrite (proj1 (unsolicited_nil p') Hns). cbn. lia.
  - intros [?%not_elem_of_nil|]; [done|congruence].
  - intros u' Hu. destruct (Hup u' Hu) as (? & ? & Hst). split_and!; [done..|]. unfold stage_ok in *. cbn in *. destruct (up_stage u'); naive_solver.
  - intros r' Hr'. apply Hv, Hposts. rewrite Hp. by right.
  - by left.
Qed.

Lemma vinv_receive a r f p p' u ap : p ≡ₚ r :: p' → vinv (MkView (PWait a) f p u ap) → vinv (MkView (receive data a r) f p' u ap).
Proof.
  intros Hp Hv. assert (tells (MkView (PWait a) f p u ap) r) as Hr by (apply Hv; cbn; rewrite Hp; by left).
  assert (vinv (MkView (PWait a) f p' u ap)) as Hv'. { eapply vinv_shrink; [done| |exact Hv]. rewrite Hp. by apply submseteq_cons. }
  destruct (receive_cases a r) as [->|[->|[Hs [offset ->]]]]; [by apply (vinv_return _ _ _ _ _ _ Hv')| |].
  - apply (vinv_return _ _ _ _ _ _ Hv'). intros r' [= <-]. split.
    + intros Hx. destruct (vi_fresh _ Hv) as [Hnil _]; [by left|]. cbn in Hnil. rewrite Hnil in Hp. by apply Permutation_nil_cons in Hp.
    + destruct Hr as [? Hd]. split; [done|intros Hx%Hd; by destruct Hx; split].
  - exact (vinv_continue _ _ _ _ _ _ _ _ Hp Hs (next_frame_not_begin offset) Hv).
Qed.

(** **** The daemon *)

Lemma vinv_begin at_ x f p ap : ww_step x = "begin" → vinv (MkView at_ (x :: f) p None ap) →
  vinv (MkView at_ f (p ++ [MkWriteResult "ready" 0 0 ""]) (Some (MkUpload id x [] false false false UWaiting)) ap).
Proof.
  intros Hx Hv. destruct (vi_head _ x f Hv eq_refl) as (-> & Hns & Hat). cbn in Hns, Hat.
  destruct (vi_frames _ Hv x) as (a & E & _); [by left|]. rewrite E in Hx. apply frame_begin in Hx as ->. cbn in E. subst x.
  destruct (vi_fresh _ Hv) as (Ep & _ & Eap & Hno); [left; by left|]. cbn in Ep, Eap, Hno. subst p ap.
  apply vinv_open; cbn; try done.
  - by intros r ?%not_elem_of_nil.
  - intros r Hr. by destruct (Hno r).
  - apply prefix_nil.
Qed.

Lemma vinv_refuse at_ x f p u ap code : u = None ∨ ww_step x = "begin" → vinv (MkView at_ (x :: f) p u ap) →
  vinv (MkView at_ f (p ++ [rejectedWorkspaceWrite code]) u ap).
Proof.
  intros Hu Hv. destruct (vi_head _ x f Hv eq_refl) as (-> & Hns & Hat). cbn in Hns, Hat.
  assert (u = None) as ->.
  { destruct Hu as [|Hx]; [done|]. destruct (vi_frames _ Hv x) as (a & E & _); [by left|]. rewrite E in Hx. apply frame_begin in Hx as ->. cbn in E. subst x.
    by destruct (vi_fresh _ Hv) as (_ & ? & _); [left; by left|]. }
  assert (ap = []) as -> by (destruct (vi_applied _ Hv) as [|[_ [? _ _]]]; done).
  apply vinv_post; [|apply not_elem_of_nil|apply Hat|done|].
  - eapply vinv_shrink; [|done|exact Hv]. apply sublist_nil_l.
  - split; [done|]. intros _. split; cbn; [done|apply not_elem_of_nil|apply Hat|done].
Qed.

(** An upload that is not finished collects data for its call. *)
Lemma vi_collecting at_ f p u ap : vinv (MkView at_ f p (Some u) ap) → up_finished u = false →
  up_id u = id ∧ up_request u = request ∧ up_stage u = UWaiting ∧ up_apply u = false ∧ ap = [] ∧ up_data u `prefix_of` data.
Proof.
  intros Hv Hf. destruct (vi_upload _ Hv u eq_refl) as (? & ? & Hst). unfold stage_ok in Hst. cbn in Hst.
  destruct (up_stage u); [|destruct_and?; congruence..]. destruct Hst as (? & ? & Ha). split_and!; try done. destruct (up_apply u); [|done]. naive_solver.
Qed.

Lemma prefix_slice d from upto : d `prefix_of` data → from = size d → d ++ slice data from upto `prefix_of` data.
Proof.
  intros [k ->] ->. unfold slice, size. rewrite Nat2Z.id, drop_app_length. apply prefix_app. exists (drop (Z.to_nat (upto - Z.of_nat (length d))) k).
  by rewrite take_drop.
Qed.

Lemma vinv_chunk at_ x f p u ap :
  up_finished u = false → ww_step x = "chunk" → ww_offset x = size (up_data u) → vinv (MkView at_ (x :: f) p (Some u) ap) →
  vinv (MkView at_ f (p ++ [MkWriteResult "received" (size (up_data u ++ ww_data x)) 0 ""])
    (Some (MkUpload id (up_request u) (up_data u ++ ww_data x) false (up_apply u) (up_uncertain u) (up_stage u))) ap).
Proof.
  intros Hf Hx Hoff Hv. destruct (vi_head _ x f Hv eq_refl) as (-> & Hns & Hat). cbn in Hns, Hat.
  destruct (vi_collecting _ _ _ _ _ Hv Hf) as (Hid & Hreq & Hst & Happ & -> & Hpre).
  destruct (vi_frames _ Hv x) as (a & E & _); [by left|].
  assert (∀ r v', v_applied v' = [] → tells (MkView at_ [x] p (Some u) []) r → tells v' r) as Hver.
  { intros r v' _ [Hc Hd]. split; [by intros ?%Hc|]. intros [_ _ _ Hu]%Hd. cbn in Hu. specialize (Hu u eq_refl). by rewrite Hst in Hu. }
  apply vinv_open; cbn; try done.
  - intros r Hr. apply Hver; [done|]. by apply (vi_posts _ Hv).
  - intros r Hr. apply Hver; [done|]. by apply (vi_returned _ Hv).
  - rewrite E in Hx, Hoff |- *. destruct a; cbn in Hx, Hoff |- *; [congruence| |done]. by apply prefix_slice.
Qed.

Lemma prefix_full d : d `prefix_of` data → size d = size data → d = data.
Proof. intros Hp Hs. unfold size in Hs. eapply prefix_length_eq; [done|lia]. Qed.

Lemma vinv_close at_ x f p u ap :
  up_finished u = false → ww_step x ≠ "begin" → vinv (MkView at_ (x :: f) p (Some u) ap) → vinv (MkView at_ f p (Some (closed_upload x u)) ap).
Proof.
  intros Hf Hx Hv. destruct (vi_head _ x f Hv eq_refl) as (-> & Hns & Hat). cbn in Hns, Hat.
  destruct (vi_collecting _ _ _ _ _ Hv Hf) as (Hid & Hreq & Hst & Happ & -> & Hpre).
  destruct (vi_frames _ Hv x) as (a & E & Ha); [by left|].
  assert (∀ r v', v_applied v' = [] → tells (MkView at_ [x] p (Some u) []) r → tells v' r) as Hver.
  { intros r v' _ [Hc Hd]. split; [by intros ?%Hc|]. intros [_ _ _ Hu]%Hd. cbn in Hu. specialize (Hu u eq_refl). by rewrite Hst in Hu. }
  split; cbn.
  - by intros y ?%not_elem_of_nil.
  - rewrite (proj1 (unsolicited_nil p) Hns). cbn. lia.
  - intros a' Ha'. by destruct (Hat a').
  - intros [?%not_elem_of_nil|Ha']; [done|by destruct (Hat AReady)].
  - intros u' [= <-]. split_and!; [done..|]. unfold stage_ok. cbn. rewrite Hst. split_and!; [done..|].
    rewrite Happ, Hreq, request_size. destruct (_ && _) eqn:Ec; [|done]. intros _. bsolve. split_and!; [done| |].
    + by apply prefix_full.
    + split; cbn; [done..|]. by destruct a; cbn in *; try congruence.
  - intros r Hr. apply Hver; [done|]. by apply (vi_posts _ Hv).
  - intros r Hr. apply Hver; [done|]. by apply (vi_returned _ Hv).
  - by left.
Qed.

(** The upload moves on, to a state in which what was said stays true. *)
Lemma vinv_upload at_ f p u u' ap ap' :
  vinv (MkView at_ f p (Some u) ap) →
  (∀ u1, u' = Some u1 → up_id u1 = id ∧ up_request u1 = request ∧ stage_ok (MkView at_ f p u' ap') u1) →
  (ap' = ap ∨ ap' = [done_write] ∧ ap = [] ∧ quiet (MkView at_ f p u' ap') ∧ ¬ will_not_apply (up_stage u)) →
  (will_not_apply (up_stage u) → ∀ u1, u' = Some u1 → will_not_apply (up_stage u1)) →
  vinv (MkView at_ f p u' ap').
Proof.
  intros [Hfr Hs Hsend Hfresh Hup Hposts Hret Hap] Hnew Hap' Hwill. cbn in *.
  assert (∀ r, tells (MkView at_ f p (Some u) ap) r → tells (MkView at_ f p u' ap') r) as Hv.
  { intros r [Hc Hd]. split; cbn in *.
    - intros Ho. specialize (Hc Ho). destruct Hap' as [|(_ & -> & _)]; [by subst|done].
    - intros Ho. destruct (Hd Ho) as [? ? ? Hu]. cbn in *. specialize (Hu u eq_refl). destruct Hap' as [->|(_ & _ & _ & [])]; [|done]. split; cbn; auto. }
  split; cbn; auto.
  - intros Hx. destruct (Hfresh Hx) as (_ & ? & _). done.
  - destruct Hap' as [->|(? & _ & ? & _)]; [|by right]. destruct Hap as [|[? []]]; [by left|right]. split; [done|by split].
Qed.

Lemma quiet_upload at_ f p u ap u' ap' : quiet (MkView at_ f p u ap) → quiet (MkView at_ f p u' ap').
Proof. intros []. by split. Qed.

Lemma vinv_wake at_ f p u ap closed :
  up_stage u = UWaiting → vinv (MkView at_ f p (Some u) ap) → vinv (MkView at_ f p (Some (wake_upload closed u)) ap).
Proof.
  intros Hst Hv. destruct (vi_upload _ Hv u eq_refl) as (Hid & Hreq & Hok). unfold stage_ok in Hok. rewrite Hst in Hok. cbn in Hok. destruct Hok as (-> & _ & Ha).
  apply (vinv_upload _ _ _ u _ _ _ Hv); [|by left|by rewrite Hst]. intros u1 [= <-]. split_and!; [done..|]. unfold stage_ok. cbn. split_and!; [done..|].
  intros [Happ _]%andb_true_iff. destruct (Ha Happ) as (_ & ? & Hq). split; [done|by eapply quiet_upload].
Qed.

Lemma vinv_apply at_ f p u ap apply d available locked uncertain h r replaced uncertain' :
  up_stage u = UApplying apply d → apply_upload workspace apply d u available locked uncertain h = (r, replaced, uncertain') →
  vinv (MkView at_ f p (Some u) ap) →
  vinv (MkView at_ f p (Some (with_stage u (UAnswering r))) (ap ++ if replaced then [MkApplied id (ww_path (up_request u)) d] else [])).
Proof.
  intros Hst Hr Hv. destruct (vi_upload _ Hv u eq_refl) as (Hid & Hreq & Hok). unfold stage_ok in Hok. rewrite Hst in Hok. cbn in Hok. destruct Hok as (-> & Hfin & Ha).
  destruct (apply_upload_truthful _ _ _ _ _ _ _ _ _ _ _ Hr) as (Hsol & Hc & Hj & Hrep). cbn.
  assert (replaced = true → [MkApplied id (ww_path (up_request u)) d] = [done_write]) as Hdone.
  { intros Ht. destruct (Ha (Hrep Ht)) as [-> _]. by rewrite Hreq. }
  apply (vinv_upload _ _ _ u _ _ _ Hv).
  - intros u1 [= <-]. split_and!; [done..|]. unfold stage_ok. cbn. split_and!; [done| | |done].
    + intros Ho. specialize (Hc Ho). subst replaced. auto.
    + intros Ho. specialize (Hj Ho). by subst replaced.
  - destruct replaced; [right|by left]. split_and!; [auto|done|eapply quiet_upload; by apply Ha, Hrep|]. rewrite Hst, (Hrep eq_refl). auto.
  - by intros _ u1 [= <-].
Qed.

Lemma vinv_finish at_ f p u ap r :
  up_stage u = UAnswering r → vinv (MkView at_ f p (Some u) ap) → vinv (MkView at_ f (p ++ [r]) (finish_upload r u) ap).
Proof.
  intros Hst Hv. destruct (vi_upload _ Hv u eq_refl) as (Hid & Hreq & Hok). unfold stage_ok in Hok. rewrite Hst in Hok. cbn in Hok. destruct Hok as (Hfin & Hc & Hj & Hsol).
  assert (∀ u1, finish_upload r u = Some u1 → up_id u1 = id ∧ up_request u1 = request ∧ up_stage u1 = UEnded ∧ up_finished u1 = true) as Hu1.
  { unfold finish_upload. destruct (_ =?s _); [|done]. by intros u1 [= <-]. }
  assert ((request ∉ f) ∧ at_ ≠ PSend AReady) as [Hnf Hna].
  { split; intros Hx; destruct (vi_fresh _ Hv) as (_ & ? & _); auto; done. }
  apply vinv_post; [|done..|].
  - apply (vinv_upload _ _ _ u _ _ _ Hv); [|by left|]; [|intros _]; intros u1 (? & ? & Hs & ?)%Hu1; rewrite ?Hs; [|done]. split_and!; [done..|].
    unfold stage_ok. by rewrite Hs.
  - split; [done|]. intros Ho. split; cbn; [auto|done..|]. intros u1 (? & ? & -> & ?)%Hu1. done.
Qed.

Lemma vinv_restart at_ f p p' u ap applied :
  p' ⊆+ p → (applied = [] ∨ ∃ u' d, u = Some u' ∧ up_stage u' = UApplying true d ∧ applied = [MkApplied id (ww_path (up_request u')) d]) →
  vinv (MkView at_ f p u ap) → vinv (MkView at_ f p' None (ap ++ applied)).
Proof.
  intros Hp Happ Hv. apply (vinv_shrink at_ f f p p'); [done..|]. destruct u as [u|].
  2: { destruct Happ as [->|(? & ? & ? & _)]; [by rewrite app_nil_r|done]. }
  apply (vinv_upload _ _ _ u _ _ _ Hv); [done| |done]. destruct Happ as [->|(u' & d & [= <-] & Hst & ->)]; [left; apply app_nil_r|right].
  destruct (vi_upload _ Hv u eq_refl) as (Hid & Hreq & Hok). unfold stage_ok in Hok. rewrite Hst in Hok. cbn in Hok. destruct Hok as (-> & Hfin & Ha).
  destruct (Ha eq_refl) as [-> Hq]. split_and!; [by rewrite Hreq|done|by eapply quiet_upload|by rewrite Hst; intros []].
Qed.

Lemma vinv_step v v' : vstep v v' → vinv v → vinv v'.
Proof.
  destruct 1; intros Hv;
    eauto using vinv_send, vinv_receive, vinv_shrink, vinv_begin, vinv_refuse, vinv_chunk, vinv_close, vinv_wake, vinv_apply, vinv_finish, vinv_restart.
  all: by apply (vinv_return _ _ _ _ _ _ Hv).
Qed.

Lemma vinv_start : vinv (MkView (PSend AReady) [] [] None []).
Proof.
  split; cbn; try done.
  - by intros x ?%not_elem_of_nil.
  - lia.
  - by intros r ?%not_elem_of_nil.
  - by left.
Qed.
End protocol.

(** ** The system, seen through a call *)

Section picking.
Context {A : Type}.
Implicit Types (l : list (string * A)).

Definition pick (id : string) l : list A := snd <$> List.filter (λ m, m.1 =?s id) l.

Lemma pick_app id l l' : pick id (l ++ l') = pick id l ++ pick id l'.
Proof. unfold pick. by rewrite List.filter_app, fmap_app. Qed.

Lemma pick_cons id id' a l : pick id ((id', a) :: l) = (if id' =?s id then [a] else []) ++ pick id l.
Proof. unfold pick. cbn. by destruct (id' =?s id). Qed.

Lemma pick_remove id l m l' : sublist (pick id (l ++ l')) (pick id (l ++ m :: l')).
Proof. destruct m as [id' a]. rewrite !pick_app, pick_cons. apply sublist_app; [done|]. by apply sublist_inserts_l. Qed.

Lemma pick_nil id l : id ∉ l.*1 → pick id l = [].
Proof.
  induction l as [|[id' a] l IH]; [done|]. rewrite pick_cons. cbn. rewrite not_elem_of_cons. intros [Hn Hl].
  rewrite (bool_decide_eq_false_2 (id' = id)) by congruence. by apply IH.
Qed.
End picking.

Definition upload_of (id : string) (r : router) : option workspaceUpload :=
  match ro_upload r with Some u => if up_id u =?s id then Some u else None | None => None end.

Definition applied_of (id : string) (s : system) : list applied_write := List.filter (λ a, ap_id a =?s id) (sy_applied s).

Definition reply_of (c : write_call) : list WorkspaceWriteResultPayload := match ca_reply c with Some r => [r] | None => [] end.

Definition view_of (s : system) (c : write_call) : view :=
  MkView (ca_at c) (pick (ca_id c) (sy_frames s)) (pick (ca_id c) (sy_sending s) ++ pick (ca_id c) (sy_answers s) ++ reply_of c)
    (upload_of (ca_id c) (sy_router s)) (applied_of (ca_id c) s).

Arguments pick : simpl never.
Arguments upload_of : simpl never.
Arguments applied_of : simpl never.

Definition same_call (c c' : write_call) : Prop := ca_id c' = ca_id c ∧ ca_request c' = ca_request c ∧ ca_data c' = ca_data c.

Section system.
Context `{UUIDs} (sha256_text : string → string) (workspace : option LocalBinding).

Definition vsteps (c : write_call) : relation view := rtc (vstep sha256_text workspace (ca_id c) (ca_request c) (ca_data c)).

(** What a call sees changed by steps of the protocol. *)
Definition simulated_by (s s' : system) (c c' : write_call) : Prop := same_call c c' ∧ vsteps c (view_of s c) (view_of s' c').

Definition simulated (s s' : system) (c' : write_call) : Prop :=
  ∃ c, c ∈ sy_calls s ∧ simulated_by s s' c c'.


Lemma update_call_cases l c c' l' x : update_call l c c' l' → x ∈ l' → NoDup (ca_id <$> l) → ca_id c' = ca_id c →
  c ∈ l ∧ (x = c' ∨ x ∈ l ∧ ca_id x ≠ ca_id c).
Proof.
  intros (l1 & l2 & -> & ->) Hx Hnd Hid. split; [apply elem_of_app; right; by left|].
  rewrite fmap_app, fmap_cons in Hnd. apply NoDup_app in Hnd as (_ & Hd & Hn2). apply NoDup_cons in Hn2 as [Hn2 _].
  apply elem_of_app in Hx as [Hx|[->|Hx]%elem_of_cons]; [right|by left|right].
  - split; [by apply elem_of_app; left|]. intros E. apply (Hd (ca_id x)); [by apply list_elem_of_fmap_2|rewrite E; by left].
  - split; [apply elem_of_app; right; by right|]. intros E. apply Hn2. rewrite <- E. by apply list_elem_of_fmap_2.
Qed.

Lemma update_call_ids l c c' l' : update_call l c c' l' → ca_id c' = ca_id c → ca_id <$> l' = ca_id <$> l.
Proof. intros (l1 & l2 & -> & ->) E. by rewrite !fmap_app, !fmap_cons, E. Qed.

(** *** The handler *)

Lemma handle_other id p r r' answer id' :
  handleWorkspaceWrite sha256_text workspace id p r = (r', answer) → id' ≠ id → upload_of id' r' = upload_of id' r.
Proof.
  unfold handleWorkspaceWrite. intros Hh Hne. unfold upload_of.
  assert (∀ u, up_id u = id → (if up_id u =?s id' then Some u else None) = None) as Hn by (intros u ->; by rewrite bool_decide_eq_false_2).
  destruct (negb _) in Hh; [by simplify_eq|]. destruct (_ || _) in Hh.
  { by destruct (match ro_upload r with Some u => up_id u =?s id | None => false end) in Hh; simplify_eq. }
  destruct (ro_closed r); [by simplify_eq|]. destruct (ww_step p =?s "begin").
  - destruct (ro_export r); [by simplify_eq|]. destruct (ro_upload r) as [u|] eqn:Eu.
    { destruct (up_id u =?s id) in Hh; simplify_eq; by rewrite Eu. }
    destruct (_ || _) in Hh; simplify_eq; [by rewrite Eu|]. cbn. by rewrite bool_decide_eq_false_2.
  - destruct (ro_upload r) as [u|] eqn:Eu; [|simplify_eq; by rewrite Eu]. destruct (up_id u =?s id) eqn:Ep; cbn in Hh; [|simplify_eq; by rewrite Eu].
    apply bool_decide_eq_true_1 in Ep. rewrite (Hn u Ep). destruct (up_finished u); [simplify_eq; rewrite Eu; by apply Hn|].
    case_match; simplify_eq; cbn; by rewrite bool_decide_eq_false_2.
Qed.
(** The frame of a call is consumed: a step of its protocol. *)
Lemma handle_view c p f posts r r' answer ap :
  handleWorkspaceWrite sha256_text workspace (ca_id c) p r = (r', answer) →
  vsteps c (MkView (ca_at c) (p :: f) posts (upload_of (ca_id c) r) ap)
    (MkView (ca_at c) f (posts ++ match answer with Some a => [a] | None => [] end) (upload_of (ca_id c) r') ap).
Proof.
  unfold handleWorkspaceWrite. intros Hh. set (id := ca_id c) in *.
  assert (∀ u, vsteps c (MkView (ca_at c) (p :: f) posts u ap) (MkView (ca_at c) f (posts ++ []) u ap)) as Hlost.
  { intros u. apply rtc_once, vs_lose; [by apply sublist_cons|by rewrite app_nil_r]. }
  assert (∀ u code, u = None ∨ ww_step p = "begin" →
    vsteps c (MkView (ca_at c) (p :: f) posts u ap) (MkView (ca_at c) f (posts ++ [rejectedWorkspaceWrite code]) u ap)) as Href.
  { intros u code Hu. by apply rtc_once, vs_refuse. }
  destruct (negb (canonical_uuid id)); [by simplify_eq|]. destruct (_ || _).
  { unfold upload_of. destruct (ro_upload r) as [u|] eqn:Eu; [|simplify_eq; rewrite Eu; auto]. destruct (up_id u =?s id) eqn:Ep; simplify_eq; rewrite Eu, Ep; auto. }
  destruct (ro_closed r); [by simplify_eq|]. destruct (ww_step p =?s "begin") eqn:Eb.
  - apply bool_decide_eq_true_1 in Eb. destruct (ro_export r); [simplify_eq; auto|].
    destruct (ro_upload r) as [u|] eqn:Eu; [destruct (up_id u =?s id); simplify_eq; auto|]. destruct (_ || _) in Hh; simplify_eq; [auto|].
    unfold upload_of. rewrite Eu. cbn. rewrite bool_decide_eq_true_2 by done. by apply rtc_once, vs_begin.
  - apply bool_decide_eq_false_1 in Eb. unfold upload_of. destruct (ro_upload r) as [u|] eqn:Eu; [|simplify_eq; rewrite Eu; auto].
    destruct (up_id u =?s id) eqn:Ep; cbn in Hh; [|simplify_eq; rewrite Eu, Ep; auto]. destruct (up_finished u) eqn:Ef; [simplify_eq; rewrite Eu, Ep; auto|].
    apply bool_decide_eq_true_1 in Ep. destruct (_ && _ && _) eqn:Ec; simplify_eq; cbn; rewrite bool_decide_eq_true_2 by done.
    + bsolve. apply rtc_once, vs_chunk; auto.
    + rewrite app_nil_r. apply rtc_once. rewrite <- Ep at 2. by apply (vs_close _ _ _ _ _ _ p).
Qed.
(** *** Steps *)

Lemma vsteps_lose c at_ f f' p p' u ap : sublist f' f → p' ⊆+ p → vsteps c (MkView at_ f p u ap) (MkView at_ f' p' u ap).
Proof. intros. by apply rtc_once, vs_lose. Qed.

(** A call that is not concerned. *)
Lemma vsteps_same c v v' : v' = v → vsteps c v v'.
Proof. intros ->. apply rtc_refl. Qed.

(** One call moves; the others see nothing of it. *)
Lemma simulated_update s c c' calls x (frames : list (string * WorkspaceWritePayload)) :
  NoDup (call_ids s) → update_call (sy_calls s) c c' calls → same_call c c' → x ∈ calls →
  (∀ id, id ≠ ca_id c → pick id frames = pick id (sy_frames s)) →
  vsteps c (view_of s c) (view_of (set_frames (set_calls s calls) frames) c') →
  simulated s (set_frames (set_calls s calls) frames) x.
Proof.
  intros Hnd Hu Hsame Hx Hf Hv. destruct (update_call_cases _ _ _ _ x Hu Hx Hnd (proj1 Hsame)) as (Hc & [->|[Hin Hne]]); [by exists c|].
  exists x. split; [done|]. split; [done|]. apply vsteps_same. unfold view_of. cbn. by rewrite Hf.
Qed.

Lemma set_frames_same s calls : set_frames (set_calls s calls) (sy_frames s) = set_calls s calls.
Proof. done. Qed.

Lemma step_gateway s c c' calls x :
  NoDup (call_ids s) → update_call (sy_calls s) c c' calls → same_call c c' → x ∈ calls →
  vsteps c (view_of s c) (view_of (set_calls s calls) c') → simulated s (set_calls s calls) x.
Proof. intros Hnd Hu Hsame Hx Hv. rewrite <- set_frames_same. by eapply simulated_update. Qed.

Lemma at_position_same c p : same_call c (at_position c p).
Proof. done. Qed.

(** The upload belongs to one call. *)
Lemma simulated_upload s s' c :
  sy_calls s' = sy_calls s → c ∈ sy_calls s' → vsteps c (view_of s c) (view_of s' c) → simulated s s' c.
Proof. intros E Hc Hv. rewrite E in Hc. by exists c. Qed.

Lemma open_write_Ok closed busy id environment session path data c :
  open_write sha256_text closed busy id environment session path data = Ok c →
  c = MkCall id (announcement sha256_text environment session path data) data (PSend AReady) None true ∧ canonical_uuid id = true ∧
  closed = false ∧ busy = false ∧ ValidWorkspaceWriteRequest (ca_request c) = true.
Proof.
  unfold open_write. intros Hr. apply reject_if_bind in Hr as [Hv Hr]. apply reject_if_bind in Hr as [Hc Hr]. apply reject_if_bind in Hr as [Hb Hr].
  injection Hr as <-. bsolve. done.
Qed.

(** The answers of a call, wherever they are. *)
Lemma posts_fewer c (l l' m m' : list (string * WorkspaceWriteResultPayload)) :
  l' ++ m' ⊆+ l ++ m → pick (ca_id c) l' ++ pick (ca_id c) m' ++ reply_of c ⊆+ pick (ca_id c) l ++ pick (ca_id c) m ++ reply_of c.
Proof.
  intros Hs. rewrite !app_assoc, <- !pick_app. apply submseteq_app; [|done]. unfold pick.
  induction Hs as [| | | |]; cbn; repeat case_match; cbn; try done; [by constructor|by constructor|by constructor|by etrans].
Qed.

Lemma submseteq_middle {A} (l : list A) x l' : l ++ l' ⊆+ l ++ x :: l'.
Proof. apply submseteq_app; [done|by apply submseteq_cons]. Qed.

Lemma dispatch_view s id r answers c :
  sy_answers s = (id, r) :: answers →
  simulated_by s (set_answers (set_calls s (dispatchWorkspaceWrite id r <$> sy_calls s)) answers) c (dispatchWorkspaceWrite id r c).
Proof.
  intros E. unfold dispatchWorkspaceWrite. destruct (_ && _) eqn:Ec.
  - bsolve. split; [done|]. apply vsteps_lose; cbn; [done|]. unfold reply_of. cbn. rename select (ca_reply c = None) into Er.
    rewrite Er, E, pick_cons, bool_decide_eq_true_2 by done. cbn. rewrite app_nil_r. apply submseteq_app; [done|]. by rewrite Permutation_app_comm.
  - split; [done|]. apply vsteps_lose; cbn; [done|]. rewrite E. apply posts_fewer, submseteq_middle.
Qed.

(** *** The upload *)

Lemma upload_of_with id r u : upload_of id (with_upload r (Some u)) = if up_id u =?s id then Some u else None.
Proof. done. Qed.

Lemma upload_of_Some id r u : ro_upload r = Some u → upload_of id r = if up_id u =?s id then Some u else None.
Proof. intros E. unfold upload_of. by rewrite E. Qed.

Lemma wake_view s u c :
  ro_upload (sy_router s) = Some u → up_stage u = UWaiting →
  simulated_by s (set_router s (with_upload (sy_router s) (Some (wake_upload (ro_closed (sy_router s)) u)))) c c.
Proof.
  intros Eu Hst. split; [done|]. unfold view_of. cbn. rewrite upload_of_with, (upload_of_Some _ _ _ Eu). cbn.
  case_bool_decide; [by apply rtc_once, vs_wake|by apply vsteps_same].
Qed.

Lemma apply_view s u apply data available locked h r replaced uncertain c :
  ro_upload (sy_router s) = Some u → up_stage u = UApplying apply data →
  apply_upload workspace apply data u available locked (sy_uncertain s) h = (r, replaced, uncertain) →
  simulated_by s (set_applied s (with_upload (sy_router s) (Some (with_stage u (UAnswering r)))) uncertain
    (sy_applied s ++ if replaced then [MkApplied (up_id u) (ww_path (up_request u)) data] else [])) c c.
Proof.
  intros Eu Hst Hr. split; [done|]. unfold view_of, applied_of. cbn. rewrite upload_of_with, (upload_of_Some _ _ _ Eu), List.filter_app. cbn.
  case_bool_decide as E.
  - apply rtc_once. replace (List.filter _ (if replaced then _ else _)) with (if replaced then [MkApplied (ca_id c) (ww_path (up_request u)) data] else []).
    { by eapply vs_apply. }
    rewrite <- E. destruct replaced; [|done]. cbn. by rewrite bool_decide_eq_true_2.
  - apply vsteps_same. f_equal. destruct replaced; cbn; rewrite ?bool_decide_eq_false_2 by done; apply app_nil_r.
Qed.

(** An answer joins those that are sent. *)
Lemma sending_more c (l m : list (string * WorkspaceWriteResultPayload)) id r :
  pick (ca_id c) (l ++ [(id, r)]) ++ pick (ca_id c) m ++ reply_of c ≡ₚ
  (pick (ca_id c) l ++ pick (ca_id c) m ++ reply_of c) ++ if id =?s ca_id c then [r] else [].
Proof.
  rewrite pick_app, pick_cons, <- !app_assoc. apply Permutation_app_head. change (pick (ca_id c) []) with (@nil WorkspaceWriteResultPayload). cbn [app].
  by rewrite Permutation_app_comm, <- app_assoc.
Qed.

Lemma vsteps_reorder c at_ f p p' u ap v : p' ≡ₚ p → vsteps c v (MkView at_ f p u ap) → vsteps c v (MkView at_ f p' u ap).
Proof. intros Hp Hv. etrans; [exact Hv|]. apply vsteps_lose; [done|by rewrite Hp]. Qed.

Lemma finish_view s u r c :
  ro_upload (sy_router s) = Some u → up_stage u = UAnswering r →
  simulated_by s (set_sending (set_router s (with_upload (sy_router s) (finish_upload r u))) (sy_sending s ++ [(up_id u, r)])) c c.
Proof.
  intros Eu Hst. split; [done|]. unfold view_of. cbn. eapply vsteps_reorder; [apply sending_more|].
  rewrite (upload_of_Some _ _ _ Eu). case_bool_decide as E.
  - apply rtc_once. replace (upload_of _ (with_upload _ _)) with (finish_upload r u); [by apply vs_finish|].
    unfold upload_of, finish_upload. cbn. destruct (_ =?s _); [|done]. cbn. by rewrite bool_decide_eq_true_2.
  - rewrite app_nil_r. apply vsteps_same. f_equal. unfold upload_of, finish_upload. cbn. destruct (_ =?s _); [|done]. cbn. by rewrite bool_decide_eq_false_2.
Qed.

Lemma handle_frame_view s id p frames r answer c :
  sy_frames s = (id, p) :: frames → handleWorkspaceWrite sha256_text workspace id p (sy_router s) = (r, answer) →
  simulated_by s (set_sending (set_router (set_frames s frames) r) (sy_sending s ++ match answer with Some a => [(id, a)] | None => [] end)) c c.
Proof.
  intros Ef Hh. split; [done|]. unfold view_of. cbn. rewrite Ef, pick_cons.
  destruct (decide (id = ca_id c)) as [->|Hne].
  - rewrite bool_decide_eq_true_2 by done. cbn. eapply (vsteps_reorder _ _ _ _ _ _ _ _); [|by apply handle_view].
    destruct answer as [a|]; [|by rewrite !app_nil_r]. rewrite sending_more. by rewrite bool_decide_eq_true_2.
  - rewrite bool_decide_eq_false_2 by done. cbn. rewrite (handle_other _ _ _ _ _ (ca_id c) Hh) by done. apply vsteps_same. f_equal.
    destruct answer as [a|]; [|by rewrite app_nil_r]. rewrite pick_app, pick_cons, bool_decide_eq_false_2 by done. cbn. by rewrite app_nil_r.
Qed.

Lemma restart_view s applied c :
  (applied = [] ∨ ∃ u data, ro_upload (sy_router s) = Some u ∧ up_stage u = UApplying true data ∧
     applied = [MkApplied (up_id u) (ww_path (up_request u)) data]) →
  simulated_by s (set_sending (set_applied s (MkRouter false false false None) false (sy_applied s ++ applied)) []) c c.
Proof.
  intros Ha. split; [done|]. unfold view_of, applied_of. cbn. rewrite List.filter_app. apply rtc_once, vs_restart; [by apply submseteq_inserts_l|].
  destruct Ha as [->|(u & data & Eu & Hst & ->)]; [by left|]. rewrite (upload_of_Some _ _ _ Eu). cbn. case_bool_decide as E; [right|by left].
  exists u, data. by rewrite E.
Qed.

(** *** Every step of the system is one of the protocol for each call *)

Definition just_opened (s s' : system) (c : write_call) : Prop :=
  (ca_id c ∉ call_ids s) ∧ (∃ calls, s' = set_calls s calls) ∧
  ∃ closed busy id environment session path data, open_write sha256_text closed busy id environment session path data = Ok c.

Lemma step_simulated s s' c' :
  sys_step sha256_text workspace s s' → NoDup (call_ids s) → c' ∈ sy_calls s' → simulated s s' c' ∨ just_opened s s' c'.
Proof.
  intros Hstep Hnd Hc'. destruct Hstep; [|left..].
  - cbn in Hc'. apply elem_of_app in Hc' as [Hc'|E%list_elem_of_singleton]; [left; by exists c'|]. subst c'. right.
    split_and!; [by apply open_write_Ok in H1 as [-> _]|by eexists|by do 7 eexists].
  - eapply simulated_update; [done|eassumption|done|done| |].
    + intros id Hne. rewrite pick_app, pick_cons, bool_decide_eq_false_2 by done. apply app_nil_r.
    + apply rtc_once. unfold view_of. cbn. rewrite pick_app, pick_cons, bool_decide_eq_true_2 by done. cbn. rewrite H0. by apply vs_send.
  - eapply step_gateway; [done|eassumption|done|done|]. apply rtc_once. unfold view_of. cbn. rewrite H0. by apply vs_send_fails.
  - eapply step_gateway; [done|eassumption|done|done|]. apply rtc_once. unfold view_of, reply_of. cbn. rewrite H0, H1. apply vs_receive.
    rewrite !app_nil_r, app_assoc. by rewrite Permutation_app_comm.
  - eapply step_gateway; [done|eassumption|done|done|]. apply rtc_once. unfold view_of. cbn. rewrite H0. by apply vs_give_up.
  - cbn in Hc'. apply list_elem_of_fmap in Hc' as (c & -> & Hc). exists c. split; [done|by apply dispatch_view].
  - cbn in Hc'. apply list_elem_of_fmap in Hc' as (c & -> & Hc). exists c. split; [done|]. by split; [|apply vsteps_same].
  - by exists c'; split; [|split; [|apply vsteps_same]].
  - exists c'. split; [done|]. split; [done|]. apply vsteps_lose; cbn; [|done]. rewrite H0. apply pick_remove.
  - exists c'. split; [done|]. split; [done|]. apply vsteps_lose; cbn; [done|]. rewrite H0. apply posts_fewer, submseteq_app, submseteq_middle. done.
  - exists c'. split; [done|by eapply handle_frame_view].
  - exists c'. split; [done|by apply wake_view].
  - exists c'. split; [done|by eapply apply_view].
  - exists c'. split; [done|by apply finish_view].
  - exists c'. split; [done|]. split; [done|]. apply vsteps_lose; cbn; [done|]. rewrite H0. apply posts_fewer.
    rewrite <- !app_assoc. apply submseteq_app; [done|]. cbn. by rewrite app_assoc, Permutation_app_comm.
  - exists c'. split; [done|]. split; [done|]. apply vsteps_lose; cbn; [done|]. rewrite H0. apply posts_fewer, submseteq_app; [apply submseteq_middle|done].
  - exists c'. split; [done|by apply restart_view].
  - by exists c'; split; [|split; [|apply vsteps_same]].
Qed.
(** *** Identifiers *)

(** The identifiers that occur anywhere but in the calls. *)
Definition upload_id (r : router) : list string := match ro_upload r with Some u => [up_id u] | None => [] end.
Definition named (s : system) : list string :=
  (sy_frames s).*1 ++ (sy_sending s).*1 ++ (sy_answers s).*1 ++ upload_id (sy_router s) ++ (ap_id <$> sy_applied s).

Lemma elem_of_named id s : id ∈ named s ↔ id ∈ (sy_frames s).*1 ∨ id ∈ (sy_sending s).*1 ∨ id ∈ (sy_answers s).*1
  ∨ id ∈ upload_id (sy_router s) ∨ id ∈ ap_id <$> sy_applied s.
Proof. unfold named. by rewrite !elem_of_app. Qed.

Lemma handle_upload_id id p r r' answer id' :
  handleWorkspaceWrite sha256_text workspace id p r = (r', answer) → id' ∈ upload_id r' → id' = id ∨ id' ∈ upload_id r.
Proof.
  intros Hh Hin. destruct (decide (id' = id)) as [|Hne]; [by left|right]. pose proof (handle_other _ _ _ _ _ id' Hh Hne) as E.
  unfold upload_id, upload_of in *. destruct (ro_upload r') as [u'|]; [|by apply not_elem_of_nil in Hin].
  apply list_elem_of_singleton in Hin. subst id'. rewrite bool_decide_eq_true_2 in E by done. destruct (ro_upload r) as [u|]; [|done].
  case_bool_decide as E'; [|done]. apply list_elem_of_singleton. congruence.
Qed.

Lemma finish_upload_id r a u id : id ∈ upload_id (with_upload r (finish_upload a u)) → id = up_id u.
Proof. unfold upload_id, finish_upload. cbn. destruct (_ =?s _); [by intros ?%list_elem_of_singleton|by intros ?%not_elem_of_nil]. Qed.

Lemma upload_id_Some r u : ro_upload r = Some u → up_id u ∈ upload_id r.
Proof. intros E. unfold upload_id. rewrite E. by left. Qed.

Ltac uploaded := match goal with E : ro_upload _ = Some _ |- _ => exact (upload_id_Some _ _ E) end.

Lemma step_named s s' id :
  sys_step sha256_text workspace s s' → id ∈ named s' → id ∈ named s ∨ id ∈ call_ids s.
Proof.
  rewrite !elem_of_named. destruct 1; cbn [sy_frames sy_sending sy_answers sy_router sy_applied set_frames set_calls set_answers set_router set_sending set_closed set_applied];
    rewrite ?fmap_app, ?elem_of_app; try tauto.
  - intros [[|Hx]|]; [tauto| |tauto]. cbn in Hx. apply list_elem_of_singleton in Hx as ->. right. unfold call_ids.
    destruct H3 as (l1 & l2 & -> & _). rewrite fmap_app, elem_of_app. right. by left.
  - rewrite H0. cbn. rewrite elem_of_cons. tauto.
  - rewrite H0, fmap_app, fmap_cons, elem_of_app, elem_of_cons. tauto.
  - rewrite H0, fmap_app, fmap_cons, elem_of_app, elem_of_cons. tauto.
  - rewrite H0. cbn. rewrite elem_of_cons. intros [|[[|Hx]|[|[Hx|]]]]; try tauto.
    + left. left. left. destruct answer; [by apply list_elem_of_singleton in Hx|by apply not_elem_of_nil in Hx].
    + apply (handle_upload_id _ _ _ _ _ _ H1) in Hx as [->|]; tauto.
  - intros [|[|[|[Hx|]]]]; try tauto. apply list_elem_of_singleton in Hx as ->. left. do 3 right. left. uploaded.
  - intros [|[|[|[Hx|[|Hx]]]]]; try tauto; left; do 3 right; left.
    + apply list_elem_of_singleton in Hx as ->. uploaded.
    + destruct replaced; [apply list_elem_of_singleton in Hx as ->; uploaded|by apply not_elem_of_nil in Hx].
  - intros [|[[|Hx]|[|[Hx|]]]]; try tauto; left; do 3 right; left.
    + apply list_elem_of_singleton in Hx as ->. uploaded.
    + apply finish_upload_id in Hx as ->. uploaded.
  - rewrite H0, fmap_app, fmap_cons, elem_of_app. cbn. rewrite !elem_of_cons. intros [|[|[[|[|?%not_elem_of_nil]]|]]]; tauto.
  - rewrite H0, fmap_app, fmap_cons, elem_of_app, elem_of_cons. tauto.
  - intros [|[?%not_elem_of_nil|[|[?%not_elem_of_nil|[|Hx]]]]]; try tauto. destruct H0 as [->|(u & data & Eu & _ & ->)]; [by apply not_elem_of_nil in Hx|].
    apply list_elem_of_singleton in Hx as ->. left. do 3 right. left. uploaded.
Qed.

Lemma step_ids s s' : sys_step sha256_text workspace s s' → NoDup (call_ids s) → NoDup (call_ids s') ∧ call_ids s ⊆ call_ids s'.
Proof.
  intros Hstep Hnd. assert (∀ c c' calls, update_call (sy_calls s) c c' calls → same_call c c' → NoDup (ca_id <$> calls) ∧ call_ids s ⊆ (ca_id <$> calls)) as Hup.
  { intros c c' calls Hu [E _]. by rewrite (update_call_ids _ _ _ _ Hu E). }
  destruct Hstep; unfold call_ids in *; cbn [sy_calls set_frames set_calls set_answers set_router set_sending set_closed set_applied];
    eauto using at_position_same.
  - apply open_write_Ok in H1 as [-> _]. rewrite fmap_app. cbn. split; [|set_solver]. apply NoDup_app. split; [done|]. split; [|apply NoDup_singleton].
    intros x Hx E%list_elem_of_singleton. by subst.
  - by eapply Hup.
  - rewrite <- list_fmap_compose. replace (ca_id ∘ dispatchWorkspaceWrite id r <$> sy_calls s) with (ca_id <$> sy_calls s); [done|].
    apply list_fmap_ext. intros i c _. unfold dispatchWorkspaceWrite. cbn. by case_match.
  - rewrite <- list_fmap_compose. done.
Qed.

(** ** The guarantee *)

Record sys_inv (s : system) : Prop := MkSysInv {
  si_ids : NoDup (call_ids s);
  si_named id : id ∈ named s → id ∈ call_ids s;
  si_calls c : c ∈ sy_calls s → ww_step (ca_request c) = "begin" ∧ ww_size (ca_request c) = size (ca_data c) ∧
    vinv (ca_id c) (ca_request c) (ca_data c) (view_of s c) }.

Lemma vsteps_inv c v v' :
  ww_step (ca_request c) = "begin" → ww_size (ca_request c) = size (ca_data c) → vsteps c v v' →
  vinv (ca_id c) (ca_request c) (ca_data c) v → vinv (ca_id c) (ca_request c) (ca_data c) v'.
Proof. intros Hb Hs. induction 1; [done|]. intros Hv. apply IHrtc. by eapply vinv_step. Qed.

(** A call that begins finds nothing under its identifier. *)
Lemma view_untouched s c : ca_id c ∉ named s → ca_reply c = None → view_of s c = MkView (ca_at c) [] [] None [].
Proof.
  rewrite elem_of_named. intros Hn Hr. unfold view_of, reply_of. rewrite Hr, !pick_nil by tauto. f_equal.
  - unfold upload_of. destruct (ro_upload (sy_router s)) as [u|] eqn:Eu; [|done]. rewrite bool_decide_eq_false_2; [done|]. intros E.
    apply Hn. do 3 right. left. rewrite <- E. by apply upload_id_Some.
  - unfold applied_of. apply filter_nothing. intros a Ha. apply bool_decide_eq_false_2. intros E. apply Hn. do 4 right. rewrite <- E.
    by apply list_elem_of_fmap_2, list_elem_of_In.
Qed.

Lemma sys_inv_step s s' : sys_step sha256_text workspace s s' → sys_inv s → sys_inv s'.
Proof.
  intros Hstep [Hnd Hnamed Hcalls]. destruct (step_ids _ _ Hstep Hnd) as [Hnd' Hsub]. split; [done| |].
  - intros id [Hn|]%(step_named _ _ _ Hstep); auto.
  - intros c' Hc'. destruct (step_simulated _ _ _ Hstep Hnd Hc') as [(c & Hc & (Eid & Ereq & Edata) & Hv)|(Hnew & [calls ->] & Hopen)].
    + destruct (Hcalls c Hc) as (Hb & Hs & Hinv). rewrite Eid, Ereq, Edata. split_and!; [done..|]. by eapply vsteps_inv.
    + destruct Hopen as (closed & busy & id & environment & session & path & data & [-> _]%open_write_Ok). split_and!; [done..|].
      rewrite view_untouched; [apply vinv_start|intros Hx%Hnamed; done|done].
Qed.

Lemma sys_inv_idle : sys_inv idle_system.
Proof. split; [constructor|by intros id ?%not_elem_of_nil|by intros c ?%not_elem_of_nil]. Qed.

Lemma reachable_inv s : rtc (sys_step sha256_text workspace) idle_system s → sys_inv s.
Proof. revert s. apply (rtc_ind_r sys_inv idle_system); [apply sys_inv_idle|]. intros s s' _. apply sys_inv_step. Qed.

(** A call that has returned stays as it is. *)
Lemma returned_step s s' c r :
  sys_step sha256_text workspace s s' → NoDup (call_ids s) → c ∈ sy_calls s → ca_at c = PReturned r →
  ∃ c', c' ∈ sy_calls s' ∧ same_call c c' ∧ ca_at c' = PReturned r.
Proof.
  intros Hstep Hnd Hc Hat.
  assert (∀ x x' calls, update_call (sy_calls s) x x' calls → ca_at x ≠ PReturned r → c ∈ calls) as Hup.
  { intros x x' calls (l1 & l2 & E & ->) Hx. rewrite E in Hc. apply elem_of_app in Hc as [Hc|[->|Hc]%elem_of_cons]; [apply elem_of_app; by left|done|].
    apply elem_of_app. right. by right. }
  destruct Hstep; cbn; try (exists c; split; [|done]; solve [done|apply elem_of_app; by left|eapply Hup; [eassumption|congruence]]).
  - exists (dispatchWorkspaceWrite id r0 c). split; [by apply list_elem_of_fmap_2|]. unfold dispatchWorkspaceWrite. by case_match.
  - exists (close_call c). split; [by apply list_elem_of_fmap_2|done].
Qed.

Lemma returned_steps s s' c r :
  rtc (sys_step sha256_text workspace) s s' → sys_inv s → c ∈ sy_calls s → ca_at c = PReturned r →
  ∃ c', c' ∈ sy_calls s' ∧ same_call c c' ∧ ca_at c' = PReturned r.
Proof.
  intros Hs. revert c. induction Hs as [s|s s1 s' Hstep _ IH]; intros c Hinv Hc Hat; [by exists c|].
  destruct (returned_step _ _ _ _ Hstep (si_ids _ Hinv) Hc Hat) as (c1 & Hc1 & (E1 & E2 & E3) & Hat1).
  destruct (IH c1 (sys_inv_step _ _ Hstep Hinv) Hc1 Hat1) as (c' & ? & (? & ? & ?) & ?). exists c'. split; [done|]. split; [|done]. split_and!; congruence.
Qed.

Lemma rejected_applies_nothing s c r :
  sys_inv s → c ∈ sy_calls s → ca_at c = PReturned (Ok r) → wr_outcome r = "rejected" → applied_of (ca_id c) s = [].
Proof. intros Hinv Hc Hat Ho. destruct (si_calls _ Hinv c Hc) as (_ & _ & Hv). by destruct (vi_returned _ _ _ _ Hv r Hat) as [_ []]. Qed.

(** C6. A file write is truthful, whatever is lost, delayed or restarted: what is
    installed for a call of the gateway is its data at its path, and at most once;
    a call that returns [completed] has had its file installed, and one that
    returns [rejected] has not, now or later. *)
Theorem uploads_are_truthful s c :
  rtc (sys_step sha256_text workspace) idle_system s → c ∈ sy_calls s →
  (applied_of (ca_id c) s = [] ∨ applied_of (ca_id c) s = [MkApplied (ca_id c) (ww_path (ca_request c)) (ca_data c)]) ∧
  ∀ r, ca_at c = PReturned (Ok r) →
    (wr_outcome r = "completed" → applied_of (ca_id c) s = [MkApplied (ca_id c) (ww_path (ca_request c)) (ca_data c)]) ∧
    (wr_outcome r = "rejected" → ∀ s', rtc (sys_step sha256_text workspace) s s' → applied_of (ca_id c) s' = []).
Proof.
  intros Hs Hc. pose proof (reachable_inv _ Hs) as Hinv. destruct (si_calls _ Hinv c Hc) as (_ & _ & Hv). split.
  - destruct (vi_applied _ _ _ _ Hv) as [|[? _]]; auto.
  - intros r Hat. split; [intros Ho; by apply (vi_returned _ _ _ _ Hv r Hat)|]. intros Ho s' Hs'.
    destruct (returned_steps _ _ _ _ Hs' Hinv Hc Hat) as (c' & Hc' & (E & _) & Hat'). rewrite <- E.
    apply (rejected_applies_nothing s' c' r); [|done..]. apply reachable_inv. by etrans.
Qed.
End system.

(** ** Witnesses *)

(** Schedules of a system with one call. *)
Inductive move := MOpen (id environment session path : string) (data : list Byte.byte) | MSend | MHandle | MAnswer | MDispatch | MReceive | MWake
  | MApply (h : helper_run) | MFinish.

Section schedules.
Context `{UUIDs} (sha256_text : string → string) (workspace : option LocalBinding).

Definition make_move (s : system) (m : move) : system :=
  match m with
  | MOpen id environment session path data =>
      match sy_calls s, open_write sha256_text (sy_closed s) false id environment session path data with
      | [], Ok c => set_calls s [c] | _, _ => s
      end
  | MSend =>
      match sy_calls s with
      | [c] => match ca_at c with
               | PSend a =>
                   let f := frame (ca_request c) (ca_data c) a in
                   if ca_open c && frame_fits f then set_frames (set_calls s [at_position c (PWait a)]) (sy_frames s ++ [(ca_id c, f)]) else s
               | _ => s
               end
      | _ => s
      end
  | MHandle =>
      match sy_frames s with
      | (id, p) :: frames =>
          let '(r, answer) := handleWorkspaceWrite sha256_text workspace id p (sy_router s) in
          set_sending (set_router (set_frames s frames) r) (sy_sending s ++ match answer with Some a => [(id, a)] | None => [] end)
      | [] => s
      end
  | MAnswer => match sy_sending s with (id, r) :: l => set_answers (set_sending s l) (sy_answers s ++ [(id, r)]) | [] => s end
  | MDispatch =>
      match sy_answers s with
      | (id, r) :: l => set_answers (set_calls s (dispatchWorkspaceWrite id r <$> sy_calls s)) l | [] => s
      end
  | MReceive =>
      match sy_calls s with
      | [c] => match ca_at c, ca_reply c with
               | PWait a, Some r => set_calls s [at_position (set_reply c None) (receive (ca_data c) a r)] | _, _ => s
               end
      | _ => s
      end
  | MWake =>
      match ro_upload (sy_router s) with
      | Some u => match up_stage u with
                  | UWaiting => set_router s (with_upload (sy_router s) (Some (wake_upload (ro_closed (sy_router s)) u))) | _ => s
                  end
      | None => s
      end
  | MApply h =>
      match ro_upload (sy_router s) with
      | Some u => match up_stage u with
                  | UApplying apply data =>
                      let '(r, replaced, uncertain) := apply_upload workspace apply data u true false (sy_uncertain s) h in
                      set_applied s (with_upload (sy_router s) (Some (with_stage u (UAnswering r)))) uncertain
                        (sy_applied s ++ if replaced then [MkApplied (up_id u) (ww_path (up_request u)) data] else [])
                  | _ => s
                  end
      | None => s
      end
  | MFinish =>
      match ro_upload (sy_router s) with
      | Some u => match up_stage u with
                  | UAnswering r => set_sending (set_router s (with_upload (sy_router s) (finish_upload r u))) (sy_sending s ++ [(up_id u, r)])
                  | _ => s
                  end
      | None => s
      end
  end.

Lemma update_single c c' : update_call [c] c c' [c'].
Proof. by exists [], []. Qed.

Lemma make_move_step s m : rtc (sys_step sha256_text workspace) s (make_move s m).
Proof.
  destruct m; cbn [make_move].
  - destruct (sy_calls s) as [|c l] eqn:Ec; [|done]. destruct (open_write _ _ _ _ _ _ _ _) as [c|e] eqn:Eo; [|done]. apply rtc_once.
    replace [c] with (sy_calls s ++ [c]) by (by rewrite Ec). eapply sys_open; [|rewrite Ec; exact Eo]. unfold call_ids. rewrite Ec. apply not_elem_of_nil.
  - destruct (sy_calls s) as [|c [|]] eqn:Ec; [done| |done]. destruct (ca_at c) eqn:Ea; [|done..]. destruct (_ && _) eqn:Ef; [|done]. bsolve.
    apply rtc_once. eapply sys_send; [done..|]. rewrite Ec. apply update_single.
  - destruct (sy_frames s) as [|[id p] frames] eqn:Ef; [done|]. destruct (handleWorkspaceWrite _ _ _ _ _) as [r answer] eqn:Eh.
    apply rtc_once. by eapply sys_handle.
  - destruct (sy_sending s) as [|[id r] l] eqn:Es; [done|]. apply rtc_once. by apply (sys_answer _ _ _ []).
  - destruct (sy_answers s) as [|[id r] l] eqn:Es; [done|]. apply rtc_once. by apply sys_dispatch.
  - destruct (sy_calls s) as [|c [|]] eqn:Ec; [done| |done]. destruct (ca_at c) eqn:Ea; [done| |done]. destruct (ca_reply c) eqn:Er; [|done].
    apply rtc_once. eapply sys_receive; [done..|]. rewrite Ec. apply update_single.
  - destruct (ro_upload (sy_router s)) as [u|] eqn:Eu; [|done]. destruct (up_stage u) eqn:Est; [|done..]. apply rtc_once. by apply sys_wake.
  - destruct (ro_upload (sy_router s)) as [u|] eqn:Eu; [|done]. destruct (up_stage u) eqn:Est; [done| |done..].
    destruct (apply_upload _ _ _ _ _ _ _ _) as [[r replaced] uncertain] eqn:Ea. apply rtc_once. by eapply sys_apply.
  - destruct (ro_upload (sy_router s)) as [u|] eqn:Eu; [|done]. destruct (up_stage u) eqn:Est; [done..| |done]. apply rtc_once. by apply sys_finish.
Qed.

Lemma make_moves_steps s l : rtc (sys_step sha256_text workspace) s (List.fold_left make_move l s).
Proof. revert s. induction l as [|m l IH]; intros s; [done|]. cbn [List.fold_left]. etrans; [apply make_move_step|apply IH]. Qed.
End schedules.

(** A file of two bytes: announced, sent in one chunk, committed and installed. *)
Module UploadExample.
Definition hash (_ : string) : string := digest.
Definition home : option LocalBinding := Some (MkWorkspaceBinding env_id ("agents-api-" +:+ session_id) true).
Definition contents : list Byte.byte := [Byte.x68; Byte.x69].
Definition round : list move := [MSend; MHandle; MAnswer; MDispatch; MReceive].
Definition schedule : list move :=
  [MOpen write_id env_id session_id "notes.txt" contents] ++ round ++ round ++
  [MSend; MHandle; MWake; MApply (HExited Installed); MFinish; MAnswer; MDispatch; MReceive].
Definition final : system := List.fold_left (make_move hash home) schedule idle_system.
Definition call : write_call :=
  default (MkCall "" (MkWritePayload "" "" "" "" 0 "" 0 []) [] (PSend AReady) None false) (head (sy_calls final)).
Definition answer : WorkspaceWriteResultPayload := MkWriteResult "completed" 0 2 "".
End UploadExample.

Lemma upload_example_run : rtc (sys_step UploadExample.hash UploadExample.home) idle_system UploadExample.final.
Proof. apply make_moves_steps. Qed.

Lemma uploads_are_truthful_witness :
  ca_at UploadExample.call = PReturned (Ok UploadExample.answer) ∧
  applied_of write_id UploadExample.final = [MkApplied write_id "notes.txt" UploadExample.contents].
Proof.
  assert (ca_at UploadExample.call = PReturned (Ok UploadExample.answer)) as Hat by (vm_compute; reflexivity). split; [exact Hat|].
  refine (proj1 (proj2 (@uploads_are_truthful binary_uuids UploadExample.hash UploadExample.home UploadExample.final UploadExample.call _ _) UploadExample.answer Hat) eq_refl).
  - exact upload_example_run.
  - apply list_elem_of_In. vm_compute. left. reflexivity.
Defined.
